(* ===== verification/_CoqProject ===== *)
-Q . S2P
Prelude.v
Float64.v
Binary64.v
Exec.v
PyStr.v
PyDict.v
Cli.v
Imaging.v
Pillow.v
Vfs.v
Host.v
Matcher.v
Traverse.v
Machine.v
Export.v
Loader.v
Records.v
Contract.v
Main.v
Protocol.v
Render.v
Readback.v
RawCodec.v
Scenarios.v
