(* ===== verification/Prelude.v ===== *)
(** * Verification of the disk-image similar-image scanner (src/main.py)

    The program scans the file tree of a forensic disk image for image
    files that are close to one of a set of reference images.  It is
    one Python file of six functions and a script:

    - [img_similarity_check] (lines 14-30) scores two images: the mean
      of the sample-wise absolute difference, similar when the mean is
      below the threshold;
    - [is_image_similar] (87-130) handles one entry: extension test,
      read, decode, the loop over the references with append, print and
      optional save, all inside [try ... except Exception];
    - [traverse_file_entries] (133-147) walks the tree by recursion and
      calls the handler on every entry that is not a directory;
    - [find_similar_images] (33-84) opens the file system, loads the
      reference folder and starts the walk at the root;
    - the script (150-214) parses the command line, runs the scan and
      prints the report.

    ** How the program is modelled

    The embedding is shallow.  Python code that mutates shared objects
    and raises exceptions becomes a function from a state to an outcome
    (file [Exec]): a value with the new state, or an exception with the
    state at the raise.  [try_except], [for_each] and [for_fold] are the
    statements [try/except] and [for].  The state ([Matcher.ScanState])
    holds the three things the program changes: the [result] dict that
    the script creates and every call mutates, the files written to the
    output folder (the image saved, or [Partial] where a save failed
    after Pillow had opened the file), and the lines printed, one
    constructor of [Matcher.Msg] for each [print] of the source.  Every definition is
    executable; the scenarios are evaluated by [vm_compute].

    The libraries the program calls are not under src/.  Where their
    behaviour decides what the program does they are modelled as
    functions: strings and paths ([PyStr]), the insertion-ordered dict
    and the exception classes ([PyDict]), [getopt] and [int] ([Cli]),
    [ImageChops.difference] ([Pillow]), [np.array] and [np.mean]
    ([Imaging]), the arithmetic of binary64 that [np.mean] computes in
    ([Float64], [Binary64]).  Where they are a world of their own they are
    interfaces, and the theorems hold for every implementation: the
    image codec ([Imaging.Codec], with the law classes [TameCodec] and
    [DifferenceLaws]), the machine ([Host.Host]: resolver, directory
    listing, file reading, directory creation), and the file entries of
    the provider, which are finite trees ([Vfs.FileEntry]) whose
    directories yield their entries and may then raise.  The root entry
    of a file system is an exception, an entry or [None]
    ([Vfs.GetRootFileEntry]).

    ** Files

    - [Prelude] (this file): the hint database [scan], the tactic
      [case_branch], the result type [E + A] with its [let!], and the
      shared lemmas on sums of integer lists, [zip_with], rationals
      against integers and sublists.
    - [Float64]: [round64], the quotient of two integers rounded to
      binary64 (53 bits, nearest, ties to even), kept as an exact
      rational.  Lemmas: the comparison of the rounded quotient with an
      integer is the comparison of the exact one, the rounding error,
      agreement with the division of [SpecFloat] on a grid of inputs.
    - [Binary64]: [round64] against [SpecFloat], the specification of
      IEEE 754 of the standard library, with the parameters of binary64.
      Theorems: the division of two integers below 2^53 returns the
      mantissa, the exponent ([SF_quotient_round64]) and the value
      ([SF_quotient_value]) of [round64]; the addition of two integers
      is exact while the sum is below 2^53 ([SFadd_of_Z]); the
      comparison of the rounded quotient with an integer is the
      comparison of the rationals ([SFltb_round64]).
    - [Exec]: the monad, its laws up to [exec_equiv], the Hoare triples
      [hoare], [preserves] and [no_raise] with one rule per construct,
      and the tactics [solve_preserves] and [exec_simpl].
    - [PyStr]: [lower], [endswith], [rfind], [splitext], [path_join] and
      the two extension tests of the program, [is_valid_ext] (handler)
      and [has_image_suffix] (loader).  Theorems: the exact set of paths
      the handler accepts, case insensitivity, dependence on the last
      component only.
    - [PyDict]: [PyExn], [is_Exception]; [dict_get], [dict_set],
      [dict_alter] on association lists, refined to [gmap].
    - [Cli]: [getopt] (fuel: the number of arguments, shown to suffice)
      and [int_of_str]; options and integers written out are read back.
    - [Imaging]: images, the [Codec] interface, [np_array], [np_mean],
      [score_lt], [img_similarity_check]; [np_mean_binary64], the mean
      computed in IEEE 754 along a [Reduction], an order of adding the
      samples, and [score_lt_binary64], its comparison with the
      threshold.  Theorems: self-comparison scores 0, scores lie in
      0..255, strictness and monotonicity in the threshold, the distance
      of the score from the exact mean, and the score and the verdict
      as the results of IEEE 754 arithmetic in every order of the
      additions ([img_similarity_check_binary64]).
    - [Pillow]: [pillow_difference] (Pillow's routine: common region,
      no size check) and [strict_difference] (the policy of the
      specification); both satisfy the laws.  Theorems: the value of
      the score as an integer sum, a crop scores 0, a bilevel reference
      matches everything.
    - [Vfs]: [FileEntry], [leaves], [listable], the work-list [walk]
      (fuel: the number of entries, shown to suffice), path
      specifications and file systems.
    - [Host]: the interface to the machine.
    - [Matcher]: [is_image_similar] with [compare_with_reference],
      [result_append], [image_save], and its specification as a
      function on states: [entry_hits] (the tuples recorded),
      [entry_files] (the output folder), [entry_lines] (the lines
      printed), [escapes] (the exception let through), put together in
      [entry_state] and [handler_spec].  Theorems: the handler is its
      specification on every path ([is_image_similar_refines]); what
      each path does to the result dict; what is exported and under
      which name; which exceptions escape; the invariants of the result
      dict (keys fixed, lists append-only).
    - [Traverse]: [traverse_file_entries], [traverse_root] (the call
      on what [GetRootFileEntry] returned), and its specification
      [walk_spec]: [entry_state] folded over the leaves in depth-first
      order ([scan_order], [leaves_run]).  Theorems: the walk is its
      specification ([traverse_refines]); it is the loop of the handler
      over the leaves, cut at the first directory whose listing fails;
      the result dict after the walk; monotonicity in the threshold;
      completion when failures are soft; agreement with the work-list.
    - [Machine]: the same walk as a machine with an explicit call
      stack: [Frame], [Control], [Config], the step relation [Step] and
      the step function [step], [run]; [step_limited] and [run_limited]
      bound the stack as the interpreter does.  Theorems: the machine
      ends with the outcome of the recursive function
      ([machine_refines]), every run is finite ([machine_terminates])
      and takes at most three steps for each entry
      ([machine_run_bound]), the stack is never deeper than the tree
      ([machine_depth]), and the limit either changes nothing
      ([run_limited_below]) or ends the scan with [RecursionError]
      ([run_limited_deep]).
    - [Export]: the output folder after the walk as the files of the
      visited entries written in order ([traverse_exports]); of the
      entries with one base name the last that opened the file decides
      what it holds, its image or a partial file
      ([traverse_last_write_wins]); the files stay in the folder when
      the names of the entries are plain ([traverse_exports_confined]),
      and a name that starts with a separator is written where it
      points ([is_image_similar_export_escapes]).
    - [Loader]: [find_similar_images].  Theorems: each of its paths
      (open failure, load failure, no root entry, scan), the keys of the
      result, the loaded paths, completion.
    - [Records]: [result_wf], the well-formedness of the result dict
      (unique keys, a key for every reference, every record an entry of
      the disk image with a score in 0..255 below the threshold), as a
      decidable predicate.  Theorems: the handler, the walk and
      [find_similar_images] establish and keep it.
    - [Contract]: the result the specification describes
      ([result_set]: every leaf that passes the filter and decodes,
      against every reference, recorded when the score is below the
      threshold, in depth-first order), and the two directions in which
      the scan is compared with it: sound on every input
      ([traverse_sound]), complete on benign ones
      ([find_similar_images_complete]).
    - [Main]: [main], [report], [exit_status].  Theorems: the exit
      status and the lines printed on each path of the script, the
      command line read back, the report, and the scan that an
      exception interrupts ([scan_and_report_interrupted]).
    - [Protocol]: the order of the printed lines as a state machine
      ([Phase], [phase_step]) and the triple that [main] follows it on
      every input ([main_protocol]), proved with the rules of [Exec];
      [stage] maps the phases to the pipeline of the specification.
    - [Render]: the text of the lines: one definition for the literal
      of each [print] ([fs_parsed_text] ... [stat_text]), [render] from
      a message to its text, [ljust] for the padding of the report and
      the interface [Formatter] for the text of exceptions and scores;
      the output read back line by line ([stdout_text_lines]) and the
      lines that a file name with a newline makes the handler print
      ([is_image_similar_forged_line]).
    - [Readback]: a reader for the text of the report ([read_report]:
      lines, the kind of each line, a match line taken apart at its
      last tab, match lines grouped under their reference line), what
      the report shows of a result dict ([printed]), and the law
      [PlainFormatter] on the text of a score.  Theorems: the report
      reads back ([report_read_back]); on a benign input the script
      returns and its report reads back as the result the
      specification describes ([scan_and_report_read_back]); on every
      input on which the script returns, the report reads back as
      records of the specification ([scan_and_report_sound]); spaces
      at the end of a short location are lost in the padding
      ([stat_text_trailing_space]).
    - [RawCodec]: a small codec and host to run the program on concrete
      inputs, and the scorer's theorems applied to concrete images.
    - [Scenarios]: the scenarios of the specification run end to end,
      the general theorems applied to concrete trees, and the runs that
      show where the program departs from its specification.

    ** What the theorems show, and where the program departs from its
    specification

    The functional theorems give the result of the scan in closed form:
    [Traverse.traverse_matches] and [Loader.find_similar_images_matches]
    state the list of every reference after the walk as the hits of the
    leaves in depth-first order.  The refinement theorems
    ([Matcher.is_image_similar_refines], [Traverse.traverse_refines])
    state the same for the whole state and the outcome: result dict,
    output folder, printed lines, the exception raised or the value
    returned.  They need one hypothesis, that every reference has its
    key in the result dict ([Matcher.refs_recorded]); the loader
    establishes it ([Loader.load_all_recorded]) and the handler keeps
    it.  The theorems of [Contract] compare the scan with the result
    the specification describes: the program never records what the
    specification does not, and records all of it when no listing, no
    comparison and no export fails.  [Readback.scan_and_report_sound]
    and [Readback.scan_and_report_read_back] carry the two directions
    to the text the user reads: a report, read back, holds records of
    the specification only, and all of them on a benign input.  The safety theorems state that no
    instance of [Exception] escapes the handler and that the walk
    returns when failures are soft.  The typing theorems of [Records]
    state what a reader of the result dict may rely on at any point of
    the scan.  The termination theorems of [Machine] state that the
    walk, run step by step, ends on every tree, and after how many
    steps.  Several theorems state behaviour
    that the specification rules out: a directory whose listing fails
    ends the walk ([Traverse.traverse_listing_error]); a reference whose
    comparison raises hides the references after it
    ([Matcher.is_image_similar_raise_cuts]); a failed export breaks
    monotonicity ([Matcher.is_image_similar_export_not_monotone]) and
    destroys the copy an earlier match had exported under the same name
    ([Matcher.is_image_similar_failed_export]); a file system without a
    root entry ends the run with [AttributeError]
    ([Loader.find_similar_images_no_root]); sizes are not
    compared ([Pillow.img_similarity_check_crop]); a bilevel reference
    matches everything ([Pillow.bilevel_reference_similar]); an empty or
    unreadable reference folder ends with status 0
    ([Main.scan_and_report_no_references],
    [Main.scan_and_report_load_failure]); [-h] alone exits with status 1
    ([Main.main_few_arguments]); a chain of directories deeper than the
    recursion limit ends the scan ([Machine.run_limited_deep]); an
    exception that is not an instance of [Exception], the interrupt of
    the keyboard among them, ends the script without a report
    ([Main.scan_and_report_interrupted]); a file name with a newline
    forges lines of the output ([Render.is_image_similar_forged_line]); a
    file name that starts with a separator is exported outside the
    output folder ([Export.is_image_similar_export_escapes]).

    ** Bounds and fuel

    - Strings are lists of [ascii]: code points below 256.
    - Samples are integers; the operations keep them in 0..255
      ([Pillow.clip8]).  NumPy adds them in binary64 and divides the
      sum by the count.  The sum is exact as long as it stays below
      2^53, which up to 2^45 samples guarantee, in whatever order the
      samples are added ([Imaging.SF_reduce_exact]); the quotient is
      rounded ([Float64.round64]).  The model keeps the rounded number
      as an exact rational and covers the normal numbers only: the means
      of the program are 0 or lie between 2^-45 and 255.
      [Binary64.SF_quotient_value] shows that it is the quotient of
      IEEE 754 for a sum and a count below 2^53.  The threshold is an
      [int]; the model compares the score with it by value, which is
      the comparison of binary64 with the converted threshold as long
      as the threshold is below 2^53 in absolute value
      ([Imaging.score_lt_binary64_agrees]).
    - The names of file entries are whatever the provider returns; the
      model does not assume that they are base names.
      [PyStr.plain_name] is the condition under which a name joined to
      a folder is an entry of that folder.
    - [Vfs.walk] and [Cli.getopt_loop] take fuel; [Vfs.walk_flat_map]
      and [Cli.getopt_loop_fuel] show that the number of entries and the
      number of arguments are enough.
    - [Machine.run] takes fuel; [Machine.machine_run_bound] shows that
      three times the number of entries is enough, and
      [Machine.machine_terminates] that the step relation is strongly
      normalising.
    - The read-back of the report assumes that the text of a float
      holds no newline and no tab ([Readback.PlainFormatter]), which
      holds of every number NumPy prints.

    ** Not modelled

    - More than 2^45 samples in an image, and thresholds of 2^53 and
      above: the additions of NumPy round then, in a way that depends
      on the order it adds in (pairwise, in blocks, by version), and
      the comparison of a [numpy.float64] with a large [int] depends on
      the version of NumPy.  Neither is decided by src/main.py.
    - The decoders and encoders of Pillow and the parsing of disk
      images by dfVFS: libraries the program only calls.  They are the
      interfaces [Imaging.Codec] and [Host.Host]; every theorem holds
      for all their implementations, under the stated laws where it
      needs one.
    - The bytes of a file that a failed save leaves.  Pillow opens the
      file for writing before the encoder runs; when the encoder fails
      the file is empty or partial, and Pillow removes it when the save
      had created it.  The model records [Matcher.Partial] at the path
      in both cases: the image that was there is gone, and what is there
      instead depends on the encoder and on the version of Pillow.  A
      save that fails before the file is opened changes nothing.
    - Providers that do not give finite trees: a listing that never
      ends or a directory that contains itself (the walk of the program
      would not return), and an entry whose path specification has no
      location (the handler would catch the [TypeError] of line 99 and
      print [None] for the name).
    - A standard output that cannot be written to: [print] is taken to
      succeed.  An [OSError] of [print] inside an [except] block would
      leave that block as a new exception.
    - The text of an exception, of a traceback and of a float
      ([Render.Formatter]): produced by the interpreter and by NumPy.
    - The frames of the recursion limit other than those of
      [traverse_file_entries].  The interpreter counts every Python
      frame; [Machine.step_limited] counts the calls of the walk, so
      its limit is the limit of the interpreter less the frames of the
      script, of [find_similar_images], of the handler and of the
      libraries, a number that depends on the versions of CPython and
      Pillow.  [Traverse.traverse_file_entries] itself is a recursion
      over finite trees of any depth.
    - Concurrency: the program is one thread and has no worker, queue
      or lock.  Cancellation is the exception [KeyboardInterrupt]; the
      model lets it be raised where the host or the codec raises, not
      between any two statements.
    - The resolution of [..] and of symbolic links in an export path by
      the operating system: the paths are kept as strings, so the
      theorems on the output folder speak of the path handed to
      [image.save], not of the file it names on disk.
    - Code points above 255 in names, and the limit of [int] on the
      number of digits. *)

From Stdlib Require Import QArith Qcanon.
From stdpp Require Export base tactics option list numbers sets.
Close Scope Qc_scope.
Close Scope Q_scope.

(** ** Automation *)

Create HintDb scan discriminated.

(** [case_branch] splits on the first [if] or [match] in the goal whose
    scrutinee is not a variable, remembering the equation. *)
Ltac case_branch :=
  match goal with
  | |- context [if ?b then _ else _] => destruct b eqn:?
  | |- context [match ?x with _ => _ end] => destruct x eqn:?
  end.

(** ** Results of pure computations that may raise

    [E + A] with [inl] for the raised exception; [let! x := m in k] is
    sequencing. *)

Declare Scope res_scope.
Delimit Scope res_scope with res.

Definition res_bind {E A B} (m : E + A) (k : A → E + B) : E + B :=
  match m with inl e => inl e | inr a => k a end.

Notation "'let!' x := m 'in' k" := (res_bind m (λ x, k))
  (at level 10, x pattern, m at level 100, k at level 200) : res_scope.

(** The sum of a list of integers. *)
Fixpoint Zsum (l : list Z) : Z :=
  match l with
  | [] => 0
  | x :: l' => x + Zsum l'
  end%Z.

Lemma res_bind_inr {E A B} (m : E + A) (k : A → E + B) b :
  res_bind m k = inr b ↔ ∃ a, m = inr a ∧ k a = inr b.
Proof.
  destruct m as [e|a]; simpl.
  - split; [done | by intros (? & ? & _)].
  - split; [by exists a | by intros (? & [= <-] & ?)].
Qed.

(** ** Sums of integer lists *)

Lemma Zsum_app l1 l2 : Zsum (l1 ++ l2) = (Zsum l1 + Zsum l2)%Z.
Proof. induction l1 as [|x l1 IH]; simpl; lia. Qed.

Lemma Zsum_cons x l : Zsum (x :: l) = (x + Zsum l)%Z.
Proof. done. Qed.

Lemma Zsum_concat ls : Zsum (concat ls) = Zsum (Zsum <$> ls).
Proof. induction ls as [|l ls IH]; csimpl; [done|]. by rewrite Zsum_app, IH. Qed.

(** Samples within [lo..hi] sum to between [lo * n] and [hi * n]. *)
Lemma Zsum_bounds (lo hi : Z) l :
  Forall (λ x, lo ≤ x ≤ hi)%Z l →
  (lo * Z.of_nat (length l) ≤ Zsum l ≤ hi * Z.of_nat (length l))%Z.
Proof.
  induction 1 as [|x l Hx _ IH]; simpl; lia.
Qed.

Lemma Zsum_zeros l : Forall (λ x, x = 0%Z) l → Zsum l = 0%Z.
Proof. induction 1; simpl; lia. Qed.

Lemma Zsum_nonneg l : Forall (λ x, 0 ≤ x)%Z l → (0 ≤ Zsum l)%Z.
Proof. induction 1; simpl; lia. Qed.

(** A sum of non-negative numbers is zero only if all of them are. *)
Lemma Zsum_zero_inv l :
  Forall (λ x, 0 ≤ x)%Z l → Zsum l = 0%Z → Forall (λ x, x = 0%Z) l.
Proof.
  induction 1 as [|x l Hx Hl IH]; [done|]. simpl. intros Hsum.
  pose proof (Zsum_nonneg l Hl).
  constructor; [lia | apply IH; lia].
Qed.

(** ** Lists built by [zip_with] *)

Lemma Forall_zip_with {A B C} (f : A → B → C) (Q : C → Prop) l k :
  (∀ x y, x ∈ l → y ∈ k → Q (f x y)) → Forall Q (zip_with f l k).
Proof.
  revert k. induction l as [|x l IH]; intros [|y k] Hf; simpl; try constructor.
  - apply Hf; left.
  - apply IH. intros x' y' ? ?. apply Hf; by right.
Qed.

Lemma zip_with_diag {A C} (f : A → A → C) l : zip_with f l l = (λ x, f x x) <$> l.
Proof. induction l as [|x l IH]; csimpl; by rewrite ?IH. Qed.

(** ** Rationals against integers

    Comparisons of the canonical fraction [n # d] reduce to integer
    arithmetic, where [lia] decides them. *)

Lemma Q2Qc_lt_Z (n : Z) (d : positive) (t : Z) :
  (Q2Qc (n # d) < Qc_of_Z t)%Qc ↔ (n < t * Z.pos d)%Z.
Proof.
  unfold Qclt. simpl. rewrite Qred_correct. unfold Qlt. simpl. lia.
Qed.

Lemma Q2Qc_le_Z (n : Z) (d : positive) (t : Z) :
  (Q2Qc (n # d) ≤ Qc_of_Z t)%Qc ↔ (n ≤ t * Z.pos d)%Z.
Proof.
  unfold Qcle. simpl. rewrite Qred_correct. unfold Qle. simpl. lia.
Qed.

Lemma Q2Qc_ge_Z (n : Z) (d : positive) (t : Z) :
  (Qc_of_Z t ≤ Q2Qc (n # d))%Qc ↔ (t * Z.pos d ≤ n)%Z.
Proof.
  unfold Qcle. simpl. rewrite Qred_correct. unfold Qle. simpl. lia.
Qed.

Lemma Q2Qc_eq_Z (n : Z) (d : positive) (t : Z) :
  Q2Qc (n # d) = Qc_of_Z t ↔ (n = t * Z.pos d)%Z.
Proof.
  split.
  - intros Heq. apply (f_equal this) in Heq. simpl in Heq.
    assert (n # d == inject_Z t)%Q as Hq by (by rewrite <-Heq, Qred_correct).
    unfold Qeq in Hq. simpl in Hq. lia.
  - intros ->. apply Qc_is_canon. simpl. rewrite Qred_correct.
    unfold Qeq. simpl. lia.
Qed.

Lemma Qc_of_Z_lt (a b : Z) : (Qc_of_Z a < Qc_of_Z b)%Qc ↔ (a < b)%Z.
Proof. unfold Qclt, Qlt. simpl. lia. Qed.

Lemma Qc_of_Z_le (a b : Z) : (Qc_of_Z a ≤ Qc_of_Z b)%Qc ↔ (a ≤ b)%Z.
Proof. unfold Qcle, Qle. simpl. lia. Qed.

(** ** Sublists *)

#[export] Instance filter_sublist_proper {A} (P : A → Prop) `{!∀ x, Decision (P x)} :
  Proper (sublist ==> sublist) (filter P).
Proof.
  intros l1 l2 Hsub. induction Hsub as [|x l1 l2 _ IH|x l1 l2 _ IH].
  - done.
  - rewrite !filter_cons. case_decide; [by constructor | done].
  - rewrite filter_cons. case_decide; [by constructor | done].
Qed.

Lemma sublist_cond_cons {A} (b1 b2 : bool) (x : A) l1 l2 :
  (b1 = true → b2 = true) → l1 `sublist_of` l2 →
  (if b1 then [x] else []) ++ l1 `sublist_of` (if b2 then [x] else []) ++ l2.
Proof.
  intros Hb Hsub. destruct b1, b2; simpl.
  - by apply sublist_skip.
  - by specialize (Hb eq_refl).
  - by apply sublist_cons.
  - done.
Qed.
