(* ===== verification/Float64.v ===== *)
(** * Float64: the quotient of two integers in binary64

    [np.mean] of an array of integers adds the samples in binary64 and
    divides the sum by the count in binary64.  The samples are 8-bit, so
    every partial sum is an integer below [2 ^ 53] as long as there are
    fewer than [2 ^ 45] of them, and is exact; the only rounding is that
    of the quotient.  [round64 n d] is the quotient [n / d] rounded to
    the nearest number with a mantissa of 53 bits, ties to even, in the
    range of the normal numbers (the means of the program lie between
    [2 ^ -45] and 255, far from the subnormal numbers and from the
    infinities).

    The number is kept as an exact rational.  The lemmas compare it with
    integers: rounding never crosses a multiple of the unit in the last
    place, so a mean is below an integer threshold exactly when the sum
    is below the threshold times the count, for up to [2 ^ 45] samples.
    The examples at the end check [round64] against the division of
    [SpecFloat], the specification of binary64 of the standard
    library, on negative numerators and on numerators above [2 ^ 53]
    as well; the file [Binary64] proves the agreement for every
    numerator and denominator below [2 ^ 53]. *)

From Stdlib Require Import QArith Qcanon Qabs Qcabs.
From Stdlib.Floats Require Import SpecFloat.
From S2P Require Import Prelude.
Close Scope Qc_scope.
Close Scope Q_scope.

#[local] Open Scope Z_scope.

(** ** Rounding *)

(** The bits of a mantissa. *)
Definition prec : Z := 53.

(** [n / d] divided by [2 ^ e], as a fraction of two integers. *)
Definition scaled_num (n e : Z) : Z := n * 2 ^ Z.max 0 (- e).
Definition scaled_den (d e : Z) : Z := d * 2 ^ Z.max 0 e.

(** The exponent of [n / d]: the [b] with [2 ^ b ≤ n / d < 2 ^ (b + 1)],
    for positive [n] and [d]. *)
Definition binade (n d : Z) : Z :=
  let k := Z.log2 n - Z.log2 d in
  if scaled_den d k <=? scaled_num n k then k else k - 1.

(** The integer nearest to [a / b], the even one of two that are as
    near. *)
Definition rne (a b : Z) : Z :=
  let q := a / b in
  let r := a mod b in
  match 2 * r ?= b with
  | Lt => q
  | Eq => if Z.even q then q else q + 1
  | Gt => q + 1
  end.

(** The exponent of the unit in the last place of [n / d], and the
    mantissa of the rounded quotient. *)
Definition ulp_exp (n d : Z) : Z := binade n d - (prec - 1).

Definition mantissa (n d : Z) : Z :=
  let e := ulp_exp n d in rne (scaled_num n e) (scaled_den d e).

(** [m * 2 ^ e] as a rational in lowest terms. *)
Definition ldexp (m e : Z) : Qc :=
  Q2Qc (Qred (m * 2 ^ Z.max 0 e # Z.to_pos (2 ^ Z.max 0 (- e)))).

Definition round64 (n : Z) (d : positive) : Qc :=
  match n with
  | 0 => Qc_of_Z 0
  | Z.pos _ => ldexp (mantissa n (Z.pos d)) (ulp_exp n (Z.pos d))
  | Z.neg _ => (- ldexp (mantissa (- n) (Z.pos d)) (ulp_exp (- n) (Z.pos d)))%Qc
  end.

(** The same quotient by the division of [SpecFloat], for comparison. *)
Definition SF_of_Z (n : Z) : spec_float := binary_normalize prec 1024 n 0 false.

Definition SF_quotient (n : Z) (d : positive) : spec_float :=
  SFdiv prec 1024 (SF_of_Z n) (SF_of_Z (Z.pos d)).

(** The mantissa and exponent of [round64], with the mantissa brought
    below [2 ^ 53] as [SpecFloat] keeps it. *)
Definition SF_round64 (n : Z) (d : positive) : spec_float :=
  match n with
  | 0 => S754_zero false
  | _ =>
      let m := mantissa (Z.abs n) (Z.pos d) in
      let e := ulp_exp (Z.abs n) (Z.pos d) in
      let '(m, e) := if m =? 2 ^ prec then (2 ^ (prec - 1), e + 1) else (m, e) in
      S754_finite (n <? 0) (Z.to_pos m) e
  end.

(** Whether the two agree on [n / d]. *)
Definition SF_agree (n : Z) (d : positive) : bool :=
  match SF_quotient n d, SF_round64 n d with
  | S754_finite s m e, S754_finite s' m' e' => Bool.eqb s s' && (m =? m')%positive && (e =? e')
  | S754_zero s, S754_zero s' => Bool.eqb s s'
  | _, _ => false
  end.

(** The quotients [n / d] for [n] from [0] to [n_max] and [d] from [1]
    to [d_max]. *)
Definition quotient_grid (n_max d_max : nat) : list (Z * positive) :=
  n ← seqZ 0 (Z.of_nat (S n_max)); (λ d, (n, Pos.of_nat d)) <$> seq 1 d_max.

(** ** Powers of two *)

Lemma pow2_pos (k : Z) : 0 ≤ k → 0 < 2 ^ k.
Proof. intros. by apply Z.pow_pos_nonneg. Qed.

Lemma log2_sandwich (n : Z) : 0 < n → 2 ^ Z.log2 n ≤ n < 2 * 2 ^ Z.log2 n.
Proof.
  intros Hn. pose proof (Z.log2_spec n Hn) as Hs.
  rewrite Z.pow_succ_r in Hs by apply Z.log2_nonneg. lia.
Qed.

(** ** The nearest integer *)

Lemma rne_cases a b : rne a b = a / b ∨ (rne a b = a / b + 1 ∧ b ≤ 2 * (a mod b)).
Proof.
  unfold rne. destruct (Z.compare_spec (2 * (a mod b)) b); [|by left|right; lia].
  destruct (Z.even _); [by left | right; lia].
Qed.

Lemma rne_ge a b y : 0 < b → y * b ≤ a → y ≤ rne a b.
Proof.
  intros Hb Hy. assert (y ≤ a / b) by (apply Z.div_le_lower_bound; lia).
  destruct (rne_cases a b) as [->|[-> _]]; lia.
Qed.

Lemma rne_le a b y : 0 < b → a ≤ y * b → rne a b ≤ y.
Proof.
  intros Hb Hy. pose proof (Z.div_mod a b) as Ha. pose proof (Z.mod_pos_bound a b Hb).
  destruct (rne_cases a b) as [->|[-> ?]]; nia.
Qed.

Lemma rne_exact m b : 0 < b → rne (m * b) b = m.
Proof. intros Hb. apply Z.le_antisymm; [apply rne_le | apply rne_ge]; lia. Qed.

Lemma rne_error a b : 0 < b → 2 * Z.abs (rne a b * b - a) ≤ b.
Proof.
  intros Hb. pose proof (Z.div_mod a b) as Ha. pose proof (Z.mod_pos_bound a b Hb).
  unfold rne. destruct (Z.compare_spec (2 * (a mod b)) b); [destruct (Z.even _)|..]; nia.
Qed.

(** ** The exponent *)

Lemma pow2_add (a b c : Z) : 0 ≤ a → 0 ≤ b → c = a + b → 2 ^ c = 2 ^ a * 2 ^ b.
Proof. intros ? ? ->. by apply Z.pow_add_r. Qed.

Lemma scaled_num_nonneg n k : 0 ≤ k → scaled_num n k = n.
Proof. intros. unfold scaled_num. rewrite Z.max_l by lia. simpl. lia. Qed.

Lemma scaled_den_nonneg d k : 0 ≤ k → scaled_den d k = d * 2 ^ k.
Proof. intros. unfold scaled_den. by rewrite Z.max_r by lia. Qed.

Lemma scaled_num_nonpos n k : k ≤ 0 → scaled_num n k = n * 2 ^ (- k).
Proof. intros. unfold scaled_num. by rewrite Z.max_r by lia. Qed.

Lemma scaled_den_nonpos d k : k ≤ 0 → scaled_den d k = d.
Proof. intros. unfold scaled_den. rewrite Z.max_l by lia. simpl. lia. Qed.

(** Names the powers of two of the goal and of the hypotheses, with
    their positivity, so that [nia] sees them as variables. *)
Ltac name_pow2 :=
  repeat match goal with
  | |- context [2 ^ ?k] =>
      let p := fresh "p" in
      let Hp := fresh "Hp" in
      assert (0 < 2 ^ k) as Hp by (apply pow2_pos; lia);
      generalize dependent (2 ^ k); intros p; intros
  | H : context [2 ^ ?k] |- _ =>
      let p := fresh "p" in
      let Hp := fresh "Hp" in
      assert (0 < 2 ^ k) as Hp by (apply pow2_pos; lia);
      generalize dependent (2 ^ k); intros p; intros
  end.

Lemma binade_shift n d s :
  0 < n → 0 < d → 0 ≤ s → 0 ≤ s + binade n d →
  d * 2 ^ (s + binade n d) ≤ n * 2 ^ s < 2 * (d * 2 ^ (s + binade n d)).
Proof.
  intros Hn Hd Hs. unfold binade.
  pose proof (log2_sandwich n Hn) as Hln. pose proof (log2_sandwich d Hd) as Hld.
  pose proof (Z.log2_nonneg n). pose proof (Z.log2_nonneg d).
  set (k := Z.log2 n - Z.log2 d) in *.
  destruct (Z.le_gt_cases 0 k) as [Hk|Hk].
  - rewrite scaled_num_nonneg, scaled_den_nonneg by done.
    rewrite (pow2_add (Z.log2 d) k (Z.log2 n)) in Hln by lia.
    destruct (Z.leb_spec (d * 2 ^ k) n) as [Hle|Hgt]; intros Hb.
    + assert (n < 2 * (d * 2 ^ k)) by (name_pow2; nia).
      rewrite (pow2_add s k) by lia. name_pow2. split; nia.
    + destruct (Z.eq_dec k 0) as [Hk0|Hk0].
      * rewrite Hk0 in *. rewrite (pow2_add 1 (s + (0 - 1)) s) by lia.
        change (2 ^ 1) with 2. change (2 ^ 0) with 1 in *. name_pow2. split; nia.
      * rewrite (pow2_add 1 (k - 1) k) in * by lia. change (2 ^ 1) with 2 in *.
        assert (d * 2 ^ (k - 1) ≤ n) by (name_pow2; nia).
        rewrite (pow2_add s (k - 1)) by lia. name_pow2. split; nia.
  - rewrite scaled_num_nonpos, scaled_den_nonpos by lia.
    rewrite (pow2_add (Z.log2 n) (- k) (Z.log2 d)) in Hld by lia.
    destruct (Z.leb_spec d (n * 2 ^ (- k))) as [Hle|Hgt]; intros Hb.
    + assert (n * 2 ^ (- k) < 2 * d) by (name_pow2; nia).
      rewrite (pow2_add (s + k) (- k) s) by lia. name_pow2. split; nia.
    + assert (d ≤ 2 * (n * 2 ^ (- k))) by (name_pow2; nia).
      rewrite (pow2_add (s + (k - 1)) (1 + - k) s) by lia.
      rewrite (pow2_add 1 (- k) (1 + - k)) by lia. change (2 ^ 1) with 2.
      name_pow2. split; nia.
Qed.

Lemma binade_lt n d k : 0 < n → 0 < d → 0 ≤ k → n < d * 2 ^ k → binade n d < k.
Proof.
  intros Hn Hd Hk Hlt. destruct (Z.lt_ge_cases (binade n d) k) as [|Hge]; [done|].
  pose proof (binade_shift n d 0 Hn Hd) as Hb. rewrite Z.add_0_l in Hb.
  specialize (Hb ltac:(lia) ltac:(lia)). change (2 ^ 0) with 1 in Hb.
  pose proof (Z.pow_le_mono_r 2 k (binade n d)). nia.
Qed.

(** ** The mantissa *)

Section mantissa.
Context (n d : Z) (Hn : 0 < n) (Hd : 0 < d).

Lemma ulp_exp_le j : 0 ≤ j ≤ prec → n < d * 2 ^ (prec - j) → ulp_exp n d ≤ - j.
Proof.
  intros Hj Hlt. pose proof (binade_lt n d (prec - j) Hn Hd) as Hb.
  unfold ulp_exp, prec in *. lia.
Qed.

(** The mantissa has 53 bits, or is [2 ^ 53] when the quotient rounds up
    to the next power of two. *)
Lemma mantissa_bounds : 2 ^ 52 ≤ mantissa n d ≤ 2 ^ 53.
Proof.
  unfold mantissa. destruct (Z.le_gt_cases (ulp_exp n d) 0) as [He|He].
  - rewrite scaled_num_nonpos, scaled_den_nonpos by done.
    pose proof (binade_shift n d (- ulp_exp n d) Hn Hd) as Hb. unfold ulp_exp, prec in *.
    replace (- (binade n d - (53 - 1)) + binade n d) with 52 in Hb by lia.
    split; [apply rne_ge | apply rne_le]; lia.
  - rewrite scaled_num_nonneg, scaled_den_nonneg by lia.
    pose proof (binade_shift n d 0 Hn Hd) as Hb. unfold ulp_exp, prec in *.
    rewrite (pow2_add (binade n d - (53 - 1)) 52 (0 + binade n d)) in Hb by lia.
    change (2 ^ 0) with 1 in Hb.
    assert (0 < 2 ^ (binade n d - (53 - 1))) by (apply pow2_pos; lia).
    split; [apply rne_ge | apply rne_le]; lia.
Qed.

Lemma mantissa_pos : 0 < mantissa n d.
Proof. pose proof mantissa_bounds. lia. Qed.

Context (He : ulp_exp n d ≤ 0).

Lemma mantissa_small : mantissa n d = rne (n * 2 ^ (- ulp_exp n d)) d.
Proof. unfold mantissa. by rewrite scaled_num_nonpos, scaled_den_nonpos. Qed.

Lemma mantissa_ge t : t * d ≤ n → t * 2 ^ (- ulp_exp n d) ≤ mantissa n d.
Proof.
  intros Ht. rewrite mantissa_small. apply rne_ge; [done|].
  assert (0 < 2 ^ (- ulp_exp n d)) by (apply pow2_pos; lia). nia.
Qed.

Lemma mantissa_le t : n ≤ t * d → mantissa n d ≤ t * 2 ^ (- ulp_exp n d).
Proof.
  intros Ht. rewrite mantissa_small. apply rne_le; [done|].
  assert (0 < 2 ^ (- ulp_exp n d)) by (apply pow2_pos; lia). nia.
Qed.

Lemma mantissa_lt t : d ≤ 2 ^ (- ulp_exp n d) → n < t * d → mantissa n d < t * 2 ^ (- ulp_exp n d).
Proof.
  intros Hde Ht. rewrite mantissa_small.
  assert (rne (n * 2 ^ (- ulp_exp n d)) d ≤ t * 2 ^ (- ulp_exp n d) - 1); [|lia].
  apply rne_le; [done|]. nia.
Qed.

Lemma mantissa_gt t : d ≤ 2 ^ (- ulp_exp n d) → t * d < n → t * 2 ^ (- ulp_exp n d) < mantissa n d.
Proof.
  intros Hde Ht. rewrite mantissa_small.
  assert (t * 2 ^ (- ulp_exp n d) + 1 ≤ rne (n * 2 ^ (- ulp_exp n d)) d); [|lia].
  apply rne_ge; [done|]. nia.
Qed.

Lemma mantissa_error : 2 * Z.abs (mantissa n d * d - n * 2 ^ (- ulp_exp n d)) ≤ d.
Proof. rewrite mantissa_small. by apply rne_error. Qed.

End mantissa.

(** ** The rounded quotient against integers *)

Lemma ldexp_this m e :
  e ≤ 0 → (this (ldexp m e) == m # Z.to_pos (2 ^ (- e)))%Q.
Proof.
  intros He. unfold ldexp. simpl. rewrite !Qred_correct.
  rewrite Z.max_l, Z.max_r by lia. simpl. by rewrite Z.mul_1_r.
Qed.

Lemma ldexp_lt_Z m e t : e ≤ 0 → (ldexp m e < Qc_of_Z t)%Qc ↔ m < t * 2 ^ (- e).
Proof.
  intros He. unfold Qclt. rewrite ldexp_this by done. unfold Qlt. simpl.
  rewrite Z2Pos.id by (apply pow2_pos; lia). lia.
Qed.

Lemma ldexp_le_Z m e t : e ≤ 0 → (ldexp m e ≤ Qc_of_Z t)%Qc ↔ m ≤ t * 2 ^ (- e).
Proof.
  intros He. unfold Qcle. rewrite ldexp_this by done. unfold Qle. simpl.
  rewrite Z2Pos.id by (apply pow2_pos; lia). lia.
Qed.

Lemma ldexp_ge_Z m e t : e ≤ 0 → (Qc_of_Z t ≤ ldexp m e)%Qc ↔ t * 2 ^ (- e) ≤ m.
Proof.
  intros He. unfold Qcle. rewrite ldexp_this by done. unfold Qle. simpl.
  rewrite Z2Pos.id by (apply pow2_pos; lia). lia.
Qed.

Lemma ldexp_eq_0 m e : ldexp m e = Qc_of_Z 0 → m = 0.
Proof.
  intros Heq. apply (f_equal this) in Heq. unfold ldexp in Heq. simpl in Heq.
  assert (m * 2 ^ Z.max 0 e # Z.to_pos (2 ^ Z.max 0 (- e)) == inject_Z 0)%Q as Hq.
  { by rewrite <-Heq, !Qred_correct. }
  unfold Qeq in Hq. simpl in Hq.
  assert (0 < 2 ^ Z.max 0 e) by (apply pow2_pos; lia). nia.
Qed.

Section round64.
Context (n : Z) (d : positive) (Hn : 0 ≤ n).

Lemma round64_pos :
  0 < n → round64 n d = ldexp (mantissa n (Z.pos d)) (ulp_exp n (Z.pos d)).
Proof. by destruct n. Qed.

Lemma round64_eq_0 : round64 n d = Qc_of_Z 0 → n = 0.
Proof.
  destruct (Z.eq_dec n 0) as [|Hn0]; [done|]. rewrite round64_pos by lia.
  intros Hm%ldexp_eq_0. pose proof (mantissa_pos n (Z.pos d)). lia.
Qed.

Lemma round64_le_Z t :
  n < Z.pos d * 2 ^ prec → n ≤ t * Z.pos d → (round64 n d ≤ Qc_of_Z t)%Qc.
Proof.
  intros Hlt Ht. destruct (Z.eq_dec n 0) as [->|Hn0].
  { apply Qc_of_Z_le. nia. }
  assert (ulp_exp n (Z.pos d) ≤ 0) as He.
  { apply (ulp_exp_le n (Z.pos d) ltac:(lia) ltac:(lia) 0); [done|]. by rewrite Z.sub_0_r. }
  rewrite round64_pos by lia. apply ldexp_le_Z; [done|]. apply mantissa_le; lia.
Qed.

Lemma round64_ge_Z t :
  n < Z.pos d * 2 ^ prec → t * Z.pos d ≤ n → (Qc_of_Z t ≤ round64 n d)%Qc.
Proof.
  intros Hlt Ht. destruct (Z.eq_dec n 0) as [->|Hn0].
  { apply Qc_of_Z_le. nia. }
  assert (ulp_exp n (Z.pos d) ≤ 0) as He.
  { apply (ulp_exp_le n (Z.pos d) ltac:(lia) ltac:(lia) 0); [done|]. by rewrite Z.sub_0_r. }
  rewrite round64_pos by lia. apply ldexp_ge_Z; [done|]. apply mantissa_ge; lia.
Qed.

Lemma round64_lt_Z t :
  n < Z.pos d * 2 ^ 8 → Z.pos d ≤ 2 ^ 45 →
  (round64 n d < Qc_of_Z t)%Qc ↔ n < t * Z.pos d.
Proof.
  intros Hlt Hd. destruct (Z.eq_dec n 0) as [->|Hn0].
  { change (round64 0 d) with (Qc_of_Z 0). rewrite Qc_of_Z_lt. nia. }
  assert (ulp_exp n (Z.pos d) ≤ - 45) as He.
  { by apply (ulp_exp_le n (Z.pos d) ltac:(lia) ltac:(lia) 45). }
  assert (Z.pos d ≤ 2 ^ (- ulp_exp n (Z.pos d))).
  { etrans; [done|]. apply Z.pow_le_mono_r; lia. }
  rewrite round64_pos, ldexp_lt_Z by lia. split.
  - intros Hm. destruct (Z.lt_ge_cases n (t * Z.pos d)) as [|Hge]; [done|].
    apply mantissa_ge in Hge; lia.
  - apply mantissa_lt; lia.
Qed.

End round64.

(** The rounded quotient is within half a unit in the last place of the
    exact one: within [2 ^ -46] for a mean of 8-bit samples. *)
Lemma round64_error (n : Z) (d : positive) :
  0 ≤ n → n < Z.pos d * 2 ^ 8 →
  (Qcabs (round64 n d - Q2Qc (n # d)) ≤ Q2Qc (1 # 2 ^ 46))%Qc.
Proof.
  intros Hn Hlt. unfold Qcle, Qcabs, Qcminus, Qcplus, Qcopp. simpl.
  rewrite !Qred_correct. apply Qabs_Qle_condition.
  destruct (Z.eq_dec n 0) as [->|Hn0].
  { unfold Qle; simpl; lia. }
  assert (ulp_exp n (Z.pos d) ≤ - 45) as He.
  { by apply (ulp_exp_le n (Z.pos d) ltac:(lia) ltac:(lia) 45). }
  rewrite round64_pos, ldexp_this by lia.
  pose proof (mantissa_error n (Z.pos d) ltac:(lia) ltac:(lia)) as Herr.
  assert (2 ^ 45 ≤ 2 ^ (- ulp_exp n (Z.pos d))) as Hp by (apply Z.pow_le_mono_r; lia).
  unfold Qle, Qplus, Qopp. simpl. rewrite Pos2Z.inj_mul, Z2Pos.id by lia.
  change (Z.pos (2 ^ 46)) with (2 ^ 46). nia.
Qed.

(** ** Agreement with the division of [SpecFloat]

    The two definitions give the same mantissa and exponent on the
    quotients of small integers, and on quotients at the edges: a tie,
    a mantissa that rounds up to [2 ^ 53], the smallest and the largest
    mean of [2 ^ 45] samples, a negative numerator. *)

Example round64_agrees_grid :
  forallb (λ p, SF_agree p.1 p.2) (quotient_grid 255 16) = true.
Proof. by vm_compute. Qed.

Example round64_agrees_edges :
  forallb (λ p, SF_agree p.1 p.2)
    [(1, 3%positive); (2 ^ 53 + 1, 1%positive); (2 ^ 53 + 3, 2%positive);
     (2 ^ 54 - 1, 1%positive); (255 * 2 ^ 45 - 1, (2 ^ 45)%positive);
     (1, (2 ^ 45)%positive); (3, (2 ^ 45 - 1)%positive);
     (2 ^ 53 + 1, (2 ^ 53)%positive); (- 7, 3%positive);
     (2 ^ 60 + 2 ^ 7, 1%positive); (2 ^ 60 + 3 * 2 ^ 6, 1%positive)] = true.
Proof. by vm_compute. Qed.

(** A quotient with a short binary expansion is not changed; one third
    is. *)
Example round64_exact : round64 7 2 = Q2Qc (7 # 2) ∧ round64 510 2 = Q2Qc (255 # 1).
Proof. by vm_compute. Qed.

Example round64_third : round64 1 3 = Q2Qc (6004799503160661 # 2 ^ 54).
Proof. by vm_compute. Qed.
