(* ===== verification/Binary64.v ===== *)
(** * Binary64: the rounded quotient is the division of IEEE 754

    [Float64.round64] gives the mean of the scorer as an exact rational:
    the quotient rounded to 53 bits.  This file proves that it is the
    number that the division of binary64 returns: for a numerator and a
    denominator below [2 ^ 53], [SFdiv] of [SpecFloat] (the
    specification of the floating-point numbers of the standard library,
    with 53 bits of mantissa and the exponents of binary64) on the two
    integers gives the mantissa and the exponent of [round64].

    - [SF_normal] is a mantissa between [2 ^ 52] and [2 ^ 53] with its
      exponent as [SpecFloat] stores it; [aligned] is an integer shifted
      to 53 bits, the mantissa of its conversion; [SF_value] is the
      rational a number of [SpecFloat] stands for.
    - The lemmas follow the division step by step: the count of digits,
      the shift of the numerator, the location of the remainder, the
      rounding to nearest even of [binary_round_aux] on a quotient of 53
      or of 54 bits, the conversion of an integer.
    - [SF_quotient_round64] and [SF_quotient_value] conclude for the
      division; [SFadd_of_Z] states that the addition of two integers
      is exact while the sum is below [2 ^ 53], and [SFltb_round64]
      that the comparison of the rounded quotient with an integer is
      the comparison of the rationals. *)

From Stdlib Require Import QArith Qcanon.
From Stdlib.Floats Require Import SpecFloat.
From S2P Require Import Prelude Float64.
Close Scope Qc_scope.
Close Scope Q_scope.

#[local] Open Scope Z_scope.

(** ** Normal numbers *)

(** The number [m * 2 ^ e] for a mantissa from [2 ^ 52] to [2 ^ 53], the
    last one stored as [2 ^ 52] with the next exponent. *)
Definition SF_normal (s : bool) (m e : Z) : spec_float :=
  if m =? 2 ^ 53 then S754_finite s (Z.to_pos (2 ^ 52)) (e + 1)
  else S754_finite s (Z.to_pos m) e.

(** The mantissa of an integer below [2 ^ 53], shifted to 53 bits. *)
Definition aligned (n : Z) : Z := n * 2 ^ (52 - Z.log2 n).

(** The rational a finite number stands for. *)
Definition SF_value (x : spec_float) : option Qc :=
  match x with
  | S754_zero _ => Some (Qc_of_Z 0)
  | S754_finite s m e => Some (if s then - ldexp (Z.pos m) e else ldexp (Z.pos m) e)%Qc
  | S754_infinity _ | S754_nan => None
  end.

(** ** Digits and shifts *)

Lemma digits2_size p : digits2_pos p = Pos.size p.
Proof. induction p as [p IH|p IH|]; simpl; by rewrite ?IH. Qed.

Lemma Zdigits2_log2 p : Zdigits2 (Z.pos p) = Z.log2 (Z.pos p) + 1.
Proof. destruct p; simpl; rewrite ?digits2_size; lia. Qed.

Lemma Zdigits2_unique m k : 0 < k → 2 ^ (k - 1) ≤ m < 2 ^ k → Zdigits2 m = k.
Proof.
  intros Hk Hm. assert (0 < m) as Hpos by (pose proof (pow2_pos (k - 1)); lia).
  destruct m as [|p|p]; try lia. rewrite Zdigits2_log2.
  rewrite (Z.log2_unique (Z.pos p) (k - 1)); [lia..|].
  by replace (Z.succ (k - 1)) with k by lia.
Qed.

Lemma iter_xO p d : Z.pos (Pos.iter xO p d) = Z.pos p * 2 ^ Z.pos d.
Proof.
  induction d as [|d IH] using Pos.peano_ind.
  - simpl. lia.
  - rewrite Pos.iter_succ, Pos2Z.inj_xO, IH, Pos2Z.inj_succ, Z.pow_succ_r by lia. lia.
Qed.

(** The record after one shift, when it starts on a positive mantissa. *)
Lemma shr_1_pos q r s :
  shr_1 (Build_shr_record (Z.pos q) r s)
  = Build_shr_record (Z.pos q / 2) (Z.odd (Z.pos q)) (r || s).
Proof.
  destruct q as [q|q|]; simpl; f_equal.
  - rewrite Pos2Z.inj_xI. apply Z.div_unique with 1; lia.
  - rewrite Pos2Z.inj_xO. apply Z.div_unique with 0; lia.
Qed.

(** Shifting out zeros leaves no round and no sticky bit. *)
Lemma shr_1_even q :
  0 < q → shr_1 (Build_shr_record (q * 2) false false) = Build_shr_record q false false.
Proof.
  intros Hq. destruct (q * 2) as [|p|p] eqn:Hp; try lia. rewrite shr_1_pos, <-Hp.
  by rewrite Z.div_mul, Z.odd_mul, andb_false_r by done.
Qed.

Lemma iter_shr_1 k q :
  0 < q →
  SpecFloat.iter_pos shr_1 k (Build_shr_record (q * 2 ^ Z.pos k) false false)
  = Build_shr_record q false false.
Proof.
  revert q. induction k as [k IH|k IH|]; intros q Hq; cbn [SpecFloat.iter_pos].
  - rewrite (Pos2Z.inj_xI k), (pow2_add (Z.pos k) (Z.pos k + 1) (2 * Z.pos k + 1)) by lia.
    rewrite Z.pow_add_r, !Z.mul_assoc by lia. change (2 ^ 1) with 2.
    assert (0 < 2 ^ Z.pos k) by (by apply pow2_pos).
    rewrite shr_1_even, IH, IH by nia. done.
  - rewrite (Pos2Z.inj_xO k), (pow2_add (Z.pos k) (Z.pos k) (2 * Z.pos k)) by lia.
    assert (0 < 2 ^ Z.pos k) by (by apply pow2_pos).
    rewrite Z.mul_assoc, IH, IH by nia. done.
  - by apply shr_1_even.
Qed.

Lemma fexp_normal e : -1021 ≤ e → fexp 53 1024 e = e - 53.
Proof. intros He. unfold fexp, emin. lia. Qed.

Lemma shr_fexp_0 m e l :
  Zdigits2 m = 53 → -1074 ≤ e → shr_fexp 53 1024 m e l = (shr_record_of_loc m l, e).
Proof.
  intros Hm He. unfold shr_fexp. rewrite Hm, fexp_normal by lia.
  by replace (53 + e - 53 - e) with 0 by lia.
Qed.

Lemma shr_fexp_1 m e l :
  Zdigits2 m = 54 → -1075 ≤ e →
  shr_fexp 53 1024 m e l = (shr_1 (shr_record_of_loc m l), e + 1).
Proof.
  intros Hm He. unfold shr_fexp. rewrite Hm, fexp_normal by lia.
  by replace (54 + e - 53 - e) with 1 by lia.
Qed.

(** ** Rounding to nearest even *)

Lemma rne_eucl a b q r :
  0 ≤ r < b → a = b * q + r →
  rne a b = match 2 * r ?= b with
            | Lt => q
            | Eq => if Z.even q then q else q + 1
            | Gt => q + 1
            end.
Proof.
  intros Hr Ha. unfold rne.
  by rewrite <-(Z.div_unique a b q r), <-(Z.mod_unique a b q r) by (auto; lia).
Qed.

Lemma new_location_spec b r :
  0 < b → 0 ≤ r < b →
  new_location b r = if r =? 0 then loc_Exact else loc_Inexact (2 * r ?= b).
Proof.
  intros Hb Hr. unfold new_location, new_location_even, new_location_odd.
  destruct (Z.even b) eqn:Heven; [done|]. destruct (r =? 0); [done|]. f_equal.
  assert (Z.odd b = true) as [k Hk]%Z.odd_spec by (by rewrite <-Z.negb_even, Heven).
  destruct (Z.compare_spec (2 * r + 1) b), (Z.compare_spec (2 * r) b); done || lia.
Qed.

Lemma round_location_0 q b r :
  0 < b → 0 ≤ r < b →
  round_nearest_even q (new_location b r) = rne (b * q + r) b.
Proof.
  intros Hb Hr. rewrite new_location_spec, (rne_eucl _ b q r) by done.
  destruct (Z.eqb_spec r 0) as [->|Hr0]; simpl.
  - by destruct b.
  - by destruct (2 * r ?= b).
Qed.

Lemma round_location_1 q b r :
  0 < b → 0 ≤ r < b →
  let mrs := shr_1 (shr_record_of_loc (Z.pos q) (new_location b r)) in
  round_nearest_even (shr_m mrs) (loc_of_shr_record mrs) = rne (b * Z.pos q + r) (2 * b).
Proof.
  intros Hb Hr mrs.
  assert (mrs = Build_shr_record (Z.pos q / 2) (Z.odd (Z.pos q)) (negb (r =? 0))) as ->.
  { unfold mrs. rewrite new_location_spec by done.
    destruct (Z.eqb_spec r 0); simpl shr_record_of_loc; [by rewrite shr_1_pos|].
    by destruct (2 * r ?= b); simpl shr_record_of_loc; rewrite shr_1_pos. }
  pose proof (Z.div_mod (Z.pos q) 2 ltac:(lia)) as Hq.
  assert (Z.pos q mod 2 = Z.b2z (Z.odd (Z.pos q))) as Hpar.
  { rewrite <-Z.bit0_odd. symmetry. apply Z.bit0_mod. }
  rewrite (rne_eucl _ (2 * b) (Z.pos q / 2) (Z.pos q mod 2 * b + r))
    by (destruct (Z.odd _); simpl in Hpar; nia).
  simpl shr_m. rewrite Hpar.
  destruct (Z.odd (Z.pos q)), (Z.eqb_spec r 0) as [Hr0|Hr0]; simpl negb;
    cbn [loc_of_shr_record round_nearest_even Z.b2z];
    lazymatch goal with |- context [?x ?= ?y] => destruct (Z.compare_spec x y) end;
    done || lia.
Qed.

Lemma rne_one m : rne m 1 = m.
Proof. rewrite <-(Z.mul_1_r m) at 1. by apply rne_exact. Qed.

Lemma rne_scale a b c : 0 < b → 0 < c → rne (a * c) (b * c) = rne a b.
Proof.
  intros Hb Hc. unfold rne.
  rewrite Z.div_mul_cancel_r, Z.mul_mod_distr_r, Z.mul_assoc by lia.
  by rewrite <-Zmult_compare_compat_r by lia.
Qed.

Lemma rne_ratio a b a' b' : 0 < b → 0 < b' → a * b' = a' * b → rne a b = rne a' b'.
Proof.
  intros Hb Hb' Heq.
  by rewrite <-(rne_scale a b b'), Heq, (Z.mul_comm b b'), rne_scale.
Qed.

(** ** [binary_round_aux] on 53 and 54 bits *)

Lemma round_finish s m e :
  2 ^ 52 ≤ m ≤ 2 ^ 53 → -1074 ≤ e ≤ 970 →
  (let '(mrs, e') := shr_fexp 53 1024 m e loc_Exact in
   match shr_m mrs with
   | 0 => S754_zero s
   | Z.pos m' => if e' <=? 1024 - 53 then S754_finite s m' e' else S754_infinity s
   | Z.neg _ => S754_nan
   end) = SF_normal s m e.
Proof.
  intros Hm He. unfold SF_normal. destruct (Z.eqb_spec m (2 ^ 53)) as [->|Hne].
  - rewrite shr_fexp_1 by (done || lia). change (2 ^ 53) with (Z.pos (2 ^ 53)).
    simpl shr_record_of_loc. rewrite shr_1_pos. cbv beta iota. simpl shr_m.
    change (Z.pos (2 ^ 53) / 2) with (Z.pos (2 ^ 52)). cbv beta iota.
    by rewrite (proj2 (Z.leb_le _ _)) by lia.
  - rewrite shr_fexp_0 by (apply Zdigits2_unique || idtac; lia).
    cbv beta iota. simpl shr_m. destruct m as [|m|m]; try lia.
    by rewrite (proj2 (Z.leb_le _ _)) by lia.
Qed.

Lemma binary_round_aux_53 s (q : Z) e b r :
  2 ^ 52 ≤ q < 2 ^ 53 → 0 < b → 0 ≤ r < b → -1074 ≤ e ≤ 970 →
  binary_round_aux 53 1024 s q e (new_location b r) = SF_normal s (rne (b * q + r) b) e.
Proof.
  intros Hq Hb Hr He. destruct q as [|q|q]; try lia. unfold binary_round_aux.
  rewrite (shr_fexp_0 (Z.pos q)) by (apply Zdigits2_unique || idtac; lia).
  cbv beta iota.
  replace (shr_m _) with (Z.pos q) by (by destruct (new_location b r) as [|[]]).
  replace (loc_of_shr_record _) with (new_location b r)
    by (by destruct (new_location b r) as [|[]]).
  rewrite round_location_0 by done. apply round_finish; [|done].
  destruct (rne_cases (b * Z.pos q + r) b) as [->|[-> _]];
    rewrite <-(Z.div_unique (b * Z.pos q + r) b (Z.pos q) r) by (auto; lia); lia.
Qed.

Lemma binary_round_aux_54 s (q : Z) e b r :
  2 ^ 53 ≤ q < 2 ^ 54 → 0 < b → 0 ≤ r < b → -1075 ≤ e ≤ 969 →
  binary_round_aux 53 1024 s q e (new_location b r)
  = SF_normal s (rne (b * q + r) (2 * b)) (e + 1).
Proof.
  intros Hq Hb Hr He. destruct q as [|q|q]; try lia. unfold binary_round_aux.
  rewrite (shr_fexp_1 (Z.pos q)) by (apply Zdigits2_unique || idtac; lia).
  cbv beta iota. rewrite round_location_1 by done. apply round_finish; [|lia].
  pose proof (Z.div_mod (Z.pos q) 2 ltac:(lia)) as Hdiv.
  pose proof (Z.mod_pos_bound (Z.pos q) 2 ltac:(lia)) as Hmod.
  destruct (rne_cases (b * Z.pos q + r) (2 * b)) as [->|[-> _]];
    rewrite <-(Z.div_unique (b * Z.pos q + r) (2 * b) (Z.pos q / 2)
                 (Z.pos q mod 2 * b + r)) by nia; lia.
Qed.

(** A mantissa of 53 bits followed by [k] zeros is not rounded. *)
Lemma binary_round_aux_exact s q t k :
  2 ^ 52 ≤ q < 2 ^ 53 → 0 ≤ k → -1074 ≤ t ≤ 970 →
  binary_round_aux 53 1024 s (q * 2 ^ k) (t - k) loc_Exact = S754_finite s (Z.to_pos q) t.
Proof.
  intros Hq Hk Ht. assert (0 < 2 ^ k) by (by apply pow2_pos).
  unfold binary_round_aux, shr_fexp at 1.
  rewrite (Zdigits2_unique _ (53 + k)), fexp_normal.
  2: lia. 2: lia.
  2: { replace (53 + k - 1) with (52 + k) by lia. rewrite !Z.pow_add_r by lia. nia. }
  replace (53 + k + (t - k) - 53 - (t - k)) with k by lia.
  simpl shr_record_of_loc.
  assert (shr (Build_shr_record (q * 2 ^ k) false false) (t - k) k
          = (Build_shr_record q false false, t)) as ->.
  { destruct k as [|k|k]; try lia; simpl shr.
    - by rewrite Z.mul_1_r, Z.sub_0_r.
    - rewrite iter_shr_1 by lia. f_equal. lia. }
  simpl. change (round_nearest_even q loc_Exact) with q. 
  rewrite round_finish by lia. unfold SF_normal.
  by rewrite (proj2 (Z.eqb_neq _ _)) by lia.
Qed.

(** ** Conversion and division *)

Lemma log2_below n : 0 < n < 2 ^ 53 → 0 ≤ Z.log2 n < 53.
Proof. intros Hn. split; [apply Z.log2_nonneg | apply Z.log2_lt_pow2; lia]. Qed.

Lemma aligned_bounds n : 0 < n < 2 ^ 53 → 2 ^ 52 ≤ aligned n < 2 ^ 53.
Proof.
  intros Hn. unfold aligned. pose proof (log2_sandwich n ltac:(lia)) as Hl.
  pose proof (Z.log2_nonneg n). 
  assert (Z.log2 n < 53) by (apply Z.log2_lt_pow2; lia).
  rewrite (pow2_add (Z.log2 n) (52 - Z.log2 n) 52) by lia.
  change (2 ^ 53) with (2 * 2 ^ 52).
  rewrite (pow2_add (Z.log2 n) (52 - Z.log2 n) 52) by lia.
  name_pow2. split; nia.
Qed.

Lemma shl_align_pos mx ex e :
  e ≤ ex → Z.pos (fst (shl_align mx ex e)) = Z.pos mx * 2 ^ (ex - e).
Proof.
  intros He. unfold shl_align. destruct (e - ex) as [|d|d] eqn:Hd; try lia; simpl fst.
  - replace (ex - e) with 0 by lia. simpl. lia.
  - rewrite iter_xO. f_equal. f_equal. lia.
Qed.

Lemma shl_align_snd mx ex e : e ≤ ex → snd (shl_align mx ex e) = e.
Proof.
  intros He. unfold shl_align. destruct (e - ex) as [|d|d] eqn:Hd; try lia; simpl; lia.
Qed.

(** An integer below [2 ^ 53], given with trailing zeros and a
    negative exponent, is normalised without rounding. *)
Lemma binary_round_exact s p n e :
  0 < n < 2 ^ 53 → e ≤ 0 → Z.pos p = n * 2 ^ (- e) →
  binary_round 53 1024 s p e = S754_finite s (Z.to_pos (aligned n)) (Z.log2 n - 52).
Proof.
  intros Hn He Hp. pose proof (aligned_bounds n Hn) as Ha.
  pose proof (log2_below n Hn) as Hl. unfold binary_round.
  change (Z.pos (digits2_pos p)) with (Zdigits2 (Z.pos p)).
  rewrite Zdigits2_log2, Hp, Z.log2_mul_pow2, fexp_normal by lia.
  set (t := Z.log2 n - 52).
  replace (- e + Z.log2 n + 1 + e - 53) with t by lia.
  destruct (shl_align p e t) as [mz ez] eqn:Hs.
  destruct (Z.le_gt_cases t e) as [Hle|Hgt].
  - pose proof (shl_align_pos p e t Hle) as Hm. pose proof (shl_align_snd p e t Hle) as Hz.
    rewrite Hs in Hm, Hz. simpl in Hm, Hz. subst ez.
    rewrite Hm, Hp, <-Z.mul_assoc, <-Z.pow_add_r by lia.
    replace (- e + (e - t)) with (52 - Z.log2 n) by lia. fold (aligned n).
    rewrite <-(Z.mul_1_r (aligned n)) at 1. change 1 with (2 ^ 0) at 1.
    rewrite <-(Z.sub_0_r t) at 1. apply binary_round_aux_exact; lia.
  - unfold shl_align in Hs. destruct (t - e) as [|d|d] eqn:Hd; try lia.
    injection Hs as <- <-. rewrite Hp.
    replace (n * 2 ^ (- e)) with (aligned n * 2 ^ (t - e)).
    + replace e with (t - (t - e)) at 2 by lia. apply binary_round_aux_exact; lia.
    + unfold aligned. rewrite <-Z.mul_assoc, <-Z.pow_add_r by lia. f_equal. f_equal. lia.
Qed.

Lemma binary_normalize_exact n e :
  0 < n < 2 ^ 53 → e ≤ 0 →
  binary_normalize 53 1024 (n * 2 ^ (- e)) e false
  = S754_finite false (Z.to_pos (aligned n)) (Z.log2 n - 52).
Proof.
  intros Hn He. assert (0 < 2 ^ (- e)) by (apply pow2_pos; lia).
  destruct (n * 2 ^ (- e)) as [|p|p] eqn:Hp; try lia. by apply binary_round_exact.
Qed.

Lemma SF_of_Z_pos n :
  0 < n < 2 ^ 53 → SF_of_Z n = S754_finite false (Z.to_pos (aligned n)) (Z.log2 n - 52).
Proof.
  intros Hn. rewrite <-(binary_normalize_exact n 0) by lia.
  unfold SF_of_Z, prec. f_equal. simpl. lia.
Qed.

Lemma SF_of_Z_neg n :
  0 < n < 2 ^ 53 → SF_of_Z (- n) = S754_finite true (Z.to_pos (aligned n)) (Z.log2 n - 52).
Proof.
  intros Hn. destruct n as [|p|p]; try lia. unfold SF_of_Z, prec. simpl Z.opp.
  cbn [binary_normalize]. apply binary_round_exact; [done|lia|simpl; lia].
Qed.

Lemma SFdiv_core_normal mx ex my ey :
  Zdigits2 (Z.pos mx) = 53 → Zdigits2 (Z.pos my) = 53 → -968 ≤ ex - ey →
  SFdiv_core_binary 53 1024 (Z.pos mx) ex (Z.pos my) ey
  = ((Z.pos mx * 2 ^ 53) / Z.pos my, ex - ey - 53,
     new_location (Z.pos my) ((Z.pos mx * 2 ^ 53) mod Z.pos my)).
Proof.
  intros Hx Hy He. unfold SFdiv_core_binary. rewrite Hx, Hy.
  replace (53 + ex - (53 + ey)) with (ex - ey) by lia. rewrite fexp_normal by lia.
  rewrite Z.min_l by lia. replace (ex - ey - (ex - ey - 53)) with 53 by lia.
  cbv beta iota zeta. rewrite Z.shiftl_mul_pow2 by lia.
  unfold Z.div, Z.modulo. by destruct (Z.div_eucl _ _).
Qed.

Lemma SFdiv_normal mx ex my ey :
  2 ^ 52 ≤ Z.pos mx < 2 ^ 53 → 2 ^ 52 ≤ Z.pos my < 2 ^ 53 → -968 ≤ ex - ey ≤ 1022 →
  SFdiv 53 1024 (S754_finite false mx ex) (S754_finite false my ey)
  = if Z.pos mx <? Z.pos my
    then SF_normal false (rne (Z.pos mx * 2 ^ 53) (Z.pos my)) (ex - ey - 53)
    else SF_normal false (rne (Z.pos mx * 2 ^ 53) (2 * Z.pos my)) (ex - ey - 52).
Proof.
  intros Hx Hy He. unfold SFdiv.
  rewrite SFdiv_core_normal by (apply Zdigits2_unique || idtac; lia).
  cbv beta iota. change (xorb false false) with false.
  destruct (Z.ltb_spec (Z.pos mx) (Z.pos my)) as [Hlt|Hge];
    set (a := Z.pos mx * 2 ^ 53); set (b := Z.pos my);
    pose proof (Z.div_mod a b ltac:(lia)) as Hdiv;
    pose proof (Z.mod_pos_bound a b ltac:(lia)) as Hmod.
  - rewrite binary_round_aux_53, <-Hdiv; [done| |lia..]. split.
    + apply Z.div_le_lower_bound; unfold a, b; lia.
    + apply Z.div_lt_upper_bound; unfold a, b; lia.
  - rewrite binary_round_aux_54, <-Hdiv; [f_equal; lia| |lia..]. split.
    + apply Z.div_le_lower_bound; unfold a, b; lia.
    + apply Z.div_lt_upper_bound; unfold a, b; lia.
Qed.

(** ** The mantissa and the exponent of [round64] *)

Section aligned.
Context (n d : Z) (Hn : 0 < n < 2 ^ 53) (Hd : 0 < d < 2 ^ 53).

Ltac split_bools :=
  repeat match goal with
  | |- context [?x <? ?y] => destruct (Z.ltb_spec x y)
  | |- context [?x <=? ?y] => destruct (Z.leb_spec x y)
  end.

(** Sums of exponents. *)
Ltac pow2_sum := rewrite <-?Z.pow_add_r by lia; f_equal; lia.

Lemma log2_small : 0 ≤ Z.log2 n < 53 ∧ 0 ≤ Z.log2 d < 53.
Proof. split; by apply log2_below. Qed.

Lemma aligned_lt_scaled :
  let k := Z.log2 n - Z.log2 d in
  (aligned n <? aligned d) = negb (scaled_den d k <=? scaled_num n k).
Proof.
  intros k. destruct log2_small as [Hln Hld]. unfold aligned.
  assert (0 < n ∧ 0 < d ∧ k = Z.log2 n - Z.log2 d) as (? & ? & ?) by (unfold k; lia).
  clear Hn Hd. clearbody k.
  destruct (Z.le_gt_cases 0 k) as [Hk|Hk].
  - rewrite scaled_num_nonneg, scaled_den_nonneg by done.
    rewrite (pow2_add k (52 - Z.log2 n) (52 - Z.log2 d)) by lia.
    name_pow2. split_bools; simpl; done || nia.
  - rewrite scaled_num_nonpos, scaled_den_nonpos by lia.
    rewrite (pow2_add (- k) (52 - Z.log2 d) (52 - Z.log2 n)) by lia.
    name_pow2. split_bools; simpl; done || nia.
Qed.

Lemma ulp_exp_aligned :
  ulp_exp n d = Z.log2 n - Z.log2 d - (if aligned n <? aligned d then 53 else 52).
Proof.
  unfold ulp_exp, binade, prec. rewrite aligned_lt_scaled.
  destruct (_ <=? _); simpl; lia.
Qed.

Lemma mantissa_aligned :
  mantissa n d = rne (aligned n * 2 ^ 53)
                     (if aligned n <? aligned d then aligned d else 2 * aligned d).
Proof.
  destruct log2_small as [Hln Hld]. pose proof (aligned_bounds n Hn).
  pose proof (aligned_bounds d Hd). unfold mantissa. rewrite ulp_exp_aligned.
  set (k := Z.log2 n - Z.log2 d).
  assert (∀ x, 0 < scaled_den d x) as Hden.
  { intros x. unfold scaled_den. assert (0 < 2 ^ Z.max 0 x) by (apply pow2_pos; lia). nia. }
  destruct (aligned n <? aligned d); apply rne_ratio; try done; try lia;
    unfold scaled_num, scaled_den, aligned.
  - transitivity (n * d * (2 ^ Z.max 0 (- (k - 53)) * 2 ^ (52 - Z.log2 d))); [ring|].
    transitivity (n * d * (2 ^ (52 - Z.log2 n) * 2 ^ 53 * 2 ^ Z.max 0 (k - 53))); [|ring].
    f_equal. unfold k. pow2_sum.
  - transitivity (n * d * (2 ^ Z.max 0 (- (k - 52)) * (2 ^ 1 * 2 ^ (52 - Z.log2 d)))); [ring|].
    transitivity (n * d * (2 ^ (52 - Z.log2 n) * 2 ^ 53 * 2 ^ Z.max 0 (k - 52))); [|ring].
    f_equal. unfold k. pow2_sum.
Qed.

End aligned.

(** ** The division *)

Lemma SF_round64_normal n d :
  n ≠ 0 →
  SF_round64 n d
  = SF_normal (n <? 0) (mantissa (Z.abs n) (Z.pos d)) (ulp_exp (Z.abs n) (Z.pos d)).
Proof.
  intros Hn. destruct n as [|p|p]; [done|..]; unfold SF_round64, SF_normal;
    change (2 ^ prec) with (2 ^ 53); by destruct (_ =? _).
Qed.

(** The division of binary64 on two integers below [2 ^ 53] returns the
    mantissa and the exponent of [round64]. *)
Lemma SF_quotient_round64 (n : Z) (d : positive) :
  0 ≤ n < 2 ^ 53 → Z.pos d < 2 ^ 53 → SF_quotient n d = SF_round64 n d.
Proof.
  intros Hn Hd. destruct (Z.eq_dec n 0) as [->|Hn0].
  { unfold SF_quotient. by rewrite (SF_of_Z_pos (Z.pos d)) by lia. }
  rewrite SF_round64_normal by done. unfold SF_quotient.
  rewrite (proj2 (Z.ltb_ge n 0)), Z.abs_eq, !SF_of_Z_pos by lia.
  pose proof (aligned_bounds n ltac:(lia)). pose proof (aligned_bounds (Z.pos d) ltac:(lia)).
  destruct (log2_small n (Z.pos d)) as [Hln Hld]; [lia..|].
  unfold prec. rewrite SFdiv_normal; rewrite ?Z2Pos.id by lia; [|lia..].
  rewrite mantissa_aligned, ulp_exp_aligned by lia.
  destruct (aligned n <? aligned (Z.pos d)); f_equal; lia.
Qed.

(** ** The addition *)

(** Adding two integers in binary64 is exact as long as the sum is
    below [2 ^ 53]. *)
Lemma SFadd_of_Z_pos a b :
  0 < a → 0 < b → a + b < 2 ^ 53 →
  SFadd 53 1024 (SF_of_Z a) (SF_of_Z b) = SF_of_Z (a + b).
Proof.
  intros Ha Hb Hab. rewrite !SF_of_Z_pos by lia. unfold SFadd. cbv zeta.
  pose proof (aligned_bounds a ltac:(lia)). pose proof (aligned_bounds b ltac:(lia)).
  pose proof (log2_below a ltac:(lia)). pose proof (log2_below b ltac:(lia)).
  set (e := Z.min (Z.log2 a - 52) (Z.log2 b - 52)).
  simpl cond_Zopp. rewrite !shl_align_pos, !Z2Pos.id by lia.
  rewrite <-(binary_normalize_exact (a + b) e) by lia. f_equal.
  unfold aligned. rewrite Z.mul_add_distr_r, <-!Z.mul_assoc, <-!Z.pow_add_r by lia.
  f_equal; f_equal; f_equal; lia.
Qed.

Lemma SFadd_of_Z a b :
  0 ≤ a → 0 ≤ b → a + b < 2 ^ 53 →
  SFadd 53 1024 (SF_of_Z a) (SF_of_Z b) = SF_of_Z (a + b).
Proof.
  intros Ha Hb Hab. destruct (Z.eq_dec a 0) as [->|?], (Z.eq_dec b 0) as [->|?].
  - done.
  - rewrite Z.add_0_l, (SF_of_Z_pos b) by lia. done.
  - rewrite Z.add_0_r, (SF_of_Z_pos a) by lia. done.
  - apply SFadd_of_Z_pos; lia.
Qed.

(** ** The value *)

Lemma ldexp_double m e : ldexp (2 * m) e = ldexp m (e + 1).
Proof.
  unfold ldexp. apply Qc_is_canon. simpl. rewrite !Qred_correct. unfold Qeq. simpl.
  assert (∀ k, Z.pos (Z.to_pos (2 ^ Z.max 0 k)) = 2 ^ Z.max 0 k) as Hpos.
  { intros k. apply Z2Pos.id, pow2_pos. lia. }
  rewrite !Hpos. destruct (Z.le_gt_cases 0 e).
  - rewrite (Z.max_r 0 e), (Z.max_r 0 (e + 1)), !Z.max_l by lia.
    rewrite Z.pow_add_r by lia. change (2 ^ 1) with 2. lia.
  - rewrite (Z.max_l 0 e), (Z.max_l 0 (e + 1)), !Z.max_r by lia.
    rewrite (pow2_add 1 (- (e + 1)) (- e)) by lia. change (2 ^ 1) with 2. lia.
Qed.

Lemma SF_value_normal s m e :
  0 < m →
  SF_value (SF_normal s m e) = Some (if s then - ldexp m e else ldexp m e)%Qc.
Proof.
  intros Hm. unfold SF_normal. destruct (Z.eqb_spec m (2 ^ 53)) as [->|_]; simpl.
  - change (2 ^ 53) with (2 * 2 ^ 52). by rewrite ldexp_double.
  - by rewrite Z2Pos.id.
Qed.

Lemma SF_value_round64 n d : SF_value (SF_round64 n d) = Some (round64 n d).
Proof.
  destruct (Z.eq_dec n 0) as [->|Hn]; [done|].
  rewrite SF_round64_normal, SF_value_normal by (done || apply mantissa_pos; lia).
  by destruct n.
Qed.

(** The division of binary64 on two integers below [2 ^ 53] returns the
    number [round64]. *)
Lemma SF_quotient_value n d :
  0 ≤ n < 2 ^ 53 → Z.pos d < 2 ^ 53 → SF_value (SF_quotient n d) = Some (round64 n d).
Proof. intros Hn Hd. by rewrite SF_quotient_round64, SF_value_round64. Qed.

(** ** The comparison *)

Lemma SFltb_normal m1 e1 m2 e2 :
  2 ^ 52 ≤ Z.pos m1 < 2 ^ 53 → 2 ^ 52 ≤ Z.pos m2 < 2 ^ 53 →
  SFltb (S754_finite false m1 e1) (S754_finite false m2 e2)
  = bool_decide (Z.pos m1 * 2 ^ (e1 - Z.min e1 e2) < Z.pos m2 * 2 ^ (e2 - Z.min e1 e2)).
Proof.
  intros H1 H2. unfold SFltb, SFcompare. symmetry.
  destruct (Z.compare_spec e1 e2) as [->|Hlt|Hgt].
  - rewrite Z.min_id, Z.sub_diag. change (2 ^ 0) with 1. rewrite !Z.mul_1_r.
    fold (Pos.compare m1 m2).
    destruct (Pos.compare_spec m1 m2); case_bool_decide; done || lia.
  - rewrite Z.min_l, Z.sub_diag by lia. change (2 ^ 0) with 1.
    pose proof (Z.pow_le_mono_r 2 1 (e2 - e1)). change (2 ^ 1) with 2 in *.
    apply bool_decide_eq_true. nia.
  - rewrite Z.min_r, Z.sub_diag by lia. change (2 ^ 0) with 1.
    pose proof (Z.pow_le_mono_r 2 1 (e1 - e2)). change (2 ^ 1) with 2 in *.
    apply bool_decide_eq_false. nia.
Qed.

(** A normal number against an integer. *)
Lemma SFltb_of_Z m e t :
  2 ^ 52 ≤ Z.pos m < 2 ^ 53 → e ≤ 0 → - 2 ^ 53 < t < 2 ^ 53 →
  SFltb (S754_finite false m e) (SF_of_Z t) = bool_decide (Z.pos m < t * 2 ^ (- e)).
Proof.
  intros Hm He Ht. assert (0 < 2 ^ (- e)) by (apply pow2_pos; lia).
  destruct (Z.lt_trichotomy t 0) as [Hneg|[->|Hpos]].
  - replace t with (- - t) at 1 by lia. rewrite SF_of_Z_neg by lia.
    symmetry. apply bool_decide_eq_false. nia.
  - symmetry. apply bool_decide_eq_false. lia.
  - pose proof (aligned_bounds t ltac:(lia)) as Ha. pose proof (log2_below t ltac:(lia)).
    rewrite SF_of_Z_pos, SFltb_normal by (rewrite ?Z2Pos.id; lia).
    rewrite Z2Pos.id by lia. apply bool_decide_ext. unfold aligned.
    set (k := Z.min e (Z.log2 t - 52)).
    rewrite <-Z.mul_assoc, <-Z.pow_add_r by lia.
    replace (52 - Z.log2 t + (Z.log2 t - 52 - k)) with (- k) by lia.
    rewrite (pow2_add (- e) (e - k) (- k)) by lia.
    assert (0 < 2 ^ (e - k)) by (apply pow2_pos; lia). nia.
Qed.

Lemma SFltb_zero t :
  - 2 ^ 53 < t < 2 ^ 53 → SFltb (S754_zero false) (SF_of_Z t) = bool_decide (0 < t).
Proof.
  intros Ht. destruct (Z.lt_trichotomy t 0) as [Hneg|[->|Hpos]].
  - replace t with (- - t) at 1 by lia. rewrite SF_of_Z_neg by lia.
    symmetry. apply bool_decide_eq_false. lia.
  - done.
  - rewrite SF_of_Z_pos by lia. symmetry. by apply bool_decide_eq_true.
Qed.

(** The comparison of binary64 of the rounded quotient with an integer
    is the comparison of the rationals. *)
Lemma SFltb_round64 n d t :
  0 ≤ n → n < Z.pos d * 2 ^ 52 → - 2 ^ 53 < t < 2 ^ 53 →
  SFltb (SF_round64 n d) (SF_of_Z t) = bool_decide (round64 n d < Qc_of_Z t)%Qc.
Proof.
  intros Hn Hlt Ht. destruct (Z.eq_dec n 0) as [->|Hn0].
  { rewrite (bool_decide_ext _ _ (Qc_of_Z_lt 0 t)). by apply SFltb_zero. }
  assert (ulp_exp n (Z.pos d) ≤ - 1) as He.
  { by apply (ulp_exp_le n (Z.pos d) ltac:(lia) ltac:(lia) 1). }
  pose proof (mantissa_bounds n (Z.pos d) ltac:(lia) ltac:(lia)) as Hm.
  rewrite SF_round64_normal, round64_pos by lia.
  rewrite (proj2 (Z.ltb_ge n 0)), (Z.abs_eq n) by lia.
  rewrite (bool_decide_ext _ _ (ldexp_lt_Z _ (ulp_exp n (Z.pos d)) t ltac:(lia))).
  unfold SF_normal. destruct (Z.eqb_spec (mantissa n (Z.pos d)) (2 ^ 53)) as [->|Hne].
  - rewrite SFltb_of_Z by (rewrite ?Z2Pos.id; lia). rewrite Z2Pos.id by lia.
    apply bool_decide_ext.
    rewrite (pow2_add 1 (- (ulp_exp n (Z.pos d) + 1)) (- ulp_exp n (Z.pos d))) by lia.
    change (2 ^ 53) with (2 * 2 ^ 52). change (2 ^ 1) with 2. lia.
  - rewrite SFltb_of_Z by (rewrite ?Z2Pos.id; lia). by rewrite Z2Pos.id by lia.
Qed.
