(* ===== verification/Exec.v ===== *)
(** * Exec: the effect monad of the scanner

    Python code that mutates shared objects and raises exceptions is
    modelled by functions from a state to an [Outcome]: either a value
    with the new state, or a raised exception with the state at the
    point of the raise (mutations done before a raise persist, as they
    do in Python).  [try_except] is [try: ... except <class> as e: ...],
    [for_each] is the [for] statement, [for_fold] a [for] statement
    that updates a local variable.  The section ends with a small
    Hoare logic ([hoare]) used for invariants and for absence of
    uncaught exceptions. *)

From S2P Require Import Prelude.

Inductive Outcome (St Exn A : Type) : Type :=
| Ret (a : A) (s : St)
| Raise (e : Exn) (s : St).
Arguments Ret {St Exn A} a s.
Arguments Raise {St Exn A} e s.

Definition Exec (St Exn A : Type) : Type := St → Outcome St Exn A.

Definition final_state {St Exn A} (o : Outcome St Exn A) : St :=
  match o with Ret _ s => s | Raise _ s => s end.

Definition returned {St Exn A} (o : Outcome St Exn A) : option A :=
  match o with Ret a _ => Some a | Raise _ _ => None end.

Definition raised {St Exn A} (o : Outcome St Exn A) : option Exn :=
  match o with Ret _ _ => None | Raise e _ => Some e end.

#[export] Instance exec_ret {St Exn} : MRet (Exec St Exn) :=
  λ A a s, Ret a s.

#[export] Instance exec_bind {St Exn} : MBind (Exec St Exn) :=
  λ A B f m s,
    match m s with
    | Ret a s' => f a s'
    | Raise e s' => Raise e s'
    end.

Section exec.
Context {St Exn : Type}.
Implicit Types (s : St) (e : Exn).

Definition get_state : Exec St Exn St := λ s, Ret s s.
Definition put_state (s' : St) : Exec St Exn unit := λ _, Ret () s'.
Definition modify (f : St → St) : Exec St Exn unit := λ s, Ret () (f s).
Definition raise {A} (e : Exn) : Exec St Exn A := λ s, Raise e s.

(** A pure computation that may raise. *)
Definition lift_result {A} (r : Exn + A) : Exec St Exn A :=
  match r with inl e => raise e | inr a => mret a end.

(** [try: m  except C as e: h e], where [caught e] says whether [e] is an
    instance of the class [C]. *)
Definition try_except {A} (m : Exec St Exn A) (caught : Exn → bool)
    (h : Exn → Exec St Exn A) : Exec St Exn A :=
  λ s, match m s with
       | Ret a s' => Ret a s'
       | Raise e s' => if caught e then h e s' else Raise e s'
       end.

(** [for x in l: f x] *)
Definition for_each {A} (f : A → Exec St Exn unit) : list A → Exec St Exn unit :=
  fix go l :=
    match l with
    | [] => mret ()
    | x :: l' => f x ≫= λ _, go l'
    end.

(** [for x in l: acc = f acc x], the value of [acc] after the loop *)
Definition for_fold {A B} (f : B → A → Exec St Exn B) : list A → B → Exec St Exn B :=
  fix go l acc :=
    match l with
    | [] => mret acc
    | x :: l' => f acc x ≫= go l'
    end.

(** ** Extensional equality of computations *)

Definition exec_equiv {A} : relation (Exec St Exn A) := λ m1 m2, ∀ s, m1 s = m2 s.

(** [hoare P m Q R]: from a state where [P] holds, [m] returns in a
    state where [Q] holds of its value, or raises in a state where [R]
    holds of its exception. *)
Definition hoare {A} (P : St → Prop) (m : Exec St Exn A)
    (Q : A → St → Prop) (R : Exn → St → Prop) : Prop :=
  ∀ s, P s → match m s with Ret a s' => Q a s' | Raise e s' => R e s' end.

(** [no_raise m]: every exception is handled inside [m]. *)
Definition no_raise {A} (m : Exec St Exn A) : Prop :=
  hoare (λ _, True) m (λ _ _, True) (λ _ _, False).

(** [preserves I m]: [I] holds of the state after [m], however it ends. *)
Definition preserves {A} (I : St → Prop) (m : Exec St Exn A) : Prop :=
  hoare I m (λ _, I) (λ _, I).

#[export] Instance exec_equiv_equivalence {A} : Equivalence (@exec_equiv A).
Proof.
  split; [done | by intros m1 m2 H s | ].
  intros m1 m2 m3 H1 H2 s. by rewrite H1.
Qed.

#[export] Instance exec_equiv_run {A} :
  Proper (exec_equiv ==> eq ==> eq) (λ (m : Exec St Exn A) s, m s).
Proof. by intros m1 m2 H s ? <-. Qed.

Lemma bind_equiv {A B} (m1 m2 : Exec St Exn A) (f1 f2 : A → Exec St Exn B) :
  exec_equiv m1 m2 → (∀ a, exec_equiv (f1 a) (f2 a)) →
  exec_equiv (m1 ≫= f1) (m2 ≫= f2).
Proof.
  intros Hm Hf s. unfold mbind, exec_bind. rewrite Hm.
  destruct (m2 s); [apply Hf | done].
Qed.

Lemma try_except_equiv {A} (m1 m2 : Exec St Exn A) c h1 h2 :
  exec_equiv m1 m2 → (∀ e, exec_equiv (h1 e) (h2 e)) →
  exec_equiv (try_except m1 c h1) (try_except m2 c h2).
Proof.
  intros Hm Hh s. unfold try_except. rewrite Hm.
  destruct (m2 s) as [|e s']; [done|]. destruct (c e); [apply Hh | done].
Qed.

(** ** Monad laws, up to [exec_equiv] *)

Lemma exec_left_id {A B} (a : A) (f : A → Exec St Exn B) :
  exec_equiv (mret a ≫= f) (f a).
Proof. done. Qed.

Lemma exec_right_id {A} (m : Exec St Exn A) : exec_equiv (m ≫= mret) m.
Proof. intros s. unfold mbind, exec_bind. by destruct (m s). Qed.

Lemma exec_assoc {A B C} (m : Exec St Exn A) (f : A → Exec St Exn B)
    (g : B → Exec St Exn C) :
  exec_equiv ((m ≫= f) ≫= g) (m ≫= λ a, f a ≫= g).
Proof. intros s. unfold mbind, exec_bind. by destruct (m s). Qed.

(** ** Running computations *)

Lemma run_bind {A B} (m : Exec St Exn A) (f : A → Exec St Exn B) s :
  (m ≫= f) s = match m s with Ret a s' => f a s' | Raise e s' => Raise e s' end.
Proof. done. Qed.

Lemma run_ret {A} (a : A) s : mret (M:=Exec St Exn) a s = Ret a s.
Proof. done. Qed.

Lemma final_state_bind_ret {A B} (m : Exec St Exn A) (b : B) s :
  final_state ((m ≫= λ _, mret b) s) = final_state (m s).
Proof. rewrite run_bind. by destruct (m s). Qed.

Lemma run_bind_ret {A B} (m : Exec St Exn A) (f : A → Exec St Exn B) s a s' :
  m s = Ret a s' → (m ≫= f) s = f a s'.
Proof. intros H. unfold mbind, exec_bind. by rewrite H. Qed.

Lemma run_bind_raise {A B} (m : Exec St Exn A) (f : A → Exec St Exn B) s e s' :
  m s = Raise e s' → (m ≫= f) s = Raise e s'.
Proof. intros H. unfold mbind, exec_bind. by rewrite H. Qed.

Lemma for_each_nil {A} (f : A → Exec St Exn unit) s : for_each f [] s = Ret () s.
Proof. done. Qed.

Lemma for_each_cons {A} (f : A → Exec St Exn unit) x l :
  for_each f (x :: l) = (f x ≫= λ _, for_each f l).
Proof. done. Qed.

Lemma for_each_app {A} (f : A → Exec St Exn unit) l1 l2 :
  exec_equiv (for_each f (l1 ++ l2)) (for_each f l1 ≫= λ _, for_each f l2).
Proof.
  induction l1 as [|x l1 IH]; intros s; [done|].
  rewrite <-app_comm_cons, !for_each_cons.
  unfold mbind, exec_bind in *. destruct (f x s) as [[] s'|]; [apply IH | done].
Qed.

(** A loop whose body never raises is a left fold over the states. *)
Lemma for_each_total {A} (f : A → Exec St Exn unit) (g : St → A → St) l s :
  (∀ x s, f x s = Ret () (g s x)) →
  for_each f l s = Ret () (foldl g s l).
Proof.
  intros Hf. revert s. induction l as [|x l IH]; intros s; [done|].
  rewrite for_each_cons. erewrite run_bind_ret by apply Hf. apply IH.
Qed.

Lemma for_fold_cons {A B} (f : B → A → Exec St Exn B) x l acc :
  for_fold f (x :: l) acc = (f acc x ≫= for_fold f l).
Proof. done. Qed.

Lemma for_fold_app {A B} (f : B → A → Exec St Exn B) l1 l2 acc :
  exec_equiv (for_fold f (l1 ++ l2) acc) (for_fold f l1 acc ≫= for_fold f l2).
Proof.
  revert acc. induction l1 as [|x l1 IH]; intros acc s; [done|].
  rewrite <-app_comm_cons, !for_fold_cons.
  unfold mbind, exec_bind in *. destruct (f acc x s) as [acc' s'|]; [apply IH | done].
Qed.

(** A loop whose body never raises is a left fold over the local
    variable and the state together. *)
Lemma for_fold_total {A B} (f : B → A → Exec St Exn B) (g : B * St → A → B * St) l acc s :
  (∀ acc x s, f acc x s = Ret (g (acc, s) x).1 (g (acc, s) x).2) →
  for_fold f l acc s = Ret (foldl g (acc, s) l).1 (foldl g (acc, s) l).2.
Proof.
  intros Hf. revert acc s. induction l as [|x l IH]; intros acc s; [done|].
  rewrite for_fold_cons. erewrite run_bind_ret by apply Hf.
  rewrite IH. simpl. by destruct (g (acc, s) x).
Qed.

(** ** Hoare triples with a normal and an exceptional postcondition *)

Lemma hoare_conseq {A} (P P' : St → Prop) (m : Exec St Exn A)
    (Q Q' : A → St → Prop) (R R' : Exn → St → Prop) :
  hoare P' m Q' R' →
  (∀ s, P s → P' s) → (∀ a s, Q' a s → Q a s) → (∀ e s, R' e s → R e s) →
  hoare P m Q R.
Proof.
  intros H HP HQ HR s Hs. specialize (H s (HP s Hs)).
  destruct (m s); auto.
Qed.

Lemma hoare_ret {A} (a : A) (Q : A → St → Prop) R : hoare (Q a) (mret a) Q R.
Proof. by intros s. Qed.

Lemma hoare_raise {A} e (Q : A → St → Prop) (R : Exn → St → Prop) :
  hoare (R e) (raise e) Q R.
Proof. by intros s. Qed.

Lemma hoare_get (Q : St → St → Prop) R : hoare (λ s, Q s s) get_state Q R.
Proof. by intros s. Qed.

Lemma hoare_modify (f : St → St) (Q : unit → St → Prop) R :
  hoare (λ s, Q () (f s)) (modify f) Q R.
Proof. by intros s. Qed.

Lemma hoare_lift_result {A} (r : Exn + A) (Q : A → St → Prop) R :
  hoare (λ s, match r with inl e => R e s | inr a => Q a s end) (lift_result r) Q R.
Proof. intros s. by destruct r. Qed.

Lemma hoare_bind {A B} P (m : Exec St Exn A) (f : A → Exec St Exn B)
    (Q' : A → St → Prop) (Q : B → St → Prop) R :
  hoare P m Q' R → (∀ a, hoare (Q' a) (f a) Q R) → hoare P (m ≫= f) Q R.
Proof.
  intros Hm Hf s Hs. specialize (Hm s Hs). unfold mbind, exec_bind.
  destruct (m s) as [a s'|]; [by apply Hf | done].
Qed.

Lemma hoare_try_except {A} P (m : Exec St Exn A) c h
    (Q : A → St → Prop) (R R' : Exn → St → Prop) :
  hoare P m Q R' →
  (∀ e, c e = true → hoare (R' e) (h e) Q R) →
  (∀ e s, c e = false → R' e s → R e s) →
  hoare P (try_except m c h) Q R.
Proof.
  intros Hm Hh Hpass s Hs. specialize (Hm s Hs). unfold try_except.
  destruct (m s) as [|e s']; [done|].
  destruct (c e) eqn:Hc; [by apply Hh | by apply Hpass].
Qed.

(** The loop rule: an invariant of the body is an invariant of the loop. *)
Lemma hoare_for_each {A} (I : St → Prop) (f : A → Exec St Exn unit) l R :
  (∀ x, x ∈ l → hoare I (f x) (λ _, I) R) →
  hoare I (for_each f l) (λ _, I) R.
Proof.
  induction l as [|x l IH]; intros Hf; [by intros s|].
  rewrite for_each_cons. eapply hoare_bind.
  - apply Hf. by left.
  - intros []. apply IH. intros y Hy. apply Hf. by right.
Qed.

(** The same for a loop with a local variable: the invariant relates
    the variable and the state. *)
Lemma hoare_for_fold {A B} (I : B → St → Prop) (f : B → A → Exec St Exn B) l acc R :
  (∀ x acc, x ∈ l → hoare (I acc) (f acc x) I R) →
  hoare (I acc) (for_fold f l acc) I R.
Proof.
  revert acc. induction l as [|x l IH]; intros acc Hf; [by intros s|].
  rewrite for_fold_cons. eapply hoare_bind.
  - apply Hf. by left.
  - intros acc'. apply IH. intros y acc'' Hy. apply Hf. by right.
Qed.

Lemma no_raise_run {A} (m : Exec St Exn A) s :
  no_raise m → ∃ a s', m s = Ret a s'.
Proof. intros H. specialize (H s I). destruct (m s); [eauto | done]. Qed.

Lemma preserves_final {A} (I : St → Prop) (m : Exec St Exn A) s :
  preserves I m → I s → I (final_state (m s)).
Proof. intros H Hs. specialize (H s Hs). by destruct (m s). Qed.

(** Rules for [preserves], one per construct. *)

Lemma preserves_ret {A} (I : St → Prop) (a : A) : preserves I (mret a).
Proof. by intros s. Qed.

Lemma preserves_raise {A} (I : St → Prop) e : preserves I (raise (A:=A) e).
Proof. by intros s. Qed.

Lemma preserves_get (I : St → Prop) : preserves I get_state.
Proof. by intros s. Qed.

Lemma preserves_modify (I : St → Prop) f : (∀ s, I s → I (f s)) → preserves I (modify f).
Proof. intros Hf s Hs. by apply Hf. Qed.

Lemma preserves_lift_result {A} (I : St → Prop) (r : Exn + A) : preserves I (lift_result r).
Proof. intros s. by destruct r. Qed.

Lemma preserves_bind {A B} (I : St → Prop) (m : Exec St Exn A) (f : A → Exec St Exn B) :
  preserves I m → (∀ a, preserves I (f a)) → preserves I (m ≫= f).
Proof. intros Hm Hf. eapply hoare_bind; [exact Hm | exact Hf]. Qed.

Lemma preserves_try_except {A} (I : St → Prop) (m : Exec St Exn A) c h :
  preserves I m → (∀ e, preserves I (h e)) → preserves I (try_except m c h).
Proof.
  intros Hm Hh. apply (hoare_try_except I m c h _ _ (λ _, I)); [done | | done].
  intros e _. apply Hh.
Qed.

Lemma preserves_for_each {A} (I : St → Prop) (f : A → Exec St Exn unit) l :
  (∀ x, x ∈ l → preserves I (f x)) → preserves I (for_each f l).
Proof. apply hoare_for_each. Qed.

Lemma preserves_for_fold {A B} (I : St → Prop) (f : B → A → Exec St Exn B) l acc :
  (∀ x acc, x ∈ l → preserves I (f acc x)) → preserves I (for_fold f l acc).
Proof. intros Hf. by apply (hoare_for_fold (λ _, I)). Qed.

End exec.

#[export] Hint Resolve hoare_ret hoare_raise hoare_get hoare_modify : scan.
#[export] Hint Resolve preserves_ret preserves_raise preserves_get
  preserves_lift_result : scan.

(** [preserves_step] applies the rule of the construct at the head of a
    [preserves] goal; [solve_preserves] repeats it, splitting on the
    tests and matches of the code, and leaves what is about the state
    functions themselves. *)
Ltac preserves_step :=
  lazymatch goal with
  | |- preserves _ (mret _) => apply preserves_ret
  | |- preserves _ (raise _) => apply preserves_raise
  | |- preserves _ get_state => apply preserves_get
  | |- preserves _ (lift_result _) => apply preserves_lift_result
  | |- preserves _ (modify _) => apply preserves_modify
  | |- preserves _ (_ ≫= _) => apply preserves_bind; [|intros ?]
  | |- preserves _ (try_except _ _ _) => apply preserves_try_except; [|intros ?]
  | |- preserves _ (for_each _ _) => apply preserves_for_each; intros ? _
  | |- preserves _ (for_fold _ _ _) => apply preserves_for_fold; intros ? ? _
  | |- preserves _ (if ?b then _ else _) => destruct b
  | |- preserves _ (match ?x with _ => _ end) => destruct x
  | |- preserves _ (let '(_, _) := ?x in _) => destruct x
  end.

Ltac solve_preserves := repeat preserves_step.

(** [exec_simpl] runs the monad operations that have become applicable:
    it unfolds sequencing and the primitive effects and reduces the
    matches on known outcomes. *)
Ltac exec_simpl :=
  cbv beta iota delta [mbind mret exec_bind exec_ret lift_result raise
                       get_state put_state modify try_except].
