(* ===== verification/PyStr.v ===== *)
(** * PyStr: the string and path operations the scanner calls

    A Python [str] is a list of characters; the model covers strings
    whose code points are below 256 (the range of [ascii]).  The
    operations are the ones src/main.py calls: [str.lower],
    [str.endswith] with a tuple, [str.rfind], [os.path.splitext] and
    [os.path.join] (POSIX flavour), and the two extension filters built
    from them: [has_image_suffix] of the reference loader and
    [is_valid_ext] of the per-entry handler.  [plain_name] says when a
    name is a single path component, and [entry_path] is what
    [os.path.join] makes of a folder and such a name. *)

From Stdlib Require Export Ascii String.
From Stdlib.Strings Require Export Byte.
From stdpp Require Export strings.
From S2P Require Import Prelude.

#[local] Open Scope Z_scope.
#[local] Open Scope char_scope.

Abbreviation pystr := (list ascii).

(** A Python [bytes] object. *)
Abbreviation bytes := (list Byte.byte).

(** A literal: [str "a.jpg"]. *)
Definition str (s : string) : pystr := list_ascii_of_string s.

(** ** [str.lower] *)

(** Code points 65-90 (A-Z) and the Latin-1 capitals 192-222 except 215
    map to the code point 32 above; every other one is unchanged. *)
Definition lower_char (c : ascii) : ascii :=
  let n := Z.of_N (N_of_ascii c) in
  if bool_decide (65 ≤ n ≤ 90 ∨ (192 ≤ n ≤ 222 ∧ n ≠ 215))
  then ascii_of_N (Z.to_N (n + 32)) else c.

Definition lower (s : pystr) : pystr := lower_char <$> s.

(** ** [str.endswith], [str.startswith] *)

Definition endswith (s suffix : pystr) : bool := bool_decide (suffix `suffix_of` s).

(** [s.endswith((t1, ..., tn))] *)
Definition endswith_any (s : pystr) (suffixes : list pystr) : bool :=
  existsb (endswith s) suffixes.

Definition startswith (s prefix : pystr) : bool := bool_decide (prefix `prefix_of` s).

(** ** [str.rfind] with a one-character needle: the highest index, or -1 *)

Fixpoint rfind (s : pystr) (c : ascii) : Z :=
  match s with
  | [] => -1
  | x :: s' =>
      let r := rfind s' c in
      if bool_decide (0 ≤ r) then r + 1
      else if bool_decide (x = c) then 0 else -1
  end.

(** [s[i:j]] for indices that are not negative. *)
Definition slice (s : pystr) (i j : Z) : pystr :=
  drop (Z.to_nat i) (take (Z.to_nat j) s).

(** ** [os.path.splitext] (genericpath._splitext with sep "/", extsep ".") *)

(** The loop that skips the leading dots of the last component: it finds
    a character that is not a dot, or runs out. *)
Fixpoint has_non_dot (seg : pystr) : bool :=
  match seg with
  | [] => false
  | c :: seg' => if bool_decide (c ≠ ".") then true else has_non_dot seg'
  end.

Definition splitext (p : pystr) : pystr * pystr :=
  let sepIndex := rfind p "/" in
  let dotIndex := rfind p "." in
  if bool_decide (dotIndex > sepIndex) then
    let filenameIndex := sepIndex + 1 in
    if has_non_dot (slice p filenameIndex dotIndex)
    then (take (Z.to_nat dotIndex) p, drop (Z.to_nat dotIndex) p)
    else (p, [])
  else (p, []).

(** ** [os.path.join] with two arguments (posixpath) *)

Definition path_join (a b : pystr) : pystr :=
  if startswith b (str "/") then b
  else if bool_decide (a = []) || endswith a (str "/") then a ++ b
  else a ++ str "/" ++ b.

(** ** The extension filters *)

Definition valid_image_extensions : list pystr :=
  [str ".jpg"; str ".jpeg"; str ".png"; str ".bmp"; str ".gif"; str ".tiff"].

(** [os.path.splitext(location)[1].lower()] *)
Definition file_ext (location : pystr) : pystr := lower (splitext location).2.

(** [file_ext in valid_image_extensions] *)
Definition is_valid_ext (location : pystr) : bool :=
  bool_decide (file_ext location ∈ valid_image_extensions).

(** [filename.lower().endswith(('.jpg', ...))] *)
Definition has_image_suffix (filename : pystr) : bool :=
  endswith_any (lower filename) valid_image_extensions.

(** A path is a directory part [dir] (empty, or ending in the last
    slash) followed by the last component. *)
Definition is_dir_part (dir : pystr) : Prop := dir = [] ∨ ∃ d, dir = d ++ ["/"].

(** Every valid extension is a dot followed by characters that are
    neither a dot nor a slash. *)
Definition ext_shape (x : pystr) : Prop := ∃ r, x = "." :: r ∧ ("." ∉ r) ∧ ("/" ∉ r).

(** A name that stays in its directory: it holds no separator and is
    none of the three names that name no entry of the directory. *)
Definition plain_name (name : pystr) : bool :=
  bool_decide ("/" ∉ name) && bool_decide (name ∉ [[]; str "."; str ".."]).

(** The path of the entry [name] of the directory [folder]. *)
Definition entry_path (folder name : pystr) : pystr :=
  (if endswith folder (str "/") then folder else folder ++ str "/") ++ name.

(** ** Examples *)

Example splitext_plain : splitext (str "/pics/a.JPG") = (str "/pics/a", str ".JPG").
Proof. by vm_compute. Qed.

Example splitext_dotfile : splitext (str "/pics/.jpg") = (str "/pics/.jpg", []).
Proof. by vm_compute. Qed.

Example splitext_dir_dot : splitext (str "/a.png/readme") = (str "/a.png/readme", []).
Proof. by vm_compute. Qed.

Example splitext_two : splitext (str "x.tar.gif") = (str "x.tar", str ".gif").
Proof. by vm_compute. Qed.

Example lower_mixed : lower (str "A.JpEg") = str "a.jpeg".
Proof. by vm_compute. Qed.

Example path_join_plain : path_join (str "out") (str "a.jpg") = str "out/a.jpg".
Proof. by vm_compute. Qed.

Example path_join_slash : path_join (str "out/") (str "a.jpg") = str "out/a.jpg".
Proof. by vm_compute. Qed.

Example path_join_abs : path_join (str "out") (str "/a.jpg") = str "/a.jpg".
Proof. by vm_compute. Qed.

(** A parent component is kept: the joined path leaves the folder. *)
Example path_join_parent : path_join (str "out") (str "../a.jpg") = str "out/../a.jpg".
Proof. by vm_compute. Qed.

(** ** Prefixes *)

Lemma startswith_nil s : startswith s [] = true.
Proof. apply bool_decide_eq_true_2, prefix_nil. Qed.

Lemma startswith_nil_cons c p : startswith [] (c :: p) = false.
Proof. apply bool_decide_eq_false_2, prefix_nil_not. Qed.

Lemma startswith_cons x s y p :
  startswith (x :: s) (y :: p) = bool_decide (y = x) && startswith s p.
Proof.
  unfold startswith. apply eq_true_iff_eq.
  rewrite andb_true_iff, !bool_decide_eq_true. split.
  - intros Hp. split; [by eapply prefix_cons_inv_1 | by eapply prefix_cons_inv_2].
  - intros [-> Hp]. by apply prefix_cons.
Qed.

(** ** Joining *)

(** A second component that starts with a slash replaces the first. *)
Lemma path_join_absolute a b : startswith b (str "/") = true → path_join a b = b.
Proof. unfold path_join. by intros ->. Qed.

(** A plain name is joined to a folder as an entry of it. *)
Lemma path_join_entry folder name :
  folder ≠ [] → plain_name name = true → path_join folder name = entry_path folder name.
Proof.
  intros Hf [Hslash%bool_decide_eq_true _]%andb_true_iff. unfold path_join, entry_path.
  change (str "/") with ["/"].
  assert (startswith name ["/"] = false) as ->.
  { destruct name as [|c name]; [apply startswith_nil_cons|].
    rewrite startswith_cons. apply andb_false_iff. left.
    apply bool_decide_eq_false_2. intros <-. apply Hslash. left. }
  rewrite (bool_decide_eq_false_2 (folder = [])) by done. simpl.
  destruct (endswith folder _); [done|]. by rewrite <-(assoc_L (++)).
Qed.

(** ** Characters *)

(** Case analysis over the 256 characters. *)
Ltac ascii_cases c := destruct c as [[|] [|] [|] [|] [|] [|] [|] [|]].

Lemma lower_char_idemp c : lower_char (lower_char c) = lower_char c.
Proof. ascii_cases c; by vm_compute. Qed.

(** Lowering neither creates nor removes a dot or a slash. *)
Lemma lower_char_dot c : lower_char c = "." ↔ c = ".".
Proof. ascii_cases c; by vm_compute. Qed.

Lemma lower_char_slash c : lower_char c = "/" ↔ c = "/".
Proof. ascii_cases c; by vm_compute. Qed.

Lemma lower_idemp s : lower (lower s) = lower s.
Proof.
  unfold lower. rewrite <-list_fmap_compose. apply list_fmap_ext.
  intros _ c _. apply lower_char_idemp.
Qed.

Lemma lower_app s1 s2 : lower (s1 ++ s2) = lower s1 ++ lower s2.
Proof. apply fmap_app. Qed.

Lemma lower_length s : length (lower s) = length s.
Proof. apply length_fmap. Qed.

(** ** [rfind] *)

Lemma rfind_bounds s c : -1 ≤ rfind s c < Z.of_nat (length s).
Proof.
  induction s as [|x s IH]; simpl; [lia|].
  repeat case_bool_decide; lia.
Qed.

Lemma rfind_absent s c : rfind s c = -1 ↔ c ∉ s.
Proof.
  induction s as [|x s IH]; simpl.
  - split; [intros _; apply not_elem_of_nil | done].
  - pose proof (rfind_bounds s c). rewrite not_elem_of_cons.
    repeat case_bool_decide; subst; split; try lia; try tauto.
    + intros [_ Hc]. apply IH in Hc. lia.
    + intros _. split; [done|]. apply IH. lia.
Qed.

(** The index [rfind] returns splits the string at the last occurrence. *)
Lemma rfind_last s1 s2 c : c ∉ s2 → rfind (s1 ++ c :: s2) c = Z.of_nat (length s1).
Proof.
  intros Hc. induction s1 as [|x s1 IH]; simpl.
  - apply rfind_absent in Hc. rewrite Hc.
    rewrite bool_decide_eq_false_2 by lia. by rewrite bool_decide_eq_true_2.
  - rewrite IH. rewrite bool_decide_eq_true_2 by lia. lia.
Qed.

Lemma rfind_found s c :
  0 ≤ rfind s c →
  ∃ s1 s2, s = s1 ++ (c :: s2) ∧ (c ∉ s2) ∧ rfind s c = Z.of_nat (length s1).
Proof.
  induction s as [|x s IH]; simpl; [lia|].
  case_bool_decide as Hr.
  - intros _. destruct (IH Hr) as (s1 & s2 & -> & Hc & Hlen).
    exists (x :: s1), s2. simpl. split_and!; try done. lia.
  - case_bool_decide as Hx; [|lia]. subst x. intros _.
    exists [], s. split_and!; [done | | done].
    apply rfind_absent. pose proof (rfind_bounds s c). lia.
Qed.

(** [rfind] only looks at which positions hold the needle. *)
Lemma rfind_fmap (f : ascii → ascii) s c :
  (∀ x, f x = c ↔ x = c) → rfind (f <$> s) c = rfind s c.
Proof.
  intros Hf. induction s as [|x s IH]; csimpl; [done|]. rewrite IH.
  case_bool_decide; [done|].
  by rewrite (bool_decide_ext _ _ (Hf x)).
Qed.

(** ** [splitext] *)

Lemma slice_middle (a b c : pystr) :
  slice (a ++ b ++ c) (Z.of_nat (length a)) (Z.of_nat (length (a ++ b))) = b.
Proof.
  unfold slice. rewrite !Nat2Z.id, app_assoc, take_app_length.
  by rewrite drop_app_length.
Qed.

Lemma rfind_slash_dir_part dir name :
  is_dir_part dir → "/" ∉ name →
  rfind (dir ++ name) "/" = Z.of_nat (length dir) - 1.
Proof.
  intros [->|[d ->]] Hname.
  - simpl. by apply rfind_absent.
  - rewrite <-app_assoc. simpl. rewrite rfind_last by done.
    rewrite length_app. simpl. lia.
Qed.

(** Every path splits into its directory part and a last component
    without a slash. *)
Lemma dir_part_split p : ∃ dir name, p = dir ++ name ∧ is_dir_part dir ∧ "/" ∉ name.
Proof.
  destruct (decide (0 ≤ rfind p "/")) as [H|H].
  - destruct (rfind_found _ _ H) as (s1 & s2 & -> & Hs2 & _).
    exists (s1 ++ ["/"]), s2. rewrite <-app_assoc. split_and!; try done.
    right. by exists s1.
  - exists [], p. split_and!; [done | by left |].
    apply rfind_absent. pose proof (rfind_bounds p "/"). lia.
Qed.

(** The extension is cut off when the last component has a dot that
    follows a character which is not a dot. *)
Lemma splitext_ext dir base e :
  is_dir_part dir → "/" ∉ base → "/" ∉ e → "." ∉ e → has_non_dot base = true →
  splitext (dir ++ base ++ "." :: e) = (dir ++ base, "." :: e).
Proof.
  intros Hdir Hbase He Hdot Hnd. unfold splitext.
  rewrite rfind_slash_dir_part; [|done|].
  2:{ rewrite elem_of_app, elem_of_cons. intros [?|[?|?]]; done. }
  rewrite (app_assoc dir base), rfind_last by done.
  rewrite bool_decide_eq_true_2 by (rewrite length_app; lia).
  replace (Z.of_nat (length dir) - 1 + 1) with (Z.of_nat (length dir)) by lia.
  rewrite <-(app_assoc dir base), slice_middle, Hnd.
  rewrite Nat2Z.id, app_assoc. by rewrite take_app_length, drop_app_length.
Qed.

(** Without such a dot there is no extension. *)
Lemma splitext_no_dot dir name :
  is_dir_part dir → "/" ∉ name → "." ∉ name → splitext (dir ++ name) = (dir ++ name, []).
Proof.
  intros Hdir Hname Hdot. unfold splitext.
  rewrite rfind_slash_dir_part by done.
  case_bool_decide as Hgt; [|done]. exfalso.
  destruct (rfind_found (dir ++ name) ".") as (s1 & s2 & Heq & Hs2 & Hlen); [lia|].
  rewrite Hlen in Hgt.
  assert ("." ∈ drop (length dir) (dir ++ name)) as Hin; [|by rewrite drop_app_length in Hin].
  rewrite Heq, drop_app_le by lia. rewrite elem_of_app. right. left.
Qed.

Lemma has_non_dot_false seg : has_non_dot seg = false ↔ ∀ c, c ∈ seg → c = ".".
Proof.
  induction seg as [|c seg IH]; simpl.
  - split; [by intros _ c ?%elem_of_nil | done].
  - case_bool_decide as Hc.
    + split; [done|]. intros H. destruct Hc. apply H. left.
    + rewrite IH. subst. split; [by intros H c' [->|?]%elem_of_cons; auto|].
      intros H c' Hc'. apply H. by right.
Qed.

Lemma splitext_dots dir dots e :
  is_dir_part dir → has_non_dot dots = false → "/" ∉ e → "." ∉ e →
  splitext (dir ++ dots ++ "." :: e) = (dir ++ dots ++ "." :: e, []).
Proof.
  intros Hdir Hdots He Hdot. unfold splitext.
  assert ("/" ∉ dots) as Hsl.
  { intros Hin. by specialize (proj1 (has_non_dot_false _) Hdots _ Hin). }
  rewrite rfind_slash_dir_part; [|done|].
  2:{ rewrite elem_of_app, elem_of_cons. intros [?|[?|?]]; done. }
  rewrite (app_assoc dir dots), rfind_last by done.
  replace (Z.of_nat (length dir) - 1 + 1) with (Z.of_nat (length dir)) by lia.
  rewrite <-(app_assoc dir dots), slice_middle, Hdots. by case_bool_decide.
Qed.

(** The two parts always concatenate to the path. *)
Lemma splitext_app p : (splitext p).1 ++ (splitext p).2 = p.
Proof.
  unfold splitext. repeat case_match; simpl; auto using take_drop, app_nil_r.
Qed.

(** A last component either has no dot, or splits at its last dot. *)
Lemma name_cases name :
  "/" ∉ name →
  "." ∉ name ∨
  ∃ base e, name = base ++ "." :: e ∧ ("." ∉ e) ∧ ("/" ∉ base) ∧ ("/" ∉ e).
Proof.
  intros Hsl. destruct (decide ("." ∈ name)) as [Hin|]; [right | by left].
  destruct (rfind_found name ".") as (base & e & -> & He & _).
  { pose proof (rfind_bounds name "."). pose proof (rfind_absent name "."). 
    destruct (decide (rfind name "." = -1)); [tauto | lia]. }
  exists base, e. rewrite elem_of_app, elem_of_cons in Hsl. tauto.
Qed.

(** [splitext] works on the last component only. *)
Lemma splitext_dir dir name :
  is_dir_part dir → "/" ∉ name →
  splitext (dir ++ name) = (dir ++ (splitext name).1, (splitext name).2).
Proof.
  intros Hdir Hname. assert (is_dir_part []) as Hnil by by left.
  destruct (name_cases name Hname) as [Hdot|(base & e & -> & He & Hb & Hsl)].
  - rewrite splitext_no_dot by done.
    by rewrite (splitext_no_dot [] name Hnil Hname Hdot : splitext name = _).
  - destruct (has_non_dot base) eqn:Hnd.
    + rewrite splitext_ext by done.
      by rewrite (splitext_ext [] base e Hnil Hb Hsl He Hnd : splitext (base ++ _) = _).
    + rewrite splitext_dots by done.
      by rewrite (splitext_dots [] base e Hnil Hnd Hsl He : splitext (base ++ _) = _).
Qed.

Lemma has_non_dot_lower seg : has_non_dot (lower seg) = has_non_dot seg.
Proof.
  induction seg as [|c seg IH]; csimpl; [done|]. rewrite IH.
  apply (f_equal (λ b : bool, if b then true else has_non_dot seg)).
  apply bool_decide_ext. by rewrite lower_char_dot.
Qed.

Lemma slice_lower s i j : slice (lower s) i j = lower (slice s i j).
Proof. unfold slice, lower. by rewrite fmap_drop, fmap_take. Qed.

(** [splitext] commutes with [lower]: dots and slashes are not letters. *)
Lemma splitext_lower p :
  splitext (lower p) = (lower (splitext p).1, lower (splitext p).2).
Proof.
  unfold splitext.
  rewrite !(rfind_fmap lower_char) by auto using lower_char_dot, lower_char_slash.
  rewrite slice_lower, has_non_dot_lower.
  repeat case_match; simpl; try done.
  unfold lower. by rewrite fmap_take, fmap_drop.
Qed.

(** ** The extension filters *)

Lemma file_ext_lower p : file_ext (lower p) = file_ext p.
Proof. unfold file_ext. rewrite splitext_lower. apply lower_idemp. Qed.

Lemma file_ext_dir dir name :
  is_dir_part dir → "/" ∉ name → file_ext (dir ++ name) = file_ext name.
Proof. intros. unfold file_ext. by rewrite splitext_dir. Qed.

Lemma has_image_suffix_counterexample :
  has_image_suffix (str ".jpg") = true ∧ is_valid_ext (str ".jpg") = false.
Proof. by vm_compute. Qed.

Lemma valid_image_extensions_shape : Forall ext_shape valid_image_extensions.
Proof.
  unfold valid_image_extensions.
  repeat (apply Forall_cons_2;
          [eexists; split_and!; [reflexivity | compute_done..]|]).
  apply Forall_nil_2.
Qed.

Lemma lower_not_elem_of s c :
  (∀ x, lower_char x = c ↔ x = c) → c ∉ lower s → c ∉ s.
Proof.
  intros Hc Hn Hin. apply Hn. unfold lower. apply list_elem_of_fmap.
  exists c. split; [symmetry; by apply Hc | done].
Qed.

Lemma ext_shape_lower e : ext_shape (lower e) → ext_shape e.
Proof.
  intros (r & Heq & Hdot & Hsl). destruct e as [|c e]; [done|].
  injection Heq as Hc <-. apply lower_char_dot in Hc as ->.
  exists e. eauto using lower_not_elem_of, lower_char_dot, lower_char_slash.
Qed.

Lemma valid_ext_shape e : lower e ∈ valid_image_extensions → ext_shape e.
Proof.
  intros Hin. apply ext_shape_lower.
  by apply (proj1 (Forall_forall _ _) valid_image_extensions_shape).
Qed.

(** C4: the per-entry filter accepts exactly the paths whose last
    component is a base with a character other than a dot, followed by
    one of the six extensions in any letter case. *)
Theorem is_valid_ext_spec p :
  is_valid_ext p = true ↔
  ∃ dir base e, p = dir ++ base ++ e ∧ is_dir_part dir ∧ ("/" ∉ base) ∧
    has_non_dot base = true ∧ lower e ∈ valid_image_extensions.
Proof.
  unfold is_valid_ext. rewrite bool_decide_eq_true. split.
  - destruct (dir_part_split p) as (dir & name & -> & Hdir & Hname).
    rewrite file_ext_dir by done. unfold file_ext. intros Hin.
    assert (is_dir_part []) as Hnil by by left.
    destruct (name_cases name Hname) as [Hdot|(base & e & -> & He & Hb & Hsl)].
    { rewrite (splitext_no_dot [] name Hnil Hname Hdot : splitext name = _) in Hin.
      by apply valid_ext_shape in Hin as (? & ? & _). }
    destruct (has_non_dot base) eqn:Hnd.
    + rewrite (splitext_ext [] base e Hnil Hb Hsl He Hnd : splitext (base ++ _) = _) in Hin.
      by exists dir, base, ("." :: e).
    + rewrite (splitext_dots [] base e Hnil Hnd Hsl He : splitext (base ++ _) = _) in Hin.
      by apply valid_ext_shape in Hin as (? & ? & _).
  - intros (dir & base & e & -> & Hdir & Hb & Hnd & Hin).
    destruct (valid_ext_shape e Hin) as (e' & -> & Hdot & Hsl).
    unfold file_ext. by rewrite splitext_ext.
Qed.

(** The filter ignores letter case: two paths that differ only in case
    get the same verdict. *)
Theorem is_valid_ext_case_insensitive p q :
  lower p = lower q → is_valid_ext p = is_valid_ext q.
Proof.
  intros Heq. unfold is_valid_ext.
  by rewrite <-(file_ext_lower p), <-(file_ext_lower q), Heq.
Qed.

Lemma is_valid_ext_case_insensitive_witness :
  lower (str "/a/B.PnG") = lower (str "/a/b.png") ∧
  is_valid_ext (str "/a/B.PnG") = is_valid_ext (str "/a/b.png").
Proof.
  split; [by vm_compute|]. apply is_valid_ext_case_insensitive. by vm_compute.
Defined.

(** The verdict depends on the last path component only. *)
Theorem is_valid_ext_name_only dir name :
  is_dir_part dir → "/" ∉ name → is_valid_ext (dir ++ name) = is_valid_ext name.
Proof. intros. unfold is_valid_ext. by rewrite file_ext_dir. Qed.

Lemma is_valid_ext_name_only_witness :
  is_valid_ext (str "/pics/" ++ str "a.jpg") = is_valid_ext (str "a.jpg").
Proof.
  apply is_valid_ext_name_only; [right; by exists (str "/pics") | compute_done].
Defined.

(** A path the per-entry filter accepts also passes the suffix test
    the reference loader uses. *)
Theorem is_valid_ext_has_image_suffix p :
  is_valid_ext p = true → has_image_suffix p = true.
Proof.
  unfold is_valid_ext, has_image_suffix, endswith_any, file_ext.
  rewrite bool_decide_eq_true. intros Hin.
  apply existsb_exists. exists (lower (splitext p).2).
  split; [by apply list_elem_of_In|].
  apply bool_decide_eq_true. exists (lower (splitext p).1).
  by rewrite <-lower_app, splitext_app.
Qed.

Lemma is_valid_ext_has_image_suffix_witness :
  is_valid_ext (str "/pics/a.JPG") = true ∧ has_image_suffix (str "/pics/a.JPG") = true.
Proof.
  split; [by vm_compute|]. apply is_valid_ext_has_image_suffix. by vm_compute.
Defined.
