(* ===== verification/PyDict.v ===== *)
(** * PyDict: Python exceptions and the insertion-ordered [dict]

    [PyExn] lists the exception classes that can reach the handlers of
    src/main.py; [is_Exception] is the test [except Exception] makes.

    A [dict] is an association list in insertion order with unique
    keys: [dict_set] is [d[k] = v] (an existing key keeps its place),
    [dict_get] is [d[k]], [dict_alter] mutates the value stored under a
    key ([d[k].append(x)]).  The values of the scanner's dicts are lists
    created one per key, so no two keys share a value and value
    semantics is exact.  [dict_to_map] forgets the order: the section
    proves that the operations refine lookup, insert and alter of
    [gmap], and that they keep the keys unique. *)

From stdpp Require Import gmap.
From S2P Require Import Prelude PyStr.

(** ** Exceptions *)

Inductive PyExn : Type :=
| ValueError        (* PIL: images do not match / wrong mode; int() of a non-number *)
| OSError           (* unreadable content, undecodable or truncated image, failed write *)
| KeyError          (* missing dict key *)
| AttributeError    (* a method of None *)
| BackEndError      (* the file-system provider failed *)
| RuntimeError
| RecursionError    (* the call stack of the interpreter is full; a RuntimeError *)
| GetoptError
| KeyboardInterrupt
| SystemExit (code : Z).

#[export] Instance PyExn_eq_dec : EqDecision PyExn.
Proof. solve_decision. Defined.

(** [except Exception] catches every class but the ones deriving from
    [BaseException] directly. *)
Definition is_Exception (e : PyExn) : bool :=
  match e with SystemExit _ | KeyboardInterrupt => false | _ => true end.

(** [except OSError] *)
Definition is_OSError (e : PyExn) : bool :=
  match e with OSError => true | _ => false end.

(** [except getopt.GetoptError] *)
Definition is_GetoptError (e : PyExn) : bool :=
  match e with GetoptError => true | _ => false end.

(** ** Dictionaries *)

Section dict.
Context {K : Type} `{Countable K} {V : Type}.
Implicit Types (d : list (K * V)) (k : K) (v : V).

(** [d[k]], [None] standing for [KeyError] *)
Fixpoint dict_get d k : option V :=
  match d with
  | [] => None
  | (k', v) :: d' => if decide (k = k') then Some v else dict_get d' k
  end.

(** [d[k] = v] *)
Fixpoint dict_set d k v : list (K * V) :=
  match d with
  | [] => [(k, v)]
  | (k', v') :: d' =>
      if decide (k = k') then (k, v) :: d' else (k', v') :: dict_set d' k v
  end.

(** In-place mutation of the value under [k]; no effect on other keys. *)
Fixpoint dict_alter (f : V → V) k d : list (K * V) :=
  match d with
  | [] => []
  | (k', v) :: d' =>
      if decide (k = k') then (k', f v) :: d' else (k', v) :: dict_alter f k d'
  end.

Definition dict_keys d : list K := d.*1.

Definition dict_wf d : Prop := NoDup (dict_keys d).

(** The order-forgetting view. *)
Definition dict_to_map d : gmap K V := list_to_map d.

(** ** Refinement of [gmap] *)

Lemma dict_get_to_map d k : dict_get d k = dict_to_map d !! k.
Proof.
  unfold dict_to_map. induction d as [|[k' v] d IH]; simpl; [done|].
  case_decide; simplify_map_eq; done.
Qed.

Lemma dict_set_to_map d k v : dict_to_map (dict_set d k v) = <[k:=v]> (dict_to_map d).
Proof.
  unfold dict_to_map. induction d as [|[k' v'] d IH]; simpl; [done|].
  case_decide; simpl; subst.
  - by rewrite insert_insert_eq.
  - by rewrite IH, insert_insert_ne.
Qed.

Lemma dict_alter_to_map f d k :
  dict_wf d → dict_to_map (dict_alter f k d) = alter f k (dict_to_map d).
Proof.
  unfold dict_to_map, dict_wf, dict_keys.
  induction d as [|[k' v'] d IH]; csimpl; [by rewrite alter_empty|].
  intros [Hk' Hd]%NoDup_cons. case_decide; simpl; subst.
  - by rewrite alter_insert_eq.
  - by rewrite IH, alter_insert_ne.
Qed.

(** ** Lookup after update *)

Lemma dict_get_set d k k' v :
  dict_get (dict_set d k v) k' = if decide (k = k') then Some v else dict_get d k'.
Proof.
  rewrite !dict_get_to_map, dict_set_to_map.
  case_decide; simplify_map_eq; done.
Qed.

Lemma dict_get_alter f d k k' :
  dict_get (dict_alter f k d) k' =
  if decide (k = k') then f <$> dict_get d k' else dict_get d k'.
Proof.
  induction d as [|[k0 v0] d IH]; simpl; [by case_decide|].
  repeat (case_decide; simpl; subst); try done.
Qed.

Lemma dict_get_Some_keys d k v : dict_get d k = Some v → k ∈ dict_keys d.
Proof.
  rewrite dict_get_to_map. intros Hk%elem_of_list_to_map_2.
  apply list_elem_of_fmap. by exists (k, v).
Qed.

Lemma dict_get_is_Some d k : is_Some (dict_get d k) ↔ k ∈ dict_keys d.
Proof.
  rewrite dict_get_to_map. unfold dict_to_map, dict_keys.
  rewrite <-not_eq_None_Some, <-not_elem_of_list_to_map.
  split; [apply dec_stable | by intros ? ?].
Qed.

(** ** Keys and order *)

Lemma dict_keys_alter f d k : dict_keys (dict_alter f k d) = dict_keys d.
Proof.
  unfold dict_keys. induction d as [|[k' v] d IH]; csimpl; [done|].
  case_decide; csimpl; by rewrite ?IH.
Qed.

(** A new key goes to the end; an existing key keeps its place. *)
Lemma dict_keys_set d k v :
  dict_keys (dict_set d k v) =
  if decide (k ∈ dict_keys d) then dict_keys d else dict_keys d ++ [k].
Proof.
  unfold dict_keys. induction d as [|[k' v'] d IH]; csimpl; [done|].
  destruct (decide (k = k')) as [->|Hne]; csimpl.
  - by rewrite decide_True by left.
  - rewrite IH. destruct (decide (k ∈ d.*1)) as [Hin|Hnin].
    + by rewrite decide_True by by right.
    + rewrite decide_False; [done|]. by intros [?|?]%elem_of_cons.
Qed.

Lemma dict_set_new d k v : k ∉ dict_keys d → dict_set d k v = d ++ [(k, v)].
Proof.
  induction d as [|[k' v'] d IH]; simpl; [done|].
  rewrite not_elem_of_cons. intros [Hne Hnin]. rewrite decide_False by done.
  by rewrite IH.
Qed.

Lemma dict_wf_nil : dict_wf [].
Proof. apply NoDup_nil_2. Qed.

Lemma dict_wf_set d k v : dict_wf d → dict_wf (dict_set d k v).
Proof.
  unfold dict_wf. rewrite dict_keys_set. case_decide; [done|].
  intros Hd. apply NoDup_app. split_and!; [done | | apply NoDup_singleton].
  intros x Hx ->%list_elem_of_singleton. done.
Qed.

Lemma dict_wf_alter f d k : dict_wf d → dict_wf (dict_alter f k d).
Proof. unfold dict_wf. by rewrite dict_keys_alter. Qed.

(** A well-formed dict holds each of its items under its key. *)
Lemma dict_get_elem_of d k v : dict_wf d → (k, v) ∈ d → dict_get d k = Some v.
Proof.
  intros Hwf Hin. rewrite dict_get_to_map.
  by apply elem_of_list_to_map_1.
Qed.

Lemma dict_get_elem_of_2 d k v : dict_get d k = Some v → (k, v) ∈ d.
Proof. rewrite dict_get_to_map. apply elem_of_list_to_map_2. Qed.

(** Two dicts with the same keys in the same order and the same value
    under each of them are the same dict. *)
Lemma dict_ext d1 d2 :
  dict_wf d1 → dict_keys d1 = dict_keys d2 →
  (∀ k, k ∈ dict_keys d1 → dict_get d1 k = dict_get d2 k) → d1 = d2.
Proof.
  unfold dict_wf, dict_keys. revert d2.
  induction d1 as [|[k v] d1 IH]; intros [|[k' v'] d2]; csimpl; try done.
  intros [Hk Hnd]%NoDup_cons [= <- Hks] Hget.
  pose proof (Hget k ltac:(left)) as Hv. simpl in Hv.
  rewrite !decide_True in Hv by done. injection Hv as <-.
  f_equal. apply IH; [done..|]. intros k' Hin.
  specialize (Hget k' ltac:(by right)). simpl in Hget.
  by rewrite !decide_False in Hget by (by intros ->).
Qed.

(** The dict that holds [f k] under every key [k] of [l]. *)
Lemma dict_get_tabulate {A} (f : K → V) (l : list (K * A)) k :
  dict_get ((λ x, (x.1, f x.1)) <$> l) k = if decide (k ∈ l.*1) then Some (f k) else None.
Proof.
  induction l as [|[k' a] l IH]; csimpl; [done|].
  destruct (decide (k = k')) as [->|Hne].
  - by rewrite decide_True by left.
  - rewrite IH. destruct (decide (k ∈ l.*1)) as [Hin|Hnin].
    + by rewrite decide_True by by right.
    + rewrite decide_False; [done|]. by intros [?|?]%elem_of_cons.
Qed.

(** A property of the items survives a store that has it, and a
    mutation that keeps it. *)
Lemma Forall_dict_set (P : K * V → Prop) d k v :
  Forall P d → P (k, v) → Forall P (dict_set d k v).
Proof.
  intros Hd Hv. induction Hd as [|[k' v'] d Hkv Hd IH]; simpl.
  - by constructor.
  - case_decide; by constructor.
Qed.

Lemma Forall_dict_alter (P : K * V → Prop) f d k :
  Forall P d → (∀ v, P (k, v) → P (k, f v)) → Forall P (dict_alter f k d).
Proof.
  intros Hd Hf. induction Hd as [|[k' v'] d Hkv Hd IH]; simpl; [done|].
  case_decide; subst; constructor; auto.
Qed.

End dict.

#[export] Hint Resolve dict_wf_nil dict_wf_set dict_wf_alter : scan.
