(* ===== verification/Cli.v ===== *)
(** * Cli: the two library routines behind the command line

    [getopt] is [getopt.getopt(args, shortopts)] of the Python standard
    library, without long options (src/main.py passes none): options
    are read up to the first argument that is not one, a cluster [-abc]
    is split, an option declared with a colon takes the rest of its
    cluster or the next argument as its value.  The outer loop of the
    library consumes at least one argument a turn; the model runs it
    with the number of arguments as fuel, and [getopt_loop_fuel] shows
    that more fuel changes nothing.

    [int_of_str] is [int(s)] for a string: white space around, a sign,
    decimal digits with single underscores between them.  The limit on
    the number of digits (4300 by default) is not modelled.

    [str_in] is the operator [in] between two strings. *)

From S2P Require Import Prelude PyStr PyDict.

#[local] Open Scope Z_scope.
#[local] Open Scope char_scope.
#[local] Open Scope res_scope.

(** ** [sub in s] *)

Fixpoint str_in (sub s : pystr) : bool :=
  startswith s sub
  || match s with
     | [] => false
     | _ :: s' => str_in sub s'
     end.

(** ** [getopt] *)

(** A parsed option: [('-x', value)], the value empty for a flag. *)
Abbreviation Opt := (pystr * pystr)%type.

(** [short_has_arg(opt, shortopts)] *)
Fixpoint short_has_arg (opt : ascii) (shortopts : pystr) : PyExn + bool :=
  match shortopts with
  | [] => inl GetoptError
  | c :: rest =>
      if bool_decide (opt = c) && negb (bool_decide (c = ":"))
      then inr (startswith rest (str ":"))
      else short_has_arg opt rest
  end.

(** [do_shorts(opts, optstring, shortopts, args)] *)
Fixpoint do_shorts (opts : list Opt) (optstring shortopts : pystr) (args : list pystr)
    : PyExn + (list Opt * list pystr) :=
  match optstring with
  | [] => inr (opts, args)
  | opt :: optstring =>
      let! has_arg := short_has_arg opt shortopts in
      if has_arg : bool then
        match optstring, args with
        | [], [] => inl GetoptError
        | [], optarg :: args => inr (opts ++ [("-" :: [opt], optarg)], args)
        | optarg, _ => inr (opts ++ [("-" :: [opt], optarg)], args)
        end
      else do_shorts (opts ++ [("-" :: [opt], [])]) optstring shortopts args
  end.

(** The [while] loop of [getopt], [fuel] turns of it at most. *)
Fixpoint getopt_loop (fuel : nat) (opts : list Opt) (args : list pystr) (shortopts : pystr)
    : PyExn + (list Opt * list pystr) :=
  match fuel, args with
  | S fuel, arg :: args' =>
      if startswith arg (str "-") && negb (bool_decide (arg = str "-")) then
        if bool_decide (arg = str "--") then inr (opts, args')
        else if startswith arg (str "--") then inl GetoptError
        else
          let! (opts, args) := do_shorts opts (drop 1 arg) shortopts args' in
          getopt_loop fuel opts args shortopts
      else inr (opts, args)
  | _, _ => inr (opts, args)
  end.

Definition getopt (args : list pystr) (shortopts : pystr) : PyExn + (list Opt * list pystr) :=
  getopt_loop (length args) [] args shortopts.

(** The arguments that spell a list of options, each value an argument
    of its own. *)
Definition unparse (opts : list Opt) : list pystr := flat_map (λ o, [o.1; o.2]) opts.

(** An option of [shortopts] that takes a value. *)
Definition valued (shortopts : pystr) (o : Opt) : Prop :=
  ∃ c, o.1 = "-" :: [c] ∧ c ≠ "-" ∧ short_has_arg c shortopts = inr true.

(** Arguments at which [getopt] stops reading options. *)
Definition stops (args : list pystr) : Prop :=
  match args with
  | [] => True
  | arg :: _ => startswith arg (str "-") && negb (bool_decide (arg = str "-")) = false
  end.

(** An option of [shortopts]: a dash and a declared letter, without a
    value when the letter takes none. *)
Definition declared (shortopts : pystr) (o : Opt) : Prop :=
  ∃ c b, o.1 = "-" :: [c] ∧ short_has_arg c shortopts = inr b ∧ (b = false → o.2 = []).

(** ** [int] *)

(** The white space [int] strips, among the code points below 256. *)
Definition is_space (c : ascii) : bool :=
  let n := Z.of_N (N_of_ascii c) in
  bool_decide (9 ≤ n ≤ 13 ∨ 28 ≤ n ≤ 32 ∨ n = 133 ∨ n = 160).

Fixpoint lstrip (s : pystr) : pystr :=
  match s with
  | c :: s' => if is_space c then lstrip s' else s
  | [] => []
  end.

Definition strip (s : pystr) : pystr := reverse (lstrip (reverse (lstrip s))).

Definition digit_value (c : ascii) : option Z :=
  let n := Z.of_N (N_of_ascii c) in
  if bool_decide (48 ≤ n ≤ 57) then Some (n - 48) else None.

(** The digits with their underscores, from the left; [after_digit]
    says whether the character before was a digit. *)
Fixpoint parse_digits (acc : Z) (after_digit : bool) (s : pystr) : option Z :=
  match s with
  | [] => if after_digit then Some acc else None
  | c :: s' =>
      if bool_decide (c = "_") then
        if after_digit then parse_digits acc false s' else None
      else
        match digit_value c with
        | Some d => parse_digits (10 * acc + d) true s'
        | None => None
        end
  end.

Definition int_of_str (s : pystr) : PyExn + Z :=
  let s := strip s in
  let '(sign, body) :=
    if startswith s (str "-") then (-1, drop 1 s)
    else if startswith s (str "+") then (1, drop 1 s)
    else (1, s) in
  match parse_digits 0 false body with
  | Some n => inr (sign * n)
  | None => inl ValueError
  end.

(** The decimal digits of a natural number, least significant first. *)
Fixpoint le_digits (fuel : nat) (n : Z) : list Z :=
  match fuel with
  | O => []
  | S fuel => n `mod` 10 :: if bool_decide (n < 10) then [] else le_digits fuel (n `div` 10)
  end.

(** The same as characters, most significant first, in front of
    [acc]. *)
Definition digit_char (d : Z) : ascii := ascii_of_N (Z.to_N (48 + d)).

Fixpoint digits_of (fuel : nat) (n : Z) (acc : pystr) : pystr :=
  match fuel with
  | O => acc
  | S fuel =>
      let acc := digit_char (n `mod` 10) :: acc in
      if bool_decide (n < 10) then acc else digits_of fuel (n `div` 10) acc
  end.

(** [str(n)] for an integer. *)
Definition str_of_int (n : Z) : pystr :=
  (if bool_decide (n < 0) then ["-"] else [])
  ++ digits_of (S (Z.to_nat (Z.abs n))) (Z.abs n) [].

(** ** Examples *)

Example getopt_typical :
  getopt [str "-d"; str "disk.dd"; str "-r"; str "refs"; str "-i"; str "5"] (str "hd:r:i:o:")
  = inr ([(str "-d", str "disk.dd"); (str "-r", str "refs"); (str "-i", str "5")], []).
Proof. by vm_compute. Qed.

Example getopt_cluster :
  getopt [str "-hddisk.dd"; str "x"] (str "hd:r:i:o:")
  = inr ([(str "-h", []); (str "-d", str "disk.dd")], [str "x"]).
Proof. by vm_compute. Qed.

Example getopt_unknown : getopt [str "-x"; str "1"] (str "hd:r:i:o:") = inl GetoptError.
Proof. by vm_compute. Qed.

Example getopt_missing_value : getopt [str "-h"; str "-d"] (str "hd:r:i:o:") = inl GetoptError.
Proof. by vm_compute. Qed.

Example getopt_long : getopt [str "--help"; str "x"] (str "hd:r:i:o:") = inl GetoptError.
Proof. by vm_compute. Qed.

Example getopt_negative_value :
  getopt [str "-i"; str "-3"] (str "hd:r:i:o:") = inr ([(str "-i", str "-3")], []).
Proof. by vm_compute. Qed.

Example getopt_stops :
  getopt [str "disk.dd"; str "-r"; str "refs"] (str "hd:r:i:o:")
  = inr ([], [str "disk.dd"; str "-r"; str "refs"]).
Proof. by vm_compute. Qed.

Example int_plain : int_of_str (str "10") = inr 10.
Proof. by vm_compute. Qed.

Example int_signed_spaced : int_of_str (str " -1_000 ") = inr (-1000).
Proof. by vm_compute. Qed.

Example int_float : int_of_str (str "2.5") = inl ValueError.
Proof. by vm_compute. Qed.

Example int_empty : int_of_str [] = inl ValueError.
Proof. by vm_compute. Qed.

Example int_double_underscore : int_of_str (str "1__0") = inl ValueError.
Proof. by vm_compute. Qed.

Example str_of_int_examples :
  str_of_int 0 = str "0" ∧ str_of_int 1204 = str "1204" ∧ str_of_int (-37) = str "-37".
Proof. by vm_compute. Qed.

(** ** [in] on the options [getopt] returns *)

Lemma str_in_option (c d : ascii) :
  str_in ("-" :: [c]) ("-" :: [d]) = bool_decide (c = d).
Proof.
  unfold str_in. rewrite !startswith_cons, startswith_nil, startswith_nil_cons.
  rewrite !startswith_nil_cons, bool_decide_eq_true_2 by done.
  by rewrite !andb_false_r, !orb_false_r, andb_true_r.
Qed.

(** ** Fuel *)

Lemma do_shorts_length opts optstring shortopts args opts' args' :
  do_shorts opts optstring shortopts args = inr (opts', args') →
  (length args' ≤ length args)%nat.
Proof.
  revert opts. induction optstring as [|c optstring IH]; intros opts; simpl.
  { by intros [= _ <-]. }
  destruct (short_has_arg c shortopts) as [e|[]]; simpl; [done| |apply IH].
  destruct optstring, args; intros [= _ <-]; simpl; lia.
Qed.

(** Two amounts of fuel that both cover the arguments give the same
    result. *)
Lemma getopt_loop_fuel_eq fuel1 fuel2 opts args shortopts :
  (length args ≤ fuel1)%nat → (length args ≤ fuel2)%nat →
  getopt_loop fuel1 opts args shortopts = getopt_loop fuel2 opts args shortopts.
Proof.
  revert fuel2 opts args.
  induction fuel1 as [|fuel1 IH]; intros fuel2 opts [|arg args] H1 H2;
    simpl in *; try lia; try by destruct fuel2.
  destruct fuel2 as [|fuel2]; simpl; [lia|].
  repeat case_match; try done.
  destruct (do_shorts _ _ _ _) as [e|[opts' args']] eqn:Hd; simpl; [done|].
  apply do_shorts_length in Hd. apply IH; lia.
Qed.

(** The loop of [getopt] ends before its fuel does: with any fuel that
    covers the arguments it gives the result of [getopt]. *)
Theorem getopt_loop_fuel fuel args shortopts :
  (length args ≤ fuel)%nat →
  getopt_loop fuel [] args shortopts = getopt args shortopts.
Proof. intros Hf. unfold getopt. by apply getopt_loop_fuel_eq. Qed.

(** ** Errors *)

Lemma short_has_arg_inl opt shortopts e : short_has_arg opt shortopts = inl e → e = GetoptError.
Proof.
  induction shortopts as [|c rest IH]; simpl; [by intros [= <-]|].
  by destruct (_ && _).
Qed.

Lemma do_shorts_inl opts optstring shortopts args e :
  do_shorts opts optstring shortopts args = inl e → e = GetoptError.
Proof.
  revert opts. induction optstring as [|c optstring IH]; intros opts; simpl; [done|].
  destruct (short_has_arg c shortopts) as [e'|[]] eqn:Hs; simpl.
  - intros [= <-]. by eapply short_has_arg_inl.
  - by destruct optstring, args; intros [= <-].
  - apply IH.
Qed.

Lemma getopt_loop_inl fuel opts args shortopts e :
  getopt_loop fuel opts args shortopts = inl e → e = GetoptError.
Proof.
  revert opts args. induction fuel as [|fuel IH]; intros opts [|arg args]; simpl; try done.
  repeat case_match; try done; try by intros [= <-].
  destruct (do_shorts _ _ _ _) as [e'|[opts' args']] eqn:Hd; simpl; [|apply IH].
  intros [= <-]. by eapply do_shorts_inl.
Qed.

(** ** The options returned *)

Lemma do_shorts_declared opts optstring shortopts args opts' args' :
  do_shorts opts optstring shortopts args = inr (opts', args') →
  Forall (declared shortopts) opts → Forall (declared shortopts) opts'.
Proof.
  revert opts. induction optstring as [|c optstring IH]; intros opts; simpl.
  { by intros [= <- _]. }
  destruct (short_has_arg c shortopts) as [e|[]] eqn:Hs; simpl; [done| |].
  - intros Hd Hopts.
    assert (∀ v, Forall (declared shortopts) (opts ++ [("-" :: [c], v)])) as Hnew.
    { intros v. apply Forall_app_2, Forall_singleton; [done|]. by exists c, true. }
    destruct optstring, args; simplify_eq/=; apply Hnew.
  - intros Hd Hopts. apply (IH _ Hd), Forall_app_2, Forall_singleton; [done|].
    by exists c, false.
Qed.

Lemma getopt_loop_declared fuel opts args shortopts opts' args' :
  getopt_loop fuel opts args shortopts = inr (opts', args') →
  Forall (declared shortopts) opts → Forall (declared shortopts) opts'.
Proof.
  revert opts args. induction fuel as [|fuel IH]; intros opts [|arg args]; simpl;
    try by intros [= <- _].
  repeat case_match; try done; try by intros [= <- _].
  destruct (do_shorts _ _ _ _) as [e'|[opts1 args1]] eqn:Hd; simpl; [done|].
  intros Hl Hopts. apply (IH _ _ Hl). by eapply do_shorts_declared.
Qed.

(** ** Options spelled out and read back *)

Lemma getopt_loop_unparse fuel opts0 opts rest shortopts :
  Forall (valued shortopts) opts → stops rest →
  (length (unparse opts ++ rest) ≤ fuel)%nat →
  getopt_loop fuel opts0 (unparse opts ++ rest) shortopts = inr (opts0 ++ opts, rest).
Proof.
  intros Hv Hstop. revert fuel opts0.
  induction Hv as [|[o v] opts (c & Ho & Hc & Hs) _ IH]; intros fuel opts0 Hf; simpl in *.
  { rewrite app_nil_r. destruct fuel, rest; simpl; try done. by rewrite Hstop. }
  subst o.
  destruct fuel as [|fuel]; simpl; [lia|].
  change (str "-") with ["-"]. change (str "--") with ["-"; "-"].
  rewrite !startswith_cons, !startswith_nil.
  rewrite (bool_decide_eq_false_2 ("-" = c)), (bool_decide_eq_false_2 (_ = ["-"; "-"]))
    by congruence.
  simpl. rewrite Hs. simpl. rewrite IH by lia. by rewrite <-(assoc_L (++)).
Qed.

(** Options written out one argument for the letter and one for the
    value are read back as they were, whatever the values are, and the
    arguments after them are left. *)
Theorem getopt_unparse opts rest shortopts :
  Forall (valued shortopts) opts → stops rest →
  getopt (unparse opts ++ rest) shortopts = inr (opts, rest).
Proof. intros Hv Hstop. unfold getopt. by rewrite getopt_loop_unparse. Qed.

(** ** Integers printed and read back *)

Lemma digit_cases d : 0 ≤ d ≤ 9 → d ∈ [0; 1; 2; 3; 4; 5; 6; 7; 8; 9].
Proof.
  intros Hd. assert (d = 0 ∨ d = 1 ∨ d = 2 ∨ d = 3 ∨ d = 4 ∨ d = 5 ∨ d = 6 ∨ d = 7
                     ∨ d = 8 ∨ d = 9) as Hc by lia.
  destruct_or!; subst; compute_done.
Qed.

(** A digit character is read as its digit, and is none of the
    characters [int] treats specially. *)
Lemma digit_char_facts d :
  0 ≤ d ≤ 9 →
  digit_value (digit_char d) = Some d ∧ is_space (digit_char d) = false ∧
  digit_char d ≠ "_" ∧ digit_char d ≠ "-" ∧ digit_char d ≠ "+".
Proof.
  intros Hd%digit_cases. revert d Hd. apply Forall_forall.
  repeat (apply Forall_cons_2 || apply Forall_nil_2); by vm_compute.
Qed.

Lemma parse_digits_chars acc after ds :
  Forall (λ d, 0 ≤ d ≤ 9) ds → ds ≠ [] ∨ after = true →
  parse_digits acc after (digit_char <$> ds) = Some (foldl (λ a d, 10 * a + d) acc ds).
Proof.
  intros Hds. revert acc after. induction Hds as [|d ds Hd _ IH]; intros acc after Hne.
  { by destruct Hne as [?| ->]. }
  destruct (digit_char_facts d Hd) as (Hv & _ & Hu & _). csimpl.
  rewrite bool_decide_eq_false_2, Hv by done. apply IH. by right.
Qed.

Lemma horner_reverse ds :
  foldl (λ a d, 10 * a + d) 0 (reverse ds) = foldr (λ d v, d + 10 * v) 0 ds.
Proof.
  induction ds as [|d ds IH]; [done|].
  rewrite reverse_cons, foldl_app. simpl. rewrite IH. lia.
Qed.

Lemma le_digits_range fuel n : Forall (λ d, 0 ≤ d ≤ 9) (le_digits fuel n).
Proof.
  revert n. induction fuel as [|fuel IH]; intros n; simpl; [done|].
  apply Forall_cons_2; [pose proof (Z.mod_pos_bound n 10); lia|].
  case_bool_decide; [done | apply IH].
Qed.

Lemma le_digits_value fuel n :
  0 ≤ n ≤ Z.of_nat fuel → (1 ≤ fuel)%nat →
  foldr (λ d v, d + 10 * v) 0 (le_digits fuel n) = n.
Proof.
  revert n. induction fuel as [|fuel IH]; intros n Hn Hf; simpl; [lia|].
  case_bool_decide; simpl.
  - rewrite Z.mod_small; lia.
  - rewrite IH; [pose proof (Z.div_mod n 10); lia | | lia].
    pose proof (Z.div_le_upper_bound n 10 (Z.of_nat fuel)).
    pose proof (Z.div_pos n 10). lia.
Qed.

Lemma digits_of_le_digits fuel n acc :
  digits_of fuel n acc = (digit_char <$> reverse (le_digits fuel n)) ++ acc.
Proof.
  revert n acc. induction fuel as [|fuel IH]; intros n acc; simpl; [done|].
  rewrite reverse_cons, fmap_app, <-(assoc_L (++)). simpl.
  case_bool_decide; [done | apply IH].
Qed.

Lemma lstrip_id s : Forall (λ c, is_space c = false) s → lstrip s = s.
Proof. destruct 1 as [|c s Hc _]; simpl; [done | by rewrite Hc]. Qed.

Lemma strip_id s : Forall (λ c, is_space c = false) s → strip s = s.
Proof.
  intros Hs. unfold strip. rewrite (lstrip_id s), lstrip_id, reverse_involutive; [done| |done].
  by apply Forall_reverse.
Qed.

(** The digits of a natural number, read back. *)
Lemma parse_digits_of n :
  0 ≤ n →
  let ds := digits_of (S (Z.to_nat n)) n [] in
  parse_digits 0 false ds = Some n ∧ Forall (λ c, is_space c = false) ds ∧
  startswith ds (str "-") = false ∧ startswith ds (str "+") = false.
Proof.
  intros Hn ds. subst ds. rewrite digits_of_le_digits, app_nil_r.
  pose proof (le_digits_range (S (Z.to_nat n)) n) as Hr.
  assert (le_digits (S (Z.to_nat n)) n ≠ []) as Hne by done.
  apply Forall_reverse in Hr. split; [|split].
  - rewrite parse_digits_chars, horner_reverse, le_digits_value; [done|lia|lia|done|].
    left. intros Hnil%(f_equal reverse). by rewrite reverse_involutive in Hnil.
  - apply Forall_fmap. eapply Forall_impl; [exact Hr|].
    intros d Hd. by apply digit_char_facts.
  - destruct (reverse _) as [|d ds]; [done|]. apply Forall_cons in Hr as [Hd _].
    destruct (digit_char_facts d Hd) as (_ & _ & _ & Hm & Hp). csimpl.
    change (str "-") with ["-"]. change (str "+") with ["+"].
    by rewrite !startswith_cons, !bool_decide_eq_false_2.
Qed.

(** The text of an integer holds no white space. *)
Lemma str_of_int_no_space n : Forall (λ c, is_space c = false) (str_of_int n).
Proof.
  unfold str_of_int. apply Forall_app. split; [by case_bool_decide; repeat constructor|].
  apply (parse_digits_of (Z.abs n) (Z.abs_nonneg n)).
Qed.

(** [int] reads back what [str] prints. *)
Lemma int_of_str_of_int n : int_of_str (str_of_int n) = inr n.
Proof.
  unfold str_of_int, int_of_str.
  destruct (parse_digits_of (Z.abs n) (Z.abs_nonneg n)) as (Hp & Hsp & Hm & Hpl).
  set (ds := digits_of _ _ _) in *.
  case_bool_decide; simpl app.
  - rewrite strip_id by (by apply Forall_cons_2). change (str "-") with ["-"].
    rewrite startswith_cons, startswith_nil, bool_decide_eq_true_2 by done.
    simpl. rewrite drop_0, Hp. f_equal. lia.
  - rewrite strip_id, Hm, Hpl, Hp by done. f_equal. lia.
Qed.
