(* ===== verification/Imaging.v ===== *)
(** * Imaging: images, the codec interface and the similarity scorer

    [img_similarity_check] of src/main.py calls three library routines:
    [ImageChops.difference] (Pillow), [np.array] and [np.mean] (NumPy).

    - An [Image] is a mode, a size and rows of 8-bit samples, the bands
      of a pixel side by side.  A [PILImage] is what [Image.open]
      returns: Pillow reads the header only, the pixel data is decoded
      by the first operation that needs it, and may fail then.
    - The imaging library is the interface [Codec]: [Image_open] is
      [Image.open(BytesIO(b))], [Image_save] the encoder behind
      [image.save(path)] (a failure of it says whether the file had
      been opened, and so emptied, when it occurred), [chop_difference] the routine behind
      [ImageChops.difference].  What the scanner needs of it is stated
      as two classes of laws: [TameCodec] (its failures are instances
      of [Exception]) and [DifferenceLaws] (samples stay in range, an
      image differs from itself by zero everywhere).  The file [Pillow]
      gives the two implementations of [chop_difference] and proves the
      laws for them.
    - [np_mean] is the mean of all samples as NumPy computes it: the
      sum divided by the count in binary64 ([Float64.round64]), [NaN]
      for an empty array.  Sums of 8-bit samples are exact below 2^53;
      the lemmas on the comparison with a threshold assume at most
      2^45 samples.
    - [np_mean_binary64] is the same mean as NumPy computes it, in the
      numbers of IEEE 754 of [SpecFloat]: the samples are added in
      binary64 in the order of a [Reduction] (NumPy adds them pairwise,
      in blocks and with several accumulators, in an order that depends
      on its version and on the layout of the array), and the sum is
      divided by the count.  Whatever the order, the result is
      [np_mean] for at most 2^45 8-bit samples, the empty array
      included ([Binary64]).  [score_lt_binary64] is the comparison of
      binary64 with the threshold converted to binary64; it is
      [score_lt] for a threshold below 2^53. *)

From Stdlib Require Import QArith Qcanon Qcabs.
From Stdlib.Floats Require Import SpecFloat.
From S2P Require Import Prelude Float64 Binary64 PyStr PyDict.
Close Scope Qc_scope.
Close Scope Q_scope.

#[local] Open Scope Z_scope.
#[local] Open Scope res_scope.

(** ** Images *)

Inductive Mode : Type := M1 | ML | MP | MLA | MRGB | MRGBA | MCMYK | MYCbCr | MI | MF.

#[export] Instance Mode_eq_dec : EqDecision Mode.
Proof. solve_decision. Defined.

Definition bands (m : Mode) : nat :=
  match m with
  | M1 | ML | MP | MI | MF => 1
  | MLA => 2
  | MRGB | MYCbCr => 3
  | MRGBA | MCMYK => 4
  end.

(** Modes stored as 8-bit samples ("I" and "F" hold 32-bit values). *)
Definition is_uint8 (m : Mode) : bool :=
  match m with MI | MF => false | _ => true end.

Record Image : Type := mkImage {
  im_mode : Mode;
  im_width : nat;
  im_height : nat;
  im_rows : list (list Z);
}.

Definition row_wf (m : Mode) (w : nat) (r : list Z) : Prop :=
  length r = (w * bands m)%nat ∧ Forall (λ x, 0 ≤ x ≤ 255) r.

Definition image_wf (im : Image) : Prop :=
  length (im_rows im) = im_height im ∧
  Forall (row_wf (im_mode im) (im_width im)) (im_rows im).

Inductive PILImage : Type :=
| Decoded (im : Image)
| Truncated.

(** [image.load()] *)
Definition pil_load (image : PILImage) : PyExn + Image :=
  match image with Decoded im => inr im | Truncated => inl OSError end.

(** ** The imaging library *)

(** How [Image.save] fails: before it has opened the file (no encoder
    for the extension, a path that cannot be opened for writing), or in
    the encoder, after it has opened the file for writing, which empties
    a file that was there. *)
Inductive SaveError : Type :=
| NotOpened (e : PyExn)
| Opened (e : PyExn).

Definition save_exn (err : SaveError) : PyExn :=
  match err with NotOpened e | Opened e => e end.

Class Codec : Type := {
  Image_open : bytes → PyExn + PILImage;
  Image_save : pystr → Image → option SaveError;
  chop_difference : Image → Image → PyExn + Image;
}.

(** Its failures are instances of [Exception] (Pillow raises [OSError],
    [ValueError] and their subclasses). *)
Class TameCodec `{Codec} : Prop := {
  Image_open_Exception b e : Image_open b = inl e → is_Exception e = true;
  Image_save_Exception path im err :
    Image_save path im = Some err → is_Exception (save_exn err) = true;
  chop_difference_Exception im1 im2 e :
    chop_difference im1 im2 = inl e → is_Exception e = true;
}.

(** What the scorer needs of the difference: its samples are 8-bit, and
    an image of 8-bit samples differs from itself by zero at each of its
    samples. *)
Class DifferenceLaws `{Codec} : Prop := {
  chop_difference_range im1 im2 d :
    chop_difference im1 im2 = inr d → Forall (λ x, 0 ≤ x ≤ 255) (concat (im_rows d));
  chop_difference_self im :
    is_uint8 (im_mode im) = true →
    ∃ d, chop_difference im im = inr d ∧
         Forall (λ x, x = 0) (concat (im_rows d)) ∧
         length (concat (im_rows d)) = length (concat (im_rows im));
}.

(** ** [np.array] and [np.mean] *)

(** The samples of an image as one array; a bilevel image gives
    booleans, which count as 0 and 1. *)
Definition np_array (im : Image) : list Z :=
  let a := concat (im_rows im) in
  match im_mode im with
  | M1 => (λ x, if bool_decide (x = 0) then 0 else 1) <$> a
  | _ => a
  end.

Inductive Score : Type :=
| NaN
| Val (q : Qc).

#[export] Instance Score_eq_dec : EqDecision Score.
Proof. solve_decision. Defined.

#[export] Instance Val_inj : Inj (=) (=) Val.
Proof. intros q q' Heq. by injection Heq. Qed.

(** The mean in binary64: the sum is exact, the quotient is rounded
    ([Float64.round64]); the mean of no sample is [nan]. *)
Definition np_mean (a : list Z) : Score :=
  match a with
  | [] => NaN
  | _ => Val (round64 (Zsum a) (Pos.of_nat (length a)))
  end.

(** An order of adding the samples of an array: the identity [0.0] of
    an empty reduction, a sample, the sum of two partial sums. *)
Inductive Reduction : Type :=
| RZero
| RItem (x : Z)
| RAdd (l r : Reduction).

Fixpoint items (t : Reduction) : list Z :=
  match t with
  | RZero => []
  | RItem x => [x]
  | RAdd l r => items l ++ items r
  end.

(** The sum in binary64, every sample converted first. *)
Fixpoint SF_reduce (t : Reduction) : spec_float :=
  match t with
  | RZero => S754_zero false
  | RItem x => SF_of_Z x
  | RAdd l r => SFadd prec 1024 (SF_reduce l) (SF_reduce r)
  end.

(** The samples added one by one, and added by halves. *)
Definition sequential (a : list Z) : Reduction :=
  foldl (λ t x, RAdd t (RItem x)) RZero a.

Fixpoint pairwise (fuel : nat) (a : list Z) : Reduction :=
  match fuel, a with
  | _, [] => RZero
  | _, [x] => RItem x
  | O, _ => sequential a
  | S fuel, _ =>
      let n2 := (length a / 2)%nat in
      RAdd (pairwise fuel (take n2 a)) (pairwise fuel (drop n2 a))
  end.

(** The mean as a number of IEEE 754: the sum in binary64 divided by
    the count; [0 / 0] is [nan]. *)
Definition np_mean_binary64 (t : Reduction) : spec_float :=
  SFdiv prec 1024 (SF_reduce t) (SF_of_Z (Z.of_nat (length (items t)))).

(** [mean_diff < similarity_threshold] in binary64, the threshold
    converted; false for [nan]. *)
Definition score_lt_binary64 (x : spec_float) (threshold : Z) : bool :=
  SFltb x (SF_of_Z threshold).

(** [mean_diff < similarity_threshold], false for [NaN]. *)
Definition score_lt (s : Score) (threshold : Z) : bool :=
  match s with
  | NaN => false
  | Val q => bool_decide (q < Qc_of_Z threshold)%Qc
  end.

Section scorer.
Context `{Codec}.

(** [ImageChops.difference(image1, image2)]: both images are loaded,
    the first one first. *)
Definition ImageChops_difference (image1 image2 : PILImage) : PyExn + Image :=
  let! im1 := pil_load image1 in
  let! im2 := pil_load image2 in
  chop_difference im1 im2.

(** ** [img_similarity_check] *)

Definition img_similarity_check (img1 img2 : PILImage) (similarity_threshold : Z)
    : PyExn + (bool * Score) :=
  let! diff := ImageChops_difference img2 img1 in
  let diff_array := np_array diff in
  let mean_diff := np_mean diff_array in
  let is_similar := score_lt mean_diff similarity_threshold in
  inr (is_similar, mean_diff).

(** The part of the check that does not depend on the threshold. *)
Definition mean_diff_of (img1 img2 : PILImage) : PyExn + Score :=
  let! diff := ImageChops_difference img2 img1 in
  inr (np_mean (np_array diff)).

End scorer.

(** ** The mean *)

Lemma np_mean_cons x a :
  np_mean (x :: a) = Val (round64 (Zsum (x :: a)) (Pos.of_nat (length (x :: a)))).
Proof. done. Qed.

Lemma np_mean_is_Val a : a ≠ [] → ∃ q, np_mean a = Val q.
Proof. destruct a; [done | by eexists]. Qed.

Lemma np_mean_NaN a : np_mean a = NaN ↔ a = [].
Proof. by destruct a. Qed.

Lemma pos_of_nat_length {A} (x : A) l :
  Z.pos (Pos.of_nat (length (x :: l))) = Z.of_nat (length (x :: l)).
Proof. simpl. lia. Qed.

(** The threshold test on the rounded mean of up to [2 ^ 45] 8-bit
    samples is a test on the sum: the rounding does not change it. *)
Lemma score_lt_np_mean a t :
  a ≠ [] → Forall (λ x, 0 ≤ x ≤ 255) a → Z.of_nat (length a) ≤ 2 ^ 45 →
  score_lt (np_mean a) t = bool_decide (Zsum a < t * Z.of_nat (length a)).
Proof.
  destruct a as [|x a]; [done|]. intros _ Hr%Zsum_bounds Hlen.
  rewrite np_mean_cons. unfold score_lt. apply bool_decide_ext.
  rewrite <-pos_of_nat_length in *. apply round64_lt_Z; lia.
Qed.

Lemma score_lt_mono s t1 t2 : t1 ≤ t2 → score_lt s t1 = true → score_lt s t2 = true.
Proof.
  intros Hle. destruct s as [|q]; simpl; [done|]. rewrite !bool_decide_eq_true.
  intros Hlt. eapply Qclt_le_trans; [done|]. by apply Qc_of_Z_le.
Qed.

Lemma np_mean_zeros a : a ≠ [] → Forall (λ x, x = 0) a → np_mean a = Val (Qc_of_Z 0).
Proof.
  destruct a as [|x a]; [done|]. intros _ Hz. rewrite np_mean_cons.
  by rewrite (Zsum_zeros _ Hz).
Qed.

Lemma np_mean_zero_inv a :
  Forall (λ x, 0 ≤ x) a → np_mean a = Val (Qc_of_Z 0) → Forall (λ x, x = 0) a.
Proof.
  destruct a as [|x a]; [done|]. rewrite np_mean_cons. intros Hpos Heq%(inj Val).
  apply Zsum_zero_inv; [done|]. apply round64_eq_0 in Heq; [done|].
  by apply Zsum_nonneg.
Qed.

(** The rounded mean of 8-bit samples is within [2 ^ -46] of the exact
    one. *)
Lemma np_mean_error a q :
  Forall (λ x, 0 ≤ x ≤ 255) a → np_mean a = Val q →
  (Qcabs (q - Q2Qc (Zsum a # Pos.of_nat (length a))) ≤ Q2Qc (1 # 2 ^ 46))%Qc.
Proof.
  destruct a as [|x a]; [done|]. rewrite np_mean_cons. intros Hr%Zsum_bounds <-%(inj Val).
  rewrite <-pos_of_nat_length in Hr. apply round64_error; lia.
Qed.

(** ** Reductions *)

Lemma items_sequential a : items (sequential a) = a.
Proof.
  unfold sequential. rewrite <-(app_nil_l a) at 2. change [] with (items RZero).
  generalize RZero. induction a as [|x a IH]; intros t; simpl.
  - by rewrite app_nil_r.
  - rewrite IH. simpl. by rewrite <-app_assoc.
Qed.

Lemma items_pairwise fuel a : items (pairwise fuel a) = a.
Proof.
  revert a. induction fuel as [|fuel IH]; intros [|x [|y a]]; try done.
  - apply items_sequential.
  - cbn [pairwise items]. by rewrite !IH, take_drop.
Qed.

(** Adding 8-bit samples in binary64 is exact in every order, for up to
    [2 ^ 45] of them: every partial sum is an integer below [2 ^ 53]. *)
Lemma SF_reduce_exact t :
  Forall (λ x, 0 ≤ x ≤ 255) (items t) → Z.of_nat (length (items t)) ≤ 2 ^ 45 →
  SF_reduce t = SF_of_Z (Zsum (items t)).
Proof.
  induction t as [|x|l IHl r IHr]; simpl; [done|by rewrite Z.add_0_r|].
  rewrite Forall_app, length_app, Zsum_app.
  intros [Hl Hr] Hlen. rewrite IHl, IHr by (done || lia).
  apply Zsum_bounds in Hl, Hr. apply SFadd_of_Z; lia.
Qed.

(** The mean is the quotient of IEEE 754 of the sum by the count, for up
    to [2 ^ 45] 8-bit samples: [nan] for none, else the same number. *)
Lemma np_mean_binary64_agrees t :
  Forall (λ x, 0 ≤ x ≤ 255) (items t) → Z.of_nat (length (items t)) ≤ 2 ^ 45 →
  match np_mean (items t) with
  | NaN => np_mean_binary64 t = S754_nan
  | Val q => SF_value (np_mean_binary64 t) = Some q
  end.
Proof.
  intros Hr Hlen. unfold np_mean_binary64. rewrite SF_reduce_exact by done.
  apply Zsum_bounds in Hr. destruct (items t) as [|x a]; [done|].
  rewrite np_mean_cons, <-pos_of_nat_length in *. apply SF_quotient_value; lia.
Qed.

(** The comparison with a threshold below [2 ^ 53] is the comparison of
    IEEE 754 as well. *)
Lemma score_lt_binary64_agrees t threshold :
  Forall (λ x, 0 ≤ x ≤ 255) (items t) → Z.of_nat (length (items t)) ≤ 2 ^ 45 →
  - 2 ^ 53 < threshold < 2 ^ 53 →
  score_lt_binary64 (np_mean_binary64 t) threshold = score_lt (np_mean (items t)) threshold.
Proof.
  intros Hr Hlen Ht. unfold score_lt_binary64, np_mean_binary64.
  rewrite SF_reduce_exact by done.
  apply Zsum_bounds in Hr. destruct (items t) as [|x a]; [done|].
  rewrite np_mean_cons, <-pos_of_nat_length in *.
  fold (SF_quotient (Zsum (x :: a)) (Pos.of_nat (length (x :: a)))).
  rewrite SF_quotient_round64 by lia. apply SFltb_round64; lia.
Qed.

(** The rounded mean of samples within [lo..hi] is within [lo..hi]:
    integers below [2 ^ 53] are binary64 numbers, and rounding does not
    cross them. *)
Lemma np_mean_bounds lo hi a q :
  0 ≤ lo → hi < 2 ^ 53 →
  Forall (λ x, lo ≤ x ≤ hi) a → np_mean a = Val q →
  (Qc_of_Z lo ≤ q ∧ q ≤ Qc_of_Z hi)%Qc.
Proof.
  destruct a as [|x a]; [done|]. rewrite np_mean_cons. intros Hlo Hhi Hb <-%(inj Val).
  apply Zsum_bounds in Hb. rewrite <-pos_of_nat_length in Hb.
  split; [apply round64_ge_Z | apply round64_le_Z]; unfold prec; nia.
Qed.

(** ** [np_array] *)

Lemma np_array_length im : length (np_array im) = length (concat (im_rows im)).
Proof. unfold np_array. destruct (im_mode im); by rewrite ?length_fmap. Qed.

Lemma np_array_range im :
  Forall (λ x, 0 ≤ x ≤ 255) (concat (im_rows im)) →
  Forall (λ x, 0 ≤ x ≤ 255) (np_array im).
Proof.
  intros H. unfold np_array. destruct (im_mode im); try done.
  apply Forall_fmap, Forall_true. intros x. simpl. case_bool_decide; lia.
Qed.

Lemma np_array_zeros im :
  Forall (λ x, x = 0) (np_array im) ↔ Forall (λ x, x = 0) (concat (im_rows im)).
Proof.
  unfold np_array. destruct (im_mode im); try done.
  rewrite Forall_fmap. apply Forall_iff. intros x. simpl. case_bool_decide; lia.
Qed.

(** ** The check *)

Section scorer_facts.
Context `{Codec}.

Lemma img_similarity_check_mean img1 img2 t :
  img_similarity_check img1 img2 t =
  let! s := mean_diff_of img1 img2 in inr (score_lt s t, s).
Proof.
  unfold img_similarity_check, mean_diff_of.
  by destruct (ImageChops_difference img2 img1).
Qed.

(** On decoded images the score is the mean of their difference. *)
Lemma img_similarity_check_decoded im1 im2 d t sim s :
  chop_difference im2 im1 = inr d →
  img_similarity_check (Decoded im1) (Decoded im2) t = inr (sim, s) →
  s = np_mean (np_array d).
Proof.
  intros Hd. rewrite img_similarity_check_mean. unfold mean_diff_of, ImageChops_difference.
  simpl. rewrite Hd. simpl. by intros [= _ <-].
Qed.

Lemma mean_diff_of_inr img1 img2 s :
  mean_diff_of img1 img2 = inr s →
  ∃ im1 im2 d, img1 = Decoded im1 ∧ img2 = Decoded im2 ∧
    chop_difference im2 im1 = inr d ∧ s = np_mean (np_array d).
Proof.
  unfold mean_diff_of, ImageChops_difference.
  destruct img2 as [im2|], img1 as [im1|]; simpl; try done.
  destruct (chop_difference im2 im1) as [|d] eqn:Hd; simpl; [done|].
  intros [= <-]. by exists im1, im2, d.
Qed.

Lemma mean_diff_of_Truncated ref : mean_diff_of Truncated ref = inl OSError.
Proof. by destruct ref. Qed.

Lemma mean_diff_of_Exception `{!TameCodec} img1 img2 e :
  mean_diff_of img1 img2 = inl e → is_Exception e = true.
Proof.
  unfold mean_diff_of, ImageChops_difference.
  destruct img2 as [im2|], img1 as [im1|]; simpl; try by intros [= <-].
  destruct (chop_difference im2 im1) eqn:Hd; simpl; [|done].
  intros [= <-]. by eapply chop_difference_Exception.
Qed.

Lemma score_lt_zero t : score_lt (Val (Qc_of_Z 0)) t = bool_decide (0 < t).
Proof. unfold score_lt. apply bool_decide_ext, Qc_of_Z_lt. Qed.

(** Samples that are all zero, and at least one of them: the mean is 0. *)
Lemma mean_diff_of_zero im1 im2 d (n : nat) :
  chop_difference im2 im1 = inr d →
  Forall (λ x, x = 0) (concat (im_rows d)) → concat (im_rows d) ≠ [] →
  mean_diff_of (Decoded im1) (Decoded im2) = inr (Val (Qc_of_Z 0)).
Proof.
  intros Hd Hz Hne. unfold mean_diff_of, ImageChops_difference. simpl.
  rewrite Hd. simpl. f_equal. apply np_mean_zeros; [|by apply np_array_zeros].
  intros Hnil%(f_equal length). rewrite np_array_length in Hnil.
  by destruct (concat (im_rows d)).
Qed.

(** C9: an image of 8-bit samples compared with itself scores exactly 0,
    and is similar for every positive threshold. *)
Theorem img_similarity_check_self `{!DifferenceLaws} im t :
  is_uint8 (im_mode im) = true → concat (im_rows im) ≠ [] →
  img_similarity_check (Decoded im) (Decoded im) t
  = inr (bool_decide (0 < t), Val (Qc_of_Z 0)).
Proof.
  intros Hm Hne. destruct (chop_difference_self im Hm) as (d & Hd & Hz & Hlen).
  rewrite img_similarity_check_mean, (mean_diff_of_zero im im d 0 Hd Hz).
  - cbn [res_bind]. by rewrite score_lt_zero.
  - intros Hnil. rewrite Hnil in Hlen. by destruct (concat (im_rows im)).
Qed.

(** The mean of a difference lies between 0 and 255. *)
Lemma mean_diff_of_bounds `{!DifferenceLaws} img1 img2 q :
  mean_diff_of img1 img2 = inr (Val q) → (Qc_of_Z 0 ≤ q ∧ q ≤ Qc_of_Z 255)%Qc.
Proof.
  intros (im1 & im2 & d & _ & _ & Hd & Hs)%mean_diff_of_inr.
  apply (np_mean_bounds 0 255 (np_array d)); [done|done| |done].
  by eapply np_array_range, chop_difference_range.
Qed.

(** No score is below a threshold that is not positive. *)
Lemma score_lt_nonpositive `{!DifferenceLaws} img1 img2 m t :
  t ≤ 0 → mean_diff_of img1 img2 = inr m → score_lt m t = false.
Proof.
  intros Ht Hm. destruct m as [|q]; [done|]. apply mean_diff_of_bounds in Hm as [Hq _].
  apply bool_decide_eq_false. intros Hlt.
  assert (Qc_of_Z 0 < Qc_of_Z t)%Qc as Hlt' by (by eapply Qcle_lt_trans).
  apply (proj1 (Qc_of_Z_lt 0 t)) in Hlt'. lia.
Qed.

(** Whenever the check returns a number, it lies between 0 and 255,
    whatever the samples of the two images. *)
Theorem img_similarity_check_bounds `{!DifferenceLaws} img1 img2 t sim q :
  img_similarity_check img1 img2 t = inr (sim, Val q) →
  (Qc_of_Z 0 ≤ q ∧ q ≤ Qc_of_Z 255)%Qc.
Proof.
  rewrite img_similarity_check_mean.
  intros (s & Hm & [= _ ->])%res_bind_inr. by eapply mean_diff_of_bounds.
Qed.

(** Raising the threshold keeps every similar pair similar, with the
    same score. *)
Theorem img_similarity_check_monotone img1 img2 t1 t2 s :
  t1 ≤ t2 →
  img_similarity_check img1 img2 t1 = inr (true, s) →
  img_similarity_check img1 img2 t2 = inr (true, s).
Proof.
  intros Hle. rewrite !img_similarity_check_mean.
  destruct (mean_diff_of img1 img2) as [|m]; simpl; [done|].
  intros [= Hlt <-]. by rewrite (score_lt_mono m t1 t2).
Qed.

(** The score is the exact mean up to the rounding of binary64: the
    number the check returns for a difference image of 8-bit samples is
    within [2 ^ -46] of the sum of the samples over their count. *)
Theorem img_similarity_check_rounding `{!DifferenceLaws} im1 im2 d t sim q :
  chop_difference im2 im1 = inr d →
  img_similarity_check (Decoded im1) (Decoded im2) t = inr (sim, Val q) →
  let a := np_array d in
  (Qcabs (q - Q2Qc (Zsum a # Pos.of_nat (length a))) ≤ Q2Qc (1 # 2 ^ 46))%Qc.
Proof.
  intros Hd Hq%(img_similarity_check_decoded _ _ d); [|done].
  apply np_mean_error; [|done]. by eapply np_array_range, chop_difference_range.
Qed.

(** C17: the check is IEEE 754 arithmetic: for a difference image of at
    most [2 ^ 45] 8-bit samples, every order [r] of adding them in
    binary64 and a threshold below [2 ^ 53], the verdict is the
    comparison of binary64 of the quotient of the sum by the count with
    the threshold, and the score is [nan] when that quotient is (no
    sample) and its value otherwise. *)
Theorem img_similarity_check_binary64 `{!DifferenceLaws} im1 im2 d t r sim s :
  chop_difference im2 im1 = inr d →
  img_similarity_check (Decoded im1) (Decoded im2) t = inr (sim, s) →
  items r = np_array d → Z.of_nat (length (np_array d)) ≤ 2 ^ 45 →
  - 2 ^ 53 < t < 2 ^ 53 →
  sim = score_lt_binary64 (np_mean_binary64 r) t ∧
  match s with
  | NaN => np_mean_binary64 r = S754_nan
  | Val q => SF_value (np_mean_binary64 r) = Some q
  end.
Proof.
  intros Hd Hc Hr Hlen Ht.
  assert (Forall (λ x, 0 ≤ x ≤ 255) (items r)) as Hrange.
  { rewrite Hr. by eapply np_array_range, chop_difference_range. }
  pose proof (img_similarity_check_decoded _ _ d _ _ _ Hd Hc) as ->.
  rewrite img_similarity_check_mean in Hc.
  apply res_bind_inr in Hc as (s & _ & [= <- ->]). rewrite <-Hr in *. split.
  - by rewrite score_lt_binary64_agrees.
  - by apply np_mean_binary64_agrees.
Qed.

(** C10: a score equal to the threshold is not similar: the comparison is
    strict. *)
Theorem img_similarity_check_strict img1 img2 t sim :
  img_similarity_check img1 img2 t = inr (sim, Val (Qc_of_Z t)) → sim = false.
Proof.
  rewrite img_similarity_check_mean.
  destruct (mean_diff_of img1 img2) as [|s]; simpl; [done|].
  intros [= <- ->]. apply bool_decide_eq_false. intros Hlt. by apply Qclt_not_eq in Hlt.
Qed.

End scorer_facts.
