(* ===== verification/Pillow.v ===== *)
(** * Pillow: the two implementations of the difference

    [pillow_difference] is the routine of Pillow that
    [ImageChops.difference] runs (libImaging, Chops.c): it refuses
    images that are not made of 8-bit samples or whose band counts
    differ, and otherwise works on the common top-left region of the two
    images, sample by sample, [|a - b|] clipped to 0..255.  Sizes are
    not compared.

    [strict_difference] is the policy the specification asks for: images
    of different sizes are refused as well.

    Both satisfy [DifferenceLaws] and raise [ValueError] only.  The last
    section shows what the missing size check means for the scanner. *)

From Stdlib Require Import QArith Qcanon.
From S2P Require Import Prelude Float64 PyStr PyDict Imaging.
Close Scope Qc_scope.
Close Scope Q_scope.

#[local] Open Scope Z_scope.
#[local] Open Scope res_scope.

(** ** Definitions *)

(** The store of one output sample. *)
Definition clip8 (temp : Z) : Z :=
  if bool_decide (temp ≤ 0) then 0
  else if bool_decide (255 ≤ temp) then 255
  else temp.

Definition diff8 (a b : Z) : Z := clip8 (Z.abs (a - b)).

Definition diff_rows (rows1 rows2 : list (list Z)) : list (list Z) :=
  zip_with (zip_with diff8) rows1 rows2.

Definition pillow_difference (im1 im2 : Image) : PyExn + Image :=
  if negb (is_uint8 (im_mode im1)) then inl ValueError
  else if negb (is_uint8 (im_mode im2))
          || negb (bool_decide (bands (im_mode im1) = bands (im_mode im2)))
  then inl ValueError
  else inr {| im_mode := im_mode im1;
              im_width := im_width im1 `min` im_width im2;
              im_height := im_height im1 `min` im_height im2;
              im_rows := diff_rows (im_rows im1) (im_rows im2) |}.

Definition strict_difference (im1 im2 : Image) : PyExn + Image :=
  if bool_decide (im_width im1 = im_width im2 ∧ im_height im1 = im_height im2)
  then pillow_difference im1 im2
  else inl ValueError.

(** The top-left [w] by [h] region of an image. *)
Definition crop (w h : nat) (im : Image) : Image :=
  mkImage (im_mode im) (w `min` im_width im) (h `min` im_height im)
          (take h (take (w * bands (im_mode im)) <$> im_rows im)).

Definition zero_row (r : list Z) : list Z := (λ _, 0) <$> r.

(** ** One sample *)

Lemma clip8_range t : 0 ≤ clip8 t ≤ 255.
Proof. unfold clip8. repeat case_bool_decide; lia. Qed.

Lemma diff8_range a b : 0 ≤ diff8 a b ≤ 255.
Proof. apply clip8_range. Qed.

Lemma diff8_self a : diff8 a a = 0.
Proof. unfold diff8, clip8. rewrite Z.sub_diag. by compute. Qed.

Lemma diff8_sym a b : diff8 a b = diff8 b a.
Proof. unfold diff8. f_equal. lia. Qed.

Lemma diff8_zero a b : diff8 a b = 0 ↔ a = b.
Proof. unfold diff8, clip8. repeat case_bool_decide; lia. Qed.

(** On 8-bit samples the clip does nothing. *)
Lemma diff8_exact a b : 0 ≤ a ≤ 255 → 0 ≤ b ≤ 255 → diff8 a b = Z.abs (a - b).
Proof. unfold diff8, clip8. repeat case_bool_decide; lia. Qed.

(** ** Rows of samples *)

Lemma diff_rows_range rows1 rows2 :
  Forall (λ x, 0 ≤ x ≤ 255) (concat (diff_rows rows1 rows2)).
Proof.
  apply Forall_concat, Forall_zip_with. intros r1 r2 _ _.
  apply Forall_zip_with. intros a b _ _. apply diff8_range.
Qed.

Lemma diff_rows_self rows : Forall (λ x, x = 0) (concat (diff_rows rows rows)).
Proof.
  unfold diff_rows. rewrite zip_with_diag. apply Forall_concat, Forall_fmap.
  apply Forall_true. intros r. simpl. rewrite zip_with_diag.
  apply Forall_fmap, Forall_true. intros a. apply diff8_self.
Qed.

Lemma diff_rows_self_length rows :
  length (concat (diff_rows rows rows)) = length (concat rows).
Proof.
  unfold diff_rows. rewrite zip_with_diag.
  induction rows as [|r rows IH]; csimpl; [done|].
  by rewrite !length_app, IH, zip_with_diag, length_fmap.
Qed.

Lemma diff_rows_sym rows1 rows2 : diff_rows rows1 rows2 = diff_rows rows2 rows1.
Proof.
  unfold diff_rows. revert rows2.
  induction rows1 as [|r1 rows1 IH]; intros [|r2 rows2]; simpl; try done.
  f_equal; [|apply IH]. clear. revert r2.
  induction r1 as [|a r1 IH]; intros [|b r2]; simpl; try done.
  by rewrite diff8_sym, IH.
Qed.

(** ** The routine *)

Lemma pillow_difference_inr im1 im2 d :
  pillow_difference im1 im2 = inr d →
  is_uint8 (im_mode im1) = true ∧ is_uint8 (im_mode im2) = true ∧
  bands (im_mode im1) = bands (im_mode im2) ∧
  d = mkImage (im_mode im1) (im_width im1 `min` im_width im2)
              (im_height im1 `min` im_height im2)
              (diff_rows (im_rows im1) (im_rows im2)).
Proof.
  unfold pillow_difference.
  destruct (is_uint8 (im_mode im1)), (is_uint8 (im_mode im2)); simpl; try done.
  case_bool_decide; simpl; [|done]. by intros [= <-].
Qed.

Lemma pillow_difference_ok im1 im2 :
  is_uint8 (im_mode im1) = true → is_uint8 (im_mode im2) = true →
  bands (im_mode im1) = bands (im_mode im2) →
  pillow_difference im1 im2 =
  inr (mkImage (im_mode im1) (im_width im1 `min` im_width im2)
               (im_height im1 `min` im_height im2)
               (diff_rows (im_rows im1) (im_rows im2))).
Proof.
  intros H1 H2 Hb. unfold pillow_difference. rewrite H1, H2. simpl.
  by rewrite bool_decide_eq_true_2.
Qed.

Lemma pillow_difference_inl im1 im2 e : pillow_difference im1 im2 = inl e → e = ValueError.
Proof. unfold pillow_difference. repeat case_match; by intros [= <-]. Qed.

Lemma strict_difference_inr im1 im2 d :
  strict_difference im1 im2 = inr d →
  im_width im1 = im_width im2 ∧ im_height im1 = im_height im2 ∧
  pillow_difference im1 im2 = inr d.
Proof. unfold strict_difference. case_bool_decide as Hs; [by destruct Hs | done]. Qed.

Lemma strict_difference_inl im1 im2 e : strict_difference im1 im2 = inl e → e = ValueError.
Proof.
  unfold strict_difference. case_bool_decide; [apply pillow_difference_inl|].
  by intros [= <-].
Qed.

(** The difference image of two well-formed images is well-formed:
    it has the common size, rows of the right length, and 8-bit
    samples. *)
Theorem pillow_difference_wf im1 im2 d :
  image_wf im1 → image_wf im2 → pillow_difference im1 im2 = inr d → image_wf d.
Proof.
  intros [Hh1 Hr1] [Hh2 Hr2] (_ & _ & Hb & ->)%pillow_difference_inr.
  split; simpl.
  - unfold diff_rows. by rewrite length_zip_with, Hh1, Hh2.
  - apply Forall_zip_with. intros r1 r2 Hin1 Hin2.
    rewrite Forall_forall in Hr1, Hr2.
    destruct (Hr1 _ Hin1) as [Hl1 _], (Hr2 _ Hin2) as [Hl2 _]. split.
    + rewrite length_zip_with, Hl1, Hl2, <-Hb. apply Nat.mul_min_distr_r.
    + apply Forall_zip_with. intros. apply diff8_range.
Qed.

Lemma zip_with_take_diag {A C} (f : A → A → C) l n :
  zip_with f l (take n l) = (λ x, f x x) <$> take n l.
Proof.
  revert n. induction l as [|x l IH]; intros [|n]; csimpl; try done.
  by rewrite IH.
Qed.

Lemma diff_rows_crop (rows : list (list Z)) n h :
  diff_rows rows (take h (take n <$> rows))
  = zero_row <$> take h (take n <$> rows).
Proof.
  unfold diff_rows. revert h.
  induction rows as [|r rows IH]; intros [|h]; csimpl; try done.
  rewrite IH, zip_with_take_diag. f_equal.
  apply list_fmap_ext. intros _ a _. apply diff8_self.
Qed.

Lemma zero_rows_zeros (rows : list (list Z)) :
  Forall (λ x, x = 0) (concat (zero_row <$> rows)).
Proof.
  apply Forall_concat, Forall_fmap, Forall_true. intros r. simpl.
  by apply Forall_fmap, Forall_true.
Qed.

Lemma zero_rows_length (rows : list (list Z)) :
  length (concat (zero_row <$> rows)) = length (concat rows).
Proof.
  induction rows as [|r rows IH]; csimpl; [done|].
  unfold zero_row at 1. by rewrite !length_app, IH, length_fmap.
Qed.

(** ** The laws *)

Section pillow.
Context `{Codec}.
Hypothesis chop_is_pillow : ∀ im1 im2, chop_difference im1 im2 = pillow_difference im1 im2.

Lemma pillow_laws : DifferenceLaws.
Proof.
  split.
  - intros im1 im2 d. rewrite chop_is_pillow.
    intros (_ & _ & _ & ->)%pillow_difference_inr. apply diff_rows_range.
  - intros im Hm. rewrite chop_is_pillow, pillow_difference_ok by done.
    eexists. split; [done|]. simpl. split; [apply diff_rows_self|].
    apply diff_rows_self_length.
Qed.

Lemma pillow_raises_ValueError im1 im2 e :
  chop_difference im1 im2 = inl e → is_Exception e = true.
Proof. rewrite chop_is_pillow. by intros ->%pillow_difference_inl. Qed.

(** The check on two images that Pillow accepts, in the samples of the
    difference image [d]. *)
Lemma mean_diff_of_pillow im1 im2 :
  is_uint8 (im_mode im1) = true → is_uint8 (im_mode im2) = true →
  bands (im_mode im2) = bands (im_mode im1) →
  mean_diff_of (Decoded im1) (Decoded im2)
  = inr (np_mean (np_array (mkImage (im_mode im2) (im_width im2 `min` im_width im1)
                                    (im_height im2 `min` im_height im1)
                                    (diff_rows (im_rows im2) (im_rows im1))))).
Proof.
  intros H1 H2 Hb. unfold mean_diff_of, ImageChops_difference. simpl.
  by rewrite chop_is_pillow, pillow_difference_ok.
Qed.

(** C3: what the check computes on two images of 8-bit samples with the
    same number of bands, the reference not bilevel, of up to [2 ^ 45]
    samples: the score is the sum of the sample differences over their
    number, rounded to binary64, and the pair is similar exactly when
    the sum is below the threshold times that number: the rounding
    never changes the verdict. *)
Theorem img_similarity_check_value im1 im2 t :
  is_uint8 (im_mode im1) = true → is_uint8 (im_mode im2) = true →
  bands (im_mode im2) = bands (im_mode im1) → im_mode im2 ≠ M1 →
  let d := concat (diff_rows (im_rows im2) (im_rows im1)) in
  d ≠ [] → Z.of_nat (length d) ≤ 2 ^ 45 →
  img_similarity_check (Decoded im1) (Decoded im2) t
  = inr (bool_decide (Zsum d < t * Z.of_nat (length d)),
         Val (round64 (Zsum d) (Pos.of_nat (length d)))).
Proof.
  intros H1 H2 Hb Hm d Hd Hlen.
  rewrite img_similarity_check_mean, mean_diff_of_pillow by done.
  cbn [res_bind]. unfold np_array. simpl.
  replace (match im_mode im2 with M1 => _ | _ => concat _ end) with d
    by (by destruct (im_mode im2)).
  rewrite score_lt_np_mean by (done || apply diff_rows_range). by destruct d.
Qed.

(** C38: sizes are never compared: a candidate that is the top-left part
    of a reference scores exactly 0 against it. *)
Theorem img_similarity_check_crop im w h t :
  is_uint8 (im_mode im) = true → concat (im_rows (crop w h im)) ≠ [] →
  img_similarity_check (Decoded (crop w h im)) (Decoded im) t
  = inr (bool_decide (0 < t), Val (Qc_of_Z 0)).
Proof.
  intros Hm Hne. rewrite img_similarity_check_mean.
  erewrite (mean_diff_of_zero (crop w h im) im _ 0).
  - cbn [res_bind]. by rewrite score_lt_zero.
  - rewrite chop_is_pillow. by apply pillow_difference_ok.
  - simpl. rewrite diff_rows_crop. apply zero_rows_zeros.
  - simpl in *. rewrite diff_rows_crop. intros Hnil%(f_equal length).
    rewrite zero_rows_length in Hnil. by destruct (concat _).
Qed.

(** C39: a bilevel reference is similar to every single-band candidate
    once the threshold is above 1: the difference image takes the mode
    of the reference, its samples count as booleans, and their mean
    cannot exceed 1, whatever the two pictures show. *)
Theorem bilevel_reference_similar im ref t :
  im_mode ref = M1 → is_uint8 (im_mode im) = true → bands (im_mode im) = 1%nat →
  concat (diff_rows (im_rows ref) (im_rows im)) ≠ [] → 1 < t →
  ∃ m, img_similarity_check (Decoded im) (Decoded ref) t = inr (true, m).
Proof.
  intros Hm Hu Hb Hne Ht. rewrite img_similarity_check_mean, mean_diff_of_pillow;
    [|done|by rewrite Hm..].
  cbn [res_bind]. eexists. f_equal. f_equal. unfold np_array. simpl. rewrite Hm.
  set (a := _ <$> _). assert (a ≠ []) as Ha.
  { intros Hnil%(f_equal length). subst a. rewrite length_fmap in Hnil.
    by destruct (concat _). }
  assert (Forall (λ x, 0 ≤ x ≤ 1) a) as Hr.
  { apply Forall_fmap, Forall_true. intros x. simpl. case_bool_decide; lia. }
  destruct (np_mean_is_Val a Ha) as [q Hq]. rewrite Hq.
  apply (np_mean_bounds 0 1) in Hq as [_ Hq]; [|done..].
  apply bool_decide_eq_true. eapply Qcle_lt_trans; [done|]. by apply Qc_of_Z_lt.
Qed.

End pillow.

Section strict.
Context `{Codec}.
Hypothesis chop_is_strict : ∀ im1 im2, chop_difference im1 im2 = strict_difference im1 im2.

Lemma strict_laws : DifferenceLaws.
Proof.
  split.
  - intros im1 im2 d. rewrite chop_is_strict.
    intros (_ & _ & (_ & _ & _ & ->)%pillow_difference_inr)%strict_difference_inr.
    apply diff_rows_range.
  - intros im Hm. rewrite chop_is_strict. unfold strict_difference.
    rewrite bool_decide_eq_true_2, pillow_difference_ok by done.
    eexists. split; [done|]. simpl. split; [apply diff_rows_self|].
    apply diff_rows_self_length.
Qed.

(** Under the policy of the specification two images of different
    sizes are never similar: the check raises, whatever the
    threshold. *)
Theorem img_similarity_check_strict_sizes im1 im2 t :
  im_width im1 ≠ im_width im2 ∨ im_height im1 ≠ im_height im2 →
  img_similarity_check (Decoded im1) (Decoded im2) t = inl ValueError.
Proof.
  intros Hne. unfold img_similarity_check, ImageChops_difference. simpl.
  rewrite chop_is_strict. unfold strict_difference.
  rewrite bool_decide_eq_false_2; [done|]. intros [? ?]. by destruct Hne.
Qed.

End strict.
