(* ===== verification/Vfs.v ===== *)
(** * Vfs: the file-entry tree of the virtual file system

    src/main.py reads the disk image through dfVFS and uses five
    members of a file entry: [IsDirectory()], [sub_file_entries],
    [name], [path_spec.location] and [GetFileObject()].  A [FileEntry]
    is the finite tree those members expose.  A directory lists its
    entries through a generator: it yields [sub_file_entries] in order
    and then, when [listing_error] is set, raises that exception, which
    is how a provider failure in the middle of a listing shows.  Trees
    are finite: a listing that never ends is outside the model.  A
    [FileSystem] gives its root entry, [None] or an exception.

    [leaves] is the depth-first sequence of non-directory entries.
    [walk] is the explicit work-list traversal; the section proves that
    it computes [leaves] with fuel [forest_size], independent of depth. *)

From S2P Require Import Prelude PyStr PyDict.

(** What [GetFileObject()] returns when it returns an object: [read()]
    gives the content or raises. *)
Inductive FileObject : Type :=
| Readable (content : bytes)
| Unreadable (e : PyExn).

#[warnings="-register-all"]
Inductive FileEntry : Type :=
| File (name location : pystr) (file_object : PyExn + option FileObject)
| Directory (name location : pystr) (sub_file_entries : list FileEntry)
            (listing_error : option PyExn).

Definition IsDirectory (fe : FileEntry) : bool :=
  match fe with File _ _ _ => false | Directory _ _ _ _ => true end.

Definition fe_name (fe : FileEntry) : pystr :=
  match fe with File n _ _ | Directory n _ _ _ => n end.

Definition fe_location (fe : FileEntry) : pystr :=
  match fe with File _ l _ | Directory _ l _ _ => l end.

(** [GetFileObject()]: a directory has no data stream. *)
Definition GetFileObject (fe : FileEntry) : PyExn + option FileObject :=
  match fe with File _ _ o => o | Directory _ _ _ _ => inr None end.

(** [file_object.read()] *)
Definition fo_read (fo : FileObject) : PyExn + bytes :=
  match fo with Readable c => inr c | Unreadable e => inl e end.

(** ** Path specifications and file systems

    The three path specifications src/main.py chains: the disk image as
    a file of the operating system, its content as a raw storage media
    image, and a SleuthKit file system at a location of it. *)
Inductive PathSpec : Type :=
| PathSpecOS (location : pystr)
| PathSpecRAW (parent : PathSpec)
| PathSpecTSK (location : pystr) (parent : PathSpec).

(** An opened file system: what [GetRootFileEntry()] gives: an
    exception, the root entry, or [None] when the provider has no entry
    for the root. *)
Record FileSystem : Type := mkFileSystem {
  GetRootFileEntry : PyExn + option FileEntry;
}.

(** ** Measures and the depth-first leaf sequence *)

Fixpoint entry_size (fe : FileEntry) : nat :=
  match fe with
  | File _ _ _ => 1
  | Directory _ _ subs _ => S (foldr (λ sub n, entry_size sub + n) 0 subs)
  end.

Definition forest_size (l : list FileEntry) : nat :=
  foldr (λ sub n, entry_size sub + n) 0 l.

Fixpoint entry_depth (fe : FileEntry) : nat :=
  match fe with
  | File _ _ _ => 0
  | Directory _ _ subs _ => S (foldr (λ sub n, entry_depth sub `max` n) 0 subs)
  end.

Fixpoint leaves (fe : FileEntry) : list FileEntry :=
  match fe with
  | File _ _ _ => [fe]
  | Directory _ _ subs _ => flat_map leaves subs
  end.

(** [true] when no directory of the tree fails to list. *)
Fixpoint listable (fe : FileEntry) : bool :=
  match fe with
  | File _ _ _ => true
  | Directory _ _ subs err => forallb listable subs && bool_decide (err = None)
  end.

(** ** The work-list traversal

    One step pops an entry: a leaf is emitted, a directory is replaced
    by its entries, first entry on top. *)
Fixpoint walk (fuel : nat) (stack : list FileEntry) : option (list FileEntry) :=
  match fuel with
  | 0 => match stack with [] => Some [] | _ => None end
  | S fuel' =>
      match stack with
      | [] => Some []
      | File n l o :: rest => cons (File n l o) <$> walk fuel' rest
      | Directory _ _ subs _ :: rest => walk fuel' (subs ++ rest)
      end
  end.

(** ** Induction over the tree, with the hypothesis for every entry of a
    directory *)

Lemma FileEntry_ind_nested (P : FileEntry → Prop) :
  (∀ n l o, P (File n l o)) →
  (∀ n l subs err, Forall P subs → P (Directory n l subs err)) →
  ∀ fe, P fe.
Proof.
  intros Hfile Hdir. fix IH 1. intros [n l o|n l subs err]; [apply Hfile|].
  apply Hdir. induction subs as [|sub subs IHsubs]; constructor; [apply IH | done].
Qed.

(** ** Facts *)

Lemma forest_size_app l1 l2 : forest_size (l1 ++ l2) = forest_size l1 + forest_size l2.
Proof. unfold forest_size. induction l1 as [|x l1 IH]; simpl; lia. Qed.

Lemma forest_size_cons fe l : forest_size (fe :: l) = entry_size fe + forest_size l.
Proof. done. Qed.

Lemma entry_size_Directory n l subs err :
  entry_size (Directory n l subs err) = S (forest_size subs).
Proof. done. Qed.

Lemma entry_size_pos fe : 0 < entry_size fe.
Proof. destruct fe; simpl; lia. Qed.

Lemma leaves_are_files fe : Forall (λ x, IsDirectory x = false) (leaves fe).
Proof.
  induction fe as [n l o|n l subs err IH] using FileEntry_ind_nested; simpl.
  - by repeat constructor.
  - induction IH as [|sub subs Hsub _ IHsubs]; simpl; [done|].
    by apply Forall_app.
Qed.

(** With the size of the stack as fuel the work-list traversal ends, and
    it emits the leaves of the stacked entries in depth-first order. *)
Lemma walk_flat_map fuel stack :
  forest_size stack ≤ fuel → walk fuel stack = Some (flat_map leaves stack).
Proof.
  revert stack. induction fuel as [|fuel IH]; intros stack Hfuel.
  - destruct stack as [|fe stack]; [done|].
    pose proof (entry_size_pos fe). rewrite forest_size_cons in Hfuel. lia.
  - destruct stack as [|[n l o|n l subs err] rest]; [done|..];
      rewrite forest_size_cons in Hfuel; simpl.
    + rewrite IH; [done|]. simpl in Hfuel. lia.
    + rewrite entry_size_Directory in Hfuel. rewrite IH.
      * by rewrite flat_map_app.
      * rewrite forest_size_app. lia.
Qed.
