(* ===== verification/Host.v ===== *)
(** * Host: the machine the scanner runs on

    What src/main.py asks of its environment besides the imaging
    library: the resolver of dfVFS, which opens the file system a path
    specification names; the local file system, for the listing of the
    reference folder ([os.listdir]), the content of a reference file
    (the [open(path, "rb")] inside [Image.open(path)]) and the creation
    of the output folder ([os.makedirs(path, exist_ok=True)]).  Each
    call answers with a value or with the exception it raises; the
    theorems hold for every host. *)

From S2P Require Import Prelude PyStr PyDict Vfs.

Class Host : Type := {
  OpenFileSystem : PathSpec → PyExn + FileSystem;
  os_listdir : pystr → PyExn + list pystr;
  open_rb : pystr → PyExn + bytes;
  os_makedirs : pystr → option PyExn;
}.

(** A host whose calls raise instances of [Exception] only. *)
Class TameHost `{Host} : Prop := {
  os_listdir_Exception path e : os_listdir path = inl e → is_Exception e = true;
  open_rb_Exception path e : open_rb path = inl e → is_Exception e = true;
}.
