(* ===== verification/Matcher.v ===== *)
(** * Matcher: the per-entry handler [is_image_similar]

    The state the scan threads is [ScanState]: the [result] dict that
    [main] creates and every call mutates, the files written to the
    output folder ([FileData]: an image, or the partial file a save
    leaves when its encoder fails), and the lines printed.  [print] is
    taken to succeed.  The imaging library is the interface [Codec] of
    the file [Imaging].

    [is_image_similar] is the whole handler of src/main.py, lines
    87-130: the extension test, the two early returns, the loop over the
    reference images with its append, print and optional save, and the
    [except Exception] that turns every failure into a logged [False].

    [handler_spec] is the pure account of the handler: the state it
    leaves ([entry_state]), the exception it lets through ([escapes])
    and the value it returns ([entry_return]).  [handler_run] shows that
    the handler is that function; the theorems on the result dict, the
    output folder and the exceptions are read off it. *)

From stdpp Require Import gmap.
From S2P Require Import Prelude Exec PyStr PyDict Imaging Vfs.

(** ** State *)

(** One entry of a match list: [(location, mean_diff)]. *)
Abbreviation MatchTuple := (pystr * Score)%type.

(** The [result] dict: reference name to match list. *)
Abbreviation ResultDict := (list (pystr * list MatchTuple)).

(** A hit: the reference's name and the tuple appended under it. *)
Abbreviation Hit := (pystr * MatchTuple)%type.

(** What the program prints, one constructor for each [print] of
    src/main.py. *)
Inductive Msg : Type :=
| MsgFsParsed                                    (* line 57 *)
| MsgLoadError                                   (* line 71 *)
| MsgErrorDetails (e : PyExn)                    (* lines 72, 128 *)
| MsgTraceback (e : PyExn)                       (* lines 73, 129 *)
| MsgRefsLoaded                                  (* line 76 *)
| MsgRootLoaded                                  (* line 80 *)
| MsgScanStart                                   (* line 81 *)
| MsgSimilarFound                                (* line 121 *)
| MsgCompareError (location : pystr)             (* line 127 *)
| MsgUsage (prog : pystr)                        (* lines 155-157 *)
| MsgMissingParams                               (* line 194 *)
| MsgFinalReport                                 (* line 205 *)
| MsgNoSimilar                                   (* line 207 *)
| MsgForReference (reference_image_name : pystr) (* line 212 *)
| MsgStat (location : pystr) (difference : Score) (* line 214 *).

(** The three lines an [except Exception as e] block prints. *)
Definition error_lines (head : Msg) (e : PyExn) : list Msg :=
  [head; MsgErrorDetails e; MsgTraceback e].

(** What a file written by the scan holds: the encoding of an image, or
    what a save that failed in the encoder has left of it (Pillow has
    opened the file for writing by then: it is empty or partial, and
    removed again when the save had created it). *)
Inductive FileData : Type :=
| Encoded (im : Image)
| Partial.

Record ScanState : Type := mkScanState {
  result : ResultDict;
  out_files : gmap pystr FileData;
  stdout : list Msg;
}.

Definition set_result (f : ResultDict → ResultDict) (s : ScanState) : ScanState :=
  mkScanState (f (result s)) (out_files s) (stdout s).

Definition set_out_files (f : gmap pystr FileData → gmap pystr FileData)
    (s : ScanState) : ScanState :=
  mkScanState (result s) (f (out_files s)) (stdout s).

Definition set_stdout (f : list Msg → list Msg) (s : ScanState) : ScanState :=
  mkScanState (result s) (out_files s) (f (stdout s)).

Abbreviation Scan := (Exec ScanState PyExn).

(** The value a call returns: [False], or [None] when it falls off the
    end. *)
Inductive PyRet : Type := RFalse | RNone.

Section matcher.
Context `{Codec}.

(** ** Primitive effects *)

Definition print (m : Msg) : Scan unit := modify (set_stdout (λ out, out ++ [m])).

(** [result[reference_name].append(res_tuple)] *)
Definition result_append (reference_name : pystr) (res_tuple : MatchTuple) : Scan unit :=
  s ← get_state;
  match dict_get (result s) reference_name with
  | None => raise KeyError
  | Some _ => modify (set_result (dict_alter (λ l, l ++ [res_tuple]) reference_name))
  end.

(** [image.save(output_file_path)]: the pixel data is loaded, then
    encoded and written. A save that fails before the file is opened
    leaves the folder as it was; one that fails in the encoder leaves
    [Partial] at the path, whatever was there. *)
Definition image_save (image : PILImage) (output_file_path : pystr) : Scan unit :=
  im ← lift_result (pil_load image);
  match Image_save output_file_path im with
  | Some (NotOpened e) => raise e
  | Some (Opened e) =>
      modify (set_out_files (insert output_file_path Partial));; raise e
  | None => modify (set_out_files (insert output_file_path (Encoded im)))
  end.

(** ** The handler *)

(** The body of the loop over the reference images (lines 115-124). *)
Definition compare_with_reference (file_entry : FileEntry) (image : PILImage)
    (similarity_threshold : Z) (output_folder : pystr)
    (item : pystr * PILImage) : Scan unit :=
  let '(reference_name, reference_image) := item in
  '(is_similar, mean_diff) ←
    lift_result (img_similarity_check image reference_image similarity_threshold);
  if is_similar : bool then
    let res_tuple := (fe_location file_entry, mean_diff) in
    result_append reference_name res_tuple;;
    print MsgSimilarFound;;
    if bool_decide (output_folder ≠ []) then
      let output_file_path := path_join output_folder (fe_name file_entry) in
      image_save image output_file_path
    else mret ()
  else mret ().

Definition is_image_similar (file_entry : FileEntry)
    (reference_image_list : list (pystr * PILImage))
    (similarity_threshold : Z) (output_folder : pystr) : Scan PyRet :=
  try_except
    (let file_ext := file_ext (fe_location file_entry) in
     if negb (bool_decide (file_ext ∈ valid_image_extensions)) then mret RFalse
     else
       file_object ← lift_result (GetFileObject file_entry);
       match file_object with
       | None => mret RFalse
       | Some file_object =>
           file_content ← lift_result (fo_read file_object);
           image ← lift_result (Image_open file_content);
           for_each (compare_with_reference file_entry image
                       similarity_threshold output_folder)
                    reference_image_list;;
           mret RNone
       end)
    is_Exception
    (λ e, print (MsgCompareError (fe_location file_entry));;
          print (MsgErrorDetails e);;
          print (MsgTraceback e);;
          mret RFalse).

End matcher.

(** * The handler in terms of pure functions

    What the handler does to the state is stated with the functions of
    this section: the image it gets out of an entry
    ([candidate_image]), the hits of an entry in dict order of the
    references ([entry_hits]), their effect on the result dict
    ([record_hits]), and the exception that ends the loop or escapes
    the handler ([loop_exn], [escapes]). *)

Section matcher_spec.
Context `{Codec}.
Implicit Types (fe : FileEntry) (s : ScanState) (refs : list (pystr * PILImage)).
Implicit Types (res : ResultDict) (image : PILImage) (hits : list Hit).
Implicit Types (t : Z) (out : pystr).

#[local] Open Scope res_scope.

(** What the handler gets out of an entry before it compares anything:
    nothing (filtered out, or no file object), an exception, or the
    opened image. *)
Definition candidate_image fe : PyExn + option PILImage :=
  if negb (is_valid_ext (fe_location fe)) then inr None
  else
    let! file_object := GetFileObject fe in
    match file_object with
    | None => inr None
    | Some file_object =>
        let! file_content := fo_read file_object in
        let! image := Image_open file_content in
        inr (Some image)
    end.

(** The [except] branch: three lines are printed, [False] is returned. *)
Definition on_error fe (e : PyExn) : Scan PyRet :=
  print (MsgCompareError (fe_location fe));;
  print (MsgErrorDetails e);;
  print (MsgTraceback e);;
  mret RFalse.

(** The loop over the references and the fall off the end. *)
Definition compare_all fe (image : PILImage) refs (t : Z) (out : pystr) : Scan PyRet :=
  for_each (compare_with_reference fe image t out) refs;; mret RNone.

(** A property of the result dict that every append keeps. *)
Definition append_stable (P : ResultDict → Prop) : Prop :=
  ∀ res name tuple, P res → P (dict_alter (λ l, l ++ [tuple]) name res).

(** Every list of [res0] is a prefix of the list under the same key. *)
Definition extends (res0 res : ResultDict) : Prop :=
  ∀ name l0, dict_get res0 name = Some l0 →
    ∃ l, dict_get res name = Some l ∧ l0 `prefix_of` l.

(** The hits of an image against the references, in dict order, up to
    the first comparison that raises. *)
Fixpoint ref_hits (location : pystr) image (t : Z) refs : list Hit :=
  match refs with
  | [] => []
  | (reference_name, reference_image) :: refs' =>
      match mean_diff_of image reference_image with
      | inl _ => []
      | inr mean_diff =>
          (if score_lt mean_diff t then [(reference_name, (location, mean_diff))] else [])
          ++ ref_hits location image t refs'
      end
  end.

(** The exception the export of an entry's image raises, if any. *)
Definition export_error (out : pystr) fe image : option PyExn :=
  if bool_decide (out ≠ []) then
    match pil_load image with
    | inl e => Some e
    | inr im => save_exn <$> Image_save (path_join out (fe_name fe)) im
    end
  else None.

(** The hits the handler records for an entry: those of its image, cut
    after the first one when the export fails. *)
Definition entry_hits fe refs (t : Z) (out : pystr) : list Hit :=
  match candidate_image fe with
  | inr (Some image) =>
      let hits := ref_hits (fe_location fe) image t refs in
      match export_error out fe image with
      | Some _ => take 1 hits
      | None => hits
      end
  | _ => []
  end.

(** The result dict after the append of a hit, of a list of hits. *)
Definition record_hit res (h : Hit) : ResultDict :=
  dict_alter (λ l, l ++ [h.2]) h.1 res.

Definition record_hits (hits : list Hit) res : ResultDict := foldl record_hit res hits.

(** Every reference has its list in the result dict. *)
Definition refs_recorded refs res : Prop :=
  ∀ name, name ∈ refs.*1 → name ∈ dict_keys res.

(** The three statements run on a hit. *)
Definition on_hit fe image (out : pystr) (h : Hit) : Scan unit :=
  result_append h.1 h.2;;
  print MsgSimilarFound;;
  if bool_decide (out ≠ []) then image_save image (path_join out (fe_name fe))
  else mret ().

(** The state after the append and the print of a hit. *)
Definition hit_state (h : Hit) s : ScanState :=
  mkScanState (record_hit (result s) h) (out_files s) (stdout s ++ [MsgSimilarFound]).

(** The tuples that a list of hits appends under [name]. *)
Definition hits_for (name : pystr) (hits : list Hit) : list MatchTuple :=
  (filter (λ h, h.1 = name) hits).*2.

(** The exception that ends the loop over the references, if any: the
    first comparison that raises, or the failed export of the first
    hit. *)
Fixpoint loop_exn fe image t out refs : option PyExn :=
  match refs with
  | [] => None
  | (_, reference_image) :: refs' =>
      match mean_diff_of image reference_image with
      | inl e => Some e
      | inr mean_diff =>
          if score_lt mean_diff t then
            match export_error out fe image with
            | Some e => Some e
            | None => loop_exn fe image t out refs'
            end
          else loop_exn fe image t out refs'
      end
  end.

(** The exception raised inside the [try] block for an entry. *)
Definition entry_exn fe refs t out : option PyExn :=
  match candidate_image fe with
  | inl e => Some e
  | inr None => None
  | inr (Some image) => loop_exn fe image t out refs
  end.

(** What [except Exception] lets through. *)
Definition uncaught (e : option PyExn) : option PyExn :=
  match e with
  | Some e => if is_Exception e then None else Some e
  | None => None
  end.

(** The exception that escapes the handler for an entry. *)
Definition escapes fe refs t out : option PyExn := uncaught (entry_exn fe refs t out).

(** What the save of [im] at [path] leaves there: the image, [Partial]
    when the encoder failed, nothing when the file was not opened. *)
Definition saved_data (path : pystr) (im : Image) : option FileData :=
  match Image_save path im with
  | None => Some (Encoded im)
  | Some (Opened _) => Some Partial
  | Some (NotOpened _) => None
  end.

(** The state after the save of [im] at [path]. *)
Definition save_state (path : pystr) (im : Image) (s : ScanState) : ScanState :=
  match saved_data path im with
  | Some data => set_out_files (insert path data) s
  | None => s
  end.

(** The output folder after the hits [hits] of an entry: the image is
    saved once there is a hit, under the base name of the entry. *)
Definition exported out fe image hits (files : gmap pystr FileData)
    : gmap pystr FileData :=
  match hits, pil_load image with
  | _ :: _, inr im =>
      if bool_decide (out ≠ []) then
        match saved_data (path_join out (fe_name fe)) im with
        | Some data => <[path_join out (fe_name fe) := data]> files
        | None => files
        end
      else files
  | _, _ => files
  end.

(** The state after the loop over the references has recorded
    [hits]. *)
Definition hits_state fe image out hits s : ScanState :=
  mkScanState (record_hits hits (result s))
              (exported out fe image hits (out_files s))
              (stdout s ++ ((λ _, MsgSimilarFound) <$> hits)).

(** The hits the loop records for an opened image. *)
Definition loop_hits fe image t out refs : list Hit :=
  match export_error out fe image with
  | Some _ => take 1 (ref_hits (fe_location fe) image t refs)
  | None => ref_hits (fe_location fe) image t refs
  end.

(** The lines the handler prints for an entry. *)
Definition entry_lines fe refs t out : list Msg :=
  ((λ _, MsgSimilarFound) <$> entry_hits fe refs t out) ++
  match entry_exn fe refs t out with
  | Some e =>
      if is_Exception e then error_lines (MsgCompareError (fe_location fe)) e else []
  | None => []
  end.

(** The output folder after the handler has run on an entry. *)
Definition entry_files fe refs t out (files : gmap pystr FileData)
    : gmap pystr FileData :=
  match candidate_image fe with
  | inr (Some image) => exported out fe image (entry_hits fe refs t out) files
  | _ => files
  end.

Definition entry_state fe refs t out s : ScanState :=
  mkScanState (record_hits (entry_hits fe refs t out) (result s))
              (entry_files fe refs t out (out_files s))
              (stdout s ++ entry_lines fe refs t out).

(** [None] when the loop ran to its end, [False] otherwise. *)
Definition entry_return fe refs t out : PyRet :=
  match candidate_image fe, entry_exn fe refs t out with
  | inr (Some _), None => RNone
  | _, _ => RFalse
  end.

(** The handler on an entry, as an outcome. *)
Definition handler_spec fe refs t out s : Outcome ScanState PyExn PyRet :=
  match escapes fe refs t out with
  | Some e => Raise e (entry_state fe refs t out s)
  | None => Ret (entry_return fe refs t out) (entry_state fe refs t out s)
  end.

(** The provider's failures on this entry are instances of
    [Exception]. *)
Definition tame_entry fe : Prop :=
  match GetFileObject fe with
  | inl e | inr (Some (Unreadable e)) => is_Exception e = true
  | _ => True
  end.

End matcher_spec.

(** * Properties of the handler *)

Section matcher_facts.
Context `{Codec}.
Implicit Types (fe : FileEntry) (s : ScanState) (refs : list (pystr * PILImage)).
Implicit Types (res : ResultDict) (image : PILImage) (hits : list Hit).
Implicit Types (t : Z) (out : pystr).

#[local] Open Scope res_scope.

(** ** The steps before the loop *)

Lemma is_image_similar_run fe refs t out s :
  is_image_similar fe refs t out s =
  match candidate_image fe with
  | inl e => if is_Exception e then on_error fe e s else Raise e s
  | inr None => Ret RFalse s
  | inr (Some image) =>
      try_except (compare_all fe image refs t out) is_Exception (on_error fe) s
  end.
Proof.
  unfold is_image_similar, candidate_image, is_valid_ext, compare_all, on_error.
  exec_simpl. destruct (bool_decide _); simpl; [|done].
  destruct (GetFileObject fe) as [e|[fo|]]; simpl; try done.
  destruct (fo_read fo) as [e|c]; simpl; [done|].
  by destruct (Image_open c) as [e|image].
Qed.

Lemma on_error_run fe e s :
  on_error fe e s
  = Ret RFalse (set_stdout (λ l, l ++ error_lines (MsgCompareError (fe_location fe)) e) s).
Proof.
  unfold on_error, print, set_stdout. exec_simpl. simpl.
  by rewrite <-!(assoc_L (++)).
Qed.

(** An entry whose extension is not an image extension is returned
    [False] at once: nothing is read, decoded, recorded or printed. *)
Theorem is_image_similar_filtered fe refs t out s :
  is_valid_ext (fe_location fe) = false →
  is_image_similar fe refs t out s = Ret RFalse s.
Proof.
  intros Hext. rewrite is_image_similar_run. unfold candidate_image.
  by rewrite Hext.
Qed.

(** When the content cannot be read or decoded, the handler prints the
    error and returns [False]; the result dict and the output folder are
    untouched. *)
Theorem is_image_similar_undecodable fe refs t out s e :
  candidate_image fe = inl e → is_Exception e = true →
  is_image_similar fe refs t out s
  = Ret RFalse (mkScanState (result s) (out_files s)
                            (stdout s ++ error_lines (MsgCompareError (fe_location fe)) e)).
Proof.
  intros Hc He. by rewrite is_image_similar_run, Hc, He, on_error_run.
Qed.

(** C8: no [Exception] escapes the handler: whatever the entry, the
    references and the codec do, it returns, or lets through an
    exception that [except Exception] does not cover. *)
Theorem is_image_similar_soft fe refs t out s :
  match is_image_similar fe refs t out s with
  | Ret _ _ => True
  | Raise e _ => is_Exception e = false
  end.
Proof.
  rewrite is_image_similar_run.
  destruct (candidate_image fe) as [e|[image|]]; [| |done].
  - by destruct (is_Exception e) eqn:He.
  - unfold try_except. destruct (compare_all _ _ _ _ _ _) as [|e s']; [done|].
    by destruct (is_Exception e) eqn:He.
Qed.

End matcher_facts.

(** * Invariants of the result dict *)

Section matcher_invariants.
Context `{Codec}.
Implicit Types (fe : FileEntry) (s : ScanState) (refs : list (pystr * PILImage)).

(** The handler changes [result] by appends to existing lists only, on
    every path, the exceptional ones included. *)
Lemma is_image_similar_preserves (P : ResultDict → Prop) fe refs t out :
  append_stable P → preserves (λ s, P (result s)) (is_image_similar fe refs t out).
Proof.
  intros HP. unfold is_image_similar, compare_with_reference, print,
    result_append, image_save.
  solve_preserves; intros s' Hs'; simpl; auto.
Qed.

Lemma append_stable_keys ks : append_stable (λ res, dict_keys res = ks).
Proof. intros res name tuple <-. apply dict_keys_alter. Qed.

Lemma append_stable_wf : append_stable dict_wf.
Proof. intros res name tuple. apply dict_wf_alter. Qed.

Lemma append_stable_extends res0 : append_stable (extends res0).
Proof.
  intros res name tuple Hext name' l0 Hl0.
  destruct (Hext name' l0 Hl0) as (l & Hl & Hpre).
  rewrite dict_get_alter, Hl. case_decide; simpl; [|by eauto].
  eexists. split; [done|]. by apply prefix_app_r.
Qed.

(** The handler never adds, removes or reorders a key of the result
    dict: the references present at the start are the ones present at
    the end. *)
Theorem is_image_similar_keys fe refs t out s :
  dict_keys (result (final_state (is_image_similar fe refs t out s)))
  = dict_keys (result s).
Proof.
  apply (preserves_final (λ s', dict_keys (result s') = dict_keys (result s))); [|done].
  apply (is_image_similar_preserves (λ res, dict_keys res = dict_keys (result s))),
    append_stable_keys.
Qed.

(** The result dict is append-only: after the handler every match list
    still starts with the matches it held before. *)
Theorem is_image_similar_append_only fe refs t out s :
  extends (result s) (result (final_state (is_image_similar fe refs t out s))).
Proof.
  apply (preserves_final (λ s', extends (result s) (result s'))).
  - apply (is_image_similar_preserves (extends (result s))), append_stable_extends.
  - intros name l0 Hl0. by exists l0.
Qed.

End matcher_invariants.

(** * What the handler records

    [ref_hits] is the list of matches the loop over the references
    appends for one opened image: the references are compared in dict
    order, a reference whose comparison raises ends the loop, a score
    below the threshold is a hit.  [entry_hits] is that list for an
    entry, cut after the first hit when the export of the entry's image
    fails (the save raises inside the loop).  [record_hits] appends
    hits to the result dict. *)

Section matcher_hits.
Context `{Codec}.
Implicit Types (fe : FileEntry) (s : ScanState) (refs : list (pystr * PILImage)).
Implicit Types (res : ResultDict) (image : PILImage) (hits : list Hit).
Implicit Types (t : Z) (out : pystr).

Lemma refs_recorded_cons name ref refs res :
  refs_recorded ((name, ref) :: refs) res ↔ name ∈ dict_keys res ∧ refs_recorded refs res.
Proof.
  unfold refs_recorded. csimpl. setoid_rewrite elem_of_cons. split.
  - intros Hr. split; [by apply Hr; left | by intros; apply Hr; right].
  - by intros [? Hr] name' [->|?]; [|apply Hr].
Qed.

Lemma refs_recorded_record_hit refs res h :
  refs_recorded refs res → refs_recorded refs (record_hit res h).
Proof. intros Hr name Hin. unfold record_hit. rewrite dict_keys_alter. auto. Qed.

Lemma record_hits_app hits1 hits2 res :
  record_hits (hits1 ++ hits2) res = record_hits hits2 (record_hits hits1 res).
Proof. apply foldl_app. Qed.

(** ** One turn of the loop *)

Lemma compare_with_reference_run fe image t out name ref s :
  compare_with_reference fe image t out (name, ref) s =
  match mean_diff_of image ref with
  | inl e => Raise e s
  | inr m => if score_lt m t then on_hit fe image out (name, (fe_location fe, m)) s
             else Ret () s
  end.
Proof.
  unfold compare_with_reference, on_hit. exec_simpl.
  rewrite img_similarity_check_mean.
  destruct (mean_diff_of image ref) as [e|m]; simpl; [done|].
  by destruct (score_lt m t).
Qed.

Lemma on_hit_run fe image out h s :
  h.1 ∈ dict_keys (result s) →
  on_hit fe image out h s =
  if bool_decide (out ≠ []) then
    match pil_load image with
    | inl e => Raise e (hit_state h s)
    | inr im =>
        let s' := save_state (path_join out (fe_name fe)) im (hit_state h s) in
        match Image_save (path_join out (fe_name fe)) im with
        | Some err => Raise (save_exn err) s'
        | None => Ret () s'
        end
    end
  else Ret () (hit_state h s).
Proof.
  intros [l Hl]%dict_get_is_Some.
  unfold on_hit, result_append, print, image_save, save_state, saved_data.
  exec_simpl. rewrite Hl. simpl. case_bool_decide; [|done].
  destruct (pil_load image) as [e|im]; simpl; [done|].
  by destruct (Image_save _ im) as [[]|].
Qed.

Lemma save_state_result path im s : result (save_state path im s) = result s.
Proof. unfold save_state. by destruct (saved_data path im). Qed.

Lemma saved_data_ok path im :
  Image_save path im = None → saved_data path im = Some (Encoded im).
Proof. unfold saved_data. by intros ->. Qed.

(** ** The loop *)

Lemma hits_state_nil fe image out s : hits_state fe image out [] s = s.
Proof. destruct s. unfold hits_state, exported. simpl. by rewrite app_nil_r. Qed.

(** A hit recorded before the others. *)
Lemma hits_state_cons fe image out h hits s :
  export_error out fe image = None →
  hits_state fe image out hits
    (match pil_load image with
     | inr im =>
         if bool_decide (out ≠ [])
         then save_state (path_join out (fe_name fe)) im (hit_state h s)
         else hit_state h s
     | inl _ => hit_state h s
     end)
  = hits_state fe image out (h :: hits) s.
Proof.
  unfold export_error, hits_state, exported, hit_state, save_state, set_out_files.
  intros He. destruct (pil_load image) as [e|im]; simpl.
  { case_bool_decide; [done|]. simpl. destruct hits; by rewrite <-(assoc_L (++)). }
  case_bool_decide; simpl; [|rewrite <-(assoc_L (++)); by destruct hits].
  apply fmap_None in He. rewrite (saved_data_ok _ _ He). simpl.
  rewrite <-(assoc_L (++)). destruct hits; [done|]. by rewrite insert_insert_eq.
Qed.

Lemma loop_run fe image t out refs s :
  refs_recorded refs (result s) →
  for_each (compare_with_reference fe image t out) refs s =
  match loop_exn fe image t out refs with
  | Some e => Raise e (hits_state fe image out (loop_hits fe image t out refs) s)
  | None => Ret () (hits_state fe image out (loop_hits fe image t out refs) s)
  end.
Proof.
  unfold loop_hits. revert s. induction refs as [|[name ref] refs IH]; intros s Hrec.
  { simpl. destruct (export_error _ _ _); by rewrite hits_state_nil. }
  apply refs_recorded_cons in Hrec as [Hname Hrec].
  rewrite for_each_cons, run_bind, compare_with_reference_run. simpl.
  destruct (mean_diff_of image ref) as [e|m] eqn:Hm; simpl.
  { destruct (export_error _ _ _); by rewrite hits_state_nil. }
  destruct (score_lt m t); simpl; [|by apply IH].
  rewrite on_hit_run by done.
  destruct image as [im|]; [|by rewrite mean_diff_of_Truncated in Hm].
  pose proof (hits_state_cons fe (Decoded im) out (name, (fe_location fe, m))) as Hcons.
  unfold export_error in *. simpl in *. case_bool_decide; simpl.
  - destruct (Image_save _ im) as [err|] eqn:Hsave; simpl.
    + unfold hits_state, exported, hit_state, save_state. simpl.
      rewrite bool_decide_eq_true_2 by done. by destruct (saved_data _ im).
    + rewrite IH by (rewrite save_state_result; by apply refs_recorded_record_hit).
      rewrite Hcons by done. done.
  - rewrite IH by (by apply refs_recorded_record_hit).
    rewrite Hcons by done. done.
Qed.

(** ** The handler *)

Lemma entry_state_idle fe refs t out s :
  entry_hits fe refs t out = [] → entry_exn fe refs t out = None →
  entry_state fe refs t out s = s.
Proof.
  intros Hh He. destruct s. unfold entry_state, entry_lines, entry_files, exported.
  rewrite Hh, He. simpl. rewrite app_nil_r. by destruct (candidate_image fe) as [|[|]].
Qed.

(** The state after the [except] block has printed its lines. *)
Lemma on_error_hits_state fe image out hits e s :
  final_state (on_error fe e (hits_state fe image out hits s))
  = mkScanState (record_hits hits (result s)) (exported out fe image hits (out_files s))
      (stdout s ++ ((λ _, MsgSimilarFound) <$> hits)
                ++ error_lines (MsgCompareError (fe_location fe)) e).
Proof. rewrite on_error_run. unfold set_stdout. simpl. by rewrite <-(assoc_L (++)). Qed.

(** The handler is [handler_spec]. *)
Lemma handler_run fe refs t out s :
  refs_recorded refs (result s) →
  is_image_similar fe refs t out s = handler_spec fe refs t out s.
Proof.
  intros Hrec. rewrite is_image_similar_run.
  unfold handler_spec, escapes, entry_return, entry_state, entry_lines, entry_files,
    entry_hits, entry_exn.
  destruct (candidate_image fe) as [e|[image|]]; simpl.
  - rewrite on_error_run. destruct s. unfold set_stdout. simpl.
    destruct (is_Exception e); simpl; by rewrite ?app_nil_r.
  - unfold try_except, compare_all. rewrite run_bind, loop_run by done.
    fold (loop_hits fe image t out refs).
    destruct (loop_exn fe image t out refs) as [e|]; simpl.
    + pose proof (on_error_hits_state fe image out (loop_hits fe image t out refs) e s) as Herr.
      rewrite on_error_run in *. simpl in Herr.
      destruct (is_Exception e); simpl; [by rewrite Herr|].
      unfold hits_state. by rewrite app_nil_r.
    + unfold hits_state. by rewrite app_nil_r.
  - destruct s. csimpl. by rewrite ?app_nil_r.
Qed.

(** The handler's effect on the result dict, on every path. *)
Lemma handler_result fe refs t out s :
  refs_recorded refs (result s) →
  result (final_state (is_image_similar fe refs t out s))
  = record_hits (entry_hits fe refs t out) (result s).
Proof.
  intros Hrec. rewrite handler_run by done. unfold handler_spec.
  by destruct (escapes _ _ _ _).
Qed.

(** The handler raises exactly the exception [escapes] names. *)
Lemma is_image_similar_raised fe refs t out s :
  refs_recorded refs (result s) →
  raised (is_image_similar fe refs t out s) = escapes fe refs t out.
Proof.
  intros Hrec. rewrite handler_run by done. unfold handler_spec.
  by destruct (escapes _ _ _ _).
Qed.

(** The handler's effect on the output folder, on every path. *)
Lemma handler_files fe refs t out s :
  refs_recorded refs (result s) →
  out_files (final_state (is_image_similar fe refs t out s))
  = entry_files fe refs t out (out_files s).
Proof.
  intros Hrec. rewrite handler_run by done. unfold handler_spec.
  by destruct (escapes _ _ _ _).
Qed.

(** The lines the handler prints, on every path. *)
Lemma handler_stdout fe refs t out s :
  refs_recorded refs (result s) →
  stdout (final_state (is_image_similar fe refs t out s))
  = stdout s ++ entry_lines fe refs t out.
Proof.
  intros Hrec. rewrite handler_run by done. unfold handler_spec.
  by destruct (escapes _ _ _ _).
Qed.

(** C6: the handler refines its specification: when every reference has
    its key in the result dict, [is_image_similar] ends in the state
    [entry_state]; it raises exactly when [escapes] names an exception,
    that one, and returns [entry_return] otherwise. *)
Theorem is_image_similar_refines fe refs t out s :
  refs_recorded refs (result s) →
  final_state (is_image_similar fe refs t out s) = entry_state fe refs t out s ∧
  raised (is_image_similar fe refs t out s) = escapes fe refs t out ∧
  returned (is_image_similar fe refs t out s)
  = match escapes fe refs t out with
    | Some _ => None
    | None => Some (entry_return fe refs t out)
    end.
Proof.
  intros Hrec. rewrite handler_run by done. unfold handler_spec.
  by destruct (escapes _ _ _ _).
Qed.

(** ** The output folder *)

(** What the handler's specification writes: a file of the folder after
    it was there before, or is the decoded image of the entry, which has
    a hit. *)
Lemma entry_files_lookup fe refs t out (files : gmap pystr FileData) p im :
  entry_files fe refs t out files !! p = Some (Encoded im) →
  files !! p = Some (Encoded im) ∨
  (p = path_join out (fe_name fe) ∧ out ≠ [] ∧
   candidate_image fe = inr (Some (Decoded im)) ∧ entry_hits fe refs t out ≠ []).
Proof.
  unfold entry_files, exported, saved_data.
  destruct (candidate_image fe) as [|[[im'|]|]] eqn:Hc; simpl; try by left.
  2: { destruct (entry_hits fe refs t out); by left. }
  destruct (entry_hits fe refs t out) as [|h hits]; [by left|].
  case_bool_decide; [|by left]. destruct (Image_save _ im') as [[]|]; [by left| |].
  - rewrite lookup_insert_Some. intros [[_ [=]]|[_ ?]]. by left.
  - intros [[<- [= <-]]|[_ ?]]%lookup_insert_Some; [by right | by left].
Qed.

(** It touches no other path than the one of the entry. *)
Lemma entry_files_other fe refs t out (files : gmap pystr FileData) p :
  p ≠ path_join out (fe_name fe) → entry_files fe refs t out files !! p = files !! p.
Proof.
  intros Hp. unfold entry_files, exported.
  destruct (candidate_image fe) as [|[[im'|]|]]; simpl; try done;
    destruct (entry_hits fe refs t out); try done.
  case_bool_decide; [|done]. destruct (saved_data _ im'); [|done].
  by rewrite lookup_insert_ne.
Qed.

(** What a matched entry leaves at its path is what its save leaves
    there. *)
Lemma entry_files_saved_data fe refs t out (files : gmap pystr FileData) im data :
  candidate_image fe = inr (Some (Decoded im)) → out ≠ [] →
  entry_hits fe refs t out ≠ [] → saved_data (path_join out (fe_name fe)) im = Some data →
  entry_files fe refs t out files !! path_join out (fe_name fe) = Some data.
Proof.
  intros Hc Hout Hhits Hsave. unfold entry_files, exported. rewrite Hc. simpl.
  destruct (entry_hits fe refs t out); [done|].
  by rewrite bool_decide_eq_true_2, Hsave, lookup_insert_eq.
Qed.

(** A matched entry whose save succeeds is in the folder. *)
Lemma entry_files_saved fe refs t out (files : gmap pystr FileData) im :
  candidate_image fe = inr (Some (Decoded im)) → out ≠ [] →
  entry_hits fe refs t out ≠ [] → Image_save (path_join out (fe_name fe)) im = None →
  entry_files fe refs t out files !! path_join out (fe_name fe) = Some (Encoded im).
Proof. eauto using entry_files_saved_data, saved_data_ok. Qed.

(** Without an output folder nothing is written. *)
Lemma entry_files_no_output fe refs t (files : gmap pystr FileData) :
  entry_files fe refs t [] files = files.
Proof.
  unfold entry_files, exported. destruct (candidate_image fe) as [|[[im'|]|]]; try done;
    by destruct (entry_hits fe refs t []).
Qed.

(** Only matched candidates are exported, each under its base name
    in the output folder: an image that is in the output folder after
    the handler was there before, or is the decoded image of the entry,
    which has a hit. *)
Theorem is_image_similar_exports fe refs t out s p im :
  refs_recorded refs (result s) →
  out_files (final_state (is_image_similar fe refs t out s)) !! p = Some (Encoded im) →
  out_files s !! p = Some (Encoded im) ∨
  (p = path_join out (fe_name fe) ∧ out ≠ [] ∧
   candidate_image fe = inr (Some (Decoded im)) ∧ entry_hits fe refs t out ≠ []).
Proof. intros Hrec. rewrite handler_files by done. apply entry_files_lookup. Qed.

(** The last write wins: when the handler exports the image of an
    entry, the file under the entry's base name holds that image,
    whatever was there. *)
Theorem is_image_similar_overwrites fe refs t out s im :
  refs_recorded refs (result s) →
  candidate_image fe = inr (Some (Decoded im)) → out ≠ [] →
  entry_hits fe refs t out ≠ [] → Image_save (path_join out (fe_name fe)) im = None →
  out_files (final_state (is_image_similar fe refs t out s)) !! path_join out (fe_name fe)
  = Some (Encoded im).
Proof. intros Hrec. rewrite handler_files by done. apply entry_files_saved. Qed.

(** A failed export is not harmless: when the encoder fails on the
    image of a matched entry, the file under the entry's base name is
    [Partial] after the handler, whatever image was there before. *)
Theorem is_image_similar_failed_export fe refs t out s im e :
  refs_recorded refs (result s) →
  candidate_image fe = inr (Some (Decoded im)) → out ≠ [] →
  entry_hits fe refs t out ≠ [] →
  Image_save (path_join out (fe_name fe)) im = Some (Opened e) →
  out_files (final_state (is_image_similar fe refs t out s)) !! path_join out (fe_name fe)
  = Some Partial.
Proof.
  intros Hrec Hc Hout Hhits Hsave. rewrite handler_files by done.
  apply (entry_files_saved_data _ _ _ _ _ im); try done.
  unfold saved_data. by rewrite Hsave.
Qed.

(** ** One reference's list *)

Lemma dict_get_record_hits hits res name :
  dict_get (record_hits hits res) name
  = (λ l, l ++ hits_for name hits) <$> dict_get res name.
Proof.
  unfold record_hits, hits_for. revert res.
  induction hits as [|[n tu] hits IH]; intros res; simpl.
  { destruct (dict_get res name); simpl; by rewrite ?app_nil_r. }
  rewrite IH. unfold record_hit. rewrite dict_get_alter, filter_cons. simpl.
  destruct (dict_get res name) as [l|]; repeat case_decide; simplify_eq/=; try done.
  by rewrite <-app_assoc.
Qed.

#[export] Instance hits_for_sublist name : Proper (sublist ==> sublist) (hits_for name).
Proof. intros hits1 hits2 Hsub. unfold hits_for. by rewrite Hsub. Qed.

Lemma record_hits_keys hits res : dict_keys (record_hits hits res) = dict_keys res.
Proof.
  unfold record_hits. revert res. induction hits as [|h hits IH]; intros res; [done|].
  simpl. rewrite IH. apply dict_keys_alter.
Qed.

Lemma refs_recorded_record_hits refs hits res :
  refs_recorded refs res → refs_recorded refs (record_hits hits res).
Proof. intros Hr name Hin. rewrite record_hits_keys. auto. Qed.

(** C2: what the handler does to the list of each reference, on every
    path: it appends one tuple for each hit of the entry under that
    reference, in dict order of the references; the hits stop at the
    first reference whose comparison raises, and after the first hit
    when the export of the image fails. *)
Theorem is_image_similar_matches fe refs t out s name :
  refs_recorded refs (result s) →
  dict_get (result (final_state (is_image_similar fe refs t out s))) name
  = (λ l, l ++ hits_for name (entry_hits fe refs t out)) <$> dict_get (result s) name.
Proof. intros Hrec. by rewrite handler_result, dict_get_record_hits. Qed.

End matcher_hits.

(** * The exceptions of the handler *)

Section matcher_errors.
Context `{Codec}.
Implicit Types (fe : FileEntry) (s : ScanState) (refs : list (pystr * PILImage)).
Implicit Types (res : ResultDict) (image : PILImage) (t : Z) (out : pystr).

(** Without an output folder the exception of the loop, and so what
    escapes the handler, does not depend on the threshold. *)
Lemma loop_exn_no_export fe image t1 t2 refs :
  loop_exn fe image t1 [] refs = loop_exn fe image t2 [] refs.
Proof.
  induction refs as [|[name ref] refs IH]; simpl; [done|].
  destruct (mean_diff_of image ref) as [e'|m]; [done|].
  by destruct (score_lt m t1), (score_lt m t2).
Qed.

Lemma escapes_no_export fe refs t1 t2 : escapes fe refs t1 [] = escapes fe refs t2 [].
Proof.
  unfold escapes, entry_exn. destruct (candidate_image fe) as [e|[image|]]; try done.
  by rewrite (loop_exn_no_export fe image t1 t2).
Qed.

(** ** A comparison that raises *)

Lemma ref_hits_raise location image t refs1 name ref refs2 e :
  mean_diff_of image ref = inl e →
  ref_hits location image t (refs1 ++ (name, ref) :: refs2)
  = ref_hits location image t refs1.
Proof.
  intros Hm. induction refs1 as [|[n r] refs1 IH]; simpl.
  - by rewrite Hm.
  - destruct (mean_diff_of image r); [done|]. by rewrite IH.
Qed.

Lemma refs_recorded_app refs1 refs2 res :
  refs_recorded (refs1 ++ refs2) res → refs_recorded refs1 res.
Proof. intros Hr name Hin. apply Hr. rewrite fmap_app, elem_of_app. by left. Qed.

(** C36: a reference whose comparison with the candidate raises (a band
    count that differs, pixel data that cannot be loaded) ends the loop:
    the references after it in the dict are not compared with this
    candidate, and the result is the one the references before it
    give. *)
Theorem is_image_similar_raise_cuts fe image refs1 name ref refs2 t out s e :
  refs_recorded (refs1 ++ (name, ref) :: refs2) (result s) →
  candidate_image fe = inr (Some image) → mean_diff_of image ref = inl e →
  result (final_state (is_image_similar fe (refs1 ++ (name, ref) :: refs2) t out s))
  = result (final_state (is_image_similar fe refs1 t out s)).
Proof.
  intros Hrec Hc Hm. rewrite !handler_result by eauto using refs_recorded_app.
  unfold entry_hits. rewrite Hc. by erewrite ref_hits_raise.
Qed.

(** ** An export that fails *)

(** A comparison that returns gives the score and its test against the
    threshold. *)
Lemma img_similarity_check_inr image ref t sim m :
  img_similarity_check image ref t = inr (sim, m) →
  mean_diff_of image ref = inr m ∧ score_lt m t = sim.
Proof.
  rewrite img_similarity_check_mean.
  destruct (mean_diff_of image ref); simpl; [done|]. by intros [= <- <-].
Qed.

(** C37: with an output folder whose export fails, the matches of an
    entry are not monotone in the threshold. Take a candidate whose
    export raises, a first reference that it matches with the threshold
    [t2] and not with [t1], and a second reference that it matches with
    [t1]: with [t1] the handler appends the candidate to the list of the
    second reference; with [t2] the hit on the first reference comes
    first, its failed export ends the loop, and the list of the second
    reference is left as it was. *)
Theorem is_image_similar_export_not_monotone fe image name1 ref1 name2 ref2 refs
    m1 m2 t1 t2 out e s l :
  refs_recorded ((name1, ref1) :: (name2, ref2) :: refs) (result s) →
  candidate_image fe = inr (Some image) →
  export_error out fe image = Some e →
  img_similarity_check image ref1 t1 = inr (false, m1) →
  img_similarity_check image ref1 t2 = inr (true, m1) →
  img_similarity_check image ref2 t1 = inr (true, m2) →
  name1 ≠ name2 →
  dict_get (result s) name2 = Some l →
  dict_get (result (final_state
    (is_image_similar fe ((name1, ref1) :: (name2, ref2) :: refs) t1 out s))) name2
  = Some (l ++ [(fe_location fe, m2)]) ∧
  dict_get (result (final_state
    (is_image_similar fe ((name1, ref1) :: (name2, ref2) :: refs) t2 out s))) name2
  = Some l.
Proof.
  intros Hrec Hc Hexp [Hm1 Hlt1]%img_similarity_check_inr
    [_ Hlt2]%img_similarity_check_inr [Hm2 Hlt3]%img_similarity_check_inr Hne Hl.
  rewrite !handler_result, !dict_get_record_hits, Hl by done.
  unfold entry_hits, hits_for. rewrite Hc, Hexp. simpl.
  rewrite Hm1, Hm2, Hlt1, Hlt2, Hlt3. simpl.
  rewrite !take_0, !filter_cons, filter_nil. simpl.
  rewrite decide_True, decide_False by done. simpl. by rewrite app_nil_r.
Qed.

(** ** Entries and codecs that raise instances of [Exception] only *)

Lemma candidate_image_tame `{!TameCodec} fe e :
  tame_entry fe → candidate_image fe = inl e → is_Exception e = true.
Proof.
  unfold tame_entry, candidate_image. destruct (is_valid_ext _); simpl; [|done].
  destruct (GetFileObject fe) as [e'|[[c|e']|]]; simpl; try done; try by intros ? [= <-].
  intros _. destruct (Image_open c) as [e'|image] eqn:Ho; simpl; [|done].
  intros [= <-]. by eapply Image_open_Exception.
Qed.

Lemma export_error_tame `{!TameCodec} out fe image e :
  export_error out fe image = Some e → is_Exception e = true.
Proof.
  unfold export_error. case_bool_decide; [|done].
  destruct image as [im|]; simpl; [|by intros [= <-]].
  intros (err & Hsave & ->)%fmap_Some. by eapply Image_save_Exception.
Qed.

Lemma loop_exn_tame `{!TameCodec} fe image t out refs e :
  loop_exn fe image t out refs = Some e → is_Exception e = true.
Proof.
  induction refs as [|[name ref] refs IH]; simpl; [done|].
  destruct (mean_diff_of image ref) as [e'|m] eqn:Hm.
  - intros [= <-]. by eapply mean_diff_of_Exception.
  - destruct (score_lt m t); [|done].
    destruct (export_error out fe image) as [e'|] eqn:He; [|done].
    intros [= <-]. by eapply export_error_tame.
Qed.

(** Nothing escapes the handler on a tame entry with a tame codec. *)
Lemma escapes_tame `{!TameCodec} fe refs t out :
  tame_entry fe → escapes fe refs t out = None.
Proof.
  intros Hfe. unfold escapes, entry_exn.
  destruct (candidate_image fe) as [e|[image|]] eqn:Hc; simpl; [| |done].
  - by rewrite (candidate_image_tame fe e).
  - destruct (loop_exn fe image t out refs) as [e|] eqn:Hl; simpl; [|done].
    by rewrite (loop_exn_tame _ _ _ _ _ _ Hl).
Qed.

(** ** Raising the threshold *)

Lemma ref_hits_mono location image t1 t2 refs :
  (t1 ≤ t2)%Z →
  ref_hits location image t1 refs `sublist_of` ref_hits location image t2 refs.
Proof.
  intros Hle. induction refs as [|[name ref] refs IH]; simpl; [done|].
  destruct (mean_diff_of image ref) as [e|m]; [done|].
  apply sublist_cond_cons; [apply score_lt_mono|]; done.
Qed.

Lemma entry_hits_mono fe refs t1 t2 :
  (t1 ≤ t2)%Z →
  entry_hits fe refs t1 [] `sublist_of` entry_hits fe refs t2 [].
Proof.
  intros Hle. unfold entry_hits, export_error.
  destruct (candidate_image fe) as [e|[image|]]; simpl; try done.
  by apply ref_hits_mono.
Qed.

(** ** A threshold that is not positive *)

Lemma ref_hits_nonpositive `{!DifferenceLaws} location image t refs :
  (t ≤ 0)%Z → ref_hits location image t refs = [].
Proof.
  intros Ht. induction refs as [|[name ref] refs IH]; simpl; [done|].
  destruct (mean_diff_of image ref) as [e|m] eqn:Hm; [done|].
  by rewrite (score_lt_nonpositive _ _ _ _ Ht Hm), IH.
Qed.

Lemma entry_hits_nonpositive `{!DifferenceLaws} fe refs t out :
  (t ≤ 0)%Z → entry_hits fe refs t out = [].
Proof.
  intros Ht. unfold entry_hits. destruct (candidate_image fe) as [|[image|]]; try done.
  rewrite ref_hits_nonpositive by done. by destruct (export_error _ _ _).
Qed.

Lemma record_hits_empty hits : record_hits hits [] = [].
Proof. by induction hits. Qed.

End matcher_errors.
