(* ===== verification/Traverse.v ===== *)
(** * Traverse: the recursive walk [traverse_file_entries]

    The function of src/main.py, lines 133-147: a file entry is handed
    to [is_image_similar], a directory is listed and every entry is
    traversed in turn.  Nothing is caught here: an exception that
    escapes the handler and an exception of a directory listing both
    end the whole traversal.  [traverse_root] is the call on what
    [GetRootFileEntry()] returned, which may be [None].

    [scan_order] is the pure account of the walk: the leaves reached, in
    order, and the listing exception that stops it, if any.  The first
    theorem says that the walk is the loop of the handler over that
    list; the others are read off the loop.  [walk_spec] folds the
    handler's specification over the list and gives the whole state
    after the walk. *)

From stdpp Require Import gmap.
From S2P Require Import Prelude Exec PyStr PyDict Imaging Vfs Matcher.

Section traverse.
Context `{Codec}.
Implicit Types (fe : FileEntry) (s : ScanState) (refs : list (pystr * PILImage)).
Implicit Types (t : Z) (out : pystr).

Fixpoint traverse_file_entries (file_entry : FileEntry)
    (reference_image_list : list (pystr * PILImage))
    (similarity_threshold : Z) (output_folder : pystr) : Scan unit :=
  match file_entry with
  | File _ _ _ =>
      is_image_similar file_entry reference_image_list
        similarity_threshold output_folder ≫= λ _, mret ()
  | Directory _ _ sub_file_entries listing_error =>
      for_each (λ sub_file_entry,
                  traverse_file_entries sub_file_entry reference_image_list
                    similarity_threshold output_folder)
               sub_file_entries;;
      match listing_error with
      | Some e => raise e
      | None => mret ()
      end
  end.

(** The call on what [GetRootFileEntry()] returned (line 84): on
    [None], [file_entry.IsDirectory()] (line 143) raises
    [AttributeError]. *)
Definition traverse_root (root_file_entry : option FileEntry)
    (reference_image_list : list (pystr * PILImage))
    (similarity_threshold : Z) (output_folder : pystr) : Scan unit :=
  match root_file_entry with
  | Some file_entry =>
      traverse_file_entries file_entry reference_image_list
        similarity_threshold output_folder
  | None => raise AttributeError
  end.

(** ** The order of the walk *)

(** The leaves of a sequence of walks run one after the other, and the
    exception that ends it: the first one a walk ends with, or [err]
    after the last walk. *)
Fixpoint seq_orders (orders : list (list FileEntry * option PyExn))
    (err : option PyExn) : list FileEntry * option PyExn :=
  match orders with
  | [] => ([], err)
  | (ls, Some e) :: _ => (ls, Some e)
  | (ls, None) :: orders' =>
      let '(ls', e') := seq_orders orders' err in (ls ++ ls', e')
  end.

Fixpoint scan_order fe : list FileEntry * option PyExn :=
  match fe with
  | File _ _ _ => ([fe], None)
  | Directory _ _ subs err => seq_orders (scan_order <$> subs) err
  end.

(** The handler call of the walk, its value dropped. *)
Definition handle refs t out fe : Scan unit :=
  is_image_similar fe refs t out ≫= λ _, mret ().

Definition finish (err : option PyExn) : Scan unit :=
  match err with Some e => raise e | None => mret () end.

(** The loop of the handler over the leaves of an order, then its
    exception. *)
Definition visit refs t out (order : list FileEntry * option PyExn) : Scan unit :=
  for_each (handle refs t out) order.1;; finish order.2.

(** The hits of a loop of the handler over leaves: those of each leaf in
    turn, up to and including the leaf whose handler call lets an
    exception escape. *)
Fixpoint leaves_hits refs t out (ls : list FileEntry) : list Hit :=
  match ls with
  | [] => []
  | fe :: ls' =>
      entry_hits fe refs t out ++
      match escapes fe refs t out with
      | Some _ => []
      | None => leaves_hits refs t out ls'
      end
  end.

(** The handler over a sequence of leaves, stopping at the first entry
    whose exception escapes. *)
Fixpoint leaves_run refs t out (ls : list FileEntry) s : Outcome ScanState PyExn unit :=
  match ls with
  | [] => Ret () s
  | fe :: ls' =>
      match escapes fe refs t out with
      | Some e => Raise e (entry_state fe refs t out s)
      | None => leaves_run refs t out ls' (entry_state fe refs t out s)
      end
  end.

(** The walk over an order: its leaves, then the exception of the
    listing that ended it. *)
Definition walk_spec refs t out (order : list FileEntry * option PyExn) s
    : Outcome ScanState PyExn unit :=
  match leaves_run refs t out order.1 s with
  | Ret _ s' => match order.2 with Some e => Raise e s' | None => Ret () s' end
  | Raise e s' => Raise e s'
  end.

Lemma visit_seq_orders refs t out order orders err :
  exec_equiv (visit refs t out (seq_orders (order :: orders) err))
             (visit refs t out order;; 
              match order.2 with
              | Some _ => mret ()
              | None => visit refs t out (seq_orders orders err)
              end).
Proof.
  destruct order as [ls [e|]]; simpl; intros s; unfold visit; simpl.
  - unfold mbind, exec_bind. destruct (for_each _ ls s) as [[] s'|]; done.
  - destruct (seq_orders orders err) as [ls' e'] eqn:Hseq. simpl.
    unfold mbind, exec_bind. rewrite (for_each_app _ ls ls' s).
    unfold mbind, exec_bind. by destruct (for_each _ ls s) as [[] s'|].
Qed.

Lemma visit_Ret refs t out order s a s' :
  visit refs t out order s = Ret a s' → order.2 = None.
Proof.
  unfold visit, mbind, exec_bind. destruct order as [ls [e|]]; [|done]. simpl.
  by destruct (for_each _ ls s).
Qed.

Lemma traverse_forest refs t out subs err :
  Forall (λ fe, exec_equiv (traverse_file_entries fe refs t out)
                           (visit refs t out (scan_order fe))) subs →
  exec_equiv
    (for_each (λ sub, traverse_file_entries sub refs t out) subs;; finish err)
    (visit refs t out (seq_orders (scan_order <$> subs) err)).
Proof.
  induction 1 as [|sub subs Hsub _ IH]; [done|]. intros s.
  rewrite fmap_cons, visit_seq_orders, for_each_cons.
  unfold mbind, exec_bind in *. rewrite Hsub.
  destruct (visit refs t out (scan_order sub) s) as [[] s'|e s'] eqn:Hv; [|done].
  rewrite (visit_Ret _ _ _ _ _ _ _ Hv). apply IH.
Qed.

(** The recursive walk is the loop of the handler over the leaves of
    [scan_order], stopped by the first exception that escapes a handler
    call or a directory listing. *)
Lemma traverse_visit fe refs t out :
  exec_equiv (traverse_file_entries fe refs t out) (visit refs t out (scan_order fe)).
Proof.
  induction fe as [n l o|n l subs err IH] using FileEntry_ind_nested.
  - intros s. unfold visit, handle. simpl. unfold mbind, exec_bind.
    by destruct (is_image_similar _ _ _ _ s).
  - by apply traverse_forest.
Qed.

(** The entries the walk reaches are the first leaves of the tree, and
    all of them when no listing fails. *)
Lemma seq_orders_split (subs : list FileEntry) err :
  Forall (λ fe, ∃ rest, leaves fe = (scan_order fe).1 ++ rest ∧
                        ((scan_order fe).2 = None → rest = [])) subs →
  ∃ rest, flat_map leaves subs = (seq_orders (scan_order <$> subs) err).1 ++ rest ∧
          ((seq_orders (scan_order <$> subs) err).2 = None → rest = []).
Proof.
  induction 1 as [|sub subs (rest & Hsub & Hnone) _ (rest' & IH & IHnone)]; csimpl.
  { by exists []. }
  rewrite Hsub, IH. destruct (scan_order sub) as [ls [e|]]; simpl in *.
  - eexists. split; [by rewrite <-(assoc_L (++))|done].
  - rewrite (Hnone eq_refl), app_nil_r.
    destruct (seq_orders _ err) as [ls' e']. exists rest'.
    split; [by rewrite (assoc_L (++))|done].
Qed.

Lemma scan_order_split fe :
  ∃ rest, leaves fe = (scan_order fe).1 ++ rest ∧ ((scan_order fe).2 = None → rest = []).
Proof.
  induction fe as [n l o|n l subs err IH] using FileEntry_ind_nested.
  - by exists [].
  - by apply seq_orders_split.
Qed.

Lemma scan_order_prefix fe : (scan_order fe).1 `prefix_of` leaves fe.
Proof. destruct (scan_order_split fe) as (rest & ? & _). by exists rest. Qed.

Lemma scan_order_leaves fe : (scan_order fe).1 ⊆ leaves fe.
Proof. intros x Hx. destruct (scan_order_prefix fe) as [rest ->]. set_solver. Qed.

(** ** What the walk records *)

Lemma handle_run refs t out fe s :
  handle refs t out fe s =
  match is_image_similar fe refs t out s with
  | Ret _ s' => Ret () s'
  | Raise e s' => Raise e s'
  end.
Proof. done. Qed.

Lemma for_each_handle_result refs t out ls s :
  refs_recorded refs (result s) →
  result (final_state (for_each (handle refs t out) ls s))
  = record_hits (leaves_hits refs t out ls) (result s).
Proof.
  revert s. induction ls as [|fe ls IH]; intros s Hrec; [done|].
  rewrite for_each_cons. unfold mbind, exec_bind. rewrite handle_run.
  pose proof (handler_result fe refs t out s Hrec) as Hres.
  pose proof (is_image_similar_raised fe refs t out s Hrec) as Hexn.
  simpl. rewrite record_hits_app.
  destruct (is_image_similar fe refs t out s) as [r s'|e s']; simpl in *.
  - rewrite <-Hexn, <-Hres. apply IH. rewrite Hres.
    by apply refs_recorded_record_hits.
  - by rewrite <-Hexn, <-Hres.
Qed.

Lemma visit_result refs t out order s :
  result (final_state (visit refs t out order s))
  = result (final_state (for_each (handle refs t out) order.1 s)).
Proof.
  unfold visit, mbind, exec_bind.
  destruct (for_each _ order.1 s) as [[] s'|]; [|done]. by destruct order.2.
Qed.

(** The result dict after the walk. *)
Lemma walk_result fe refs t out s :
  refs_recorded refs (result s) →
  result (final_state (traverse_file_entries fe refs t out s))
  = record_hits (leaves_hits refs t out (scan_order fe).1) (result s).
Proof.
  intros Hrec. by rewrite traverse_visit, visit_result, for_each_handle_result.
Qed.

(** C1: the list of each reference after the walk is its list before
    the walk followed by the hits of the visited leaves under that
    reference, in depth-first order of the leaves; the walk stops
    recording at the first exception that escapes. *)
Theorem traverse_matches fe refs t out s name :
  refs_recorded refs (result s) →
  dict_get (result (final_state (traverse_file_entries fe refs t out s))) name
  = (λ l, l ++ hits_for name (leaves_hits refs t out (scan_order fe).1))
    <$> dict_get (result s) name.
Proof. intros Hrec. by rewrite walk_result, dict_get_record_hits. Qed.

(** ** Raising the threshold *)

Lemma leaves_hits_mono refs t1 t2 ls :
  (t1 ≤ t2)%Z →
  leaves_hits refs t1 [] ls `sublist_of` leaves_hits refs t2 [] ls.
Proof.
  intros Hle. induction ls as [|fe ls IH]; simpl; [done|].
  apply sublist_app; [by apply entry_hits_mono|].
  rewrite (escapes_no_export fe refs t1 t2). by destruct (escapes fe refs t2 []).
Qed.

(** C20: without an output folder, raising the threshold only adds matches:
    the list recorded for a reference under the lower threshold is a
    sublist, in the same order, of the list recorded under the higher
    one. *)
Theorem traverse_threshold_monotone fe refs t1 t2 s name l1 :
  (t1 ≤ t2)%Z → refs_recorded refs (result s) →
  dict_get (result (final_state (traverse_file_entries fe refs t1 [] s))) name = Some l1 →
  ∃ l2,
    dict_get (result (final_state (traverse_file_entries fe refs t2 [] s))) name = Some l2 ∧
    l1 `sublist_of` l2.
Proof.
  intros Hle Hrec. rewrite !walk_result, !dict_get_record_hits by done.
  destruct (dict_get (result s) name) as [l|]; simpl; [|done].
  intros [= <-]. eexists. split; [done|].
  apply sublist_app; [done|]. by rewrite (leaves_hits_mono refs t1 t2).
Qed.

(** ** Invariants of the result dict *)

(** What every call of the handler keeps, the walk keeps. *)
Lemma traverse_invariant (I : ScanState → Prop) fe refs t out :
  (∀ leaf, preserves I (is_image_similar leaf refs t out)) →
  preserves I (traverse_file_entries fe refs t out).
Proof.
  intros HI. induction fe as [n l o|n l subs err IH] using FileEntry_ind_nested; simpl.
  - apply preserves_bind; [apply HI | intros; apply preserves_ret].
  - apply preserves_bind.
    + apply preserves_for_each. by apply Forall_forall.
    + intros []. destruct err; [apply preserves_raise | apply preserves_ret].
Qed.

Lemma traverse_preserves (P : ResultDict → Prop) fe refs t out :
  append_stable P → preserves (λ s, P (result s)) (traverse_file_entries fe refs t out).
Proof. intros HP. apply traverse_invariant. intros leaf. by apply is_image_similar_preserves. Qed.

(** The walk never adds, removes or reorders a key of the result
    dict: every reference loaded before the scan has its list after it,
    the empty ones included, however the scan ends. *)
Theorem traverse_keys fe refs t out s :
  dict_keys (result (final_state (traverse_file_entries fe refs t out s)))
  = dict_keys (result s).
Proof.
  apply (preserves_final (λ s', dict_keys (result s') = dict_keys (result s))); [|done].
  apply (traverse_preserves (λ res, dict_keys res = dict_keys (result s))),
    append_stable_keys.
Qed.

(** The walk only appends: every match list after the walk starts
    with the list it held before, also when the walk is aborted. *)
Theorem traverse_append_only fe refs t out s :
  extends (result s) (result (final_state (traverse_file_entries fe refs t out s))).
Proof.
  apply (preserves_final (λ s', extends (result s) (result s'))).
  - apply (traverse_preserves (extends (result s))), append_stable_extends.
  - intros name l0 Hl0. by exists l0.
Qed.

(** ** A threshold that is not positive *)

Lemma leaves_hits_nonpositive `{!DifferenceLaws} refs t out ls :
  (t ≤ 0)%Z → leaves_hits refs t out ls = [].
Proof.
  intros Ht. induction ls as [|fe ls IH]; simpl; [done|].
  rewrite entry_hits_nonpositive, IH by done. by destruct (escapes _ _ _ _).
Qed.

(** With a threshold of zero or less the scan records nothing: no
    score is negative, so the result dict after the walk is the one
    before it. *)
Theorem traverse_nonpositive_threshold `{!DifferenceLaws} fe refs t out s :
  (t ≤ 0)%Z → refs_recorded refs (result s) →
  result (final_state (traverse_file_entries fe refs t out s)) = result s.
Proof. intros Ht Hrec. by rewrite walk_result, leaves_hits_nonpositive. Qed.

(** ** Directory listings *)

Lemma seq_orders_listable (subs : list FileEntry) :
  Forall (λ fe, scan_order fe = (leaves fe, None)) subs →
  seq_orders (scan_order <$> subs) None = (flat_map leaves subs, None).
Proof.
  induction 1 as [|sub subs Hsub _ IH]; [done|]. csimpl. by rewrite Hsub, IH.
Qed.

Lemma scan_order_listable fe :
  listable fe = true → scan_order fe = (leaves fe, None).
Proof.
  induction fe as [n l o|n l subs err IH] using FileEntry_ind_nested; [done|].
  simpl. intros [Hsubs ->%bool_decide_eq_true]%andb_true_iff.
  apply seq_orders_listable. rewrite Forall_forall in IH |- *.
  intros sub Hin. apply IH; [done|].
  rewrite forallb_forall in Hsubs. by apply Hsubs, list_elem_of_In.
Qed.

(** When every directory lists, the recursive walk is the loop of the
    handler over the leaves in depth-first order, each leaf once. *)
Theorem traverse_listable fe refs t out :
  listable fe = true →
  exec_equiv (traverse_file_entries fe refs t out)
             (for_each (handle refs t out) (leaves fe)).
Proof.
  intros Hl s. rewrite traverse_visit, (scan_order_listable fe Hl).
  unfold visit, mbind, exec_bind. simpl. by destruct (for_each _ _ s) as [[] ?|].
Qed.

(** C35: a directory listing that fails is not skipped, and it ends the
    walk with the provider's exception. In a directory whose listing
    yields [before] and then a directory whose own listing yields [subs]
    and fails with [e], the walk is the walk of the tree cut at the
    failure ([before], then [subs]): where that walk returns, the whole
    walk raises [e] in the state reached there; where an exception escapes
    it, that exception and state are the result. The entries [after] and
    the outcome [err] of the enclosing listing do not occur on the right:
    nothing after the failure is visited. *)
Theorem traverse_listing_error name location before name' location' subs e after err
    refs t out s :
  traverse_file_entries
    (Directory name location
       (before ++ Directory name' location' subs (Some e) :: after) err)
    refs t out s
  = match traverse_file_entries
            (Directory name location
               (before ++ [Directory name' location' subs None]) None)
            refs t out s with
    | Ret _ s' => Raise e s'
    | Raise e' s' => Raise e' s'
    end.
Proof.
  cbn [traverse_file_entries]. rewrite !run_bind, !for_each_app, !run_bind.
  destruct (for_each _ before s) as [[] s1|]; [|done].
  rewrite !for_each_cons, !run_bind. cbn [traverse_file_entries].
  rewrite !run_bind. by destruct (for_each _ subs s1) as [[] s2|].
Qed.

(** C21: on a tree whose directories list, the recursion does what a
    work-list does: the handler runs on the entries that the explicit
    stack of [walk] pops as leaves, in that order, each one once. *)
Theorem traverse_as_worklist fe refs t out ls :
  listable fe = true → walk (entry_size fe) [fe] = Some ls →
  exec_equiv (traverse_file_entries fe refs t out) (for_each (handle refs t out) ls).
Proof.
  intros Hl Hw s. rewrite walk_flat_map in Hw by (rewrite forest_size_cons; simpl; lia).
  simpl in Hw. rewrite app_nil_r in Hw. injection Hw as <-.
  rewrite traverse_visit, (scan_order_listable fe Hl). unfold visit. rewrite run_bind.
  simpl. by destruct (for_each _ _ s) as [[] ?|].
Qed.

(** ** The whole state after the walk *)

Lemma entry_state_recorded fe refs t out s :
  refs_recorded refs (result s) → refs_recorded refs (result (entry_state fe refs t out s)).
Proof. intros Hrec. by apply refs_recorded_record_hits. Qed.

Lemma for_each_handle_run refs t out ls s :
  refs_recorded refs (result s) →
  for_each (handle refs t out) ls s = leaves_run refs t out ls s.
Proof.
  revert s. induction ls as [|fe ls IH]; intros s Hrec; [done|].
  rewrite for_each_cons, run_bind, handle_run, handler_run by done.
  unfold handler_spec. simpl. destruct (escapes fe refs t out); [done|].
  by apply IH, entry_state_recorded.
Qed.

(** The walk is [walk_spec]. *)
Lemma walk_run fe refs t out s :
  refs_recorded refs (result s) →
  traverse_file_entries fe refs t out s = walk_spec refs t out (scan_order fe) s.
Proof.
  intros Hrec. rewrite traverse_visit. unfold visit, walk_spec.
  rewrite run_bind, for_each_handle_run by done.
  destruct (leaves_run _ _ _ _ _) as [[] s'|]; [|done]. by destruct (scan_order fe).2.
Qed.

(** C5: the walk refines its specification: when every reference has its
    key, the state after [traverse_file_entries] is [entry_state] folded
    over the leaves of the tree in depth-first order, up to the first
    entry whose exception escapes or the first directory whose listing
    fails; the exception of the walk is that of the entry, or else that
    of the listing. *)
Theorem traverse_refines fe refs t out s :
  refs_recorded refs (result s) →
  final_state (traverse_file_entries fe refs t out s)
  = final_state (leaves_run refs t out (scan_order fe).1 s) ∧
  raised (traverse_file_entries fe refs t out s)
  = match raised (leaves_run refs t out (scan_order fe).1 s) with
    | Some e => Some e
    | None => (scan_order fe).2
    end.
Proof.
  intros Hrec. rewrite walk_run by done. unfold walk_spec.
  destruct (leaves_run _ _ _ _ _) as [[] s'|]; [|done]. by destruct (scan_order fe).2.
Qed.

(** ** Completion *)

Lemma handle_returns `{!TameCodec} refs t out fe :
  tame_entry fe →
  hoare (λ s, refs_recorded refs (result s)) (handle refs t out fe)
        (λ _ s, refs_recorded refs (result s)) (λ _ _, False).
Proof.
  intros Hfe s Hrec. rewrite handle_run.
  pose proof (is_image_similar_raised fe refs t out s Hrec) as Hexn.
  pose proof (handler_result fe refs t out s Hrec) as Hres.
  rewrite escapes_tame in Hexn by done.
  destruct (is_image_similar fe refs t out s) as [r s'|e s']; simpl in *; [|done].
  rewrite Hres. by apply refs_recorded_record_hits.
Qed.

Lemma walk_returns `{!TameCodec} fe refs t out :
  listable fe = true → Forall tame_entry (leaves fe) →
  hoare (λ s, refs_recorded refs (result s)) (traverse_file_entries fe refs t out)
        (λ _ s, refs_recorded refs (result s)) (λ _ _, False).
Proof.
  intros Hl Htame s Hrec. rewrite traverse_visit, (scan_order_listable fe Hl).
  assert (hoare (λ s, refs_recorded refs (result s))
                (for_each (handle refs t out) (leaves fe))
                (λ _ s, refs_recorded refs (result s)) (λ _ _, False)) as Hloop.
  { apply hoare_for_each. intros leaf Hin. apply handle_returns.
    by apply (proj1 (Forall_forall _ _) Htame). }
  specialize (Hloop s Hrec). unfold visit. rewrite run_bind. simpl.
  by destruct (for_each _ _ s) as [[] s'|].
Qed.

(** C18: soft failures never abort the scan: when every directory lists
    and the provider and the codec raise instances of [Exception] only,
    the walk returns normally, whatever files it meets. *)
Theorem traverse_completes `{!TameCodec} fe refs t out s :
  listable fe = true → Forall tame_entry (leaves fe) →
  refs_recorded refs (result s) →
  ∃ s', traverse_file_entries fe refs t out s = Ret () s'.
Proof.
  intros Hl Htame Hrec. pose proof (walk_returns fe refs t out Hl Htame s Hrec) as Hw.
  destruct (traverse_file_entries fe refs t out s) as [[] s'|]; [by eexists | done].
Qed.

End traverse.
