(* ===== verification/Machine.v ===== *)
(** * Machine: the call stack of [traverse_file_entries]

    [Traverse.traverse_file_entries] is a structural recursion: it says
    what the walk computes, not how the interpreter runs it.  This file
    runs the same function (src/main.py, lines 143-147) one call, one
    loop iteration and one return at a time.  A configuration holds the
    stack of the calls of [traverse_file_entries] that are in their
    [for] loop, one [Frame] for each with the entries the loop has still
    to take, the control (a call about to be made, the loop of the top
    frame, an exception on its way up) and the state of the scan.

    The steps are a relation ([Step]) and a function ([step]) that
    agree.  The theorems: every run ends, within [call_cost] steps, at
    most three for each entry of the tree; it ends with the outcome of
    the recursive function; the stack never holds more frames than the
    tree is deep.  The last part bounds the stack as the interpreter
    does ([step_limited]): below the limit nothing changes, and a chain
    of directories longer than the limit ends the scan with
    [RecursionError]. *)

From stdpp Require Import relations.
From S2P Require Import Prelude Exec PyStr PyDict Imaging Vfs Matcher Traverse.

(** ** Configurations *)

(** A call of [traverse_file_entries] on a directory, in its loop: the
    entries not yet taken from the listing, and the failure the listing
    ends with. *)
Record Frame : Type := mkFrame {
  pending : list FileEntry;
  listing_error : option PyExn;
}.

Inductive Control : Type :=
| Call (fe : FileEntry)   (* [traverse_file_entries(fe, ...)] is about to be called *)
| Next                    (* the loop of the top frame takes its next entry *)
| Unwind (e : PyExn).     (* an exception leaves the top frame *)

Record Config : Type := mkConfig {
  control : Control;
  frames : list Frame;
  scan : ScanState;
}.

(** The walk starts with the call on the root and an empty stack; it
    has ended when the stack is empty and nothing is left to call. *)
Definition init (fe : FileEntry) (s : ScanState) : Config := mkConfig (Call fe) [] s.

Definition final (c : Config) : option (Outcome ScanState PyExn unit) :=
  match control c, frames c with
  | Next, [] => Some (Ret () (scan c))
  | Unwind e, [] => Some (Raise e (scan c))
  | _, _ => None
  end.

(** Where a call that ended with the outcome [o] leaves the machine. *)
Definition resume (o : Outcome ScanState PyExn unit) (fs : list Frame) : Config :=
  match o with
  | Ret _ s => mkConfig Next fs s
  | Raise e s => mkConfig (Unwind e) fs s
  end.

(** ** Measures *)

(** The steps a call takes: one for a file; for a directory one to
    enter the loop, one to take each entry, the steps of the calls, and
    one to leave. *)
Fixpoint call_cost (fe : FileEntry) : nat :=
  match fe with
  | File _ _ _ => 1
  | Directory _ _ subs _ => 2 + foldr (λ sub n, S (call_cost sub) + n) 0 subs
  end.

Definition loop_cost (l : list FileEntry) : nat :=
  foldr (λ sub n, S (call_cost sub) + n) 0 l.

Definition frames_cost (fs : list Frame) : nat :=
  foldr (λ f n, S (loop_cost (pending f)) + n) 0 fs.

Definition steps_left (c : Config) : nat :=
  match control c with
  | Call fe => call_cost fe + frames_cost (frames c)
  | Next => frames_cost (frames c)
  | Unwind _ => length (frames c)
  end.

(** The frames of [traverse_file_entries] on the stack while an entry is
    walked: one for the entry and as many as its deepest entry needs. *)
Fixpoint frames_needed (fe : FileEntry) : nat :=
  match fe with
  | File _ _ _ => 1
  | Directory _ _ subs _ => S (foldr (λ sub n, frames_needed sub `max` n) 0 subs)
  end.

(** The calls of [traverse_file_entries] that are active. *)
Definition call_depth (c : Config) : nat :=
  length (frames c) + match control c with Call _ => 1 | _ => 0 end.

(** The stack fits in [n] frames, whatever is still to come: every
    pending entry can be walked from the depth of its frame. *)
Fixpoint frames_fit (n : nat) (fs : list Frame) : Prop :=
  match fs with
  | [] => True
  | f :: fs' =>
      length fs ≤ n ∧
      Forall (λ fe, frames_needed fe + length fs ≤ n) (pending f) ∧
      frames_fit n fs'
  end.

Definition fits (n : nat) (c : Config) : Prop :=
  frames_fit n (frames c) ∧
  match control c with
  | Call fe => frames_needed fe + length (frames c) ≤ n
  | _ => True
  end.

(** A chain of [k] directories around an entry. *)
Fixpoint nest (k : nat) (fe : FileEntry) : FileEntry :=
  match k with
  | 0 => fe
  | S k' => Directory [] [] [nest k' fe] None
  end.

(** ** Steps *)

Section machine.
Context `{Codec}.
Context (refs : list (pystr * PILImage)) (t : Z) (out : pystr).
Implicit Types (fe : FileEntry) (s : ScanState) (c : Config) (fs : list Frame).

(** Line 143-144: a file is handed to the handler, whose value is
    dropped and whose exception goes up.  Line 146: a directory starts
    its loop; each iteration calls the function on the next entry
    (line 147); the loop ends with the listing, in a return or in the
    exception of the listing.  Nothing in the function catches. *)
Inductive Step : Config → Config → Prop :=
| Step_file name location o fs s :
    Step (mkConfig (Call (File name location o)) fs s)
         (resume (handle refs t out (File name location o) s) fs)
| Step_directory name location subs err fs s :
    Step (mkConfig (Call (Directory name location subs err)) fs s)
         (mkConfig Next (mkFrame subs err :: fs) s)
| Step_next fe rest err fs s :
    Step (mkConfig Next (mkFrame (fe :: rest) err :: fs) s)
         (mkConfig (Call fe) (mkFrame rest err :: fs) s)
| Step_listing_error e fs s :
    Step (mkConfig Next (mkFrame [] (Some e) :: fs) s)
         (mkConfig (Unwind e) fs s)
| Step_return fs s :
    Step (mkConfig Next (mkFrame [] None :: fs) s)
         (mkConfig Next fs s)
| Step_unwind e f fs s :
    Step (mkConfig (Unwind e) (f :: fs) s)
         (mkConfig (Unwind e) fs s).

Definition step c : option Config :=
  match control c, frames c with
  | Call (File name location o), fs =>
      Some (resume (handle refs t out (File name location o) (scan c)) fs)
  | Call (Directory _ _ subs err), fs => Some (mkConfig Next (mkFrame subs err :: fs) (scan c))
  | Next, mkFrame (fe :: rest) err :: fs =>
      Some (mkConfig (Call fe) (mkFrame rest err :: fs) (scan c))
  | Next, mkFrame [] (Some e) :: fs => Some (mkConfig (Unwind e) fs (scan c))
  | Next, mkFrame [] None :: fs => Some (mkConfig Next fs (scan c))
  | Next, [] => None
  | Unwind e, _ :: fs => Some (mkConfig (Unwind e) fs (scan c))
  | Unwind _, [] => None
  end.

Fixpoint run (fuel : nat) c : Config :=
  match fuel with
  | 0 => c
  | S fuel' => match step c with Some c' => run fuel' c' | None => c end
  end.

(** The interpreter refuses a call that would make the stack deeper
    than its limit. *)
Definition step_limited (limit : nat) c : option Config :=
  match control c with
  | Call _ =>
      if decide (limit ≤ length (frames c))
      then Some (mkConfig (Unwind RecursionError) (frames c) (scan c))
      else step c
  | _ => step c
  end.

Fixpoint run_limited (limit fuel : nat) c : Config :=
  match fuel with
  | 0 => c
  | S fuel' =>
      match step_limited limit c with Some c' => run_limited limit fuel' c' | None => c end
  end.

End machine.

(** ** The measures *)

Lemma length_frames_cost fs : length fs ≤ frames_cost fs.
Proof. induction fs as [|f fs IH]; simpl; lia. Qed.

Lemma call_cost_Directory name location subs err :
  call_cost (Directory name location subs err) = 2 + loop_cost subs.
Proof. done. Qed.

(** Three steps for each entry are enough. *)
Lemma call_cost_size fe : S (call_cost fe) ≤ 3 * entry_size fe.
Proof.
  induction fe as [|n l subs err IH] using FileEntry_ind_nested; [simpl; lia|].
  rewrite call_cost_Directory, entry_size_Directory.
  assert (loop_cost subs ≤ 3 * forest_size subs); [|lia].
  induction IH as [|sub subs Hsub _ IHsubs]; [done|].
  rewrite forest_size_cons. simpl. fold (loop_cost subs). lia.
Qed.

Lemma frames_needed_pos fe : 0 < frames_needed fe.
Proof. destruct fe; simpl; lia. Qed.

Lemma frames_needed_sub name location subs err sub :
  sub ∈ subs → S (frames_needed sub) ≤ frames_needed (Directory name location subs err).
Proof.
  simpl. induction 1 as [sub subs|sub sub' subs _ IH]; simpl; lia.
Qed.

Lemma frames_needed_nest k fe : frames_needed (nest k fe) = k + frames_needed fe.
Proof. induction k as [|k IH]; simpl; lia. Qed.

(** ** The step relation and the step function *)

Section machine_facts.
Context `{Codec}.
Context (refs : list (pystr * PILImage)) (t : Z) (out : pystr).
Implicit Types (fe : FileEntry) (s : ScanState) (c : Config) (fs : list Frame).
Implicit Types (o : Outcome ScanState PyExn unit).

Lemma step_Step c c' : step refs t out c = Some c' ↔ Step refs t out c c'.
Proof.
  split.
  - destruct c as [[[]| |e] [|[[|fe rest] [e'|]] fs] s]; simpl; intros [= <-]; constructor.
  - by destruct 1.
Qed.

Lemma Step_det c c1 c2 : Step refs t out c c1 → Step refs t out c c2 → c1 = c2.
Proof. rewrite <-!step_Step. congruence. Qed.

Lemma final_resume o : final (resume o []) = Some o.
Proof. by destruct o as [[] s|e s]. Qed.

Lemma final_step c : is_Some (final c) ↔ step refs t out c = None.
Proof.
  destruct c as [[[]| |e] [|[[|fe rest] [e'|]] fs] s]; simpl;
    split; (done || by intros [? ?] || by eexists).
Qed.

Lemma Step_steps_left c c' : Step refs t out c c' → steps_left c' < steps_left c.
Proof.
  destruct 1 as [n l o fs s|n l subs err fs s| |e fs s| |]; unfold steps_left;
    cbn [control frames]; rewrite ?call_cost_Directory; simpl; try lia.
  - pose proof (length_frames_cost fs). destruct (handle _ _ _ _ _); simpl; lia.
  - pose proof (length_frames_cost fs). lia.
Qed.

(** Enough fuel follows a run to its end. *)
Lemma run_rtc c c' fuel :
  rtc (Step refs t out) c c' → step refs t out c' = None → steps_left c ≤ fuel →
  run refs t out fuel c = c'.
Proof.
  intros Hrtc Hnf. revert fuel.
  induction Hrtc as [c|c c1 c' Hstep _ IH]; intros fuel Hfuel.
  - destruct fuel; simpl; by rewrite ?Hnf.
  - pose proof (Step_steps_left _ _ Hstep). destruct fuel as [|fuel]; [lia|].
    simpl. rewrite (proj2 (step_Step _ _) Hstep). apply IH; [done | lia].
Qed.

(** The step function follows the relation. *)
Lemma run_Step fuel c : rtc (Step refs t out) c (run refs t out fuel c).
Proof.
  revert c. induction fuel as [|fuel IH]; intros c; simpl; [done|].
  destruct (step refs t out c) as [c'|] eqn:Hstep; [|done].
  eapply rtc_l; [by apply step_Step | apply IH].
Qed.

(** ** The machine and the recursion *)

Lemma Step_loop subs err fs s :
  Forall (λ fe, ∀ fs s, rtc (Step refs t out) (mkConfig (Call fe) fs s)
                            (resume (traverse_file_entries fe refs t out s) fs)) subs →
  rtc (Step refs t out) (mkConfig Next (mkFrame subs err :: fs) s)
      (resume ((for_each (λ sub, traverse_file_entries sub refs t out) subs;; finish err) s)
              fs).
Proof.
  intros IH. revert s. induction IH as [|sub subs Hsub _ IHsubs]; intros s.
  - apply rtc_once. destruct err; constructor.
  - eapply rtc_l; [constructor|]. etrans; [apply Hsub|].
    rewrite for_each_cons, !run_bind.
    destruct (traverse_file_entries sub refs t out s) as [[] s'|e s']; simpl.
    + specialize (IHsubs s'). by rewrite run_bind in IHsubs.
    + apply rtc_once. constructor.
Qed.

Lemma Step_call fe fs s :
  rtc (Step refs t out) (mkConfig (Call fe) fs s)
      (resume (traverse_file_entries fe refs t out s) fs).
Proof.
  revert fs s. induction fe as [n l o|n l subs err IH] using FileEntry_ind_nested;
    intros fs s.
  - apply rtc_once. constructor.
  - eapply rtc_l; [constructor|]. by apply Step_loop.
Qed.

Lemma run_call fe s fuel :
  call_cost fe ≤ fuel →
  run refs t out fuel (init fe s) = resume (traverse_file_entries fe refs t out s) [].
Proof.
  intros Hfuel. apply run_rtc; [apply Step_call| |unfold steps_left; simpl; lia].
  apply final_step. rewrite final_resume. by eexists.
Qed.

End machine_facts.

(** ** The depth of the stack *)

Section machine_depth.
Context `{Codec}.
Context (refs : list (pystr * PILImage)) (t : Z) (out : pystr).
Implicit Types (fe : FileEntry) (s : ScanState) (c : Config) (fs : list Frame).

Lemma frames_fit_length n fs : frames_fit n fs → length fs ≤ n.
Proof. destruct fs; simpl; [lia | tauto]. Qed.

Lemma fits_init fe s : fits (frames_needed fe) (init fe s).
Proof. split; simpl; [done | lia]. Qed.

Lemma fits_call_depth n c : fits n c → call_depth c ≤ n.
Proof.
  intros [Hfs Hc]. apply frames_fit_length in Hfs. unfold call_depth.
  destruct (control c) as [fe| |]; [|lia..]. pose proof (frames_needed_pos fe). lia.
Qed.

(** A step keeps the stack within the frames it fitted in. *)
Lemma Step_fits n c c' : fits n c → Step refs t out c c' → fits n c'.
Proof.
  intros [Hfs Hc]. destruct 1 as [name l o fs s|name l subs err fs s|fe rest err fs s| | |];
    unfold fits in *; simpl in *.
  - by destruct (handle _ _ _ _ _).
  - pose proof (frames_needed_pos (Directory name l subs err)). simpl in *.
    repeat split; [lia| |done]. apply Forall_forall. intros sub Hsub.
    pose proof (frames_needed_sub name l subs err sub Hsub). simpl in *. lia.
  - destruct Hfs as (? & [? ?]%Forall_cons & ?). repeat split; (done || lia).
  - tauto.
  - tauto.
  - tauto.
Qed.

Lemma rtc_fits n c c' : fits n c → rtc (Step refs t out) c c' → fits n c'.
Proof. intros Hfit Hrtc. induction Hrtc; eauto using Step_fits. Qed.

(** ** The limit of the interpreter *)

Lemma step_limited_fits limit n c :
  fits n c → n ≤ limit → step_limited refs t out limit c = step refs t out c.
Proof.
  intros [_ Hc] Hn. unfold step_limited. destruct (control c) as [fe| |]; [|done..].
  pose proof (frames_needed_pos fe). case_decide; [lia | done].
Qed.

Lemma run_limited_fits limit n fuel c :
  fits n c → n ≤ limit → run_limited refs t out limit fuel c = run refs t out fuel c.
Proof.
  intros Hfit Hn. revert c Hfit. induction fuel as [|fuel IH]; intros c Hfit; [done|].
  simpl. rewrite (step_limited_fits limit n) by done.
  destruct (step refs t out c) as [c'|] eqn:Hstep; [|done].
  apply IH. eapply Step_fits; [done|]. by apply step_Step.
Qed.

(** An exception leaves one frame at each step. *)
Lemma run_limited_unwind limit e fs s fuel :
  length fs ≤ fuel →
  run_limited refs t out limit fuel (mkConfig (Unwind e) fs s) = mkConfig (Unwind e) [] s.
Proof.
  revert fuel. induction fs as [|f fs IH]; intros [|fuel] Hfuel; simpl in *; try done; try lia.
  apply IH. lia.
Qed.

(** A call at the limit is refused, and the exception leaves every
    frame. *)
Lemma run_limited_refused limit fe fs s fuel :
  limit ≤ length fs → length fs < fuel →
  run_limited refs t out limit fuel (mkConfig (Call fe) fs s)
  = mkConfig (Unwind RecursionError) [] s.
Proof.
  intros Hlimit Hfuel. destruct fuel as [|fuel]; [lia|]. simpl.
  unfold step_limited. simpl. rewrite decide_True by done.
  apply run_limited_unwind. lia.
Qed.

Lemma run_limited_nest limit k fe fs s fuel :
  limit ≤ k + length fs → length fs ≤ limit →
  2 * (limit - length fs) + limit < fuel →
  run_limited refs t out limit fuel (mkConfig (Call (nest k fe)) fs s)
  = mkConfig (Unwind RecursionError) [] s.
Proof.
  revert fs fuel. induction k as [|k IH]; intros fs fuel Hk Hlen Hfuel.
  { apply run_limited_refused; lia. }
  destruct (decide (limit ≤ length fs)); [apply run_limited_refused; lia|].
  destruct fuel as [|[|fuel]]; [lia..|]. simpl.
  unfold step_limited at 1. simpl. rewrite decide_False by done. simpl.
  apply IH; simpl; lia.
Qed.

End machine_depth.

(** ** The theorems *)

Section machine_theorems.
Context `{Codec}.
Context (refs : list (pystr * PILImage)) (t : Z) (out : pystr).
Implicit Types (fe : FileEntry) (s : ScanState) (c : Config) (fs : list Frame).

(** C11: the machine implements the recursion: the run of the machine
    from the call on the root ends in the outcome of
    [traverse_file_entries] (state and exception), and in no other. *)
Theorem machine_refines fe s :
  (∃ c, rtc (Step refs t out) (init fe s) c ∧
        final c = Some (traverse_file_entries fe refs t out s)) ∧
  (∀ c o, rtc (Step refs t out) (init fe s) c → final c = Some o →
          o = traverse_file_entries fe refs t out s).
Proof.
  split.
  - eexists. split; [apply Step_call | apply final_resume].
  - intros c o Hrtc Hfinal.
    assert (run refs t out (call_cost fe) (init fe s) = c) as Hrun.
    { apply run_rtc; [done| |unfold steps_left; simpl; lia].
      apply final_step. by eexists. }
    rewrite run_call in Hrun by done. subst c. rewrite final_resume in Hfinal. congruence.
Qed.

(** C12: the walk terminates: no run of the machine is infinite, from any
    configuration, whatever the handler does. *)
Theorem machine_terminates c : sn (Step refs t out) c.
Proof.
  remember (steps_left c) as n eqn:Hn. revert c Hn.
  induction n as [n IH] using lt_wf_ind. intros c ->.
  constructor. intros c' Hstep. apply (IH (steps_left c')); [|done].
  exact (Step_steps_left refs t out c c' Hstep).
Qed.

(** C26: three steps for each entry of the tree are enough: with that
    fuel the machine has ended, in the outcome of the recursion. *)
Theorem machine_run_bound fe s :
  final (run refs t out (3 * entry_size fe) (init fe s))
  = Some (traverse_file_entries fe refs t out s).
Proof.
  rewrite run_call; [apply final_resume|]. pose proof (call_cost_size fe). lia.
Qed.

(** C27: the stack of the walk is as deep as the tree and no deeper: from
    a configuration that fits in [n] frames every configuration of the
    run fits in [n] frames, and has at most [n] calls active; the walk
    of [fe] fits in [frames_needed fe] frames. *)
Theorem machine_depth n c c' :
  fits n c → rtc (Step refs t out) c c' → fits n c' ∧ call_depth c' ≤ n.
Proof.
  intros Hfit Hrtc. assert (fits n c') by by eapply rtc_fits. eauto using fits_call_depth.
Qed.

(** A recursion limit of at least the frames the tree needs changes
    nothing: the limited machine runs as the unlimited one. *)
Theorem run_limited_below limit fe s fuel :
  frames_needed fe ≤ limit →
  run_limited refs t out limit fuel (init fe s) = run refs t out fuel (init fe s).
Proof. intros Hlimit. eapply run_limited_fits; [apply fits_init | done]. Qed.

(** C28: a chain of directories as long as the recursion limit ends the
    scan: the walk raises [RecursionError] before any entry under the
    chain is handled, and the state is the one before the walk. *)
Theorem run_limited_deep limit k fe s :
  limit ≤ k →
  final (run_limited refs t out limit (3 * limit + 1) (init (nest k fe) s))
  = Some (Raise RecursionError s).
Proof.
  intros Hk. unfold init. by rewrite run_limited_nest by (simpl; lia).
Qed.

End machine_theorems.
