(* ===== verification/Export.v ===== *)
(** * Export: the output folder after the walk

    The handler saves the image of an entry when a reference matches it
    and an output folder is given (src/main.py, lines 122-124), under
    the base name of the entry.  This file follows the folder through
    the walk: [export_of] is the file an entry writes, [visited] the
    entries the walk reaches, and the folder after the walk is the
    folder before it with the files of the visited entries written in
    the order of the walk ([write_all]).  Two entries with the same base
    name write the same path, and the later one wins; a save that fails
    in the encoder is a write too, of [Partial].  The name is the
    one the disk image gives: the files stay in the output folder when
    the names are plain ([PyStr.plain_name]), and a name that starts
    with a separator is written to the path it spells. *)

From stdpp Require Import gmap.
From S2P Require Import Prelude Exec PyStr PyDict Imaging Vfs Matcher Traverse.

Section export.
Context `{Codec}.
Context (refs : list (pystr * PILImage)) (t : Z) (out : pystr).
Implicit Types (fe : FileEntry) (s : ScanState) (files : gmap pystr FileData).
Implicit Types (ls : list FileEntry) (ws : list (pystr * FileData)).

(** The file the handler writes for an entry: what the save of the
    decoded image of a matched entry leaves, when there is an output
    folder. *)
Definition export_of fe : option (pystr * FileData) :=
  match candidate_image fe, entry_hits fe refs t out with
  | inr (Some (Decoded im)), _ :: _ =>
      if bool_decide (out ≠ []) then
        (λ data, (path_join out (fe_name fe), data))
          <$> saved_data (path_join out (fe_name fe)) im
      else None
  | _, _ => None
  end.

(** The entries of a sequence that the handler is called on: all up to
    the first whose exception escapes, that one included. *)
Fixpoint visited ls : list FileEntry :=
  match ls with
  | [] => []
  | fe :: ls' =>
      fe :: match escapes fe refs t out with Some _ => [] | None => visited ls' end
  end.

(** Writes in order: a later write to a path replaces an earlier one. *)
Definition write_all ws files : gmap pystr FileData :=
  foldl (λ files w, <[w.1 := w.2]> files) files ws.

(** ** Writes *)

Lemma write_all_app ws1 ws2 files :
  write_all (ws1 ++ ws2) files = write_all ws2 (write_all ws1 files).
Proof. apply foldl_app. Qed.

Lemma write_all_other ws files p : p ∉ ws.*1 → write_all ws files !! p = files !! p.
Proof.
  revert files. induction ws as [|[p' im] ws IH]; intros files; simpl; [done|].
  rewrite not_elem_of_cons. intros [Hp Hws]. rewrite IH by done.
  by rewrite lookup_insert_ne.
Qed.

Lemma write_all_last ws1 p data ws2 files :
  p ∉ ws2.*1 → write_all (ws1 ++ (p, data) :: ws2) files !! p = Some data.
Proof.
  intros Hp. rewrite write_all_app. simpl. rewrite write_all_other by done.
  apply lookup_insert_eq.
Qed.

Lemma write_all_lookup ws files p data :
  write_all ws files !! p = Some data → files !! p = Some data ∨ (p, data) ∈ ws.
Proof.
  revert files. induction ws as [|[p' data'] ws IH]; intros files; simpl; [by left|].
  intros [[[<- <-]|[_ ?]]%lookup_insert_Some|?]%IH.
  - right. left.
  - by left.
  - right. by right.
Qed.

(** ** The handler and the walk *)

Lemma entry_files_export fe files :
  entry_files fe refs t out files
  = match export_of fe with Some (p, data) => <[p := data]> files | None => files end.
Proof.
  unfold entry_files, exported, export_of.
  destruct (candidate_image fe) as [|[[im|]|]]; simpl; try done;
    destruct (entry_hits fe refs t out); try done.
  case_bool_decide; [|done]. by destruct (saved_data _ im).
Qed.

(** The path of an export is the base name joined to the folder. *)
Lemma export_of_path fe p data :
  export_of fe = Some (p, data) → p = path_join out (fe_name fe) ∧ out ≠ [].
Proof.
  unfold export_of. destruct (candidate_image fe) as [|[[im'|]|]]; try done.
  destruct (entry_hits fe refs t out); [done|]. case_bool_decide; [|done].
  by intros (data' & ? & [= <- <-])%fmap_Some.
Qed.

Lemma export_of_Some fe p im :
  export_of fe = Some (p, Encoded im) →
  p = path_join out (fe_name fe) ∧ out ≠ [] ∧
  candidate_image fe = inr (Some (Decoded im)) ∧ entry_hits fe refs t out ≠ [] ∧
  Image_save p im = None.
Proof.
  unfold export_of, saved_data. destruct (candidate_image fe) as [|[[im'|]|]]; try done.
  destruct (entry_hits fe refs t out); [done|]. case_bool_decide; [|done].
  destruct (Image_save _ im') as [[]|] eqn:Hsave; try done. by intros [= <- <-].
Qed.

Lemma visited_subseteq ls : visited ls ⊆ ls.
Proof.
  induction ls as [|fe ls IH]; simpl; [done|].
  destruct (escapes fe refs t out); [|by apply list_subseteq_skip].
  intros x ->%list_elem_of_singleton. left.
Qed.

Lemma write_all_visit fe ls files :
  write_all (omap export_of (fe :: ls)) files
  = write_all (omap export_of ls) (entry_files fe refs t out files).
Proof.
  rewrite entry_files_export. cbn [omap list_omap].
  by destruct (export_of fe) as [[p data]|].
Qed.

(** The folder after the handler has run over a sequence of entries. *)
Lemma leaves_run_files ls s :
  out_files (final_state (leaves_run refs t out ls s))
  = write_all (omap export_of (visited ls)) (out_files s).
Proof.
  revert s. induction ls as [|fe ls IH]; intros s; [done|].
  cbn [leaves_run visited]. rewrite write_all_visit. destruct (escapes fe refs t out); [done | by rewrite IH].
Qed.

Lemma walk_files fe s :
  refs_recorded refs (result s) →
  out_files (final_state (traverse_file_entries fe refs t out s))
  = write_all (omap export_of (visited (scan_order fe).1)) (out_files s).
Proof.
  intros Hrec. rewrite walk_run by done. rewrite <-leaves_run_files. unfold walk_spec.
  destruct (leaves_run _ _ _ _ _) as [[] s'|]; [|done]. by destruct (scan_order fe).2.
Qed.

(** C22: the output folder after the walk is the folder before it with
    the images of the matched entries written in the order of the walk,
    each under the base name of its entry: no other image is written. *)
Theorem traverse_exports fe s p im :
  refs_recorded refs (result s) →
  out_files (final_state (traverse_file_entries fe refs t out s)) !! p = Some (Encoded im) →
  out_files s !! p = Some (Encoded im) ∨
  ∃ leaf, leaf ∈ leaves fe ∧ p = path_join out (fe_name leaf) ∧ out ≠ [] ∧
          candidate_image leaf = inr (Some (Decoded im)) ∧
          entry_hits leaf refs t out ≠ [].
Proof.
  intros Hrec. rewrite walk_files by done.
  intros [?|(leaf & Hleaf & Hex)%list_elem_of_omap]%write_all_lookup; [by left|].
  right. exists leaf. apply export_of_Some in Hex as (? & ? & ? & ? & _).
  split_and!; try done. by apply scan_order_leaves, visited_subseteq.
Qed.

(** C25: the last write wins: when several matched entries have the
    same base name, the file under that name after the walk is what the
    last of them that the walk reaches has left there: its image when
    its save succeeded, [Partial] when its encoder failed. The entries
    after it write another path or nothing: they have no hit, or their
    save fails before the file is opened. *)
Theorem traverse_last_write_wins fe s ls1 leaf ls2 p data :
  refs_recorded refs (result s) →
  visited (scan_order fe).1 = ls1 ++ leaf :: ls2 →
  export_of leaf = Some (p, data) →
  Forall (λ x, path_join out (fe_name x) ≠ p ∨ export_of x = None) ls2 →
  out_files (final_state (traverse_file_entries fe refs t out s)) !! p = Some data.
Proof.
  intros Hrec Hv Hleaf Hls2. rewrite walk_files, Hv by done.
  rewrite omap_app. simpl. rewrite Hleaf. apply write_all_last.
  intros ([p' data'] & ? & (x & Hx & Hex)%list_elem_of_omap)%list_elem_of_fmap.
  simpl in *. subst p'. rewrite Forall_forall in Hls2.
  destruct (Hls2 x Hx) as [Hp|Hnone]; [|congruence].
  by apply export_of_path in Hex as (? & _).
Qed.

(** C24: exports stay in the output folder when the names of the disk
    image are plain: if no leaf has a name with a separator, or the
    name [.], [..] or the empty one, every file the walk has written,
    whole or partial, is an entry of the output folder itself. *)
Theorem traverse_exports_confined fe s p data :
  refs_recorded refs (result s) →
  Forall (λ leaf, plain_name (fe_name leaf) = true) (leaves fe) →
  out_files (final_state (traverse_file_entries fe refs t out s)) !! p = Some data →
  out_files s !! p = Some data ∨
  ∃ name, plain_name name = true ∧ p = entry_path out name.
Proof.
  intros Hrec Hplain. rewrite walk_files by done.
  intros [?|(leaf & Hleaf & Hex)%list_elem_of_omap]%write_all_lookup; [by left|].
  right. exists (fe_name leaf). apply export_of_path in Hex as (-> & Hout).
  assert (plain_name (fe_name leaf) = true) as Hname.
  { apply (proj1 (Forall_forall _ _) Hplain). by apply scan_order_leaves, visited_subseteq. }
  split; [done|]. by apply path_join_entry.
Qed.

(** C23: the name of an entry is joined to the output folder as it is:
    the image of a matched entry whose name starts with a separator is
    written to the path that is its name, whatever the output folder
    is. *)
Theorem is_image_similar_export_escapes fe s im :
  refs_recorded refs (result s) →
  startswith (fe_name fe) (str "/") = true →
  candidate_image fe = inr (Some (Decoded im)) → out ≠ [] →
  entry_hits fe refs t out ≠ [] → Image_save (fe_name fe) im = None →
  out_files (final_state (is_image_similar fe refs t out s)) !! fe_name fe
  = Some (Encoded im).
Proof.
  intros Hrec Habs Hc Hout Hhits Hsave. rewrite handler_files by done.
  rewrite <-(path_join_absolute out (fe_name fe) Habs) in Hsave |- * at 1.
  by apply entry_files_saved.
Qed.

(** Without an output folder the walk writes nothing. *)
Theorem traverse_no_output fe s :
  refs_recorded refs (result s) → out = [] →
  out_files (final_state (traverse_file_entries fe refs t out s)) = out_files s.
Proof.
  intros Hrec Hout. rewrite walk_files by done.
  assert (∀ x, export_of x = None) as Hnone.
  { intros x. unfold export_of. subst out.
    destruct (candidate_image x) as [|[[im|]|]]; try done.
    by destruct (entry_hits x refs t []). }
  induction (visited _) as [|x ls IH]; simpl; [done|]. by rewrite Hnone.
Qed.

End export.
