(* ===== verification/Loader.v ===== *)
(** * Loader: [find_similar_images], the reference loader and the scan

    [find_similar_images] of src/main.py (lines 33-84) opens the file
    system of the disk image, loads the reference folder into the local
    dict [reference_image_list] while it creates the empty list of each
    reference in [result], and starts the walk at the root entry.

    The loading loop runs inside [try ... except Exception]: a failure
    prints three lines and returns [False], with the keys created so far
    left in [result].  A failure of the resolver or of
    [GetRootFileEntry] is not handled and leaves the function as an
    exception; so does a provider that has no root entry: the walk is
    called on [None] ([Traverse.traverse_root]).

    [load_all] is the loading loop as a pure function; the theorems
    state what the function does on each path in its terms. *)

From stdpp Require Import gmap.
From S2P Require Import Prelude Exec PyStr PyDict Imaging Vfs Host Matcher Traverse.

#[local] Open Scope res_scope.

(** The local dict [reference_image_list]. *)
Abbreviation RefList := (list (pystr * PILImage)).

Section loader.
Context `{Codec} `{Host}.
Implicit Types (s : ScanState) (refs : RefList) (res : ResultDict).
Implicit Types (folder filename : pystr) (names : list pystr).

(** [Image.open(file_path)] on a path of the local file system: the
    file is opened for reading, then identified. *)
Definition Image_open_path (file_path : pystr) : PyExn + PILImage :=
  let! content := open_rb file_path in
  Image_open content.

(** The body of the loading loop (lines 64-68). *)
Definition load_reference (reference_image_folder_path : pystr)
    (reference_image_list : RefList) (filename : pystr) : Scan RefList :=
  if has_image_suffix filename then
    let file_path := path_join reference_image_folder_path filename in
    image ← lift_result (Image_open_path file_path);
    let reference_image_list := dict_set reference_image_list file_path image in
    modify (set_result (λ result, dict_set result file_path []));;
    mret reference_image_list
  else mret reference_image_list.

(** Lines 59-74: the value is the loaded dict, or [None] for the
    [return False] of the handler. *)
Definition load_references (reference_image_folder_path : pystr) : Scan (option RefList) :=
  try_except
    (filenames ← lift_result (os_listdir reference_image_folder_path);
     reference_image_list ←
       for_fold (load_reference reference_image_folder_path) filenames [];
     mret (Some reference_image_list))
    is_Exception
    (λ e, print MsgLoadError;;
          print (MsgErrorDetails e);;
          print (MsgTraceback e);;
          mret None).

Definition find_similar_images (disk_img_path reference_image_folder_path : pystr)
    (similarity_threshold : Z) (output_folder : pystr) : Scan PyRet :=
  let os_image_path_spec := PathSpecOS disk_img_path in
  let raw_image_path_spec := PathSpecRAW os_image_path_spec in
  let file_system_path_spec := PathSpecTSK (str "/") raw_image_path_spec in
  file_system ← lift_result (OpenFileSystem file_system_path_spec);
  print MsgFsParsed;;
  loaded ← load_references reference_image_folder_path;
  match loaded with
  | None => mret RFalse
  | Some reference_image_list =>
      print MsgRefsLoaded;;
      root_file_entry ← lift_result (GetRootFileEntry file_system);
      print MsgRootLoaded;;
      print MsgScanStart;;
      traverse_root root_file_entry reference_image_list
        similarity_threshold output_folder;;
      mret RNone
  end.

(** ** The loading loop as a function *)

(** The two dicts after the loop over [names], or the exception that
    ends it with [result] as it is then. *)
Fixpoint load_all folder names refs res : (PyExn * ResultDict) + (RefList * ResultDict) :=
  match names with
  | [] => inr (refs, res)
  | filename :: names' =>
      if has_image_suffix filename then
        let file_path := path_join folder filename in
        match Image_open_path file_path with
        | inl e => inl (e, res)
        | inr image =>
            load_all folder names' (dict_set refs file_path image) (dict_set res file_path [])
        end
      else load_all folder names' refs res
  end.

(** What the [try] block of the loader comes to. *)
Definition load_folder folder res : (PyExn * ResultDict) + (RefList * ResultDict) :=
  match os_listdir folder with
  | inl e => inl (e, res)
  | inr names => load_all folder names [] res
  end.

(** The paths the loop keeps: the names with an image suffix, joined to
    the folder. *)
Definition reference_paths folder names : list pystr :=
  path_join folder <$> filter (λ n, has_image_suffix n = true) names.

(** The file system of the disk image [disk_img_path]. *)
Definition disk_file_system (disk_img_path : pystr) : PyExn + FileSystem :=
  OpenFileSystem (PathSpecTSK (str "/") (PathSpecRAW (PathSpecOS disk_img_path))).

(** The state after [msgs] are printed with [res] as the result dict. *)
Definition after_prints (msgs : list Msg) res s : ScanState :=
  mkScanState res (out_files s) (stdout s ++ msgs).

(** The four lines printed before the walk starts. *)
Definition scan_banner : list Msg := [MsgFsParsed; MsgRefsLoaded; MsgRootLoaded; MsgScanStart].

End loader.

(** * Properties of the loader *)

Section loader_facts.
Context `{Codec} `{Host}.
Implicit Types (s : ScanState) (refs : RefList) (res : ResultDict).
Implicit Types (folder filename : pystr) (names : list pystr).

Lemma print_run m s : print m s = Ret () (after_prints [m] (result s) s).
Proof. done. Qed.

Lemma after_prints_app msgs1 msgs2 res res' s :
  after_prints msgs2 res' (after_prints msgs1 res s) = after_prints (msgs1 ++ msgs2) res' s.
Proof. unfold after_prints. simpl. by rewrite (assoc_L (++)). Qed.

Lemma after_prints_nil s : after_prints [] (result s) s = s.
Proof. destruct s. unfold after_prints. simpl. by rewrite app_nil_r. Qed.

(** ** The loop *)

Lemma load_loop_run folder names refs s :
  for_fold (load_reference folder) names refs s =
  match load_all folder names refs (result s) with
  | inl (e, res) => Raise e (after_prints [] res s)
  | inr (refs', res) => Ret refs' (after_prints [] res s)
  end.
Proof.
  revert refs s. induction names as [|n names IH]; intros refs s; simpl.
  { by rewrite after_prints_nil. }
  unfold load_reference, mbind, exec_bind. destruct (has_image_suffix n); simpl.
  - destruct (Image_open_path _) as [e|image]; simpl.
    + by rewrite after_prints_nil.
    + rewrite IH. simpl. by destruct (load_all _ _ _ _) as [[]|[]].
  - apply IH.
Qed.

Lemma load_references_run folder s :
  load_references folder s =
  match load_folder folder (result s) with
  | inl (e, res) =>
      if is_Exception e then Ret None (after_prints (error_lines MsgLoadError e) res s)
      else Raise e (after_prints [] res s)
  | inr (refs, res) => Ret (Some refs) (after_prints [] res s)
  end.
Proof.
  unfold load_references, load_folder, try_except, mbind, exec_bind.
  destruct (os_listdir folder) as [e|names]; simpl.
  - rewrite after_prints_nil. destruct (is_Exception e); [|done].
    unfold print, set_stdout, after_prints. exec_simpl. simpl.
    by rewrite <-!(assoc_L (++)).
  - rewrite load_loop_run. destruct (load_all _ _ _ _) as [[e res]|[refs res]]; [|done].
    destruct (is_Exception e); [|done].
    unfold print, set_stdout, after_prints. exec_simpl. simpl.
    by rewrite <-!(assoc_L (++)).
Qed.

(** Every key of the loaded dict is a key of [result], with an empty
    list unless it was there before. *)
Lemma load_all_keys folder names refs res refs' res' :
  load_all folder names refs res = inr (refs', res') →
  dict_keys refs = dict_keys res → dict_keys refs' = dict_keys res'.
Proof.
  revert refs res. induction names as [|n names IH]; intros refs res; simpl.
  { by intros [= <- <-]. }
  destruct (has_image_suffix n); [|apply IH].
  destruct (Image_open_path _) as [e|image]; [done|].
  intros Hl Hk. apply (IH _ _ Hl). by rewrite !dict_keys_set, Hk.
Qed.

Lemma load_all_recorded folder names refs res refs' res' :
  load_all folder names refs res = inr (refs', res') →
  refs_recorded refs res → refs_recorded refs' res'.
Proof.
  revert refs res. induction names as [|n names IH]; intros refs res; simpl.
  { by intros [= <- <-]. }
  destruct (has_image_suffix n); [|apply IH].
  destruct (Image_open_path _) as [e|image]; [done|].
  intros Hl Hrec. apply (IH _ _ Hl). intros name.
  change (name ∈ dict_keys (dict_set refs (path_join folder n) image) →
          name ∈ dict_keys (dict_set res (path_join folder n) [])).
  rewrite !dict_keys_set. specialize (Hrec name).
  assert (∀ ks : list pystr, name ∈ (if decide (path_join folder n ∈ ks) then ks
                                     else ks ++ [path_join folder n])
          ↔ name ∈ ks ∨ name = path_join folder n) as Hin.
  { intros ks. case_decide; rewrite ?elem_of_app, ?list_elem_of_singleton; [|done].
    split; [by left | by intros [?| ->]]. }
  rewrite !Hin. intros [?| ->]; [left; auto | by right].
Qed.

Lemma load_folder_recorded folder res refs res' :
  load_folder folder res = inr (refs, res') → refs_recorded refs res'.
Proof.
  unfold load_folder. destruct (os_listdir folder) as [|names]; [done|].
  intros Hl. apply (load_all_recorded _ _ _ _ _ _ Hl).
  intros name Hin. by apply elem_of_nil in Hin.
Qed.

(** The keys added by the loop, when the kept paths are new and
    distinct: the paths, in the order of the listing. *)
Lemma load_all_paths folder names refs res refs' res' :
  load_all folder names refs res = inr (refs', res') →
  NoDup (dict_keys refs ++ reference_paths folder names) →
  dict_keys refs' = dict_keys refs ++ reference_paths folder names.
Proof.
  unfold reference_paths.
  revert refs res. induction names as [|n names IH]; intros refs res; simpl.
  { intros [= <- <-] _. by rewrite app_nil_r. }
  rewrite filter_cons. destruct (has_image_suffix n); simpl; [|apply IH].
  destruct (Image_open_path _) as [e|image]; [done|].
  intros Hl Hnd.
  assert (path_join folder n ∉ dict_keys refs) as Hnew.
  { apply NoDup_app in Hnd as (_ & Hnd & _). intros Hin. apply (Hnd _ Hin). left. }
  rewrite (IH _ _ Hl); rewrite dict_keys_set, decide_False by done.
  - by rewrite <-(assoc_L (++)).
  - by rewrite <-(assoc_L (++)).
Qed.

Lemma load_all_result folder names refs res refs' res' :
  load_all folder names refs res = inr (refs', res') →
  dict_keys refs = dict_keys res →
  NoDup (dict_keys refs ++ reference_paths folder names) →
  res' = res ++ ((λ p, (p, [])) <$> reference_paths folder names).
Proof.
  unfold reference_paths.
  revert refs res. induction names as [|n names IH]; intros refs res; simpl.
  { intros [= <- <-] _ _. by rewrite app_nil_r. }
  rewrite filter_cons. destruct (has_image_suffix n) eqn:Hn; simpl; [|apply IH].
  destruct (Image_open_path _) as [e|image]; [done|].
  intros Hl Hk Hnd.
  assert (path_join folder n ∉ dict_keys refs) as Hnew.
  { apply NoDup_app in Hnd as (_ & Hnd & _). intros Hin. apply (Hnd _ Hin). left. }
  rewrite (IH _ _ Hl).
  - rewrite dict_set_new by (by rewrite <-Hk). by rewrite <-(assoc_L (++)).
  - by rewrite !dict_keys_set, Hk.
  - rewrite dict_keys_set, decide_False by done. by rewrite <-(assoc_L (++)).
Qed.

(** With a tame host and codec the loading loop raises instances of
    [Exception] only. *)
Lemma Image_open_path_tame `{!TameCodec} `{!TameHost} path e :
  Image_open_path path = inl e → is_Exception e = true.
Proof.
  unfold Image_open_path. destruct (open_rb path) as [e'|content] eqn:Ho; simpl.
  - intros [= <-]. by eapply open_rb_Exception.
  - apply Image_open_Exception.
Qed.

Lemma load_all_tame `{!TameCodec} `{!TameHost} folder names refs res e res' :
  load_all folder names refs res = inl (e, res') → is_Exception e = true.
Proof.
  revert refs res. induction names as [|n names IH]; intros refs res; simpl; [done|].
  destruct (has_image_suffix n); [|apply IH].
  destruct (Image_open_path _) as [e'|image] eqn:Ho; [|apply IH].
  intros [= <- _]. by eapply Image_open_path_tame.
Qed.

Lemma load_folder_tame `{!TameCodec} `{!TameHost} folder res e res' :
  load_folder folder res = inl (e, res') → is_Exception e = true.
Proof.
  unfold load_folder. destruct (os_listdir folder) as [e'|names] eqn:Hl.
  - intros [= <- _]. by eapply os_listdir_Exception.
  - apply load_all_tame.
Qed.

(** A folder without image names loads nothing. *)
Lemma load_all_nothing folder names refs res :
  reference_paths folder names = [] → load_all folder names refs res = inr (refs, res).
Proof.
  unfold reference_paths. induction names as [|n names IH]; simpl; [done|].
  rewrite filter_cons. destruct (has_image_suffix n); simpl; [done | apply IH].
Qed.

(** ** The whole function *)

Lemma find_similar_images_run disk folder t out s :
  find_similar_images disk folder t out s =
  match disk_file_system disk with
  | inl e => Raise e s
  | inr file_system =>
      match load_folder folder (result s) with
      | inl (e, res) =>
          if is_Exception e
          then Ret RFalse (after_prints (MsgFsParsed :: error_lines MsgLoadError e) res s)
          else Raise e (after_prints [MsgFsParsed] res s)
      | inr (refs, res) =>
          match GetRootFileEntry file_system with
          | inl e => Raise e (after_prints [MsgFsParsed; MsgRefsLoaded] res s)
          | inr None => Raise AttributeError (after_prints scan_banner res s)
          | inr (Some root) =>
              (traverse_file_entries root refs t out ≫= λ _, mret RNone)
                (after_prints scan_banner res s)
          end
      end
  end.
Proof.
  unfold find_similar_images, disk_file_system.
  destruct (OpenFileSystem _) as [e|fs]; [done|]. simpl.
  rewrite run_bind, run_ret. cbn beta iota.
  rewrite run_bind, print_run. cbn beta iota.
  rewrite run_bind, load_references_run. simpl.
  destruct (load_folder _ _) as [[e res]|[refs res]].
  - destruct (is_Exception e); by rewrite after_prints_app.
  - rewrite after_prints_app. simpl.
    rewrite run_bind, print_run, after_prints_app. simpl.
    destruct (GetRootFileEntry fs) as [e|root]; [done|]. simpl.
    rewrite run_bind, run_ret. cbn beta iota.
    rewrite run_bind, print_run, after_prints_app. simpl.
    rewrite run_bind, print_run, after_prints_app. by destruct root.
Qed.

(** A disk image whose file system cannot be opened ends the
    function with the resolver's exception; nothing is printed, loaded
    or recorded. *)
Theorem find_similar_images_open_failure disk folder t out s e :
  disk_file_system disk = inl e →
  find_similar_images disk folder t out s = Raise e s.
Proof. intros Hd. by rewrite find_similar_images_run, Hd. Qed.

(** C34: when the reference folder cannot be listed or one of its images
    cannot be opened, the function prints the error and returns
    [False]: no entry of the disk image is visited, and the keys created
    before the failure stay in the result dict. *)
Theorem find_similar_images_load_failure disk folder t out s file_system e res :
  disk_file_system disk = inr file_system →
  load_folder folder (result s) = inl (e, res) → is_Exception e = true →
  find_similar_images disk folder t out s
  = Ret RFalse (after_prints (MsgFsParsed :: error_lines MsgLoadError e) res s).
Proof. intros Hd Hl He. by rewrite find_similar_images_run, Hd, Hl, He. Qed.

(** C7: after a successful load, the list of each reference at the end of
    the function holds the hits of the leaves of the disk image under
    that reference, in depth-first order, after what the load left
    there. *)
Theorem find_similar_images_matches disk folder t out s file_system refs res root name :
  disk_file_system disk = inr file_system →
  load_folder folder (result s) = inr (refs, res) →
  GetRootFileEntry file_system = inr (Some root) →
  dict_get (result (final_state (find_similar_images disk folder t out s))) name
  = (λ l, l ++ hits_for name (leaves_hits refs t out (scan_order root).1))
    <$> dict_get res name.
Proof.
  intros Hd Hl Hr. rewrite find_similar_images_run, Hd, Hl, Hr.
  rewrite final_state_bind_ret, walk_result, dict_get_record_hits; [done|].
  by eapply load_folder_recorded.
Qed.

(** Every loaded reference is a key of the result dict at the end of
    the function, whether or not anything matched it: starting from the
    empty dict, the keys of the result are the keys of the loaded
    dict, in the same order. *)
Theorem find_similar_images_keys disk folder t out s file_system refs res root :
  result s = [] →
  disk_file_system disk = inr file_system →
  load_folder folder [] = inr (refs, res) →
  GetRootFileEntry file_system = inr (Some root) →
  dict_keys (result (final_state (find_similar_images disk folder t out s)))
  = dict_keys refs.
Proof.
  intros Hs Hd Hl Hr. rewrite find_similar_images_run, Hd, Hs, Hl, Hr.
  rewrite final_state_bind_ret, walk_result, record_hits_keys.
  - simpl. unfold load_folder in Hl. destruct (os_listdir folder); [done|].
    symmetry. by eapply load_all_keys.
  - by eapply load_folder_recorded.
Qed.

(** The loaded references are the files of the folder whose name
    ends in an image suffix, in the order of the listing, each under the
    path [folder/name] and each with an empty list in the result
    dict. *)
Theorem load_folder_paths folder names refs res :
  os_listdir folder = inr names →
  NoDup (reference_paths folder names) →
  load_folder folder [] = inr (refs, res) →
  dict_keys refs = reference_paths folder names ∧
  res = (λ p, (p, [])) <$> reference_paths folder names.
Proof.
  unfold load_folder. intros -> Hnd Hl. split.
  - by apply (load_all_paths _ _ _ _ _ _ Hl).
  - by apply (load_all_result _ _ _ _ _ _ Hl).
Qed.

(** Once the file system is open and its root entry is there, the
    function returns: with a host, a provider and a codec that raise
    instances of [Exception] only, and directories that list, no failure
    of the reference folder or of an entry of the disk image leaves it
    as an exception. *)
Theorem find_similar_images_completes `{!TameCodec} `{!TameHost}
    disk folder t out s file_system root :
  disk_file_system disk = inr file_system →
  GetRootFileEntry file_system = inr (Some root) →
  listable root = true → Forall tame_entry (leaves root) →
  ∃ r s', find_similar_images disk folder t out s = Ret r s'.
Proof.
  intros Hd Hr Hl Htame. rewrite find_similar_images_run, Hd.
  destruct (load_folder folder (result s)) as [[e res]|[refs res]] eqn:Hload.
  - rewrite (load_folder_tame _ _ _ _ Hload). by eexists _, _.
  - rewrite Hr, run_bind.
    pose proof (walk_returns root refs t out Hl Htame (after_prints scan_banner res s)
                  (load_folder_recorded _ _ _ _ Hload)) as Hw.
    destruct (traverse_file_entries _ _ _ _ _) as [[] s'|]; [by eexists _, _ | done].
Qed.

(** A file system without a root entry: the two lines that announce
    the scan are printed, then the call on [None] raises
    [AttributeError], which nothing catches. *)
Theorem find_similar_images_no_root disk folder t out s file_system refs res :
  disk_file_system disk = inr file_system →
  load_folder folder (result s) = inr (refs, res) →
  GetRootFileEntry file_system = inr None →
  find_similar_images disk folder t out s
  = Raise AttributeError (after_prints scan_banner res s).
Proof. intros Hd Hl Hr. by rewrite find_similar_images_run, Hd, Hl, Hr. Qed.

(** A reference folder without a single image does not stop the
    function: the disk image is walked with an empty reference dict, and
    the result dict is left as it was. *)
Theorem find_similar_images_no_references disk folder t out s file_system names root :
  disk_file_system disk = inr file_system →
  os_listdir folder = inr names → reference_paths folder names = [] →
  GetRootFileEntry file_system = inr (Some root) →
  find_similar_images disk folder t out s
  = (traverse_file_entries root [] t out ≫= λ _, mret RNone)
      (after_prints scan_banner (result s) s).
Proof.
  intros Hd Hn Hp Hr. rewrite find_similar_images_run, Hd. unfold load_folder.
  by rewrite Hn, load_all_nothing, Hr.
Qed.

End loader_facts.
