(* ===== verification/Records.v ===== *)
(** * Records: the well-formedness of the result dict

    The result dict is the one data structure of the scan: the script
    creates it, the loader gives every reference its key and an empty
    list, the handler appends to the lists, the report reads it.
    [result_wf] is what its readers may rely on: the keys are distinct,
    every reference has its key, and every record under a key names an
    entry of the disk image and holds a score between 0 and 255 that is
    below the threshold.  The predicate is decidable, so a concrete
    result is checked by computation.

    The lemmas show that each operation keeps it: the store of the
    loader ([Loader.load_all]), the append of the handler
    ([Matcher.is_image_similar]), the walk
    ([Traverse.traverse_file_entries]); the theorem at the end shows
    that it holds of the dict [find_similar_images] leaves behind,
    however the scan ends. *)

From Stdlib Require Import QArith Qcanon.
From stdpp Require Import gmap.
From S2P Require Import Prelude Exec PyStr PyDict Imaging Vfs Host Matcher Traverse Loader.
Close Scope Qc_scope.
Close Scope Q_scope.

(** ** Well-formed records *)

(** A score that the scan may record under the threshold [t]. *)
Definition score_ok (t : Z) (m : Score) : Prop :=
  match m with
  | NaN => False
  | Val q => (Qc_of_Z 0 ≤ q ∧ q ≤ Qc_of_Z 255 ∧ q < Qc_of_Z t)%Qc
  end.

(** A record of a scan of the entries at [locations]. *)
Definition record_ok (t : Z) (locations : list pystr) (r : MatchTuple) : Prop :=
  r.1 ∈ locations ∧ score_ok t r.2.

Definition records_ok (t : Z) (locations : list pystr) (res : ResultDict) : Prop :=
  Forall (λ kv, Forall (record_ok t locations) kv.2) res.

Definition result_wf (refs : list (pystr * PILImage)) (t : Z) (locations : list pystr)
    (res : ResultDict) : Prop :=
  dict_wf res ∧ Forall (λ name, name ∈ dict_keys res) refs.*1 ∧ records_ok t locations res.

(** A hit of a scan: a record for one of the references. *)
Definition hit_ok (refs : list (pystr * PILImage)) (t : Z) (locations : list pystr)
    (h : Hit) : Prop :=
  h.1 ∈ refs.*1 ∧ record_ok t locations h.2.

(** The locations of the entries of a tree that the handler is called
    on. *)
Definition locations (fe : FileEntry) : list pystr := fe_location <$> leaves fe.

#[export] Instance score_ok_dec t m : Decision (score_ok t m).
Proof. destruct m; apply _. Defined.

#[export] Instance record_ok_dec t ls r : Decision (record_ok t ls r).
Proof. apply _. Defined.

#[export] Instance records_ok_dec t ls res : Decision (records_ok t ls res).
Proof. apply _. Defined.

#[export] Instance result_wf_dec refs t ls res : Decision (result_wf refs t ls res).
Proof. apply _. Defined.

(** ** The records of the handler *)

Section records.
Context `{Codec} `{!DifferenceLaws} `{Host}.
Implicit Types (fe : FileEntry) (s : ScanState) (refs : list (pystr * PILImage)).
Implicit Types (res : ResultDict) (image : PILImage) (hits : list Hit).
Implicit Types (t : Z) (out : pystr) (ls : list pystr).

Lemma refs_recorded_Forall refs res :
  refs_recorded refs res ↔ Forall (λ name, name ∈ dict_keys res) refs.*1.
Proof. by rewrite Forall_forall. Qed.

Lemma record_ok_mono t ls1 ls2 r : ls1 ⊆ ls2 → record_ok t ls1 r → record_ok t ls2 r.
Proof. intros Hsub [? ?]. split; auto. Qed.

Lemma hit_ok_mono refs t ls1 ls2 h : ls1 ⊆ ls2 → hit_ok refs t ls1 h → hit_ok refs t ls2 h.
Proof. intros Hsub [? ?]. split; eauto using record_ok_mono. Qed.

(** A score the check found similar is a score to record. *)
Lemma score_lt_ok image ref t m :
  mean_diff_of image ref = inr m → score_lt m t = true → score_ok t m.
Proof.
  intros Hm Hlt. destruct m as [|q]; [done|]. simpl in *.
  apply bool_decide_eq_true in Hlt. apply mean_diff_of_bounds in Hm. tauto.
Qed.

Lemma ref_hits_ok location image t refs :
  Forall (hit_ok refs t [location]) (ref_hits location image t refs).
Proof.
  induction refs as [|[name ref] refs IH]; simpl; [done|].
  destruct (mean_diff_of image ref) as [e|m] eqn:Hm; [done|].
  apply Forall_app. split.
  - destruct (score_lt m t) eqn:Hlt; [|done]. apply Forall_singleton.
    repeat split; simpl; [left | left | by eapply score_lt_ok].
  - eapply Forall_impl; [done|]. intros h [? ?]. split; [by right | done].
Qed.

Lemma entry_hits_ok fe refs t out :
  Forall (hit_ok refs t [fe_location fe]) (entry_hits fe refs t out).
Proof.
  unfold entry_hits. destruct (candidate_image fe) as [|[image|]]; try done.
  destruct (export_error out fe image); [apply Forall_take|]; apply ref_hits_ok.
Qed.

(** ** The operations on the dict *)

Lemma records_ok_record_hit refs t ls res h :
  records_ok t ls res → hit_ok refs t ls h → records_ok t ls (record_hit res h).
Proof.
  intros Hres [_ Hh]. apply Forall_dict_alter; [done|]. simpl.
  intros l Hl. apply Forall_app. split; [done | by apply Forall_singleton].
Qed.

Lemma result_wf_record_hit refs t ls res h :
  result_wf refs t ls res → hit_ok refs t ls h → result_wf refs t ls (record_hit res h).
Proof.
  intros (Hwf & Hrec & Hok) Hh. unfold result_wf, record_hit.
  rewrite dict_keys_alter. split_and!; [by apply dict_wf_alter | done|].
  by eapply records_ok_record_hit.
Qed.

Lemma result_wf_record_hits refs t ls hits res :
  result_wf refs t ls res → Forall (hit_ok refs t ls) hits →
  result_wf refs t ls (record_hits hits res).
Proof.
  intros Hres Hhits. revert res Hres.
  induction Hhits as [|h hits Hh _ IH]; intros res Hres; [done|].
  apply IH. by apply result_wf_record_hit.
Qed.

Lemma result_wf_recorded refs t ls res : result_wf refs t ls res → refs_recorded refs res.
Proof. intros (_ & Hrec & _). by apply refs_recorded_Forall. Qed.

(** The store of the loader: a new key, or an old one emptied. *)
Lemma records_ok_set t ls res name : records_ok t ls res → records_ok t ls (dict_set res name []).
Proof. intros Hres. by apply Forall_dict_set. Qed.

Lemma leaves_hits_ok refs t out (entries : list FileEntry) ls :
  fe_location <$> entries ⊆ ls →
  Forall (hit_ok refs t ls) (leaves_hits refs t out entries).
Proof.
  induction entries as [|fe entries IH]; simpl; [done|]. intros Hsub.
  apply Forall_app. split.
  - eapply Forall_impl; [apply entry_hits_ok|]. intros h. apply hit_ok_mono.
    intros x ->%list_elem_of_singleton. apply Hsub. left.
  - destruct (escapes fe refs t out); [done|]. apply IH.
    intros x Hx. apply Hsub. by right.
Qed.

(** ** The loader, the handler and the walk *)

Lemma load_all_records_ok folder names refs res refs' res' t ls :
  load_all folder names refs res = inr (refs', res') →
  dict_wf res → records_ok t ls res → dict_wf res' ∧ records_ok t ls res'.
Proof.
  revert refs res. induction names as [|n names IH]; intros refs res; simpl.
  { by intros [= <- <-]. }
  destruct (has_image_suffix n); [|apply IH].
  destruct (Image_open_path _) as [e|image]; [done|].
  intros Hl Hwf Hok. apply (IH _ _ Hl); [by apply dict_wf_set | by apply records_ok_set].
Qed.

Lemma load_folder_result_wf folder res refs res' t ls :
  load_folder folder res = inr (refs, res') →
  dict_wf res → records_ok t ls res → result_wf refs t ls res'.
Proof.
  intros Hl Hwf Hok. pose proof (load_folder_recorded _ _ _ _ Hl) as Hrec.
  unfold load_folder in Hl. destruct (os_listdir folder) as [|names]; [done|].
  destruct (load_all_records_ok _ _ _ _ _ _ t ls Hl Hwf Hok).
  split_and!; [done | by apply refs_recorded_Forall | done].
Qed.

Lemma handler_result_wf fe refs t out s ls :
  result_wf refs t ls (result s) → fe_location fe ∈ ls →
  result_wf refs t ls (result (final_state (is_image_similar fe refs t out s))).
Proof.
  intros Hres Hin. rewrite handler_result by by eapply result_wf_recorded.
  apply result_wf_record_hits; [done|].
  eapply Forall_impl; [apply entry_hits_ok|]. intros h. apply hit_ok_mono.
  by intros x ->%list_elem_of_singleton.
Qed.

Lemma walk_result_wf fe refs t out s ls :
  result_wf refs t ls (result s) → locations fe ⊆ ls →
  result_wf refs t ls (result (final_state (traverse_file_entries fe refs t out s))).
Proof.
  intros Hres Hsub. rewrite walk_result by by eapply result_wf_recorded.
  apply result_wf_record_hits; [done|]. apply leaves_hits_ok.
  etrans; [|done]. unfold locations. intros x (fe' & -> & Hin)%list_elem_of_fmap.
  apply list_elem_of_fmap. exists fe'. split; [done|]. by apply scan_order_leaves.
Qed.

(** The handler keeps the result dict well formed: distinct keys, a
    key for every reference, and under each key only records of
    entries of the disk image with a score between 0 and 255 that is
    below the threshold. *)
Theorem is_image_similar_result_wf fe refs t out s :
  result_wf refs t [fe_location fe] (result s) →
  result_wf refs t [fe_location fe]
    (result (final_state (is_image_similar fe refs t out s))).
Proof. intros Hres. apply handler_result_wf; [done | left]. Qed.

(** The walk keeps the result dict well formed, however it ends:
    what it appends are records of leaves of the tree with scores
    between 0 and 255 below the threshold, under keys of references. *)
Theorem traverse_result_wf fe refs t out s :
  result_wf refs t (locations fe) (result s) →
  result_wf refs t (locations fe)
    (result (final_state (traverse_file_entries fe refs t out s))).
Proof. intros Hres. by apply walk_result_wf. Qed.

(** C16: the result dict that [find_similar_images] leaves to the report
    is well formed: started on a dict without records, it ends, with or
    without an exception of the walk, in a dict with distinct keys, one
    for every loaded reference, whose records name leaves of the disk
    image and hold scores between 0 and 255 below the threshold. *)
Theorem find_similar_images_result_wf disk folder t out s file_system refs res root :
  dict_wf (result s) → records_ok t [] (result s) →
  disk_file_system disk = inr file_system →
  load_folder folder (result s) = inr (refs, res) →
  GetRootFileEntry file_system = inr (Some root) →
  result_wf refs t (locations root)
    (result (final_state (find_similar_images disk folder t out s))).
Proof.
  intros Hwf Hok Hd Hl Hr. rewrite find_similar_images_run, Hd, Hl, Hr.
  rewrite final_state_bind_ret. apply walk_result_wf; [|done]. simpl.
  apply (load_folder_result_wf _ _ _ _ _ _ Hl Hwf).
  eapply Forall_impl; [done|]. intros kv Hkv. eapply Forall_impl; [exact Hkv|].
  intros r. apply record_ok_mono, list_subseteq_nil.
Qed.

End records.
