(* ===== verification/Contract.v ===== *)
(** * Contract: the scan the specification describes

    The specification states the result of a scan without the control
    flow of the program: every leaf of the tree is a candidate when its
    name passes the filter and its content decodes; a candidate is
    scored against every reference; a record goes to the list of a
    reference exactly when the score is below the threshold; the lists
    are in the order of the depth-first walk.  A failure is soft: the
    candidate, or the pair, is skipped.  [result_set] is that result.

    The program is compared with it in both directions.  It is sound
    on every input: what it records is a sublist of the records of the
    specification, whatever fails.  It is complete on benign inputs:
    when every directory lists, no comparison raises and no export
    fails, [find_similar_images] returns and leaves [result_set] in the
    result dict.  The theorems of [Traverse], [Matcher] and [Scenarios]
    that start from a failed listing, a comparison that raises or a
    failed export show that none of the three conditions can be
    dropped. *)

From stdpp Require Import gmap.
From S2P Require Import Prelude Exec PyStr PyDict Imaging Vfs Host Matcher Traverse.
From S2P Require Import Loader Records.

Section contract.
Context `{Codec}.
Implicit Types (fe root : FileEntry) (s : ScanState) (refs : list (pystr * PILImage)).
Implicit Types (t : Z) (out location : pystr) (image : PILImage).

(** The image of a candidate: the entry passes the filter and its
    content opens as an image. *)
Definition candidate fe : option PILImage :=
  match candidate_image fe with
  | inr (Some image) => Some image
  | _ => None
  end.

(** The score of a pair, when the comparison gives one. *)
Definition score image (reference : PILImage) : option Score :=
  match mean_diff_of image reference with
  | inr m => Some m
  | inl _ => None
  end.

(** The record of a candidate under a reference: there is one exactly
    when the score is below the threshold. *)
Definition record_of location image t (item : pystr * PILImage) : option Hit :=
  m ← score image item.2;
  if score_lt m t then Some (item.1, (location, m)) else None.

(** The records of an entry, in the order of the references. *)
Definition matches_of refs t fe : list Hit :=
  match candidate fe with
  | Some image => omap (record_of (fe_location fe) image t) refs
  | None => []
  end.

(** The records of a scan, in the order of the walk. *)
Definition scan_matches refs t root : list Hit := leaves root ≫= matches_of refs t.

(** The dict that holds, for every reference, its records among
    [hits]. *)
Definition recorded refs (hits : list Hit) : ResultDict :=
  (λ item, (item.1, hits_for item.1 hits)) <$> refs.

(** The result of a scan: every reference with its records. *)
Definition result_set refs t root : ResultDict := recorded refs (scan_matches refs t root).

(** Every reference can be compared with the image. *)
Definition comparable image refs : bool :=
  forallb (λ item, bool_decide (is_Some (score image item.2))) refs.

(** An entry on which nothing hard happens: its failure to open is an
    instance of [Exception], or it opens, every reference can be
    compared with it and its export does not fail. *)
Definition benign_entry refs out fe : bool :=
  match candidate_image fe with
  | inl e => is_Exception e
  | inr None => true
  | inr (Some image) =>
      bool_decide (export_error out fe image = None) && comparable image refs
  end.

(** A tree on which nothing hard happens. *)
Definition benign refs out root : bool :=
  listable root && forallb (benign_entry refs out) (leaves root).

(** ** Soundness *)

Lemma ref_hits_sublist location image t refs :
  ref_hits location image t refs `sublist_of` omap (record_of location image t) refs.
Proof.
  induction refs as [|[name reference] refs IH]; simpl; [done|].
  unfold record_of at 1, score. simpl.
  destruct (mean_diff_of image reference) as [e|m]; simpl; [apply sublist_nil_l|].
  destruct (score_lt m t); simpl; [by apply sublist_skip | done].
Qed.

Lemma entry_hits_sublist fe refs t out :
  entry_hits fe refs t out `sublist_of` matches_of refs t fe.
Proof.
  unfold entry_hits, matches_of, candidate.
  destruct (candidate_image fe) as [e|[image|]]; [done| |done].
  destruct (export_error out fe image); [|apply ref_hits_sublist].
  etrans; [apply sublist_take | apply ref_hits_sublist].
Qed.

Lemma leaves_hits_sublist refs t out (ls : list FileEntry) :
  leaves_hits refs t out ls `sublist_of` ls ≫= matches_of refs t.
Proof.
  induction ls as [|fe ls IH]; csimpl; [done|].
  apply sublist_app; [apply entry_hits_sublist|].
  destruct (escapes fe refs t out); [apply sublist_nil_l | done].
Qed.

Lemma walk_hits_sublist fe refs t out :
  leaves_hits refs t out (scan_order fe).1 `sublist_of` scan_matches refs t fe.
Proof.
  unfold scan_matches. destruct (scan_order_prefix fe) as [rest ->].
  rewrite bind_app. apply sublist_inserts_r, leaves_hits_sublist.
Qed.

(** C14: the scan is sound: however the walk ends, what it has appended
    to the list of a reference are records of the specification, in
    their order: leaves of the tree that pass the filter and decode,
    with their score against that reference, which is below the
    threshold. *)
Theorem traverse_sound fe refs t out s name l :
  refs_recorded refs (result s) →
  dict_get (result (final_state (traverse_file_entries fe refs t out s))) name = Some l →
  ∃ l0 l1, dict_get (result s) name = Some l0 ∧ l = l0 ++ l1 ∧
           l1 `sublist_of` hits_for name (scan_matches refs t fe).
Proof.
  intros Hrec. rewrite walk_result, dict_get_record_hits by done.
  destruct (dict_get (result s) name) as [l0|]; [|done]. intros [= <-].
  eexists _, _. split_and!; [done..|]. apply hits_for_sublist, walk_hits_sublist.
Qed.

(** ** Completeness *)

Lemma ref_hits_comparable location image t refs :
  comparable image refs = true →
  ref_hits location image t refs = omap (record_of location image t) refs.
Proof.
  unfold comparable.
  induction refs as [|[name reference] refs IH]; simpl; [done|].
  intros [[m Hm]%bool_decide_eq_true Hrefs]%andb_true_iff.
  unfold record_of at 1. simpl in *. rewrite Hm. unfold score in Hm.
  destruct (mean_diff_of image reference); simplify_eq/=.
  rewrite IH by done. by destruct (score_lt m t).
Qed.

Lemma loop_exn_comparable fe image t out refs :
  export_error out fe image = None → comparable image refs = true →
  loop_exn fe image t out refs = None.
Proof.
  unfold comparable. intros Hexp.
  induction refs as [|[name reference] refs IH]; simpl; [done|].
  intros [[m Hm]%bool_decide_eq_true Hrefs]%andb_true_iff. unfold score in Hm.
  simpl in Hm. destruct (mean_diff_of image reference); [done|].
  rewrite Hexp, IH by done. by destruct (score_lt _ t).
Qed.

Lemma entry_hits_benign fe refs t out :
  benign_entry refs out fe = true → entry_hits fe refs t out = matches_of refs t fe.
Proof.
  unfold benign_entry, entry_hits, matches_of, candidate.
  destruct (candidate_image fe) as [e|[image|]]; [done| |done].
  intros [->%bool_decide_eq_true Hrefs]%andb_true_iff. by apply ref_hits_comparable.
Qed.

Lemma escapes_benign fe refs t out :
  benign_entry refs out fe = true → escapes fe refs t out = None.
Proof.
  unfold benign_entry, escapes, entry_exn.
  destruct (candidate_image fe) as [e|[image|]]; simpl; [by intros -> | |done].
  intros [Hexp%bool_decide_eq_true Hrefs]%andb_true_iff.
  by rewrite loop_exn_comparable.
Qed.

Lemma leaves_hits_benign refs t out (ls : list FileEntry) :
  forallb (benign_entry refs out) ls = true →
  leaves_hits refs t out ls = ls ≫= matches_of refs t.
Proof.
  induction ls as [|fe ls IH]; csimpl; [done|].
  intros [Hfe Hls]%andb_true_iff.
  by rewrite entry_hits_benign, escapes_benign, IH.
Qed.

Lemma leaves_run_benign refs t out (ls : list FileEntry) s :
  forallb (benign_entry refs out) ls = true →
  raised (leaves_run refs t out ls s) = None.
Proof.
  revert s. induction ls as [|fe ls IH]; intros s; simpl; [done|].
  intros [Hfe Hls]%andb_true_iff. rewrite escapes_benign by done. by apply IH.
Qed.

(** On a benign tree the walk returns, and has appended the records of
    the specification. *)
Lemma walk_complete fe refs t out s :
  benign refs out fe = true → refs_recorded refs (result s) →
  raised (traverse_file_entries fe refs t out s) = None ∧
  result (final_state (traverse_file_entries fe refs t out s))
  = record_hits (scan_matches refs t fe) (result s).
Proof.
  unfold benign. intros [Hl Hls]%andb_true_iff Hrec. split.
  - rewrite walk_run, (scan_order_listable fe Hl) by done. unfold walk_spec. simpl.
    pose proof (leaves_run_benign refs t out (leaves fe) s Hls) as Hr.
    by destruct (leaves_run _ _ _ _ _).
  - rewrite walk_result, (scan_order_listable fe Hl) by done.
    simpl. by rewrite leaves_hits_benign.
Qed.

(** Records appended to the dict of empty lists. *)
Lemma record_hits_recorded refs hits res :
  dict_wf res → dict_keys res = refs.*1 → Forall (λ kv, kv.2 = []) res →
  record_hits hits res = recorded refs hits.
Proof.
  intros Hwf Hkeys Hnil. apply dict_ext.
  - unfold dict_wf. by rewrite record_hits_keys.
  - rewrite record_hits_keys, Hkeys. unfold recorded, dict_keys.
    by rewrite <-list_fmap_compose.
  - intros name Hin. rewrite record_hits_keys, Hkeys in Hin.
    unfold recorded. rewrite dict_get_record_hits.
    rewrite (dict_get_tabulate (λ n, hits_for n hits)), decide_True by done.
    rewrite <-Hkeys in Hin. apply dict_get_is_Some in Hin as [l Hl]. rewrite Hl.
    apply dict_get_elem_of_2 in Hl.
    by rewrite (proj1 (Forall_forall _ _) Hnil (name, l) Hl : l = []).
Qed.

End contract.

Section contract_scan.
Context `{Codec} `{Host}.

Lemma load_all_empty_lists folder names refs res refs' res' :
  load_all folder names refs res = inr (refs', res') →
  Forall (λ kv, kv.2 = []) res → Forall (λ kv, kv.2 = []) res'.
Proof.
  revert refs res. induction names as [|n names IH]; intros refs res; simpl.
  { by intros [= <- <-]. }
  destruct (has_image_suffix n); [|apply IH].
  destruct (Image_open_path _) as [e|image]; [done|].
  intros Hl Hres. apply (IH _ _ Hl). by apply Forall_dict_set.
Qed.

Lemma load_all_wf folder names refs res refs' res' :
  load_all folder names refs res = inr (refs', res') → dict_wf res → dict_wf res'.
Proof.
  revert refs res. induction names as [|n names IH]; intros refs res; simpl.
  { by intros [= <- <-]. }
  destruct (has_image_suffix n); [|apply IH].
  destruct (Image_open_path _) as [e|image]; [done|].
  intros Hl Hres. apply (IH _ _ Hl). by apply dict_wf_set.
Qed.

(** The dict the loader leaves, started from the empty one: a key for
    every reference, in order, and no record. *)
Lemma load_folder_fresh folder refs res :
  load_folder folder [] = inr (refs, res) →
  dict_wf res ∧ dict_keys res = refs.*1 ∧ Forall (λ kv, kv.2 = []) res.
Proof.
  unfold load_folder. destruct (os_listdir folder) as [|names]; [done|]. intros Hl.
  split_and!.
  - eapply load_all_wf; [done | apply dict_wf_nil].
  - symmetry. by eapply load_all_keys.
  - by eapply load_all_empty_lists.
Qed.

(** The scan is complete on benign inputs: when the file system
    opens, the references load, every directory lists, every candidate
    can be compared with every reference and no export fails,
    [find_similar_images] returns and the result dict it leaves, started
    from the empty one, is the result set of the specification: every
    reference with the records of all the leaves whose score against it
    is below the threshold, in depth-first order. *)
Lemma find_similar_images_complete disk folder t out s file_system refs res root :
  result s = [] →
  disk_file_system disk = inr file_system →
  load_folder folder [] = inr (refs, res) →
  GetRootFileEntry file_system = inr (Some root) →
  benign refs out root = true →
  ∃ s', find_similar_images disk folder t out s = Ret RNone s' ∧
        result s' = result_set refs t root.
Proof.
  intros Hs Hd Hl Hr Hb. rewrite find_similar_images_run, Hd, Hs, Hl, Hr.
  pose proof (load_folder_recorded _ _ _ _ Hl) as Hrec.
  destruct (walk_complete root refs t out (after_prints scan_banner res s) Hb Hrec)
    as [Hret Hres].
  rewrite run_bind.
  destruct (traverse_file_entries _ _ _ _ _) as [[] s'|]; [|done].
  eexists. split; [done|]. simpl in Hres. rewrite Hres.
  destruct (load_folder_fresh _ _ _ Hl) as (Hwf & Hkeys & Hnil).
  by apply record_hits_recorded.
Qed.

(** The scan is sound on every input on which it starts: whether the
    walk returns or not, the result dict holds, for every reference, a
    sublist of the records of the specification. *)
Lemma find_similar_images_sound disk folder t out s file_system refs res root :
  result s = [] →
  disk_file_system disk = inr file_system →
  load_folder folder [] = inr (refs, res) →
  GetRootFileEntry file_system = inr (Some root) →
  ∃ hits, hits `sublist_of` scan_matches refs t root ∧
          result (final_state (find_similar_images disk folder t out s)) = recorded refs hits.
Proof.
  intros Hs Hd Hl Hr. rewrite find_similar_images_run, Hd, Hs, Hl, Hr.
  rewrite final_state_bind_ret, walk_result by (by eapply load_folder_recorded).
  eexists. split; [apply walk_hits_sublist|].
  destruct (load_folder_fresh _ _ _ Hl) as (Hwf & Hkeys & Hnil).
  by apply record_hits_recorded.
Qed.

End contract_scan.
