(* ===== verification/Main.v ===== *)
(** * Main: the command line, the run and the report

    The script part of src/main.py (lines 150-214): the four local
    variables with their defaults are the record [Options]; [main] is
    the code under [if __name__ == '__main__'], from the test of
    [len(sys.argv)] to the report.  [sys.exit(n)] raises [SystemExit n];
    [exit_status] is the status the process ends with.

    [options_of] is the loop over the parsed options as a pure function
    and [report_lines] the lines of the report; the theorems state what
    [main] does on each of its paths in their terms. *)

From stdpp Require Import gmap.
From S2P Require Import Prelude Exec PyStr PyDict Cli Imaging Vfs Host Matcher Traverse Loader.

#[local] Open Scope Z_scope.
#[local] Open Scope res_scope.

(** The variables the options set (lines 161-164). *)
Record Options : Type := mkOptions {
  disk_image_path : pystr;
  reference_image_folder_path : pystr;
  similarity_threshold : Z;
  output_folder : pystr;
}.

Definition default_options : Options := mkOptions [] [] 10 [].

Definition set_disk_image_path (arg : pystr) (o : Options) : Options :=
  mkOptions arg (reference_image_folder_path o) (similarity_threshold o) (output_folder o).

Definition set_reference_image_folder_path (arg : pystr) (o : Options) : Options :=
  mkOptions (disk_image_path o) arg (similarity_threshold o) (output_folder o).

Definition set_similarity_threshold (n : Z) (o : Options) : Options :=
  mkOptions (disk_image_path o) (reference_image_folder_path o) n (output_folder o).

Definition set_output_folder (arg : pystr) (o : Options) : Options :=
  mkOptions (disk_image_path o) (reference_image_folder_path o) (similarity_threshold o) arg.

Definition shortopts : pystr := str "hd:r:i:o:".

(** The status of the process: 0 when the script runs to its end, the
    argument of [sys.exit], 1 for any other exception that nothing
    handles (130 for an interrupt). *)
Definition exit_status {St A} (o : Outcome St PyExn A) : Z :=
  match o with
  | Ret _ _ => 0
  | Raise (SystemExit code) _ => code
  | Raise KeyboardInterrupt _ => 130
  | Raise _ _ => 1
  end.

Section main.
Context `{Codec} `{Host}.
Implicit Types (s : ScanState) (o : Options) (prog arg : pystr).

Definition print_usage (prog : pystr) : Scan unit := print (MsgUsage prog).

Definition sys_exit {A} (code : Z) : Scan A := raise (SystemExit code).

(** [os.makedirs(output_folder, exist_ok=True)] with its handler (lines
    188-191). *)
Definition make_output_folder (output_folder : pystr) : Scan unit :=
  try_except
    (match os_makedirs output_folder with
     | Some e => raise e
     | None => mret ()
     end)
    is_OSError
    (λ e, raise RuntimeError).

(** The body of the loop over the parsed options (lines 177-191). *)
Definition handle_option prog o (item : Opt) : Scan Options :=
  let '(opt, arg) := item in
  if bool_decide (opt = str "-h") then
    print_usage prog;; sys_exit 0
  else if str_in opt (str "-d") then mret (set_disk_image_path arg o)
  else if str_in opt (str "-r") then mret (set_reference_image_folder_path arg o)
  else if str_in opt (str "-i") then
    n ← lift_result (int_of_str arg);
    mret (set_similarity_threshold n o)
  else if str_in opt (str "-o") then
    let o := set_output_folder arg o in
    make_output_folder (output_folder o);;
    mret o
  else mret o.

(** The lines of the report for one reference (lines 211-214). *)
Definition print_matches (item : pystr * list MatchTuple) : Scan unit :=
  let '(reference_image_name, similar_images) := item in
  if bool_decide (length similar_images ≠ 0%nat) then
    print (MsgForReference reference_image_name);;
    for_each (λ stat, print (MsgStat stat.1 stat.2)) similar_images
  else mret ().

(** Lines 204-214. *)
Definition report : Scan unit :=
  s ← get_state;
  (if bool_decide (length (result s) ≠ 0%nat) then print MsgFinalReport
   else print MsgNoSimilar);;
  for_each print_matches (result s).

Definition main (argv : list pystr) : Scan unit :=
  let prog := hd [] argv in
  if bool_decide (length argv < 3)%nat then
    print_usage prog;; sys_exit 1
  else
    parsed ← try_except (lift_result (getopt (drop 1 argv) shortopts))
                        is_GetoptError
                        (λ _, print_usage prog;; sys_exit 2);
    o ← for_fold (handle_option prog) parsed.1 default_options;
    if bool_decide (disk_image_path o = []) || bool_decide (reference_image_folder_path o = [])
    then
      print MsgMissingParams;; print_usage prog;; sys_exit 2
    else
      modify (set_result (λ _, []));;
      find_similar_images (disk_image_path o) (reference_image_folder_path o)
        (similarity_threshold o) (output_folder o);;
      report.

(** ** The option loop as a function *)

(** One option: the variables after it, or the exception it raises
    with the lines printed before. *)
Definition option_step prog o (item : Opt) : (PyExn * list Msg) + Options :=
  let '(opt, arg) := item in
  if bool_decide (opt = str "-h") then inl (SystemExit 0, [MsgUsage prog])
  else if bool_decide (opt = str "-d") then inr (set_disk_image_path arg o)
  else if bool_decide (opt = str "-r") then inr (set_reference_image_folder_path arg o)
  else if bool_decide (opt = str "-i") then
    match int_of_str arg with
    | inl e => inl (e, [])
    | inr n => inr (set_similarity_threshold n o)
    end
  else if bool_decide (opt = str "-o") then
    match os_makedirs arg with
    | Some e => inl (if is_OSError e then RuntimeError else e, [])
    | None => inr (set_output_folder arg o)
    end
  else inr o.

Fixpoint options_of prog o (opts : list Opt) : (PyExn * list Msg) + Options :=
  match opts with
  | [] => inr o
  | item :: opts' =>
      match option_step prog o item with
      | inl err => inl err
      | inr o' => options_of prog o' opts'
      end
  end.

(** ** The report as a list of lines *)

Definition matches_lines (item : pystr * list MatchTuple) : list Msg :=
  match item.2 with
  | [] => []
  | _ => MsgForReference item.1 :: ((λ stat, MsgStat stat.1 stat.2) <$> item.2)
  end.

Definition report_lines (res : ResultDict) : list Msg :=
  (match res with [] => MsgNoSimilar | _ => MsgFinalReport end)
  :: flat_map matches_lines res.

(** The scan and the report, from the state [main] starts them in. *)
Definition scan_and_report o : Scan unit :=
  modify (set_result (λ _, []));;
  find_similar_images (disk_image_path o) (reference_image_folder_path o)
    (similarity_threshold o) (output_folder o);;
  report.

End main.

(** * Properties of the script *)

Section main_facts.
Context `{Codec} `{Host}.
Implicit Types (s : ScanState) (o : Options) (prog arg : pystr).

(** ** Printing *)

Lemma for_each_prints {A} (f : A → Scan unit) (lines : A → list Msg) (l : list A) s :
  (∀ x s, f x s = Ret () (after_prints (lines x) (result s) s)) →
  for_each f l s = Ret () (after_prints (flat_map lines l) (result s) s).
Proof.
  intros Hf. revert s. induction l as [|x l IH]; intros s; simpl.
  { by rewrite after_prints_nil. }
  rewrite run_bind, Hf, IH. by rewrite after_prints_app.
Qed.

Lemma print_matches_run item s :
  print_matches item s = Ret () (after_prints (matches_lines item) (result s) s).
Proof.
  destruct item as [name [|stat stats]]; unfold print_matches, matches_lines.
  { simpl. by rewrite after_prints_nil. }
  rewrite bool_decide_eq_true_2 by done. rewrite run_bind, print_run.
  rewrite (for_each_prints _ (λ stat, [MsgStat stat.1 stat.2])) by done.
  rewrite after_prints_app. f_equal.
Qed.

Lemma report_run s :
  report s = Ret () (after_prints (report_lines (result s)) (result s) s).
Proof.
  unfold report, report_lines. rewrite run_bind. simpl.
  rewrite run_bind. destruct (result s) as [|item res] eqn:Hres.
  - case_bool_decide; [done|]. by rewrite print_run, Hres.
  - case_bool_decide; [|done]. rewrite print_run.
    rewrite (for_each_prints _ matches_lines) by apply print_matches_run.
    rewrite after_prints_app. simpl. by rewrite Hres.
Qed.

(** ** Options *)

Lemma option_name_eq (c d : ascii) :
  bool_decide ("-" :: [c] = "-" :: [d])%char = bool_decide (c = d).
Proof. apply bool_decide_ext. split; [by intros [= ->] | by intros ->]. Qed.

(** On an option that [getopt] returns, the handler does what
    [option_step] says. *)
Lemma handle_option_run prog o item s :
  declared shortopts item →
  handle_option prog o item s =
  match option_step prog o item with
  | inl (e, msgs) => Raise e (after_prints msgs (result s) s)
  | inr o' => Ret o' s
  end.
Proof.
  destruct item as [opt arg]. intros (c & b & Hopt & _). simpl in Hopt. subst opt.
  unfold handle_option, option_step.
  change (str "-h") with ["-"; "h"]%char. change (str "-d") with ["-"; "d"]%char.
  change (str "-r") with ["-"; "r"]%char. change (str "-i") with ["-"; "i"]%char.
  change (str "-o") with ["-"; "o"]%char.
  rewrite !str_in_option, !option_name_eq.
  repeat case_bool_decide; try done.
  - rewrite run_bind. by destruct (int_of_str arg); simpl; rewrite ?after_prints_nil.
  - unfold make_output_folder. rewrite run_bind. unfold try_except. simpl.
    destruct (os_makedirs arg) as [e|]; simpl; [|done].
    by destruct (is_OSError e); rewrite after_prints_nil.
Qed.

Lemma options_run prog o opts s :
  Forall (declared shortopts) opts →
  for_fold (handle_option prog) opts o s =
  match options_of prog o opts with
  | inl (e, msgs) => Raise e (after_prints msgs (result s) s)
  | inr o' => Ret o' s
  end.
Proof.
  intros Hd. revert o. induction Hd as [|item opts Hitem _ IH]; intros o; [done|].
  rewrite for_fold_cons, run_bind, handle_option_run by done. simpl.
  destruct (option_step prog o item) as [[e msgs]|o']; [done | apply IH].
Qed.

(** The four options with a value. *)
Lemma valued_shortopts (c : ascii) arg :
  c ∈ ["d"; "r"; "i"; "o"]%char → valued shortopts ("-"%char :: [c], arg).
Proof.
  intros Hc. exists c. split; [done|]. revert c Hc. apply Forall_forall.
  repeat (apply Forall_cons_2 || apply Forall_nil_2); by vm_compute.
Qed.

(** The five options. *)
Lemma option_step_h prog o arg :
  option_step prog o (str "-h", arg) = inl (SystemExit 0, [MsgUsage prog]).
Proof. done. Qed.

Lemma option_step_d prog o arg :
  option_step prog o (str "-d", arg) = inr (set_disk_image_path arg o).
Proof. done. Qed.

Lemma option_step_r prog o arg :
  option_step prog o (str "-r", arg) = inr (set_reference_image_folder_path arg o).
Proof. done. Qed.

Lemma option_step_i prog o arg :
  option_step prog o (str "-i", arg) =
  match int_of_str arg with
  | inl e => inl (e, [])
  | inr n => inr (set_similarity_threshold n o)
  end.
Proof. done. Qed.

Lemma option_step_o prog o arg :
  option_step prog o (str "-o", arg) =
  match os_makedirs arg with
  | Some e => inl (if is_OSError e then RuntimeError else e, [])
  | None => inr (set_output_folder arg o)
  end.
Proof. done. Qed.

(** ** The script, path by path *)

Lemma main_run argv s :
  main argv s =
  let prog := hd [] argv in
  if bool_decide (length argv < 3)%nat
  then Raise (SystemExit 1) (after_prints [MsgUsage prog] (result s) s)
  else
    match getopt (drop 1 argv) shortopts with
    | inl _ => Raise (SystemExit 2) (after_prints [MsgUsage prog] (result s) s)
    | inr (opts, _) =>
        match options_of prog default_options opts with
        | inl (e, msgs) => Raise e (after_prints msgs (result s) s)
        | inr o =>
            if bool_decide (disk_image_path o = [])
               || bool_decide (reference_image_folder_path o = [])
            then Raise (SystemExit 2)
                       (after_prints [MsgMissingParams; MsgUsage prog] (result s) s)
            else scan_and_report o s
        end
    end.
Proof.
  unfold main. simpl. case_bool_decide; [done|].
  rewrite run_bind. unfold try_except.
  destruct (getopt (drop 1 argv) shortopts) as [e|[opts args]] eqn:Hg; simpl.
  { apply getopt_loop_inl in Hg as ->. done. }
  rewrite run_bind, options_run by (by eapply getopt_loop_declared).
  destruct (options_of _ _ opts) as [[e msgs]|o]; [done|].
  destruct (_ || _); [|done].
  rewrite run_bind, print_run. cbn beta iota. unfold print_usage.
  by rewrite run_bind, print_run, after_prints_app.
Qed.

Lemma scan_and_report_run o s :
  scan_and_report o s =
  match find_similar_images (disk_image_path o) (reference_image_folder_path o)
          (similarity_threshold o) (output_folder o) (set_result (λ _, []) s) with
  | Ret _ s' => Ret () (after_prints (report_lines (result s')) (result s') s')
  | Raise e s' => Raise e s'
  end.
Proof.
  unfold scan_and_report. rewrite run_bind. simpl. rewrite run_bind.
  destruct (find_similar_images _ _ _ _ _) as [r s'|]; [apply report_run | done].
Qed.

(** C33: with fewer than two arguments after the program name the script
    prints the usage line and exits with status 1, whatever the
    arguments are; [-h] alone is such a command line. *)
Theorem main_few_arguments argv s :
  (length argv < 3)%nat →
  main argv s = Raise (SystemExit 1) (after_prints [MsgUsage (hd [] argv)] (result s) s).
Proof. intros Hlen. rewrite main_run. simpl. by rewrite bool_decide_eq_true_2. Qed.

(** A command line that [getopt] rejects (an unknown letter, a long
    option, a missing value) prints the usage line and exits with
    status 2. *)
Theorem main_bad_options argv s e :
  (3 ≤ length argv)%nat → getopt (drop 1 argv) shortopts = inl e →
  main argv s = Raise (SystemExit 2) (after_prints [MsgUsage (hd [] argv)] (result s) s).
Proof.
  intros Hlen Hg. rewrite main_run. simpl.
  rewrite bool_decide_eq_false_2 by lia. by rewrite Hg.
Qed.

(** When [-h] is the first option, the script prints the usage line
    and exits with status 0 without looking at the other options. *)
Theorem main_help argv s v opts args :
  (3 ≤ length argv)%nat →
  getopt (drop 1 argv) shortopts = inr ((str "-h", v) :: opts, args) →
  main argv s = Raise (SystemExit 0) (after_prints [MsgUsage (hd [] argv)] (result s) s).
Proof.
  intros Hlen Hg. rewrite main_run. simpl.
  rewrite bool_decide_eq_false_2 by lia. by rewrite Hg.
Qed.

(** When the options leave the disk image path or the reference
    folder path empty, the script prints the notice and the usage line
    and exits with status 2; nothing is opened or scanned. *)
Theorem main_missing_required argv s opts args o :
  (3 ≤ length argv)%nat →
  getopt (drop 1 argv) shortopts = inr (opts, args) →
  options_of (hd [] argv) default_options opts = inr o →
  disk_image_path o = [] ∨ reference_image_folder_path o = [] →
  main argv s
  = Raise (SystemExit 2)
          (after_prints [MsgMissingParams; MsgUsage (hd [] argv)] (result s) s).
Proof.
  intros Hlen Hg Ho Hmiss. rewrite main_run. simpl.
  rewrite bool_decide_eq_false_2 by lia. rewrite Hg, Ho.
  by destruct Hmiss as [-> | ->]; rewrite ?orb_true_r.
Qed.

(** C31: the command line [-d disk -r refs -i t], with [t] written in
    decimal, runs the scan of [disk] against [refs] with threshold [t]
    and no output folder, from an empty result dict, and then the
    report. *)
Theorem main_command_line prog disk refs t s :
  disk ≠ [] → refs ≠ [] →
  main (prog :: unparse [(str "-d", disk); (str "-r", refs); (str "-i", str_of_int t)]) s
  = scan_and_report (mkOptions disk refs t []) s.
Proof.
  intros Hd Hr. set (opts := [(str "-d", disk); (str "-r", refs); (str "-i", str_of_int t)]).
  assert (getopt (unparse opts) shortopts = inr (opts, [])) as Hg.
  { unfold getopt. rewrite <-(app_nil_r (unparse opts)).
    apply getopt_loop_unparse; [|done..].
    repeat apply Forall_cons_2; [..|done]; apply valued_shortopts; compute_done. }
  rewrite main_run. cbn [hd]. rewrite bool_decide_eq_false_2 by (simpl; lia).
  change (drop 1 (prog :: unparse opts)) with (unparse opts). rewrite Hg.
  cbn [opts options_of]. rewrite option_step_d, option_step_r, option_step_i.
  rewrite int_of_str_of_int. unfold default_options. cbn.
  by rewrite !bool_decide_eq_false_2.
Qed.

(** A failure to load the reference folder does not end the run
    with an error status: the script prints the error, then the report
    over whatever keys the load created, and ends with status 0. *)
Theorem scan_and_report_load_failure o s file_system e res :
  disk_file_system (disk_image_path o) = inr file_system →
  load_folder (reference_image_folder_path o) [] = inl (e, res) →
  is_Exception e = true →
  scan_and_report o s
  = Ret () (after_prints (MsgFsParsed :: error_lines MsgLoadError e ++ report_lines res)
                         res s).
Proof.
  intros Hd Hl He. rewrite scan_and_report_run, find_similar_images_run, Hd. simpl.
  rewrite Hl, He. by rewrite after_prints_app.
Qed.

(** C40: a reference folder without a single image does not end the run
    with an error status either: when the file system opens with a root
    entry, every directory of the tree lists and the failures of the
    provider and of the codec on its leaves are instances of
    [Exception], the disk image is walked against no reference, the
    result dict stays empty, the last line printed is [MsgNoSimilar] and
    the script ends with status 0. *)
Theorem scan_and_report_no_references `{!TameCodec} o s file_system names root :
  disk_file_system (disk_image_path o) = inr file_system →
  os_listdir (reference_image_folder_path o) = inr names →
  reference_paths (reference_image_folder_path o) names = [] →
  GetRootFileEntry file_system = inr (Some root) →
  listable root = true → Forall tame_entry (leaves root) →
  ∃ s', scan_and_report o s = Ret () s' ∧ result s' = [] ∧
        ∃ msgs, stdout s' = msgs ++ [MsgNoSimilar].
Proof.
  intros Hd Hn Hp Hr Hl Htame. rewrite scan_and_report_run, find_similar_images_run, Hd.
  unfold load_folder. rewrite Hn, load_all_nothing, Hr, run_bind by done. simpl.
  set (s0 := after_prints scan_banner [] _).
  assert (refs_recorded [] (result s0)) as Hrec by (intros ? Hin; by apply elem_of_nil in Hin).
  pose proof (walk_returns root [] (similarity_threshold o) (output_folder o) Hl Htame s0 Hrec)
    as Hw.
  pose proof (walk_result root [] (similarity_threshold o) (output_folder o) s0 Hrec) as Hres.
  destruct (traverse_file_entries _ _ _ _ _) as [[] s'|]; [|done]. simpl in *.
  rewrite record_hits_empty in Hres. rewrite Hres. eexists. split; [done|].
  split; [done|]. by eexists.
Qed.

(** C29: an exception that leaves the walk (an interrupt from the
    keyboard, the failure of a directory listing) ends the script where
    the walk stopped: the exception goes up, the state is the one the
    walk left, and the report is not printed, so the matches recorded
    so far are lost to the user. *)
Theorem scan_and_report_interrupted o s file_system refs res root e :
  disk_file_system (disk_image_path o) = inr file_system →
  load_folder (reference_image_folder_path o) [] = inr (refs, res) →
  GetRootFileEntry file_system = inr (Some root) →
  let walk :=
    traverse_file_entries root refs (similarity_threshold o) (output_folder o)
      (after_prints scan_banner res (set_result (λ _, []) s)) in
  raised walk = Some e →
  scan_and_report o s = Raise e (final_state walk).
Proof.
  intros Hd Hl Hr walk He. rewrite scan_and_report_run, find_similar_images_run, Hd.
  simpl. rewrite Hl, Hr, run_bind. fold walk. by destruct walk as [|e' s']; simplify_eq/=.
Qed.

(** What the report prints: the header, [MsgNoSimilar] when the
    result dict has no key and [MsgFinalReport] otherwise, then for each
    reference with a match its name and one line for each match, in the
    order of the dict and of the lists. *)
Theorem report_prints s :
  report s = Ret () (mkScanState (result s) (out_files s)
                                 (stdout s ++ report_lines (result s))).
Proof. apply report_run. Qed.

(** When references were loaded and none of them has a match, the
    report is the single line [MsgFinalReport]: no line says that
    nothing was found. *)
Theorem report_without_matches s :
  result s ≠ [] → Forall (λ item, item.2 = []) (result s) →
  report_lines (result s) = [MsgFinalReport].
Proof.
  unfold report_lines. destruct (result s) as [|item res]; [done|]. intros _ Hall.
  f_equal. induction Hall as [|[name l] res' Hl _ IH]; [done|].
  simpl in *. by rewrite IH, Hl.
Qed.

End main_facts.
