(* ===== verification/Protocol.v ===== *)
(** * Protocol: the order of the lines the program prints

    Every [print] of src/main.py marks a point of the run: the file
    system is open (line 57), the references are loaded (76), the root
    is there and the walk starts (80, 81), a match is found (121), an
    error is logged in three lines (71-73, 127-129), the report begins
    (205, 207) and lists a reference and its matches (212, 214), the
    usage is shown (155).  [Phase] names the points, [phase_step] says
    which line may follow which, and [phase_after] runs a list of
    lines from [Init].

    The theorem at the end is about all of [main]: whatever the command
    line, the machine and the files are, the lines printed follow the
    protocol; a run that returns has printed its report, complete; a
    run that an exception ends has not started it.  The triples are
    proved with the rules of [Exec], one function of the program at a
    time, the walk by the invariant of the handler.

    [stage] maps the phases to the states of the pipeline of the
    specification; [phase_step_stage] shows that every step but one
    follows the pipeline: the report after a failed load, where the
    specification aborts. *)

From stdpp Require Import gmap.
From S2P Require Import Prelude Exec PyStr PyDict Cli Imaging Vfs Host Matcher Traverse.
From S2P Require Import Loader Main.

Inductive Phase : Type :=
| Init
| NoticeGiven
| UsageShown
| LoadingReferences
| LoadFailed
| ReferencesLoaded
| RootLoaded
| Traversing
| ErrorHead (scan : bool)
| ErrorDetails (scan : bool) (e : PyExn)
| Reporting
| ReferenceHead
| Listing
| NothingFound.

#[export] Instance Phase_eq_dec : EqDecision Phase.
Proof. solve_decision. Defined.

(** The phase after a line, [None] when the line cannot come in that
    phase.  An error takes three lines, the last two about the same
    exception, and leaves the walk where it was; in the loader it ends
    the load.  A reference of the report is followed by at least one
    match. *)
Definition phase_step (p : Phase) (m : Msg) : option Phase :=
  match p, m with
  | Init, MsgUsage _ => Some UsageShown
  | Init, MsgMissingParams => Some NoticeGiven
  | NoticeGiven, MsgUsage _ => Some UsageShown
  | Init, MsgFsParsed => Some LoadingReferences
  | LoadingReferences, MsgLoadError => Some (ErrorHead false)
  | LoadingReferences, MsgRefsLoaded => Some ReferencesLoaded
  | ReferencesLoaded, MsgRootLoaded => Some RootLoaded
  | RootLoaded, MsgScanStart => Some Traversing
  | Traversing, MsgSimilarFound => Some Traversing
  | Traversing, MsgCompareError _ => Some (ErrorHead true)
  | ErrorHead scan, MsgErrorDetails e => Some (ErrorDetails scan e)
  | ErrorDetails scan e, MsgTraceback e' =>
      if decide (e = e') then Some (if scan then Traversing else LoadFailed) else None
  | (Traversing | LoadFailed), MsgFinalReport => Some Reporting
  | (Traversing | LoadFailed), MsgNoSimilar => Some NothingFound
  | (Reporting | Listing), MsgForReference _ => Some ReferenceHead
  | (ReferenceHead | Listing), MsgStat _ _ => Some Listing
  | _, _ => None
  end.

Definition phase_run (p : option Phase) (lines : list Msg) : option Phase :=
  foldl (λ p m, p ≫= λ p, phase_step p m) p lines.

Definition phase_after (lines : list Msg) : option Phase := phase_run (Some Init) lines.

(** The report is complete. *)
Definition reported (p : Phase) : bool :=
  match p with
  | Reporting | Listing | NothingFound => true
  | _ => false
  end.

(** The report has not begun. *)
Definition before_report (p : Phase) : bool :=
  match p with
  | Reporting | ReferenceHead | Listing | NothingFound => false
  | _ => true
  end.

Definition in_phase (p : Phase) (s : ScanState) : Prop := phase_after (stdout s) = Some p.

Definition finished (s : ScanState) : Prop := ∃ p, in_phase p s ∧ reported p = true.

Definition unreported (s : ScanState) : Prop := ∃ p, in_phase p s ∧ before_report p = true.

(** ** The pipeline of the specification *)

Inductive Stage : Type := SInit | SLoadingReferences | STraversing | SReporting | SAborted.

(** Init → LoadingReferences → Traversing → Reporting, and Aborted
    from the two stages of the setup. *)
Definition stage_next (a b : Stage) : bool :=
  match a, b with
  | SInit, SLoadingReferences | SLoadingReferences, STraversing
  | STraversing, SReporting | SInit, SAborted | SLoadingReferences, SAborted => true
  | _, _ => false
  end.

Definition stage (p : Phase) : Stage :=
  match p with
  | Init | NoticeGiven => SInit
  | UsageShown | LoadFailed => SAborted
  | LoadingReferences | ErrorHead false | ErrorDetails false _ => SLoadingReferences
  | ReferencesLoaded | RootLoaded | Traversing | ErrorHead true | ErrorDetails true _ =>
      STraversing
  | Reporting | ReferenceHead | Listing | NothingFound => SReporting
  end.

(** ** Lines and phases *)

Lemma phase_run_app p lines1 lines2 :
  phase_run p (lines1 ++ lines2) = phase_run (phase_run p lines1) lines2.
Proof. apply foldl_app. Qed.

Lemma phase_run_None lines : phase_run None lines = None.
Proof. by induction lines. Qed.

Lemma in_phase_prints p q lines res s :
  in_phase p s → phase_run (Some p) lines = Some q → in_phase q (after_prints lines res s).
Proof.
  unfold in_phase, phase_after, after_prints. cbn [stdout].
  intros Hp Hq. by rewrite phase_run_app, Hp.
Qed.

Lemma in_phase_print p q m s :
  phase_step p m = Some q → in_phase p s → in_phase q (set_stdout (λ out, out ++ [m]) s).
Proof. intros Hq Hp. by apply (in_phase_prints p q [m] (result s) s). Qed.

(** The three lines of an error, from the phase its first line may
    come in. *)
Lemma phase_run_error_lines p scan head e :
  phase_step p head = Some (ErrorHead scan) →
  phase_run (Some p) (error_lines head e)
  = Some (if scan then Traversing else LoadFailed).
Proof. intros Hhead. simpl. rewrite Hhead. simpl. by rewrite decide_True. Qed.

(** Every step follows the pipeline of the specification, but the
    report after a failed load. *)
Lemma phase_step_stage p m q :
  phase_step p m = Some q → p ≠ LoadFailed →
  stage p = stage q ∨ stage_next (stage p) (stage q) = true.
Proof.
  destruct p as [| | | | | | | |[]|[] e| | | |], m; simpl; try done;
    intros; simplify_eq; try case_decide; simplify_eq; auto.
Qed.

(** ** The functions of the program, phase by phase *)

Section protocol.
Context `{Codec} `{Host}.
Implicit Types (s : ScanState) (p q : Phase) (fe : FileEntry).
Implicit Types (refs : list (pystr * PILImage)) (t : Z) (out : pystr).

Lemma hoare_print p q m (R : PyExn → ScanState → Prop) :
  phase_step p m = Some q → hoare (in_phase p) (print m) (λ _, in_phase q) R.
Proof. intros Hq s Hp. by apply (in_phase_print p). Qed.

(** The three lines of an error. *)
Lemma hoare_error_lines {A} p scan head e (a : A) (Q : A → ScanState → Prop)
    (R : PyExn → ScanState → Prop) :
  phase_step p head = Some (ErrorHead scan) →
  (∀ s, in_phase (if scan then Traversing else LoadFailed) s → Q a s) →
  hoare (in_phase p) (print head;; print (MsgErrorDetails e);; print (MsgTraceback e);; mret a)
        Q R.
Proof.
  intros Hhead HQ s Hp. do 3 (rewrite run_bind, print_run; cbn beta iota).
  rewrite run_ret, !after_prints_app.
  by apply HQ, (in_phase_prints p), phase_run_error_lines.
Qed.

(** An exception that is raised before the report leaves it unbegun. *)
Lemma hoare_unreported {A} p (m : Scan A) (Q : A → ScanState → Prop) :
  before_report p = true →
  hoare (in_phase p) m Q (λ _, in_phase p) → hoare (in_phase p) m Q (λ _, unreported).
Proof.
  intros Hp Hm s Hs. specialize (Hm s Hs). destruct (m s); [done|]. by exists p.
Qed.

Lemma compare_with_reference_phase fe image t out item :
  preserves (in_phase Traversing) (compare_with_reference fe image t out item).
Proof.
  unfold compare_with_reference, print, result_append, image_save.
  solve_preserves; intros s' Hs'; first [exact Hs' | by apply (in_phase_print Traversing)].
Qed.

(** The handler leaves the walk where it was: what it prints are match
    lines and whole errors. *)
Lemma is_image_similar_phase fe refs t out :
  preserves (in_phase Traversing) (is_image_similar fe refs t out).
Proof.
  unfold is_image_similar.
  apply (hoare_try_except _ _ _ _ _ _ (λ _, in_phase Traversing)); [|intros e _|done].
  - lazymatch goal with |- hoare ?I ?m _ _ => change (preserves I m) end.
    solve_preserves. apply compare_with_reference_phase.
  - by apply (hoare_error_lines Traversing true).
Qed.

Lemma traverse_phase fe refs t out :
  preserves (in_phase Traversing) (traverse_file_entries fe refs t out).
Proof. apply traverse_invariant. intros leaf. apply is_image_similar_phase. Qed.

Lemma traverse_root_phase root refs t out :
  preserves (in_phase Traversing) (traverse_root root refs t out).
Proof. destruct root; [apply traverse_phase | apply preserves_raise]. Qed.

Lemma load_reference_phase folder refs filename :
  preserves (in_phase LoadingReferences) (load_reference folder refs filename).
Proof. unfold load_reference. solve_preserves. by intros s' Hs'. Qed.

(** The loader returns the references where it started, and [None]
    after the three lines of its error. *)
Lemma load_references_phase folder :
  hoare (in_phase LoadingReferences) (load_references folder)
        (λ loaded, in_phase (if loaded is Some _ then LoadingReferences else LoadFailed))
        (λ _, in_phase LoadingReferences).
Proof.
  unfold load_references.
  apply (hoare_try_except _ _ _ _ _ _ (λ _, in_phase LoadingReferences)); [|intros e _|done].
  - eapply hoare_bind; [apply preserves_lift_result|intros names].
    apply (hoare_bind _ _ _ (λ _, in_phase LoadingReferences)); [|by intros refs s].
    apply preserves_for_fold. intros filename refs _. apply load_reference_phase.
  - by apply (hoare_error_lines LoadingReferences false).
Qed.

(** The scan function ends in the walk, or after a failed load; an
    exception leaves it before the report. *)
Lemma find_similar_images_phase disk folder t out :
  hoare (in_phase Init) (find_similar_images disk folder t out)
        (λ _ s, in_phase Traversing s ∨ in_phase LoadFailed s) (λ _, unreported).
Proof.
  unfold find_similar_images.
  eapply hoare_bind; [by apply hoare_unreported, preserves_lift_result|intros file_system].
  eapply hoare_bind; [by apply (hoare_print Init LoadingReferences)|intros ?].
  eapply hoare_bind; [by apply hoare_unreported, load_references_phase|intros [refs|]].
  2: { intros s Hs. by right. }
  eapply hoare_bind; [by apply (hoare_print _ ReferencesLoaded)|intros ?].
  eapply hoare_bind; [by apply hoare_unreported, preserves_lift_result|intros root].
  eapply hoare_bind; [by apply (hoare_print _ RootLoaded)|intros ?].
  eapply hoare_bind; [by apply (hoare_print _ Traversing)|intros ?].
  eapply hoare_bind; [by apply hoare_unreported, traverse_root_phase|intros ?].
  intros s Hs. by left.
Qed.

(** The lines of the report, from the two phases it may start in. *)
Lemma matches_lines_phase p item :
  p = Reporting ∨ p = Listing →
  phase_run (Some p) (matches_lines item) = Some p ∨
  phase_run (Some p) (matches_lines item) = Some Listing.
Proof.
  destruct item as [name [|stat stats]]; [by left|]. intros Hp. right.
  assert (phase_run (Some p) (matches_lines (name, stat :: stats))
          = phase_run (Some Listing) ((λ stat, MsgStat stat.1 stat.2) <$> stats)) as ->.
  { by destruct Hp as [-> | ->]. }
  by induction stats.
Qed.

Lemma report_lines_phase p res :
  p = Traversing ∨ p = LoadFailed →
  ∃ q, phase_run (Some p) (report_lines res) = Some q ∧ reported q = true.
Proof.
  intros Hp. destruct res as [|item res].
  { exists NothingFound. by destruct Hp as [-> | ->]. }
  assert (phase_run (Some p) (report_lines (item :: res))
          = phase_run (Some Reporting) (flat_map matches_lines (item :: res))) as ->.
  { by destruct Hp as [-> | ->]. }
  assert (∀ l q, q = Reporting ∨ q = Listing →
            ∃ q', phase_run (Some q) (flat_map matches_lines l) = Some q' ∧
                  (q' = Reporting ∨ q' = Listing)) as Hloop.
  { induction l as [|x l IH]; intros q Hq; [by exists q|]. simpl.
    rewrite phase_run_app.
    destruct (matches_lines_phase q x Hq) as [-> | ->]; apply IH; auto. }
  destruct (Hloop (item :: res) Reporting) as (q & Hq & [-> | ->]); by eauto.
Qed.

Lemma report_phase :
  hoare (λ s, in_phase Traversing s ∨ in_phase LoadFailed s) report
        (λ _, finished) (λ _, unreported).
Proof.
  intros s Hs. rewrite report_run.
  assert (∃ p, in_phase p s ∧ (p = Traversing ∨ p = LoadFailed)) as (p & Hp & Hor).
  { destruct Hs; eauto. }
  destruct (report_lines_phase p (result s) Hor) as (q & Hq & Hrep).
  exists q. split; [by apply (in_phase_prints p)|done].
Qed.

Lemma scan_and_report_phase o :
  hoare (in_phase Init) (scan_and_report o) (λ _, finished) (λ _, unreported).
Proof.
  unfold scan_and_report.
  apply (hoare_bind _ _ _ (λ _, in_phase Init)); [by intros s Hs|intros ?].
  eapply hoare_bind; [apply find_similar_images_phase | intros ?; apply report_phase].
Qed.

(** The lines an option prints before it ends the script. *)
Lemma options_of_lines prog o opts e msgs :
  options_of prog o opts = inl (e, msgs) → msgs = [] ∨ msgs = [MsgUsage prog].
Proof.
  revert o. induction opts as [|[opt arg] opts IH]; intros o; cbn [options_of]; [done|].
  destruct (option_step prog o (opt, arg)) as [[e' msgs']|o'] eqn:Hstep; [|apply IH].
  intros [= -> ->]. unfold option_step in Hstep.
  repeat case_bool_decide; repeat case_match; simplify_eq; auto.
Qed.

(** C19: the lines [main] prints follow the protocol, whatever the
    command line, the machine and the files are.  A run that returns
    has printed the report, complete: the header, and every reference
    line followed by its matches.  A run that an exception ends, the
    exits of the script included, has not begun the report. *)
Theorem main_protocol argv :
  hoare (in_phase Init) (main argv) (λ _, finished) (λ _, unreported).
Proof.
  intros s Hs. rewrite main_run. cbn zeta.
  assert (∀ lines p, phase_run (Some Init) lines = Some p → before_report p = true →
            unreported (after_prints lines (result s) s)) as Hlines.
  { intros lines p Hp Hb. exists p. split; [by apply (in_phase_prints Init)|done]. }
  case_bool_decide; [by apply (Hlines _ UsageShown)|].
  destruct (getopt _ _) as [e|[opts args]]; [by apply (Hlines _ UsageShown)|].
  destruct (options_of _ _ opts) as [[e msgs]|o] eqn:Hopts.
  { by apply options_of_lines in Hopts as [-> | ->];
      [apply (Hlines _ Init) | apply (Hlines _ UsageShown)]. }
  destruct (_ || _); [by apply (Hlines _ UsageShown)|].
  apply scan_and_report_phase, Hs.
Qed.

End protocol.
