(* ===== verification/Render.v ===== *)
(** * Render: the text of the lines the program prints

    [Matcher.Msg] names the [print] statements of src/main.py; this
    file gives their text.  The literals are those of the source.  What
    Python computes from a value the model keeps abstract is the
    interface [Formatter]: the text of an exception ([str(e)]), of its
    traceback ([traceback.format_exc()]) and of a score ([str] of a
    [numpy.float64]).  [ljust] is the padding of the format
    specification [<80] of the report (line 214).

    [stdout_text] is what the terminal shows: every message followed by
    a newline.  The theorems read it back: when no message contains a
    newline, the lines of the output are the messages, one for one; a
    file name that contains a newline puts a line of its own choice in
    the output. *)

From S2P Require Import Prelude Exec PyStr PyDict Imaging Vfs Matcher.

#[local] Open Scope char_scope.

(** The text of the values the messages print. *)
Class Formatter : Type := {
  (** [str(e)] *)
  exn_str : PyExn → pystr;
  (** [traceback.format_exc()] in the handler of [e] *)
  format_exc : PyExn → pystr;
  (** [str(mean_diff)] *)
  float_str : Score → pystr;
}.

Definition newline : ascii := "010".
Definition tab : ascii := "009".

(** [format(s, "<80")]: [s] followed by spaces up to the width. *)
Definition ljust (s : pystr) (width : nat) : pystr :=
  s ++ replicate (width - length s) " ".

Section render.
Context `{Formatter}.

(** Line 57. *)
Definition fs_parsed_text : pystr := str "File system parse completed.".

(** Line 71. *)
Definition load_error_text : pystr := str "Error while loading image: ".

(** Lines 72 and 128. *)
Definition error_details_text (e : PyExn) : pystr := str "Error Details: " ++ exn_str e.

(** Line 76. *)
Definition refs_loaded_text : pystr := str "Reference images loading completed.".

(** Line 80. *)
Definition root_loaded_text : pystr := str "Disk root directory loading completed.".

(** Line 81. *)
Definition scan_start_text : pystr :=
  str "Start scanning similar images on the disk image - it may take a long time depending on the size of disk.".

(** Line 121. *)
Definition similar_found_text : pystr := str "Similar image identified! - See final report".

(** Line 127. *)
Definition compare_error_text (location : pystr) : pystr :=
  str "Error while comparing image: " ++ location.

(** Lines 155-157. *)
Definition usage_text (prog : pystr) : pystr :=
  str "Usage: " ++ prog ++
  str " -d <disk_image_path> -r <reference_image_folder> -i [optional threshold default = 10] " ++
  str "-o [optional output folder]".

(** Line 194. *)
Definition missing_params_text : pystr := str "missing required parameters.".

(** Line 205. *)
Definition final_report_text : pystr := str "Final Report: ".

(** Line 207. *)
Definition no_similar_text : pystr :=
  str "No similar images identified. Try to adjust threshold or add more reference images.".

(** Line 212. *)
Definition reference_text (reference_image_name : pystr) : pystr :=
  str "For reference Image " ++ reference_image_name ++ str ": ".

(** Line 214. *)
Definition stat_text (location : pystr) (difference : Score) : pystr :=
  [tab] ++ ljust location 80 ++ [" "; tab; tab] ++ str " difference: " ++
  float_str difference.

(** The text of each message: the argument of its [print]. *)
Definition render (m : Msg) : pystr :=
  match m with
  | MsgFsParsed => fs_parsed_text
  | MsgLoadError => load_error_text
  | MsgErrorDetails e => error_details_text e
  | MsgTraceback e => format_exc e
  | MsgRefsLoaded => refs_loaded_text
  | MsgRootLoaded => root_loaded_text
  | MsgScanStart => scan_start_text
  | MsgSimilarFound => similar_found_text
  | MsgCompareError location => compare_error_text location
  | MsgUsage prog => usage_text prog
  | MsgMissingParams => missing_params_text
  | MsgFinalReport => final_report_text
  | MsgNoSimilar => no_similar_text
  | MsgForReference reference_image_name => reference_text reference_image_name
  | MsgStat location difference => stat_text location difference
  end.

(** The text written to the standard output: [print] ends every
    message with a newline. *)
Definition stdout_text (lines : list Msg) : pystr :=
  lines ≫= λ m, render m ++ [newline].

End render.

(** The lines of a text: [text.split("\n")]. *)
Fixpoint text_lines (text : pystr) : list pystr :=
  match text with
  | [] => [[]]
  | c :: text' =>
      if decide (c = newline) then [] :: text_lines text'
      else match text_lines text' with
           | line :: lines => (c :: line) :: lines
           | [] => [[c]]
           end
  end.

(** ** Padding *)

Lemma ljust_length s width : length (ljust s width) = length s `max` width.
Proof. unfold ljust. rewrite length_app, length_replicate. lia. Qed.

Lemma ljust_long s width : width ≤ length s → ljust s width = s.
Proof.
  intros Hle. unfold ljust. replace (width - length s) with 0 by lia.
  apply app_nil_r.
Qed.

(** ** Lines *)

Lemma text_lines_line (line text : pystr) :
  newline ∉ line → text_lines (line ++ newline :: text) = line :: text_lines text.
Proof.
  induction line as [|c line IH]; simpl; [done|].
  intros [Hc Hline]%not_elem_of_cons. by rewrite decide_False, IH by done.
Qed.

Lemma text_lines_print (line text : pystr) :
  newline ∉ line → text_lines ((line ++ [newline]) ++ text) = line :: text_lines text.
Proof. intros Hline. by rewrite <-(assoc_L (++)), <-text_lines_line. Qed.

Section render_facts.
Context `{Formatter}.

(** The output reads back line by line: when no message contains a
    newline, the lines of the text written to the standard output are
    the messages printed, in order, followed by the empty line after
    the last newline. *)
Theorem stdout_text_lines (lines : list Msg) :
  Forall (λ m, newline ∉ render m) lines →
  text_lines (stdout_text lines) = (render <$> lines) ++ [[]].
Proof.
  induction 1 as [|m lines Hm _ IH]; [done|].
  change (stdout_text (m :: lines)) with ((render m ++ [newline]) ++ stdout_text lines).
  by rewrite text_lines_print, IH.
Qed.

Lemma stdout_text_cons (m : Msg) (lines : list Msg) :
  stdout_text (m :: lines) = render m ++ newline :: stdout_text lines.
Proof. unfold stdout_text. by rewrite bind_cons, <-(assoc_L (++)). Qed.

Lemma stdout_text_app (lines1 lines2 : list Msg) :
  stdout_text (lines1 ++ lines2) = stdout_text lines1 ++ stdout_text lines2.
Proof. apply bind_app. Qed.

(** The error line of a location that holds a newline followed by the
    text of messages is the error line of the part before the newline,
    then these messages, then the rest of the location. *)
Lemma compare_error_text_forged (location suffix : pystr) (forged : list Msg) :
  stdout_text [MsgCompareError (location ++ newline :: stdout_text forged ++ suffix)]
  = stdout_text (MsgCompareError location :: forged) ++ suffix ++ [newline].
Proof.
  rewrite !stdout_text_cons. cbn [render]. unfold compare_error_text.
  rewrite <-!(assoc_L (++)). f_equal. by rewrite <-!app_comm_cons, <-(assoc_L (++)).
Qed.

Section forged.
Context `{Codec}.

(** C30: the handler prints file names as they are, so a name of the
    disk image writes lines of the log. When the handler catches the
    exception [e] for an entry whose location is [location], a newline,
    the text of the messages [forged] and a rest [suffix] (which holds
    the extension), the standard output after [is_image_similar] is,
    character for character, that of a run in which the program itself
    printed the error line of [location] and then the messages [forged]:
    match notices and lines of the final report included. *)
Theorem is_image_similar_forged_line fe refs t out s e
    (location suffix : pystr) (forged : list Msg) :
  refs_recorded refs (result s) →
  entry_exn fe refs t out = Some e → is_Exception e = true →
  fe_location fe = location ++ newline :: stdout_text forged ++ suffix →
  stdout_text (stdout (final_state (is_image_similar fe refs t out s)))
  = stdout_text (stdout s ++ ((λ _, MsgSimilarFound) <$> entry_hits fe refs t out)
                 ++ MsgCompareError location :: forged)
    ++ suffix ++ [newline]
    ++ stdout_text [MsgErrorDetails e; MsgTraceback e].
Proof.
  intros Hrec Hexn He Hloc. rewrite handler_stdout by done.
  unfold entry_lines. rewrite Hexn, He, Hloc.
  change (error_lines ?head e) with ([head] ++ [MsgErrorDetails e; MsgTraceback e]).
  by rewrite !stdout_text_app, compare_error_text_forged, <-!(assoc_L (++)).
Qed.

End forged.

End render_facts.
