(* ===== verification/Readback.v ===== *)
(** * Readback: the report read back from its text

    The report (src/main.py, lines 204-214) is the only place where the
    matches leave the program.  This file gives a reader for its text
    and shows that the report can be read back: [read_report] splits
    the text in lines, tells the four kinds of line apart by their
    first characters, takes a match line apart at its last tab, and
    collects the match lines under the reference line before them.

    What comes back is [printed], what the report shows of the result
    dict: the references that have a match, in the order of the dict,
    each with the location and the text of the score of its matches,
    the location as the format [<80] pads it.  The theorem needs names
    and locations without a newline and a text of the score without a
    newline or a tab ([PlainFormatter]).  The padding loses the spaces
    at the end of a location shorter than 80 characters
    ([stat_text_trailing_space]); the other locations come back as they
    are ([rstrip_ljust]).

    The last two theorems put the development together.  On a benign
    input the script returns, and the report it prints last reads back
    as the result the specification describes ([Contract.result_set]).
    On every input on which the script returns, the report reads back
    as a dict that holds, for every reference, records of the
    specification in their order. *)

From S2P Require Import Prelude Exec PyStr PyDict Imaging Vfs Host Matcher Traverse.
From S2P Require Import Loader Contract Main Render.

#[local] Open Scope char_scope.

(** ** The reader *)

(** [s.removeprefix(p)], when [s] starts with [p]. *)
Fixpoint removeprefix (p s : pystr) : option pystr :=
  match p, s with
  | [], _ => Some s
  | c :: p', d :: s' => if decide (c = d) then removeprefix p' s' else None
  | _ :: _, [] => None
  end.

(** [s.removesuffix(p)], when [s] ends with [p]. *)
Definition removesuffix (p s : pystr) : option pystr :=
  reverse <$> removeprefix (reverse p) (reverse s).

(** [s.partition(c)]: the text before and after the first [c]. *)
Fixpoint partition (c : ascii) (s : pystr) : option (pystr * pystr) :=
  match s with
  | [] => None
  | d :: s' =>
      if decide (d = c) then Some ([], s')
      else prod_map (cons d) id <$> partition c s'
  end.

(** [s.rpartition(c)]: the text before and after the last [c]. *)
Definition rpartition (c : ascii) (s : pystr) : option (pystr * pystr) :=
  (λ p, (reverse p.2, reverse p.1)) <$> partition c (reverse s).

(** [s.lstrip(" ")] and [s.rstrip(" ")] *)
Fixpoint lstrip_spaces (s : pystr) : pystr :=
  match s with
  | c :: s' => if decide (c = " ") then lstrip_spaces s' else s
  | [] => []
  end.

Definition rstrip_spaces (s : pystr) : pystr := reverse (lstrip_spaces (reverse s)).

(** The lines of a report. *)
Inductive ReportLine : Type :=
| RLHeader
| RLNothing
| RLReference (reference_image_name : pystr)
| RLStat (location difference : pystr).

#[export] Instance ReportLine_eq_dec : EqDecision ReportLine.
Proof. solve_decision. Defined.

(** What a reader of the report gets for one reference: its name, and
    the location and the text of the score of each match. *)
Abbreviation Printed := (list (pystr * list (pystr * pystr))).

Definition read_stat (body : pystr) : option ReportLine :=
  p ← rpartition tab body;
  location ← removesuffix [" "; tab] p.1;
  difference ← removeprefix (str " difference: ") p.2;
  Some (RLStat location difference).

Definition read_reference (line : pystr) : option ReportLine :=
  rest ← removeprefix (str "For reference Image ") line;
  name ← removesuffix (str ": ") rest;
  Some (RLReference name).

Definition read_line (line : pystr) : option ReportLine :=
  if decide (line = str "Final Report: ") then Some RLHeader
  else if decide (line = str "No similar images identified. Try to adjust threshold or add more reference images.")
  then Some RLNothing
  else match line with
       | c :: body => if decide (c = tab) then read_stat body else read_reference line
       | [] => None
       end.

(** The lines after the header, from the last one: the match lines
    seen since the last reference line, and the references read. *)
Definition read_group (line : ReportLine) (acc : option (list (pystr * pystr) * Printed))
    : option (list (pystr * pystr) * Printed) :=
  '(stats, groups) ← acc;
  match line, stats with
  | RLStat location difference, _ => Some ((location, difference) :: stats, groups)
  | RLReference name, _ :: _ => Some ([], (name, stats) :: groups)
  | _, _ => None
  end.

Definition read_groups (lines : list ReportLine) : option Printed :=
  '(stats, groups) ← foldr read_group (Some ([], [])) lines;
  if decide (stats = []) then Some groups else None.

Definition read_report (text : pystr) : option Printed :=
  lines ← mapM read_line (removelast (text_lines text));
  match lines with
  | [RLNothing] => Some []
  | RLHeader :: lines => read_groups lines
  | _ => None
  end.

(** The text of a score holds no newline and no tab: it is a number. *)
Class PlainFormatter `{Formatter} : Prop := {
  float_str_plain difference :
    (newline ∉ float_str difference) ∧ (tab ∉ float_str difference);
}.

Section printed.
Context `{Formatter}.

(** What the report shows of a match and of a result dict. *)
Definition printed_stat (stat : MatchTuple) : pystr * pystr :=
  (ljust stat.1 80, float_str stat.2).

(** The references with a match, each with what [show] gives for its
    matches. *)
Definition printed_with (show : MatchTuple → pystr * pystr) (res : ResultDict) : Printed :=
  flat_map (λ item, match item.2 with
                    | [] => []
                    | _ => [(item.1, show <$> item.2)]
                    end) res.

Definition printed : ResultDict → Printed := printed_with printed_stat.

(** The text the report adds to the output. *)
Definition report_text (res : ResultDict) : pystr := stdout_text (report_lines res).

(** The line a message of the report is read as. *)
Definition line_of (m : Msg) : ReportLine :=
  match m with
  | MsgNoSimilar => RLNothing
  | MsgForReference name => RLReference name
  | MsgStat location difference => RLStat (ljust location 80) (float_str difference)
  | _ => RLHeader
  end.

End printed.

(** The messages of the report, with names and locations that hold no
    newline. *)
Definition report_msg (m : Msg) : Prop :=
  match m with
  | MsgFinalReport | MsgNoSimilar => True
  | MsgForReference name => newline ∉ name
  | MsgStat location _ => newline ∉ location
  | _ => False
  end.

(** Names and locations without a newline. *)
Definition plain_result (res : ResultDict) : Prop :=
  Forall (λ item, (newline ∉ item.1) ∧ Forall (λ stat : MatchTuple, newline ∉ stat.1) item.2) res.

(** ** Prefixes, suffixes and partitions *)

Lemma removeprefix_app p s : removeprefix p (p ++ s) = Some s.
Proof. induction p as [|c p IH]; simpl; [done|]. by rewrite decide_True. Qed.

Lemma removesuffix_app p s : removesuffix p (s ++ p) = Some s.
Proof.
  unfold removesuffix. rewrite reverse_app, removeprefix_app. simpl.
  by rewrite reverse_involutive.
Qed.

Lemma partition_app c a b : c ∉ a → partition c (a ++ c :: b) = Some (a, b).
Proof.
  induction a as [|d a IH]; simpl.
  - by rewrite decide_True.
  - intros [Hd Ha]%not_elem_of_cons. by rewrite decide_False, IH by done.
Qed.

Lemma rpartition_app c a b : c ∉ b → rpartition c (a ++ c :: b) = Some (a, b).
Proof.
  intros Hb. unfold rpartition.
  rewrite reverse_app, reverse_cons, <-(assoc_L (++)). simpl.
  rewrite partition_app by (by rewrite elem_of_reverse). simpl.
  by rewrite !reverse_involutive.
Qed.

Lemma lstrip_spaces_replicate n s :
  head s ≠ Some " " → lstrip_spaces (replicate n " " ++ s) = s.
Proof.
  intros Hs. induction n as [|n IH]; simpl; [|done].
  destruct s as [|c s]; [done|]. simpl. rewrite decide_False; [done|].
  intros ->. by apply Hs.
Qed.

Lemma ljust_trailing_space s width :
  length s < width → ljust (s ++ [" "]) width = ljust s width.
Proof.
  intros Hlen. unfold ljust. rewrite length_app, <-(assoc_L (++)). simpl. f_equal.
  by replace (width - length s) with (S (width - (length s + 1))) by lia.
Qed.

(** A location that does not end with a space comes back from its
    padded form. *)
Lemma rstrip_ljust s width : last s ≠ Some " " → rstrip_spaces (ljust s width) = s.
Proof.
  intros Hs. unfold rstrip_spaces, ljust.
  rewrite reverse_app, reverse_replicate, lstrip_spaces_replicate, reverse_involutive; [done|].
  by rewrite head_reverse.
Qed.

(** ** One line *)

#[local] Arguments str : simpl never.

Section lines.
Context `{PlainFormatter}.

Lemma read_line_header : read_line (render MsgFinalReport) = Some RLHeader.
Proof. by vm_compute. Qed.

Lemma read_line_nothing : read_line (render MsgNoSimilar) = Some RLNothing.
Proof. by vm_compute. Qed.

Lemma read_line_reference name :
  read_line (render (MsgForReference name)) = Some (RLReference name).
Proof.
  change (render (MsgForReference name))
    with ("F" :: "o" :: drop 2 (str "For reference Image ") ++ name ++ str ": ").
  unfold read_line. rewrite !decide_False by (intros [=]).
  change ("F" :: "o" :: ?x ++ ?y) with (str "For reference Image " ++ y).
  unfold read_reference. rewrite removeprefix_app. simpl.
  by rewrite removesuffix_app.
Qed.

Lemma read_line_stat location difference :
  read_line (render (MsgStat location difference))
  = Some (RLStat (ljust location 80) (float_str difference)).
Proof.
  change (render (MsgStat location difference))
    with (tab :: ljust location 80 ++ [" "; tab; tab] ++ str " difference: "
                 ++ float_str difference).
  unfold read_line. rewrite !decide_False by (intros [=]). rewrite decide_True by done.
  replace (ljust location 80 ++ [" "; tab; tab] ++ str " difference: " ++ float_str difference)
    with ((ljust location 80 ++ [" "; tab]) ++ tab :: str " difference: " ++ float_str difference)
    by (by rewrite <-(assoc_L (++))).
  unfold read_stat. rewrite rpartition_app.
  - simpl. by rewrite removesuffix_app.
  - rewrite not_elem_of_app. split; [|apply float_str_plain].
    apply (bool_decide_unpack _). by vm_compute.
Qed.

End lines.

(** ** The lines of a report *)

Lemma report_lines_msgs res : plain_result res → Forall report_msg (report_lines res).
Proof.
  intros Hres. apply Forall_cons. split; [by destruct res|].
  induction Hres as [|[name stats] res [Hname Hstats] _ IH]; [done|].
  simpl. apply Forall_app. split; [|done].
  unfold matches_lines. destruct stats as [|stat stats]; [done|].
  apply Forall_cons. split; [done|]. by apply Forall_fmap.
Qed.

Lemma mapM_fmap_Some {A B C} (f : B → option C) (g : A → B) (h : A → C) (l : list A) :
  Forall (λ x, f (g x) = Some (h x)) l → mapM f (g <$> l) = Some (h <$> l).
Proof.
  intros Hl. apply mapM_Some. apply Forall2_fmap. by apply Forall_Forall2_diag.
Qed.

Section report.
Context `{PlainFormatter}.

Lemma newline_not_in_ljust s width : newline ∉ s → newline ∉ ljust s width.
Proof.
  intros Hs. unfold ljust. rewrite not_elem_of_app. split; [done|].
  by intros [[=] _]%elem_of_replicate.
Qed.

Lemma render_report_msg m : report_msg m → newline ∉ render m.
Proof.
  destruct m as [| | | | | | | | | | | | |name|location difference]; try done; simpl.
  - intros _. apply (bool_decide_unpack _). by vm_compute.
  - intros _. apply (bool_decide_unpack _). by vm_compute.
  - intros Hname. unfold reference_text. rewrite !not_elem_of_app.
    split_and!; [|done|]; apply (bool_decide_unpack _); by vm_compute.
  - intros Hl. unfold stat_text. rewrite !not_elem_of_app.
    split_and!; [| by apply newline_not_in_ljust | | | apply float_str_plain];
      apply (bool_decide_unpack _); by vm_compute.
Qed.

Lemma read_line_render m : report_msg m → read_line (render m) = Some (line_of m).
Proof.
  destruct m; intros Hm; try done;
    auto using read_line_header, read_line_nothing, read_line_reference, read_line_stat.
Qed.

Lemma read_stats stats acc groups :
  foldr read_group (Some (acc, groups))
    (line_of <$> ((λ stat : MatchTuple, MsgStat stat.1 stat.2) <$> stats))
  = Some ((printed_stat <$> stats) ++ acc, groups).
Proof.
  induction stats as [|stat stats IH]; [done|].
  rewrite !fmap_cons. cbn [foldr]. by rewrite IH.
Qed.

Lemma read_matches res groups :
  foldr read_group (Some ([], groups)) (line_of <$> flat_map matches_lines res)
  = Some ([], printed res ++ groups).
Proof.
  revert groups. induction res as [|[name stats] res IH]; intros groups; [done|].
  simpl. rewrite fmap_app, foldr_app, IH. unfold matches_lines.
  destruct stats as [|stat stats]; [done|]. cbn [snd fst].
  rewrite fmap_cons. cbn [foldr]. by rewrite read_stats, app_nil_r.
Qed.

Lemma read_report_text res :
  plain_result res → read_report (report_text res) = Some (printed res).
Proof.
  intros Hres%report_lines_msgs. unfold read_report, report_text.
  rewrite stdout_text_lines, removelast_last
    by (eapply Forall_impl; [done | apply render_report_msg]).
  rewrite (mapM_fmap_Some read_line render line_of)
    by (eapply Forall_impl; [done | apply read_line_render]).
  unfold report_lines. destruct res as [|item res]; [done|].
  simpl. unfold read_groups. rewrite (read_matches (item :: res)). simpl.
  by rewrite app_nil_r.
Qed.

(** The locations come back as they are when none ends with a space. *)
Lemma printed_stat_rstrip (stats : list MatchTuple) :
  Forall (λ stat, last stat.1 ≠ Some " ") stats →
  prod_map rstrip_spaces id <$> (printed_stat <$> stats)
  = (λ stat, (stat.1, float_str stat.2)) <$> stats.
Proof.
  induction 1 as [|stat stats Hstat _ IH]; [done|].
  rewrite !fmap_cons, IH. unfold printed_stat, prod_map. simpl.
  by rewrite rstrip_ljust.
Qed.

Lemma printed_rstrip res :
  Forall (λ item, Forall (λ stat : MatchTuple, last stat.1 ≠ Some " ") item.2) res →
  (λ group : pystr * list (pystr * pystr),
     (group.1, prod_map rstrip_spaces id <$> group.2)) <$> printed res
  = printed_with (λ stat, (stat.1, float_str stat.2)) res.
Proof.
  induction 1 as [|[name stats] res Hstats _ IH]; [done|].
  unfold printed, printed_with in *. cbn [flat_map fst snd] in *.
  rewrite fmap_app, IH. f_equal. destruct stats as [|stat stats]; [done|].
  by rewrite <-(printed_stat_rstrip (stat :: stats)).
Qed.

(** C32: the report reads back: [report] returns, changes nothing but the
    output, and when no name and no location of the result dict holds a
    newline, the text it adds to the output is read by [read_report] as
    the references that have a match, in the order of the dict, each
    with the padded location and the text of the score of its matches,
    in the order of its list. *)
Theorem report_read_back s :
  plain_result (result s) →
  ∃ s', report s = Ret () s' ∧
        result s' = result s ∧ out_files s' = out_files s ∧
        stdout_text (stdout s') = stdout_text (stdout s) ++ report_text (result s) ∧
        read_report (report_text (result s)) = Some (printed (result s)).
Proof.
  intros Hres. eexists. split; [apply report_run|].
  split_and!; [done|done| |by apply read_report_text].
  unfold report_text, stdout_text. simpl. by rewrite bind_app.
Qed.

(** Two locations that differ by a space at the end give the same line
    of the report. *)
Theorem stat_text_trailing_space location difference :
  length location < 80 →
  stat_text (location ++ [" "]) difference = stat_text location difference.
Proof. intros Hlen. unfold stat_text. by rewrite ljust_trailing_space. Qed.

End report.

(** ** The scan read back *)

Section scan.
Context `{Codec} `{Host} `{PlainFormatter}.

Lemma scan_matches_plain refs t root :
  Forall (λ leaf, newline ∉ fe_location leaf) (leaves root) →
  Forall (λ hit : Hit, newline ∉ hit.2.1) (scan_matches refs t root).
Proof.
  intros Hleaves. apply Forall_forall. intros hit.
  intros (leaf & Hhit & Hleaf)%list_elem_of_bind.
  rewrite Forall_forall in Hleaves. specialize (Hleaves leaf Hleaf).
  unfold matches_of in Hhit. destruct (candidate leaf); [|by apply elem_of_nil in Hhit].
  apply list_elem_of_omap in Hhit as (item & _ & Hrec). unfold record_of in Hrec.
  destruct (score _ _) as [m|]; [|done]. simpl in Hrec.
  destruct (score_lt m t); [|done]. by injection Hrec as <-.
Qed.

Lemma recorded_plain refs hits :
  Forall (λ item : pystr * PILImage, newline ∉ item.1) refs →
  Forall (λ hit : Hit, newline ∉ hit.2.1) hits →
  plain_result (recorded refs hits).
Proof.
  intros Hrefs Hhits. unfold plain_result, recorded. apply Forall_fmap.
  eapply Forall_impl; [exact Hrefs|]. intros [name image] Hname. split; [done|].
  unfold hits_for. apply Forall_fmap, Forall_forall.
  intros hit [_ Hin]%list_elem_of_filter. rewrite Forall_forall in Hhits. by apply Hhits.
Qed.

(** C13: the scan end to end: on a benign input (the file system opens,
    the references load, every directory lists, every candidate can be
    compared with every reference, no export fails) with names and
    locations that hold no newline, the scan returns with the result
    the specification describes in the result dict, the script prints
    the report of that result last and returns, and the text of the
    report reads back as this result: every reference with a match,
    with the location and the score of every leaf that passes the
    filter, decodes and scores below the threshold against it. *)
Theorem scan_and_report_read_back o s file_system refs res root :
  disk_file_system (disk_image_path o) = inr file_system →
  load_folder (reference_image_folder_path o) [] = inr (refs, res) →
  GetRootFileEntry file_system = inr (Some root) →
  benign refs (output_folder o) root = true →
  Forall (λ item : pystr * PILImage, newline ∉ item.1) refs →
  Forall (λ leaf, newline ∉ fe_location leaf) (leaves root) →
  let matches := result_set refs (similarity_threshold o) root in
  ∃ s1, find_similar_images (disk_image_path o) (reference_image_folder_path o)
          (similarity_threshold o) (output_folder o) (set_result (λ _, []) s)
        = Ret RNone s1 ∧ result s1 = matches ∧
        scan_and_report o s = Ret () (after_prints (report_lines matches) matches s1) ∧
        read_report (report_text matches) = Some (printed matches).
Proof.
  intros Hd Hl Hr Hb Hrefs Hleaves matches.
  assert (plain_result matches) by (by apply recorded_plain, scan_matches_plain).
  destruct (find_similar_images_complete (disk_image_path o) (reference_image_folder_path o)
              (similarity_threshold o) (output_folder o) (set_result (λ _, []) s)
              file_system refs res root) as (s1 & Hrun & Hres); [done..|].
  exists s1. split_and!; [done|done| |by apply read_report_text].
  by rewrite scan_and_report_run, Hrun, Hres.
Qed.

(** C15: the report is sound on every input: when the file system opens
    and the references load, and no name or location holds a newline,
    every run of the script that returns has printed, last, a report
    that reads back as the result dict, and the result dict holds for
    every reference a sublist, in order, of the records the
    specification gives for it, whatever failed during the walk. *)
Theorem scan_and_report_sound o s s' file_system refs res root :
  disk_file_system (disk_image_path o) = inr file_system →
  load_folder (reference_image_folder_path o) [] = inr (refs, res) →
  GetRootFileEntry file_system = inr (Some root) →
  Forall (λ item : pystr * PILImage, newline ∉ item.1) refs →
  Forall (λ leaf, newline ∉ fe_location leaf) (leaves root) →
  scan_and_report o s = Ret () s' →
  ∃ hits, hits `sublist_of` scan_matches refs (similarity_threshold o) root ∧
          result s' = recorded refs hits ∧
          report_text (result s') `suffix_of` stdout_text (stdout s') ∧
          read_report (report_text (result s')) = Some (printed (result s')).
Proof.
  intros Hd Hl Hr Hrefs Hleaves. rewrite scan_and_report_run.
  destruct (find_similar_images_sound (disk_image_path o) (reference_image_folder_path o)
              (similarity_threshold o) (output_folder o) (set_result (λ _, []) s)
              file_system refs res root) as (hits & Hsub & Hres); [done..|].
  destruct (find_similar_images _ _ _ _ _) as [r s1|e s1]; [|done].
  intros [= <-]. simpl in *. exists hits. rewrite Hres. split_and!; [done..| |].
  - exists (stdout_text (stdout s1)). unfold report_text, stdout_text. by rewrite bind_app.
  - apply read_report_text, recorded_plain; [done|].
    eapply Forall_forall. intros hit Hhit%(sublist_subseteq _ _ Hsub). revert hit Hhit.
    by apply Forall_forall, scan_matches_plain.
Qed.

End scan.
