(* ===== verification/RawCodec.v ===== *)
(** * RawCodec: a small imaging library to run the scanner on concrete inputs

    The decoders and encoders of Pillow are outside the program; the
    theorems of the development hold for every [Codec].  The instance
    [raw_codec] exists so that the handlers can be evaluated on concrete
    trees; its difference is [pillow_difference].  [strict_codec] is the
    same library with the difference the specification asks for.  A file is a mode byte, a width byte, a height byte
    and the samples, row after row.  Decoding fails on a short header or
    an unknown mode, and yields an image whose pixel data cannot be
    loaded when samples are missing.  Saving follows two rules of
    Pillow: the format is chosen from the extension of the path
    ([ValueError] for an unknown one, raised before the file is
    opened), and JPEG cannot hold an alpha band or a palette ([OSError],
    raised by the encoder, after the file was opened). *)

From Stdlib.Strings Require Import Byte.
From Stdlib Require Import QArith Qcanon Qcabs.
From Stdlib.Floats Require Import SpecFloat.
From S2P Require Import Prelude Float64 Binary64 Exec PyStr PyDict Imaging Pillow Vfs Host Matcher.
Close Scope Qc_scope.
Close Scope Q_scope.

#[local] Open Scope Z_scope.

Definition mode_of_byte (b : Byte.byte) : option Mode :=
  match Byte.to_N b with
  | 0%N => Some ML
  | 1%N => Some MRGB
  | 2%N => Some MRGBA
  | 3%N => Some M1
  | 4%N => Some MLA
  | 5%N => Some MP
  | _ => None
  end.

(** Cuts [n] rows of [len] samples off the front of [l]. *)
Fixpoint chunks (n len : nat) (l : list Z) : list (list Z) :=
  match n with
  | 0%nat => []
  | S n' => take len l :: chunks n' len (drop len l)
  end.

Definition raw_open (b : bytes) : PyExn + PILImage :=
  match b with
  | m :: w :: h :: samples =>
      match mode_of_byte m with
      | None => inl OSError
      | Some mode =>
          let w := N.to_nat (Byte.to_N w) in
          let h := N.to_nat (Byte.to_N h) in
          let len := (w * bands mode)%nat in
          if bool_decide (h * len ≤ length samples)%nat
          then inr (Decoded (mkImage mode w h
                      (chunks h len ((λ x, Z.of_N (Byte.to_N x)) <$> samples))))
          else inr Truncated
      end
  | _ => inl OSError
  end.

Definition raw_save (path : pystr) (im : Image) : option SaveError :=
  if negb (has_image_suffix path) then Some (NotOpened ValueError)
  else if endswith_any (lower path) [str ".jpg"; str ".jpeg"]
          && bool_decide (im_mode im ∈ [MRGBA; MLA; MP])
  then Some (Opened OSError)
  else None.

#[export] Instance raw_codec : Codec := {|
  Image_open := raw_open;
  Image_save := raw_save;
  chop_difference := pillow_difference;
|}.

Definition strict_codec : Codec := {|
  Image_open := raw_open;
  Image_save := raw_save;
  chop_difference := strict_difference;
|}.

(** Bytes from numbers below 256. *)
Definition bs (l : list N) : bytes := omap Byte.of_N l.

Definition raw_OpenFileSystem (disks : list (pystr * FileEntry)) (spec : PathSpec)
    : PyExn + FileSystem :=
  match spec with
  | PathSpecTSK _ (PathSpecRAW (PathSpecOS location)) =>
      match dict_get disks location with
      | Some root => inr (mkFileSystem (inr (Some root)))
      | None => inl BackEndError
      end
  | _ => inl BackEndError
  end.

Definition raw_lookup {A} (table : list (pystr * A)) (path : pystr) : PyExn + A :=
  match dict_get table path with
  | Some a => inr a
  | None => inl OSError
  end.

Definition raw_host (disks : list (pystr * FileEntry))
    (folders : list (pystr * list pystr)) (files : list (pystr * bytes)) : Host := {|
  OpenFileSystem := raw_OpenFileSystem disks;
  os_listdir := raw_lookup folders;
  open_rb := raw_lookup files;
  os_makedirs path := if bool_decide (path = []) then Some OSError else None;
|}.

Definition gray2x1 (a b : Z) : Image := mkImage ML 2 1 [[a; b]].

Definition empty_state (names : list pystr) : ScanState :=
  mkScanState ((λ n, (n, [])) <$> names) ∅ [].

Lemma raw_open_Exception b e : raw_open b = inl e → is_Exception e = true.
Proof. unfold raw_open. repeat case_match; by intros [= <-]. Qed.

Lemma raw_save_Exception path im err :
  raw_save path im = Some err → is_Exception (save_exn err) = true.
Proof. unfold raw_save. repeat case_match; by intros [= <-]. Qed.

#[export] Instance raw_codec_tame : TameCodec.
Proof.
  split; [apply raw_open_Exception | apply raw_save_Exception|].
  by apply pillow_raises_ValueError.
Qed.

#[export] Instance raw_codec_laws : DifferenceLaws.
Proof. by apply pillow_laws. Qed.

Lemma strict_codec_laws : @DifferenceLaws strict_codec.
Proof. by apply strict_laws. Qed.

Example raw_open_gray :
  raw_open (bs [0; 2; 1; 10; 20]%N) = inr (Decoded (mkImage ML 2 1 [[10; 20]])).
Proof. by vm_compute. Qed.

Example raw_open_short : raw_open (bs [0; 2; 1; 10]%N) = inr Truncated.
Proof. by vm_compute. Qed.

Example raw_open_garbage : raw_open (bs [77; 2]%N) = inl OSError.
Proof. by vm_compute. Qed.

(** ** A host

    A host given by three tables: the root entry of each disk image,
    the listing of each folder and the content of each file.  A path
    that is in no table does not exist; the empty path cannot be
    created. *)

Lemma raw_lookup_Exception {A} (table : list (pystr * A)) path e :
  raw_lookup table path = inl e → is_Exception e = true.
Proof. unfold raw_lookup. destruct (dict_get table path); by intros [= <-]. Qed.

Lemma raw_host_tame disks folders files : @TameHost (raw_host disks folders files).
Proof. split; apply raw_lookup_Exception. Qed.

(** ** The scorer on concrete images *)

Example check_close :
  img_similarity_check (Decoded (gray2x1 10 20)) (Decoded (gray2x1 13 16)) 10
  = inr (true, Val (Q2Qc (7 # 2))).
Proof. by vm_compute. Qed.

Example check_far :
  img_similarity_check (Decoded (gray2x1 0 0)) (Decoded (gray2x1 255 255)) 10
  = inr (false, Val (Q2Qc (255 # 1))).
Proof. by vm_compute. Qed.

Example check_band_mismatch :
  img_similarity_check (Decoded (gray2x1 0 0)) (Decoded (mkImage MRGB 1 1 [[0; 0; 0]])) 10
  = inl ValueError.
Proof. by vm_compute. Qed.

Example check_truncated :
  img_similarity_check Truncated (Decoded (gray2x1 0 0)) 10 = inl OSError.
Proof. by vm_compute. Qed.

(** A reference twice as wide as the candidate: Pillow compares the
    common column, the strict difference refuses. *)
Example check_sizes_pillow :
  img_similarity_check (Decoded (mkImage ML 1 1 [[10]])) (Decoded (gray2x1 10 200)) 10
  = inr (true, Val (Qc_of_Z 0)).
Proof. by vm_compute. Qed.

Example check_sizes_strict :
  @img_similarity_check strict_codec
     (Decoded (mkImage ML 1 1 [[10]])) (Decoded (gray2x1 10 200)) 10
  = inl ValueError.
Proof. by vm_compute. Qed.

Lemma img_similarity_check_self_witness :
  img_similarity_check (Decoded (gray2x1 7 9)) (Decoded (gray2x1 7 9)) 10
  = inr (bool_decide (0 < 10), Val (Qc_of_Z 0)).
Proof. apply img_similarity_check_self; [done | by compute]. Defined.

Lemma img_similarity_check_bounds_witness :
  img_similarity_check (Decoded (gray2x1 10 20)) (Decoded (gray2x1 13 16)) 10
  = inr (true, Val (Q2Qc (7 # 2))) ∧
  (Qc_of_Z 0 ≤ Q2Qc (7 # 2) ∧ Q2Qc (7 # 2) ≤ Qc_of_Z 255)%Qc.
Proof.
  assert (img_similarity_check (Decoded (gray2x1 10 20)) (Decoded (gray2x1 13 16)) 10
          = inr (true, Val (Q2Qc (7 # 2)))) as Hrun by by vm_compute.
  split; [exact Hrun | exact (img_similarity_check_bounds _ _ _ _ _ Hrun)].
Defined.

Lemma img_similarity_check_monotone_witness :
  img_similarity_check (Decoded (gray2x1 10 20)) (Decoded (gray2x1 13 16)) 50
  = inr (true, Val (Q2Qc (7 # 2))).
Proof.
  apply (img_similarity_check_monotone _ _ 10 50); [lia | by vm_compute].
Defined.

Lemma img_similarity_check_strict_witness :
  img_similarity_check (Decoded (gray2x1 10 20)) (Decoded (gray2x1 20 30)) 10
  = inr (false, Val (Qc_of_Z 10)) ∧ false = false.
Proof.
  assert (img_similarity_check (Decoded (gray2x1 10 20)) (Decoded (gray2x1 20 30)) 10
          = inr (false, Val (Qc_of_Z 10))) as Hrun.
  { apply (f_equal (λ s, inr (false, Val s))). apply Qc_is_canon. by vm_compute. }
  split; [exact Hrun | exact (img_similarity_check_strict _ _ _ _ Hrun)].
Defined.

Lemma img_similarity_check_crop_witness :
  img_similarity_check (Decoded (crop 1 1 (mkImage ML 2 2 [[5; 6]; [7; 8]])))
                       (Decoded (mkImage ML 2 2 [[5; 6]; [7; 8]])) 10
  = inr (bool_decide (0 < 10), Val (Qc_of_Z 0)).
Proof. apply img_similarity_check_crop; [done | done | by compute]. Defined.

Lemma img_similarity_check_strict_sizes_witness :
  @img_similarity_check strict_codec
     (Decoded (mkImage ML 1 1 [[10]])) (Decoded (gray2x1 10 200)) 10
  = inl ValueError.
Proof.
  apply (img_similarity_check_strict_sizes (H:=strict_codec)); [done | left; simpl; lia].
Defined.

Lemma img_similarity_check_value_witness :
  img_similarity_check (Decoded (gray2x1 10 20)) (Decoded (gray2x1 13 16)) 10
  = inr (bool_decide (Zsum [3; 4] < 10 * Z.of_nat (length [3; 4])),
         Val (round64 (Zsum [3; 4]) (Pos.of_nat (length [3; 4])))).
Proof. by apply (img_similarity_check_value (H:=raw_codec)); [..|vm_compute]. Defined.

(** One sample of three differs by one: the mean is a third, which is
    not a binary64 number. *)
Example check_third :
  img_similarity_check (Decoded (mkImage ML 3 1 [[1; 0; 0]]))
                       (Decoded (mkImage ML 3 1 [[0; 0; 0]])) 10
  = inr (true, Val (Q2Qc (6004799503160661 # 2 ^ 54))).
Proof. by vm_compute. Qed.

Lemma img_similarity_check_rounding_witness :
  let a := np_array (mkImage ML 3 1 [[1; 0; 0]]) in
  (Qcabs (Q2Qc (6004799503160661 # 2 ^ 54) - Q2Qc (Zsum a # Pos.of_nat (length a)))
   ≤ Q2Qc (1 # 2 ^ 46))%Qc.
Proof.
  apply (img_similarity_check_rounding (H:=raw_codec)
           (mkImage ML 3 1 [[1; 0; 0]]) (mkImage ML 3 1 [[0; 0; 0]]) _ 10 true);
    by vm_compute.
Defined.

(** The third is the number binary64 arithmetic returns for
    [(1 + 0 + 0) / 3], the samples added by halves. *)
Lemma img_similarity_check_binary64_witness :
  true = score_lt_binary64 (np_mean_binary64 (pairwise 2 [1; 0; 0])) 10 ∧
  SF_value (np_mean_binary64 (pairwise 2 [1; 0; 0]))
  = Some (Q2Qc (6004799503160661 # 2 ^ 54)).
Proof.
  apply (img_similarity_check_binary64 (H:=raw_codec)
           (mkImage ML 3 1 [[1; 0; 0]]) (mkImage ML 3 1 [[0; 0; 0]])
           (mkImage ML 3 1 [[1; 0; 0]]) 10 (pairwise 2 [1; 0; 0]) true (Val _));
    by vm_compute.
Defined.

Example np_mean_binary64_third :
  np_mean_binary64 (pairwise 2 [1; 0; 0]) = S754_finite false 6004799503160661 (-54)
  ∧ np_mean_binary64 (sequential []) = S754_nan.
Proof. by vm_compute. Qed.

(** An all-black bilevel reference and an all-white grey candidate:
    the score is 1 and the pair is similar at the default threshold. *)
Example check_bilevel :
  img_similarity_check (Decoded (gray2x1 255 255)) (Decoded (mkImage M1 2 1 [[0; 0]])) 10
  = inr (true, Val (Q2Qc (1 # 1))).
Proof. by vm_compute. Qed.

Lemma bilevel_reference_similar_witness :
  ∃ m, img_similarity_check (Decoded (gray2x1 255 255)) (Decoded (mkImage M1 2 1 [[0; 0]])) 10
       = inr (true, m).
Proof. apply (bilevel_reference_similar (H:=raw_codec)); try done. Defined.

Lemma pillow_difference_wf_witness :
  image_wf (mkImage ML 1 1 [[190]]).
Proof.
  apply (pillow_difference_wf (gray2x1 10 20) (mkImage ML 1 1 [[200]]));
    [by compute; repeat constructor.. | done].
Defined.

(** ** A first run of the handler *)

Example handler_match :
  result (final_state
    (is_image_similar
       (File (str "a.jpg") (str "/pics/a.jpg")
             (inr (Some (Readable (bs [0; 2; 1; 10; 20]%N)))))
       [(str "refs/ref1.jpg", Decoded (mkImage ML 2 1 [[10; 20]]))]
       10 [] (empty_state [str "refs/ref1.jpg"])))
  = [(str "refs/ref1.jpg", [(str "/pics/a.jpg", Val (Qc_of_Z 0))])].
Proof. by vm_compute. Qed.

Example handler_skips_text :
  is_image_similar
    (File (str "readme.txt") (str "/docs/readme.txt")
          (inr (Some (Readable (bs [0; 2; 1; 10; 20]%N)))))
    [(str "refs/ref1.jpg", Decoded (mkImage ML 2 1 [[10; 20]]))]
    10 [] (empty_state [str "refs/ref1.jpg"])
  = Ret RFalse (empty_state [str "refs/ref1.jpg"]).
Proof. by vm_compute. Qed.

Example handler_corrupt :
  is_image_similar
    (File (str "a.jpg") (str "/pics/a.jpg") (inr (Some (Readable (bs [77]%N)))))
    [(str "refs/ref1.jpg", Decoded (mkImage ML 2 1 [[10; 20]]))]
    10 [] (empty_state [str "refs/ref1.jpg"])
  = Ret RFalse (set_stdout (λ _, error_lines (MsgCompareError (str "/pics/a.jpg")) OSError)
                           (empty_state [str "refs/ref1.jpg"])).
Proof. by vm_compute. Qed.
