(* ===== verification/Scenarios.v ===== *)
(** * Scenarios: the scanner run on concrete file trees

    The trees, references and thresholds of the scenarios the
    specification lists, run through [traverse_file_entries] with the
    stand-in codec of [RawCodec]; the applications of the general
    theorems to these inputs; and the runs that show where the program
    departs from its specification. *)

From Stdlib.Strings Require Import Byte.
From Stdlib Require Import QArith Qcanon.
From stdpp Require Import gmap.
From S2P Require Import Prelude Float64 Exec PyStr PyDict Cli Imaging Pillow Vfs Host Matcher Traverse.
From S2P Require Import Machine Export Records Contract.
From S2P Require Import Loader Main Protocol Render Readback RawCodec.
Close Scope Qc_scope.
Close Scope Q_scope.

#[local] Open Scope Z_scope.

(** ** Inputs *)

Definition file (name location : string) (content : list N) : FileEntry :=
  File (str name) (str location) (inr (Some (Readable (bs content)))).

Definition dir (name location : string) (subs : list FileEntry) : FileEntry :=
  Directory (str name) (str location) subs None.

(** A 2x1 grey image with samples [a] and [b], as file content. *)
Definition gray_file (a b : N) : list N := [0; 2; 1; a; b]%N.

Definition ref1 : pystr * PILImage := (str "refs/ref1.jpg", Decoded (gray2x1 10 20)).
Definition ref2 : pystr * PILImage := (str "refs/ref2.png", Decoded (gray2x1 20 30)).

(** [/pics/a.jpg] is a copy of [ref1]; [/docs/readme.txt] is not an
    image file. *)
Definition tree1 : FileEntry :=
  dir "" "/"
    [dir "pics" "/pics" [file "a.jpg" "/pics/a.jpg" (gray_file 10 20)];
     dir "docs" "/docs" [file "readme.txt" "/docs/readme.txt" [104; 105]%N]].

(** A corrupt [.jpg] before a good one. *)
Definition tree2 : FileEntry :=
  dir "" "/"
    [file "bad.jpg" "/bad.jpg" [77]%N;
     file "good.jpg" "/good.jpg" (gray_file 10 20)].

(** A directory whose listing fails after its first entry. *)
Definition tree3 : FileEntry :=
  dir "" "/"
    [Directory (str "lost") (str "/lost")
       [file "a.jpg" "/lost/a.jpg" (gray_file 10 20)] (Some BackEndError);
     file "b.jpg" "/b.jpg" (gray_file 10 20)].

Definition start (refs : list (pystr * PILImage)) : ScanState :=
  empty_state refs.*1.

(** An RGB reference listed before a grey one. *)
Definition ref_rgb : pystr * PILImage :=
  (str "refs/a_rgb.png", Decoded (mkImage MRGB 1 1 [[1; 2; 3]])).

(** A candidate with an alpha band, named [.jpg]: its export fails. *)
Definition rgba_file (r g b a : N) : list N := [2; 1; 1; r; g; b; a]%N.
Definition ref_far : pystr * PILImage :=
  (str "refs/far.png", Decoded (mkImage MRGBA 1 1 [[15; 25; 35; 45]])).
Definition ref_same : pystr * PILImage :=
  (str "refs/same.png", Decoded (mkImage MRGBA 1 1 [[10; 20; 30; 40]])).
Definition tree_rgba : FileEntry :=
  dir "" "/" [file "x.jpg" "/x.jpg" (rgba_file 10 20 30 40)].

(** A machine with the disk image [disk.dd] holding [tree1], a
    reference folder with one image and one text file, and an empty
    folder. *)
Definition host1 : Host :=
  raw_host [(str "disk.dd", tree1)]
           [(str "refs", [str "ref1.jpg"; str "notes.txt"]); (str "empty", [])]
           [(str "refs/ref1.jpg", bs (gray_file 10 20))].

Definition run_main (argv : list string) : Outcome ScanState PyExn unit :=
  @main raw_codec host1 (str <$> argv) (mkScanState [] ∅ []).

Definition state0 : ScanState := mkScanState [] ∅ [].

(** A disk image on which the read of the second file is interrupted
    from the keyboard. *)
Definition tree_interrupt : FileEntry :=
  dir "" "/"
    [file "a.jpg" "/a.jpg" (gray_file 10 20);
     File (str "b.jpg") (str "/b.jpg") (inl KeyboardInterrupt);
     file "c.jpg" "/c.jpg" (gray_file 10 20)].

Definition host_interrupt : Host :=
  raw_host [(str "disk.dd", tree_interrupt)]
           [(str "refs", [str "ref1.jpg"])]
           [(str "refs/ref1.jpg", bs (gray_file 10 20))].

(** A provider that opens the disk image and has no root entry for
    it. *)
Definition host_no_root : Host := {|
  OpenFileSystem _ := inr (mkFileSystem (inr None));
  os_listdir := raw_lookup [(str "refs", [str "ref1.jpg"])];
  open_rb := raw_lookup [(str "refs/ref1.jpg", bs (gray_file 10 20))];
  os_makedirs _ := None;
|}.

(** The machine of [host1] with an RGB reference listed before the
    grey one: the comparison of a grey file with the first reference
    raises. *)
Definition host_rgb : Host :=
  raw_host [(str "disk.dd", tree1)]
           [(str "refs", [str "a_rgb.png"; str "ref1.jpg"])]
           [(str "refs/a_rgb.png", bs [1; 1; 1; 1; 2; 3]%N);
            (str "refs/ref1.jpg", bs (gray_file 10 20))].

(** Two near copies of the first reference under the same base name. *)
Definition tree_same_name : FileEntry :=
  dir "" "/"
    [dir "a" "/a" [file "x.jpg" "/a/x.jpg" (gray_file 10 20)];
     dir "b" "/b" [file "x.jpg" "/b/x.jpg" (gray_file 11 21)]].

(** A copy of the first reference, and a palette image with the same
    samples under the same base name: JPEG cannot hold a palette. *)
Definition tree_palette : FileEntry :=
  dir "" "/"
    [dir "a" "/a" [file "x.jpg" "/a/x.jpg" (gray_file 10 20)];
     dir "b" "/b" [file "x.jpg" "/b/x.jpg" [5; 2; 1; 10; 20]%N]].

(** A formatter for the scenarios: an exception is shown by the name
    of its class, a traceback by its first line, a score by its
    numerator and denominator. *)
Definition exn_name (e : PyExn) : pystr :=
  match e with
  | ValueError => str "ValueError"
  | OSError => str "OSError"
  | KeyError => str "KeyError"
  | AttributeError => str "AttributeError"
  | BackEndError => str "BackEndError"
  | RuntimeError => str "RuntimeError"
  | RecursionError => str "RecursionError"
  | GetoptError => str "GetoptError"
  | KeyboardInterrupt => str "KeyboardInterrupt"
  | SystemExit code => str_of_int code
  end.

Definition score_text (m : Score) : pystr :=
  match m with
  | NaN => str "nan"
  | Val q => str_of_int (Qnum q) ++ str "/" ++ str_of_int (Z.pos (Qden q))
  end.

Definition plain_formatter : Formatter :=
  {| exn_str := exn_name;
     format_exc := λ _, str "Traceback (most recent call last):";
     float_str := score_text |}.

#[export] Instance plain_formatter_plain : @PlainFormatter plain_formatter.
Proof.
  split. intros [|q]; [split; apply (bool_decide_unpack _); by vm_compute|].
  cut (Forall (λ c, is_space c = false) (score_text (Val q))).
  { rewrite Forall_forall. intros Hs. split; by intros ?%Hs. }
  unfold score_text. rewrite !Forall_app.
  split_and!; [apply str_of_int_no_space | by repeat constructor | apply str_of_int_no_space].
Qed.

(** A corrupt image whose name holds a newline, the text of a line of
    the report, and another newline before its extension. *)
Definition forged_location : pystr :=
  str "/x" ++ newline :: str "For reference Image refs/ref1.jpg: " ++ newline :: str ".jpg".

Definition forged_entry : FileEntry :=
  File (drop 1 forged_location) forged_location (inr (Some (Readable (bs [77]%N)))).

Definition tree_forged : FileEntry := dir "" "/" [forged_entry].

(** A copy of the first reference under a name that is an absolute
    path. *)
Definition absolute_entry : FileEntry :=
  File (str "/tmp/x.jpg") (str "/pics/x.jpg") (inr (Some (Readable (bs (gray_file 10 20))))).

Lemma start_recorded refs : refs_recorded refs (result (start refs)).
Proof.
  intros name Hin. unfold start, empty_state, dict_keys. simpl.
  by rewrite <-list_fmap_compose, list_fmap_id.
Qed.

(** ** The scenarios of the specification *)

(** One copy of the reference and one text file: exactly one record,
    with score 0, and nothing printed about the text file. *)
Example scenario_single_match :
  traverse_file_entries tree1 [ref1] 10 [] (start [ref1])
  = Ret () (mkScanState
              [(str "refs/ref1.jpg", [(str "/pics/a.jpg", Val (Qc_of_Z 0))])]
              ∅ [MsgSimilarFound]).
Proof. by vm_compute. Qed.

(** A corrupt image is logged and skipped; the scan goes on to the next
    entry. *)
Example scenario_corrupt :
  traverse_file_entries tree2 [ref1] 10 [] (start [ref1])
  = Ret () (mkScanState
              [(str "refs/ref1.jpg", [(str "/good.jpg", Val (Qc_of_Z 0))])]
              ∅ (error_lines (MsgCompareError (str "/bad.jpg")) OSError ++ [MsgSimilarFound])).
Proof. by vm_compute. Qed.

(** One candidate close to two references (scores 3 and 7, threshold
    10) is recorded under both. *)
Example scenario_two_references :
  result (final_state
    (traverse_file_entries (dir "" "/" [file "c.jpg" "/c.jpg" (gray_file 13 23)])
       [ref1; ref2] 10 [] (start [ref1; ref2])))
  = [(str "refs/ref1.jpg", [(str "/c.jpg", Val (Q2Qc (3 # 1)))]);
     (str "refs/ref2.png", [(str "/c.jpg", Val (Q2Qc (7 # 1)))])].
Proof. by vm_compute. Qed.

(** ** The general theorems at these inputs *)

Lemma is_image_similar_filtered_witness :
  is_valid_ext (str "/docs/readme.txt") = false ∧
  is_image_similar (file "readme.txt" "/docs/readme.txt" [104; 105]%N)
    [ref1] 10 [] (start [ref1])
  = Ret RFalse (start [ref1]).
Proof. split; [by vm_compute|]. apply is_image_similar_filtered. by vm_compute. Defined.

Lemma is_image_similar_undecodable_witness :
  candidate_image (file "bad.jpg" "/bad.jpg" [77]%N) = inl OSError ∧
  is_image_similar (file "bad.jpg" "/bad.jpg" [77]%N) [ref1] 10 [] (start [ref1])
  = Ret RFalse (mkScanState (result (start [ref1])) (out_files (start [ref1]))
                  (stdout (start [ref1]) ++ error_lines (MsgCompareError (str "/bad.jpg")) OSError)).
Proof.
  split; [by vm_compute|]. apply is_image_similar_undecodable; by vm_compute.
Defined.

Lemma is_image_similar_matches_witness :
  dict_get (result (final_state
    (is_image_similar (file "c.jpg" "/c.jpg" (gray_file 13 23))
       [ref1; ref2] 10 [] (start [ref1; ref2])))) (str "refs/ref2.png")
  = (λ l, l ++ hits_for (str "refs/ref2.png")
                 (entry_hits (file "c.jpg" "/c.jpg" (gray_file 13 23)) [ref1; ref2] 10 []))
    <$> dict_get (result (start [ref1; ref2])) (str "refs/ref2.png").
Proof. apply is_image_similar_matches, start_recorded. Defined.

Lemma traverse_matches_witness :
  dict_get (result (final_state
    (traverse_file_entries tree1 [ref1] 10 [] (start [ref1])))) (str "refs/ref1.jpg")
  = (λ l, l ++ hits_for (str "refs/ref1.jpg")
                 (leaves_hits [ref1] 10 [] (scan_order tree1).1))
    <$> dict_get (result (start [ref1])) (str "refs/ref1.jpg").
Proof. apply traverse_matches, start_recorded. Defined.

Lemma traverse_threshold_monotone_witness :
  ∃ l2,
    dict_get (result (final_state
      (traverse_file_entries tree2 [ref1; ref2] 20 [] (start [ref1; ref2]))))
      (str "refs/ref1.jpg") = Some l2 ∧
    [(str "/good.jpg", Val (Qc_of_Z 0))] `sublist_of` l2.
Proof.
  apply (traverse_threshold_monotone tree2 [ref1; ref2] 5 20 (start [ref1; ref2]));
    [lia | apply start_recorded | by vm_compute].
Defined.

Lemma traverse_listable_witness :
  listable tree1 = true ∧
  exec_equiv (traverse_file_entries tree1 [ref1] 10 [])
             (for_each (handle [ref1] 10 []) (leaves tree1)).
Proof. split; [done|]. by apply traverse_listable. Defined.

Lemma traverse_completes_witness :
  ∃ s', traverse_file_entries tree2 [ref1] 10 (str "out") (start [ref1]) = Ret () s'.
Proof.
  apply traverse_completes; [done | | apply start_recorded].
  repeat constructor.
Defined.

(** ** Where the program departs from its specification *)

Lemma is_image_similar_raise_cuts_witness :
  result (final_state
    (is_image_similar (file "a.jpg" "/a.jpg" (gray_file 10 20))
       ([] ++ ref_rgb :: [ref1]) 10 [] (start [ref_rgb; ref1])))
  = result (final_state
      (is_image_similar (file "a.jpg" "/a.jpg" (gray_file 10 20))
         [] 10 [] (start [ref_rgb; ref1]))).
Proof.
  eapply is_image_similar_raise_cuts;
    [apply (start_recorded [ref_rgb; ref1]) | by vm_compute | by vm_compute].
Defined.

(** The copy of [ref1] is not reported, because the RGB reference comes
    first in the dict and its comparison raises. *)
Example mismatch_hides_copy :
  traverse_file_entries (dir "" "/" [file "a.jpg" "/a.jpg" (gray_file 10 20)])
    [ref_rgb; ref1] 10 [] (start [ref_rgb; ref1])
  = Ret () (mkScanState [(str "refs/a_rgb.png", []); (str "refs/ref1.jpg", [])] ∅
              (error_lines (MsgCompareError (str "/a.jpg")) ValueError)).
Proof. by vm_compute. Qed.

(** The candidate [/x.jpg] has an alpha band, so its export as [.jpg]
    fails: with threshold 3 it is recorded under [same.png]; with
    threshold 10 the hit on [far.png] comes first, and it is not. *)
Lemma is_image_similar_export_not_monotone_witness :
  dict_get (result (final_state
    (is_image_similar (file "x.jpg" "/x.jpg" (rgba_file 10 20 30 40))
       [ref_far; ref_same] 3 (str "out") (start [ref_far; ref_same]))))
    (str "refs/same.png")
  = Some ([] ++ [(str "/x.jpg", Val (Qc_of_Z 0))]) ∧
  dict_get (result (final_state
    (is_image_similar (file "x.jpg" "/x.jpg" (rgba_file 10 20 30 40))
       [ref_far; ref_same] 10 (str "out") (start [ref_far; ref_same]))))
    (str "refs/same.png")
  = Some [].
Proof.
  apply (is_image_similar_export_not_monotone
           (file "x.jpg" "/x.jpg" (rgba_file 10 20 30 40))
           (Decoded (mkImage MRGBA 1 1 [[10; 20; 30; 40]]))
           ref_far.1 ref_far.2 ref_same.1 ref_same.2 [] (Val (Q2Qc 5)) (Val (Qc_of_Z 0))
           3 10 (str "out") OSError (start [ref_far; ref_same]) []);
    [apply (start_recorded [ref_far; ref_same]) | by vm_compute..].
Defined.

(** The same on the walk of a disk image that holds this one file: the
    match set of the scan is not monotone in the threshold. *)
Example scenario_export_not_monotone :
  dict_get (result (final_state
    (traverse_file_entries tree_rgba [ref_far; ref_same] 3 (str "out")
       (start [ref_far; ref_same])))) (str "refs/same.png")
  = Some [(str "/x.jpg", Val (Qc_of_Z 0))] ∧
  dict_get (result (final_state
    (traverse_file_entries tree_rgba [ref_far; ref_same] 10 (str "out")
       (start [ref_far; ref_same])))) (str "refs/same.png")
  = Some [].
Proof. split; by vm_compute. Qed.

(** The entry after the directory whose listing fails is never
    visited: the scan ends with the provider's exception. *)
Example listing_failure_aborts :
  traverse_file_entries tree3 [ref1] 10 [] (start [ref1])
  = Raise BackEndError
      (mkScanState [(str "refs/ref1.jpg", [(str "/lost/a.jpg", Val (Qc_of_Z 0))])]
                   ∅ [MsgSimilarFound]).
Proof. by vm_compute. Qed.

(** ** Runs of the whole script *)

(** The first scenario of the specification, from the command line to
    the report. *)
Example scenario_main :
  run_main ["main.py"; "-d"; "disk.dd"; "-r"; "refs"]
  = Ret () (mkScanState
              [(str "refs/ref1.jpg", [(str "/pics/a.jpg", Val (Qc_of_Z 0))])] ∅
              [MsgFsParsed; MsgRefsLoaded; MsgRootLoaded; MsgScanStart; MsgSimilarFound;
               MsgFinalReport; MsgForReference (str "refs/ref1.jpg");
               MsgStat (str "/pics/a.jpg") (Val (Qc_of_Z 0))]).
Proof. by vm_compute. Qed.

(** A threshold of 0 finds nothing, not even the copy. *)
Example scenario_threshold_zero :
  run_main ["main.py"; "-d"; "disk.dd"; "-r"; "refs"; "-i"; "0"]
  = Ret () (mkScanState [(str "refs/ref1.jpg", [])] ∅
              [MsgFsParsed; MsgRefsLoaded; MsgRootLoaded; MsgScanStart; MsgFinalReport]).
Proof. by vm_compute. Qed.

(** A reference folder without images: the disk image is scanned all
    the same and the script ends with status 0. *)
Example scenario_no_references :
  run_main ["main.py"; "-d"; "disk.dd"; "-r"; "empty"]
  = Ret () (mkScanState [] ∅
              [MsgFsParsed; MsgRefsLoaded; MsgRootLoaded; MsgScanStart; MsgNoSimilar]).
Proof. by vm_compute. Qed.

(** A reference folder that does not exist: status 0 as well. *)
Example scenario_missing_folder :
  run_main ["main.py"; "-d"; "disk.dd"; "-r"; "nowhere"]
  = Ret () (mkScanState [] ∅
              (MsgFsParsed :: error_lines MsgLoadError OSError ++ [MsgNoSimilar])).
Proof. by vm_compute. Qed.

(** A disk image that cannot be opened: the exception reaches the top
    and the status is 1. *)
Example scenario_missing_disk :
  exit_status (run_main ["main.py"; "-d"; "nodisk.dd"; "-r"; "refs"]) = 1.
Proof. by vm_compute. Qed.

(** [-h] alone is taken for too few arguments: status 1, not 0. *)
Example scenario_help_alone :
  run_main ["main.py"; "-h"] = Raise (SystemExit 1) (mkScanState [] ∅ [MsgUsage (str "main.py")]).
Proof. by vm_compute. Qed.

(** A threshold that is not a number ends the script with the
    [ValueError] of [int]: status 1 and no usage line. *)
Example scenario_bad_threshold :
  run_main ["main.py"; "-d"; "disk.dd"; "-r"; "refs"; "-i"; "ten"]
  = Raise ValueError (mkScanState [] ∅ []).
Proof. by vm_compute. Qed.

(** ** The theorems on the loader and the script at these inputs *)

Lemma find_similar_images_open_failure_witness :
  @find_similar_images raw_codec host1 (str "nodisk.dd") (str "refs") 10 [] state0
  = Raise BackEndError state0.
Proof. by apply (find_similar_images_open_failure (H0:=host1)). Defined.

Lemma find_similar_images_load_failure_witness :
  @find_similar_images raw_codec host1 (str "disk.dd") (str "nowhere") 10 [] state0
  = Ret RFalse (after_prints (MsgFsParsed :: error_lines MsgLoadError OSError) [] state0).
Proof.
  by apply (find_similar_images_load_failure (H0:=host1) _ _ _ _ _
              (mkFileSystem (inr (Some tree1)))).
Defined.

Lemma find_similar_images_no_root_witness :
  @find_similar_images raw_codec host_no_root (str "disk.dd") (str "refs") 10 [] state0
  = Raise AttributeError
      (after_prints scan_banner [(str "refs/ref1.jpg", [])] state0).
Proof.
  by apply (find_similar_images_no_root (H0:=host_no_root) _ _ _ _ _
              (mkFileSystem (inr None)) [ref1]).
Defined.

Lemma find_similar_images_matches_witness :
  dict_get (result (final_state
    (@find_similar_images raw_codec host1 (str "disk.dd") (str "refs") 10 [] state0)))
    (str "refs/ref1.jpg")
  = (λ l, l ++ hits_for (str "refs/ref1.jpg") (leaves_hits [ref1] 10 [] (scan_order tree1).1))
    <$> dict_get [(str "refs/ref1.jpg", [])] (str "refs/ref1.jpg").
Proof.
  by apply (find_similar_images_matches (H0:=host1) _ _ _ _ _ (mkFileSystem (inr (Some tree1)))).
Defined.

Lemma find_similar_images_keys_witness :
  dict_keys (result (final_state
    (@find_similar_images raw_codec host1 (str "disk.dd") (str "refs") 10 [] state0)))
  = dict_keys [ref1].
Proof.
  by apply (find_similar_images_keys (H0:=host1) _ _ _ _ _ (mkFileSystem (inr (Some tree1)))
              _ [(str "refs/ref1.jpg", [])] tree1).
Defined.

Lemma load_folder_paths_witness :
  dict_keys [ref1] = reference_paths (str "refs") [str "ref1.jpg"; str "notes.txt"] ∧
  ([(str "refs/ref1.jpg", [])] : ResultDict)
  = (λ p, (p, [])) <$> reference_paths (str "refs") [str "ref1.jpg"; str "notes.txt"].
Proof.
  apply (load_folder_paths (H:=raw_codec) (H0:=host1)); [done | | done].
  apply (NoDup_cons_2 _ _ (not_elem_of_nil _) (NoDup_nil_2)).
Defined.

Lemma find_similar_images_completes_witness :
  ∃ r s', @find_similar_images raw_codec host1 (str "disk.dd") (str "refs") 10 [] state0
          = Ret r s'.
Proof.
  apply (find_similar_images_completes (H0:=host1) (H2:=raw_host_tame _ _ _)
           _ _ _ _ _ (mkFileSystem (inr (Some tree1))) tree1); [done..|].
  repeat constructor.
Defined.

Lemma find_similar_images_no_references_witness :
  @find_similar_images raw_codec host1 (str "disk.dd") (str "empty") 10 [] state0
  = (traverse_file_entries tree1 [] 10 [] ≫= λ _, mret RNone)
      (after_prints scan_banner (result state0) state0).
Proof.
  by apply (find_similar_images_no_references (H0:=host1) _ _ _ _ _
              (mkFileSystem (inr (Some tree1))) []).
Defined.

Lemma traverse_nonpositive_threshold_witness :
  result (final_state (traverse_file_entries tree1 [ref1] 0 [] (start [ref1])))
  = result (start [ref1]).
Proof. apply traverse_nonpositive_threshold; [lia | apply start_recorded]. Defined.

Lemma getopt_loop_fuel_witness :
  getopt_loop 5 [] [str "-d"; str "disk.dd"] shortopts
  = getopt [str "-d"; str "disk.dd"] shortopts.
Proof. apply getopt_loop_fuel. simpl. lia. Defined.

Lemma getopt_unparse_witness :
  getopt (unparse [(str "-i", str "-3")] ++ [str "rest"]) shortopts
  = inr ([(str "-i", str "-3")], [str "rest"]).
Proof.
  apply getopt_unparse; [|done].
  apply Forall_cons_2; [|done]. apply valued_shortopts. compute_done.
Defined.

Lemma main_few_arguments_witness :
  @main raw_codec host1 [str "main.py"; str "-h"] state0
  = Raise (SystemExit 1) (after_prints [MsgUsage (str "main.py")] [] state0).
Proof. apply (main_few_arguments (H0:=host1)). simpl. lia. Defined.

Lemma main_bad_options_witness :
  @main raw_codec host1 [str "main.py"; str "-x"; str "1"] state0
  = Raise (SystemExit 2) (after_prints [MsgUsage (str "main.py")] [] state0).
Proof.
  apply (main_bad_options (H0:=host1) [str "main.py"; str "-x"; str "1"] state0 GetoptError);
    [simpl; lia | by vm_compute].
Defined.

Lemma main_help_witness :
  @main raw_codec host1 [str "main.py"; str "-h"; str "-d"; str "disk.dd"] state0
  = Raise (SystemExit 0) (after_prints [MsgUsage (str "main.py")] [] state0).
Proof.
  apply (main_help (H0:=host1) [str "main.py"; str "-h"; str "-d"; str "disk.dd"] state0
           [] [(str "-d", str "disk.dd")] []);
    [simpl; lia | by vm_compute].
Defined.

Lemma main_missing_required_witness :
  @main raw_codec host1 [str "main.py"; str "-d"; str "disk.dd"] state0
  = Raise (SystemExit 2)
          (after_prints [MsgMissingParams; MsgUsage (str "main.py")] [] state0).
Proof.
  apply (main_missing_required (H0:=host1) [str "main.py"; str "-d"; str "disk.dd"] state0
           [(str "-d", str "disk.dd")] [] (mkOptions (str "disk.dd") [] 10 []));
    [simpl; lia | by vm_compute | by vm_compute | by right].
Defined.

Lemma main_command_line_witness :
  @main raw_codec host1
    (str "main.py" :: unparse [(str "-d", str "disk.dd"); (str "-r", str "refs");
                               (str "-i", str_of_int 25)]) state0
  = @scan_and_report raw_codec host1 (mkOptions (str "disk.dd") (str "refs") 25 []) state0.
Proof. by apply (main_command_line (H0:=host1)). Defined.

Lemma scan_and_report_load_failure_witness :
  @scan_and_report raw_codec host1 (mkOptions (str "disk.dd") (str "nowhere") 10 []) state0
  = Ret () (after_prints (MsgFsParsed :: error_lines MsgLoadError OSError ++ report_lines [])
                         [] state0).
Proof.
  by apply (scan_and_report_load_failure (H0:=host1) _ _ (mkFileSystem (inr (Some tree1)))).
Defined.

Lemma scan_and_report_no_references_witness :
  ∃ s', @scan_and_report raw_codec host1 (mkOptions (str "disk.dd") (str "empty") 10 []) state0
        = Ret () s' ∧ result s' = [] ∧ ∃ msgs, stdout s' = msgs ++ [MsgNoSimilar].
Proof.
  apply (scan_and_report_no_references (H0:=host1) _ _ (mkFileSystem (inr (Some tree1))) [] tree1);
    [done..|].
  repeat constructor.
Defined.

Lemma report_without_matches_witness :
  report_lines (result (start [ref1; ref2])) = [MsgFinalReport].
Proof. apply report_without_matches; [done | by repeat constructor]. Defined.

Lemma traverse_as_worklist_witness :
  exec_equiv (traverse_file_entries tree1 [ref1] 10 [])
             (for_each (handle [ref1] 10 []) (leaves tree1)).
Proof. by apply traverse_as_worklist. Defined.

(** ** The handler and the walk as state transformers *)

Lemma is_image_similar_refines_witness :
  final_state (is_image_similar (file "c.jpg" "/c.jpg" (gray_file 13 23))
                 [ref1; ref2] 10 (str "out") (start [ref1; ref2]))
  = entry_state (file "c.jpg" "/c.jpg" (gray_file 13 23)) [ref1; ref2] 10 (str "out")
      (start [ref1; ref2]) ∧
  raised (is_image_similar (file "c.jpg" "/c.jpg" (gray_file 13 23))
            [ref1; ref2] 10 (str "out") (start [ref1; ref2]))
  = escapes (file "c.jpg" "/c.jpg" (gray_file 13 23)) [ref1; ref2] 10 (str "out") ∧
  returned (is_image_similar (file "c.jpg" "/c.jpg" (gray_file 13 23))
              [ref1; ref2] 10 (str "out") (start [ref1; ref2]))
  = match escapes (file "c.jpg" "/c.jpg" (gray_file 13 23)) [ref1; ref2] 10 (str "out") with
    | Some _ => None
    | None => Some (entry_return (file "c.jpg" "/c.jpg" (gray_file 13 23))
                      [ref1; ref2] 10 (str "out"))
    end.
Proof. apply is_image_similar_refines, start_recorded. Defined.

Lemma traverse_refines_witness :
  final_state (traverse_file_entries tree1 [ref1] 10 (str "out") (start [ref1]))
  = final_state (leaves_run [ref1] 10 (str "out") (scan_order tree1).1 (start [ref1])) ∧
  raised (traverse_file_entries tree1 [ref1] 10 (str "out") (start [ref1]))
  = match raised (leaves_run [ref1] 10 (str "out") (scan_order tree1).1 (start [ref1])) with
    | Some e => Some e
    | None => (scan_order tree1).2
    end.
Proof. apply traverse_refines, start_recorded. Defined.

Lemma is_image_similar_overwrites_witness :
  out_files (final_state
    (is_image_similar (file "c.jpg" "/c.jpg" (gray_file 13 23))
       [ref1; ref2] 10 (str "out") (start [ref1; ref2])))
    !! path_join (str "out") (fe_name (file "c.jpg" "/c.jpg" (gray_file 13 23)))
  = Some (Encoded (gray2x1 13 23)).
Proof.
  apply is_image_similar_overwrites;
    [apply start_recorded | by vm_compute | done | by vm_compute | by vm_compute].
Defined.

Lemma is_image_similar_exports_witness :
  out_files (start [ref1; ref2]) !! str "out/c.jpg" = Some (Encoded (gray2x1 13 23)) ∨
  (str "out/c.jpg" = path_join (str "out") (fe_name (file "c.jpg" "/c.jpg" (gray_file 13 23))) ∧
   str "out" ≠ [] ∧
   candidate_image (file "c.jpg" "/c.jpg" (gray_file 13 23))
   = inr (Some (Decoded (gray2x1 13 23))) ∧
   entry_hits (file "c.jpg" "/c.jpg" (gray_file 13 23)) [ref1; ref2] 10 (str "out") ≠ []).
Proof.
  apply (is_image_similar_exports _ _ _ _ _ (str "out/c.jpg") (gray2x1 13 23)
           (start_recorded [ref1; ref2])).
  by vm_compute.
Defined.

(** ** The call stack of the walk *)

(** The machine on the tree of the first scenario: twelve steps, the
    outcome of the recursion, and never more than three calls active. *)
Example scenario_machine :
  run [ref1] 10 [] 12%nat (init tree1 (start [ref1]))
  = mkConfig Next []
      (mkScanState [(str "refs/ref1.jpg", [(str "/pics/a.jpg", Val (Qc_of_Z 0))])]
                   ∅ [MsgSimilarFound]) ∧
  call_cost tree1 = 12%nat ∧ frames_needed tree1 = 3%nat.
Proof. by vm_compute. Qed.

Lemma machine_depth_witness :
  fits 3%nat (run [ref1] 10 [] 4%nat (init tree1 (start [ref1]))) ∧
  (call_depth (run [ref1] 10 [] 4%nat (init tree1 (start [ref1]))) ≤ 3)%nat.
Proof.
  apply (machine_depth [ref1] 10 [] 3%nat (init tree1 (start [ref1])));
    [split; vm_compute; (done || lia) | apply run_Step].
Defined.

(** A file under three directories and an interpreter that allows
    three calls: the limited machine ends with [RecursionError] and the
    copy of the reference is not found; with four calls it is. *)
Lemma run_limited_deep_witness :
  final (run_limited [ref1] 10 [] 3%nat (3 * 3 + 1)%nat
           (init (nest 3%nat (file "a.jpg" "/a.jpg" (gray_file 10 20))) (start [ref1])))
  = Some (Raise RecursionError (start [ref1])).
Proof. apply run_limited_deep. lia. Defined.

Lemma run_limited_below_witness :
  run_limited [ref1] 10 [] 4%nat 12%nat
    (init (nest 3%nat (file "a.jpg" "/a.jpg" (gray_file 10 20))) (start [ref1]))
  = run [ref1] 10 [] 12%nat
      (init (nest 3%nat (file "a.jpg" "/a.jpg" (gray_file 10 20))) (start [ref1])).
Proof. apply run_limited_below. vm_compute. lia. Defined.

Example scenario_deep_found :
  final (run_limited [ref1] 10 [] 4%nat 12%nat
           (init (nest 3%nat (file "a.jpg" "/a.jpg" (gray_file 10 20))) (start [ref1])))
  = Some (Ret () (mkScanState
                    [(str "refs/ref1.jpg", [(str "/a.jpg", Val (Qc_of_Z 0))])]
                    ∅ [MsgSimilarFound])).
Proof. by vm_compute. Qed.

(** ** The result dict is well formed *)

Lemma is_image_similar_result_wf_witness :
  result_wf [ref1; ref2] 10 [str "/c.jpg"]
    (result (final_state
       (is_image_similar (file "c.jpg" "/c.jpg" (gray_file 13 23))
          [ref1; ref2] 10 [] (start [ref1; ref2])))).
Proof.
  apply (is_image_similar_result_wf (file "c.jpg" "/c.jpg" (gray_file 13 23))).
  apply (bool_decide_unpack _). by vm_compute.
Defined.

Lemma traverse_result_wf_witness :
  result_wf [ref1] 10 (locations tree1)
    (result (final_state (traverse_file_entries tree1 [ref1] 10 [] (start [ref1])))).
Proof. apply traverse_result_wf. apply (bool_decide_unpack _). by vm_compute. Defined.

Lemma find_similar_images_result_wf_witness :
  result_wf [ref1] 10 (locations tree1)
    (result (final_state
       (@find_similar_images raw_codec host1 (str "disk.dd") (str "refs") 10 [] state0))).
Proof.
  apply (find_similar_images_result_wf (H1:=host1) _ _ _ _ _ (mkFileSystem (inr (Some tree1)))
           [ref1] [(str "refs/ref1.jpg", [])]);
    [apply dict_wf_nil | constructor | by vm_compute | by vm_compute | done].
Defined.

(** The same by computation: the predicate is decidable. *)
Example scenario_result_wf :
  bool_decide (result_wf [ref1; ref2] 10 [str "/c.jpg"]
    (result (final_state
       (is_image_similar (file "c.jpg" "/c.jpg" (gray_file 13 23))
          [ref1; ref2] 10 [] (start [ref1; ref2]))))) = true.
Proof. by vm_compute. Qed.

(** ** The output folder *)

(** Two matched entries named [x.jpg]: the file of that name in the
    folder is the image of the second. *)
Lemma traverse_last_write_wins_witness :
  out_files (final_state
    (traverse_file_entries tree_same_name [ref1] 10 (str "out") (start [ref1])))
    !! str "out/x.jpg"
  = Some (Encoded (gray2x1 11 21)).
Proof.
  apply (traverse_last_write_wins [ref1] 10 (str "out") tree_same_name (start [ref1])
           [file "x.jpg" "/a/x.jpg" (gray_file 10 20)]
           (file "x.jpg" "/b/x.jpg" (gray_file 11 21)) []);
    [apply start_recorded | by vm_compute | by vm_compute | constructor].
Defined.

(** A failed export destroys an earlier one: both entries match the
    reference and are recorded; the copy of [/a/x.jpg] was in the folder,
    and the save of [/b/x.jpg] under the same name, which fails in the
    encoder, leaves a partial file in its place. *)
Example failed_export_destroys_copy :
  out_files (final_state
    (traverse_file_entries tree_palette [ref1] 10 (str "out") (start [ref1])))
    !! str "out/x.jpg"
  = Some Partial ∧
  result (final_state
    (traverse_file_entries tree_palette [ref1] 10 (str "out") (start [ref1])))
  = [(str "refs/ref1.jpg", [(str "/a/x.jpg", Val (Qc_of_Z 0));
                            (str "/b/x.jpg", Val (Qc_of_Z 0))])].
Proof. split; by vm_compute. Qed.

Lemma traverse_exports_witness :
  out_files (start [ref1]) !! str "out/x.jpg" = Some (Encoded (gray2x1 11 21)) ∨
  ∃ leaf, leaf ∈ leaves tree_same_name ∧
          str "out/x.jpg" = path_join (str "out") (fe_name leaf) ∧ str "out" ≠ [] ∧
          candidate_image leaf = inr (Some (Decoded (gray2x1 11 21))) ∧
          entry_hits leaf [ref1] 10 (str "out") ≠ [].
Proof.
  apply (traverse_exports [ref1] 10 (str "out") tree_same_name (start [ref1]));
    [apply start_recorded | by vm_compute].
Defined.

Lemma traverse_exports_confined_witness :
  out_files (start [ref1]) !! str "out/x.jpg" = Some (Encoded (gray2x1 11 21)) ∨
  ∃ name, plain_name name = true ∧ str "out/x.jpg" = entry_path (str "out") name.
Proof.
  apply (traverse_exports_confined [ref1] 10 (str "out") tree_same_name (start [ref1]));
    [apply start_recorded | by repeat constructor | by vm_compute].
Defined.

(** The copy is written to [/tmp/x.jpg], not into the folder [out]. *)
Lemma is_image_similar_export_escapes_witness :
  out_files (final_state
    (is_image_similar absolute_entry [ref1] 10 (str "out") (start [ref1])))
    !! str "/tmp/x.jpg"
  = Some (Encoded (gray2x1 10 20)).
Proof.
  apply (is_image_similar_export_escapes [ref1] 10 (str "out") absolute_entry (start [ref1]));
    [apply start_recorded | by vm_compute.. ].
Defined.

Lemma traverse_no_output_witness :
  out_files (final_state
    (traverse_file_entries tree_same_name [ref1] 10 [] (start [ref1])))
  = out_files (start [ref1]).
Proof. apply traverse_no_output; [apply start_recorded | done]. Defined.

(** ** An interrupted scan *)

(** The interrupt goes through [except Exception] and through the
    script: the match of the first file is in the result dict, the
    third file is never read, and no report is printed. *)
Example scenario_interrupted :
  @main raw_codec host_interrupt (str <$> ["main.py"; "-d"; "disk.dd"; "-r"; "refs"]) state0
  = Raise KeyboardInterrupt
      (mkScanState [(str "refs/ref1.jpg", [(str "/a.jpg", Val (Qc_of_Z 0))])] ∅
         [MsgFsParsed; MsgRefsLoaded; MsgRootLoaded; MsgScanStart; MsgSimilarFound]).
Proof. by vm_compute. Qed.

Lemma scan_and_report_interrupted_witness :
  @scan_and_report raw_codec host_interrupt (mkOptions (str "disk.dd") (str "refs") 10 []) state0
  = Raise KeyboardInterrupt
      (final_state
         (traverse_file_entries tree_interrupt [ref1] 10 []
            (after_prints scan_banner [(str "refs/ref1.jpg", [])]
               (set_result (λ _, []) state0)))).
Proof.
  apply (scan_and_report_interrupted (H0:=host_interrupt)
           (mkOptions (str "disk.dd") (str "refs") 10 []) state0
           (mkFileSystem (inr (Some tree_interrupt))) [ref1] [(str "refs/ref1.jpg", [])]);
    by vm_compute.
Defined.

(** ** The scan against the specification *)

(** After the failed listing of [/lost] the copy [/b.jpg] is missing:
    what is recorded is part of what the specification records. *)
Lemma traverse_sound_witness :
  ∃ l0 l1, dict_get (result (start [ref1])) (str "refs/ref1.jpg") = Some l0 ∧
    [(str "/lost/a.jpg", Val (Qc_of_Z 0))] = l0 ++ l1 ∧
    l1 `sublist_of` hits_for (str "refs/ref1.jpg") (scan_matches [ref1] 10 tree3).
Proof.
  apply (traverse_sound tree3 [ref1] 10 [] (start [ref1]));
    [apply start_recorded | by vm_compute].
Defined.

Example scenario_result_set :
  result_set [ref1] 10 tree3
  = [(str "refs/ref1.jpg",
      [(str "/lost/a.jpg", Val (Qc_of_Z 0)); (str "/b.jpg", Val (Qc_of_Z 0))])].
Proof. by vm_compute. Qed.

Lemma find_similar_images_complete_witness :
  ∃ s', @find_similar_images raw_codec host1 (str "disk.dd") (str "refs") 10 [] state0
        = Ret RNone s' ∧
        result s' = result_set [ref1] 10 tree1.
Proof.
  apply (find_similar_images_complete (H0:=host1) _ _ _ _ _ (mkFileSystem (inr (Some tree1)))
           [ref1] [(str "refs/ref1.jpg", [])] tree1); by vm_compute.
Defined.

(** The three conditions of a benign scan fail on the inputs on which
    the program departs from the specification: a listing that fails,
    a reference that cannot be compared, an export that fails. *)
Example scenario_not_benign :
  benign [ref1] [] tree3 = false ∧
  benign [ref_rgb; ref1] [] (dir "" "/" [file "a.jpg" "/a.jpg" (gray_file 10 20)]) = false ∧
  benign [ref_far; ref_same] (str "out") tree_rgba = false.
Proof. by vm_compute. Qed.

(** ** The order of the lines *)

(** The run of the first scenario ends in the list of a reference; a
    run without the reference folder ends after the usage line. *)
Example scenario_protocol :
  phase_after (stdout (final_state (run_main ["main.py"; "-d"; "disk.dd"; "-r"; "refs"])))
  = Some Listing ∧
  phase_after (stdout (final_state (run_main ["main.py"; "-d"; "disk.dd"])))
  = Some UsageShown.
Proof. by vm_compute. Qed.

Lemma main_protocol_witness :
  match run_main ["main.py"; "-d"; "disk.dd"; "-r"; "refs"] with
  | Ret _ s => finished s
  | Raise _ s => unreported s
  end.
Proof. by apply (main_protocol (H0:=host1)). Defined.

(** ** The text of the output *)

(** The output of the first scenario, line by line. *)
Example scenario_text :
  text_lines (@stdout_text plain_formatter
    (stdout (final_state (run_main ["main.py"; "-d"; "disk.dd"; "-r"; "refs"]))))
  = [str "File system parse completed.";
     str "Reference images loading completed.";
     str "Disk root directory loading completed.";
     str "Start scanning similar images on the disk image - it may take a long time depending on the size of disk.";
     str "Similar image identified! - See final report";
     str "Final Report: ";
     str "For reference Image refs/ref1.jpg: ";
     tab :: ljust (str "/pics/a.jpg") 80 ++ " "%char :: tab :: tab :: str " difference: 0/1";
     []].
Proof. by vm_compute. Qed.

Lemma stdout_text_lines_witness :
  text_lines (@stdout_text plain_formatter [MsgFinalReport; MsgForReference (str "r.png")])
  = (@render plain_formatter <$> [MsgFinalReport; MsgForReference (str "r.png")]) ++ [[]].
Proof.
  apply (stdout_text_lines (H:=plain_formatter)).
  repeat constructor; apply (bool_decide_unpack _); by vm_compute.
Defined.

(** The scan of the first disk image, end to end. *)
Lemma scan_and_report_read_back_witness :
  let o := mkOptions (str "disk.dd") (str "refs") 10 [] in
  let matches := result_set [ref1] 10 tree1 in
  ∃ s1, @find_similar_images raw_codec host1 (str "disk.dd") (str "refs") 10 []
          (set_result (λ _, []) state0) = Ret RNone s1 ∧
        result s1 = matches ∧
        @scan_and_report raw_codec host1 o state0
        = Ret () (after_prints (report_lines matches) matches s1) ∧
        read_report (@report_text plain_formatter matches)
        = Some (@printed plain_formatter matches).
Proof.
  apply (scan_and_report_read_back (H0:=host1) (H1:=plain_formatter)
           (mkOptions (str "disk.dd") (str "refs") 10 []) state0
           (mkFileSystem (inr (Some tree1))) [ref1] [(str "refs/ref1.jpg", [])] tree1);
    [by vm_compute | by vm_compute | by vm_compute | by vm_compute | |];
    repeat constructor; apply (bool_decide_unpack _); by vm_compute.
Defined.

(** A scan in which a comparison raises: the script returns, the
    report reads back as the result dict, and the result dict holds
    records of the specification, though not all of them. *)
Lemma scan_and_report_sound_witness :
  let o := mkOptions (str "disk.dd") (str "refs") 10 [] in
  let s' := final_state (@scan_and_report raw_codec host_rgb o state0) in
  ∃ hits, hits `sublist_of` scan_matches [ref_rgb; ref1] 10 tree1 ∧
          result s' = recorded [ref_rgb; ref1] hits ∧
          @report_text plain_formatter (result s')
            `suffix_of` @stdout_text plain_formatter (stdout s') ∧
          read_report (@report_text plain_formatter (result s'))
          = Some (@printed plain_formatter (result s')).
Proof.
  apply (scan_and_report_sound (H0:=host_rgb) (H1:=plain_formatter)
           (mkOptions (str "disk.dd") (str "refs") 10 []) state0 _
           (mkFileSystem (inr (Some tree1))) [ref_rgb; ref1]
           [(str "refs/a_rgb.png", []); (str "refs/ref1.jpg", [])] tree1);
    [by vm_compute | by vm_compute | by vm_compute | | | by vm_compute];
    repeat constructor; apply (bool_decide_unpack _); by vm_compute.
Defined.

Example scenario_sound_not_complete :
  let o := mkOptions (str "disk.dd") (str "refs") 10 [] in
  result (final_state (@scan_and_report raw_codec host_rgb o state0))
  = [(str "refs/a_rgb.png", []); (str "refs/ref1.jpg", [])] ∧
  result_set [ref_rgb; ref1] 10 tree1
  = [(str "refs/a_rgb.png", []);
     (str "refs/ref1.jpg", [(str "/pics/a.jpg", Val (Qc_of_Z 0))])].
Proof. by vm_compute. Qed.

(** The report of one match, read back. *)
Definition state_one_match : ScanState :=
  mkScanState [(str "refs/ref1.jpg", [(str "/pics/a.jpg", Val (Qc_of_Z 0))]);
               (str "refs/ref2.png", [])] ∅ [MsgScanStart; MsgSimilarFound].

Lemma report_read_back_witness :
  ∃ s', report state_one_match = Ret () s' ∧
        result s' = result state_one_match ∧ out_files s' = out_files state_one_match ∧
        @stdout_text plain_formatter (stdout s')
        = @stdout_text plain_formatter (stdout state_one_match)
          ++ @report_text plain_formatter (result state_one_match) ∧
        read_report (@report_text plain_formatter (result state_one_match))
        = Some (@printed plain_formatter (result state_one_match)).
Proof.
  apply (report_read_back (H:=plain_formatter) state_one_match).
  repeat constructor; apply (bool_decide_unpack _); by vm_compute.
Defined.

Example scenario_read_back :
  read_report (@report_text plain_formatter (result state_one_match))
  = Some [(str "refs/ref1.jpg", [(ljust (str "/pics/a.jpg") 80, str "0/1")])].
Proof. by vm_compute. Qed.

(** The reader refuses a report whose reference line has no match line
    after it. *)
Example read_report_incomplete :
  read_report (@stdout_text plain_formatter [MsgFinalReport; MsgForReference (str "r.png")])
  = None.
Proof. by vm_compute. Qed.

Lemma is_image_similar_forged_line_witness :
  entry_exn forged_entry [ref1] 10 [] = Some OSError ∧
  @stdout_text plain_formatter
    (stdout (final_state (is_image_similar forged_entry [ref1] 10 [] (start [ref1]))))
  = @stdout_text plain_formatter
      (stdout (start [ref1])
       ++ ((λ _, MsgSimilarFound) <$> entry_hits forged_entry [ref1] 10 [])
       ++ [MsgCompareError (str "/x"); MsgForReference (str "refs/ref1.jpg")])
    ++ str ".jpg" ++ [newline]
    ++ @stdout_text plain_formatter [MsgErrorDetails OSError; MsgTraceback OSError].
Proof.
  split; [by vm_compute|].
  apply (is_image_similar_forged_line (H:=plain_formatter) forged_entry [ref1] 10 []
           (start [ref1]) OSError (str "/x") (str ".jpg")
           [MsgForReference (str "refs/ref1.jpg")]);
    [apply start_recorded | by vm_compute..].
Defined.

(** The scan of a disk image with such a name: no reference matched
    anything, and the output has the line of a reference of the
    report. *)
Example scenario_forged_line :
  str "For reference Image refs/ref1.jpg: "
  ∈ text_lines (@stdout_text plain_formatter
      (stdout (final_state (traverse_file_entries tree_forged [ref1] 10 [] (start [ref1]))))) ∧
  result (final_state (traverse_file_entries tree_forged [ref1] 10 [] (start [ref1])))
  = [(str "refs/ref1.jpg", [])].
Proof. split; [apply (bool_decide_unpack _)|]; by vm_compute. Qed.
